(* ===== verification/_CoqProject ===== *)
-Q . S2P
Prelude.v
Bytes.v
KvStore.v
KvConc.v
KvClients.v
Syscalls.v
Prototypes.v
Tcpdump.v
TcpBench.v
TcpConnect.v
NcclBench.v
Acpi.v
AcpiView.v
Ramfs.v
RamfsInode.v
RamfsNommu.v
Vdso.v
Fork.v
Clone.v
Vfork.v
Unshare.v
ProcTree.v
Mm.v
MmLife.v
MmContext.v
TaskStruct.v
TaskLife.v
PidFd.v
Threads.v
Sched.v
TaskFlags.v
OomAdj.v
SocketFairness.v
SocketTest.v
Exercises.v
ExerciseTests.v
