(* ===== verification/Prelude.v ===== *)
(** * A verification development of the operating-systems exercises

    The repository extends Linux 5.15 and writes programs around it.  This
    development models the parts that carry its own logic and proves what makes
    them correct.  C code is translated by hand into executable definitions with
    the source's names; code that is not in the repository (the rest of the
    kernel, the firmware, libpcap) is a parameter: a type class with laws that
    state its documented behaviour, or a record of answers over which the
    theorems quantify.

    ** Files

    - [Prelude]: machine integers at their width, the fault values, the
      state-and-fault monad [M] with its postconditions [runs], error codes, the
      tactics [mrun] and [bsplit].
    - [Bytes]: byte lists, little-endian integers, [memcpy], C strings,
      [snprintf].
    - [KvStore]: [kernel/kv_store.c] and the key-value parts of
      [kernel/fork.c].  State: bucket arrays, lock arrays and nodes by address
      ([kmem]), a task's two pointers ([task_kv]).  Operations: [write_kv],
      [read_kv], [init_task_kv_store], [cleanup_task_kv_store] and the step of
      [copy_process].  Shown: any run of calls refines a finite map; stores of
      different processes do not interfere; a thread shares its creator's store;
      the behaviour on negative keys and after a failed allocation.
    - [KvConc]: the same two calls as machines of single memory accesses, run by
      any number of threads in any order.  Shown, for usable keys: in every
      interleaving the calls take effect in one order that agrees with their results,
      a finite map and real time; critical sections exclude each other, and all calls
      return after boundedly many accesses.
    - [KvClients]: the wrappers of [user/kv_syscall/kv.h], the consistency test
      [ch2_1/test1-serial.c] as threads over the atomic store, and the module
      [ch2_1/test3-kernel-module.c].  Shown: every run of the test ends and no key of
      a single thread is reported, while a race of the test's own can accuse a
      correct store; which values user space can read back; the module's reads all
      fail.
    - [Syscalls]: [asm-generic/unistd.h] with its conditional compilation, the
      new rows of [syscall_64.tbl] and the numbers user programs use.  Shown:
      numbers are unique in every configuration, user programs reach the right
      handlers, the two tables agree, the aliases resolve.
    - [Prototypes]: [include/linux/syscalls.h], every prototype with the types of
      its parameters and the conditions around it, and the macros behind
      [SYSCALL_DEFINEx].  Shown: the generic table of [Syscalls] is well typed, with
      one handler of the repository missing; a handler gets its caller's arguments
      whatever the unused bits of the registers are; split 64-bit arguments are put
      together again.
    - [Tcpdump]: [network/tcpdump/custom_tcpdump.c] and [main.c].  Shown: what
      the capture accepted is what is printed; every path releases what it
      acquired.
    - [TcpBench]: the collective operations of [network/nccl/tcp_ip_test.cpp] and the
      communication of its [tcp_test_main].  State: for every rank the calls it has
      left, how far the one under way is and its buffers, and a bounded byte queue
      for each direction of a connection.  Shown: every interleaving and splitting of
      the streams ends, without a deadlock, with the sums at every rank and the
      checks passed.
    - [TcpConnect]: [establish_connections] of the same file as steps of all ranks.
      Shown: two ranks get the sockets [TcpBench] needs; with three a connection can
      be lost and a rank waits for ever; once all ranks have returned from it, the
      benchmark of [TcpBench] ends at all of them.
    - [NcclBench]: [network/nccl/nccl_multi_node.cu].  State: for every process its
      place in the program, its buffers, stream and communicator and what it
      contributed to collective calls.  Shown: every run, with processes ended by
      failed calls at any place, follows the execution in lockstep: no access to
      what is not there, verdicts on the true sums, everything released at the end,
      and no deadlock while no call fails.
    - [Acpi]: [MyAddAcpi.c] (module [AddAcpi]) and [drivers/acpi/mytb_reader.c]
      (module [Reader]).  Shown: the checksum rule, the round trip from the
      firmware application to the sysfs files, balanced references.
    - [AcpiView]: [MyAcpiView.c].  Shown: the listing is complete, a patch
      changes exactly its table.
    - [Ramfs]: the persistence half of [fs/ramfs/inode.c] and [ramfs_fsync].
      State: files by path, the bound directory, its mutex and every resource a
      call may hold ([world]).  Shown: the parser is memory safe and correct,
      binding is atomic and can be read back, flushing is atomic and leaks
      nothing whatever fails; two ways a flush does not end.
    - [RamfsInode]: the other half, inodes, mount options and the superblock.
      Shown: every directory operation keeps the tree's link counts.
    - [RamfsNommu]: [fs/ramfs/file-nommu.c].  State: size, page cache and the
      reference counts of page frames.  Shown: a file truncated from zero can be
      mapped, in one block of cleared pages; a place is found exactly when the
      pages exist and are adjacent; no page leaks.
    - [Vdso]: [arch/x86/entry/vdso/vma.c] with the task area the repository adds
      and its user-space reader [vget_task_struct_info.c].  State: the areas of
      an address space, its lock, the recorded vDSO context and the page table the
      reader goes through.  Shown: mapping is all or nothing for every answer of the
      memory manager; the reader sees the task that faulted the pages in, the caller
      itself if it was first; how far the randomised address and the shifted areas
      stay in range; an undetected error of the placement.
    - [Fork]: [copy_process] of [kernel/fork.c] with the [copy_*] functions and
      every error label.  State: the resources held ([held], one token per
      acquisition), the child under construction and the global counters.
      Shown: the function refines a flat specification given by the ordered list
      of its points of failure; a thread shares what it must; the key-value store
      is lost on a late failure.
    - [Clone]: [kernel_clone], [fork], [vfork], [clone], [clone3] and the
      in-kernel callers, over [Fork].  Shown: which calls of [clone3] are accepted, and
      with what arguments they reach [kernel_clone]; where the interfaces agree and
      where not; a child is woken exactly once.
    - [Vfork]: [wait_for_vfork_done], [complete_vfork_done] and [mm_release], parent
      and child as machines of single accesses.  Shown: the completion in the
      parent's frame is never signalled after the frame is gone, and the parent is
      never left waiting.
    - [Unshare]: [ksys_unshare] and its steps, and [unshare_files].  State: what
      the caller shares, with the reference counts of all objects.  Shown: exactly the
      flags it should accept are accepted, a reference stays or moves to an object of
      the caller's own, a failure undoes everything but the namespaces that the code
      forgets.
    - [ProcTree]: [walk_process_tree].  Shown: the walk without a stack is the
      recursive depth-first walk, and terminates.
    - [Mm]: the life of an [mm_struct]: [mm_init], [dup_mmap], [dup_mm], [mmput],
      the executable file, [mm_access].  State: the structures, and every counter
      they account for ([ctr]); what a structure holds is [mm_hold].  Shown: each
      operation moves the counters by exactly the holdings that appear or go, on
      every path.
    - [MmLife]: the two 32-bit counts of an [mm_struct] and its deferred releases under
      arbitrary interleaving.  Shown: no use after free, one teardown, no leak, as long
      as fewer users and references exist at a time than the counts can hold.
    - [MmContext]: [mm_context_t] and [arch/x86/include/asm/mmu_context.h].  State: the
      contexts of all address spaces, the counter of their numbers and the descriptor
      tables.  Shown: numbers are unique and never zero, tables have one owner, a
      child has its parent's keys and the places of the vDSO and the task area.
    - [TaskStruct]: kernel stacks, their cache and charges, [dup_task_struct],
      [put_task_stack].  Shown: every stack has exactly one holder, for ever.
    - [TaskLife]: what tasks share and count: [signal_struct], [sighand_struct], seccomp
      filters and the address spaces of victims, from [copy_process] through its
      failures and exit to [__put_task_struct].  Shown: the counts are exact in every
      sequence of events, nothing is used after it is freed and nothing is left; a
      child has its creator's seccomp state at the moment it is published.
    - [PidFd]: the identifiers of new tasks, the functions of [sched.h] that give their
      numbers in a namespace, and the operations of pidfds, while tasks are created,
      exit, are detached and freed.  Shown: recorded numbers are those of the initial
      namespace, a parent is always there, threads are seen with the numbers of their
      group, a pidfd shows exactly the numbers its reader may see.
    - [Threads]: [nr_processes], [set_max_threads], [fork_init],
      [sysctl_max_threads].  Shown: the machine arithmetic is exact.
    - [Sched]: the inline functions and state macros of [include/linux/sched.h],
      with the wait loop and the lock loop their comments prescribe, run against
      wake-ups of any kind.  Shown: no wake-up is lost, the wait ends, every task
      has the right state letter, flags given up stay given up.
    - [TaskFlags]: the PF_ flags of a task with the macros that change them, and its
      thread flags.  State: the words of all tasks and the assignments under way.
      Shown: under the rule of [sched.h] loads and stores behave like atomic updates;
      what a new task inherits.
    - [OomAdj]: [copy_oom_score_adj] against writers of scores (class [OomWriter]),
      with forks as sequences of steps.  Shown: processes that share memory agree on
      their score in every interleaving, apart from vfork children and what shares
      memory with them.
    - [SocketFairness]: [kernel/configure_socket_fairness.c].  Shown: the call refines
      one guarded update.
    - [SocketTest]: [network/socket/socket_test.c], its functions as finite trees of
      calls ([prog]) that threads run in any order over the tasks of
      [SocketFairness].  State: tasks, the descriptors and heap blocks of the process,
      the programs the threads have left and what they printed.  Shown, by ownership
      ([wp]), with [socket] failing at any time: every run ends, every descriptor and
      block is given back once, each thread changes only its own limits and reports
      truly; the status files are shown line by line.
    - [Exercises]: [os-2024-exercise/ch3-mm/ch3_1/impl.c] (module [FileMap]) and
      [ch4-fs/ch4_1/impl.h] (module [Xattr], against the class [XattrFS] of what
      the system calls promise).  Shown: exactly the addressed bytes are written;
      attributes are read back, listed and removed.
    - [ExerciseTests]: the test programs [ch3_1/test.c] and [ch4_1/test.c] over the two
      modules of [Exercises].  Shown: their assertions hold and the files compare
      equal for every size.

    The components of [kernel/fork.c] meet in [Fork]: its [copy_mm], [copy_process]
    and labels use the answers of what [Mm] and [TaskStruct] model in full
    ([dup_mm], [mmput], [dup_task_struct]); [KvStore] is its key-value step, and
    [KvConc] what the threads it creates then do.

    ** Bounds and fuel

    Loops over data are structural.  [Ramfs.copy_loop] takes fuel: one more than
    the size of the file is enough because each iteration but the last writes at
    least one byte ([Ramfs.flush_atomic] assumes exactly that of the backing file
    system, and [Ramfs.flush_zero_write_diverges] shows that without it no fuel
    is enough).  [Ramfs.ramfs_file_flush] takes a nesting depth: one is enough
    unless the bound directory is itself on a ramfs
    ([Ramfs.flush_on_ramfs_recurses]).  [Ramfs.read_all] needs one read per byte
    and one more.  [ProcTree.walk_process_tree] takes fuel: the cost of the tree,
    a few steps per task and list end, is enough ([ProcTree.walk_is_dfs]).
    [KvConc.kv_calls_return] bounds the effective steps of a set of calls by the
    lengths of the bucket chains.  The runs of [TcpBench] and [NcclBench] need no
    fuel: they are runs of a relation, and [TcpBench.every_run] and
    [NcclBench.runs_safely] bound their number of steps.  [RamfsNommu.attach] is given
    the number of pages, [Exercises.Xattr.print_names] the length of the buffer.
    [SocketTest.status_loop] takes one more than the length of the text, as each
    iteration reads a character ([SocketTest.read_proc_status_lines]); the programs of
    [SocketTest] are finite trees, so their runs need no bound.

    ** Not modelled

    Of [kernel/fork.c]: the creation of slab caches.
    Scheduling and preemption, except in [KvConc], [KvClients], [MmLife], [Vfork],
    [Sched], [TaskFlags], [OomAdj], [SocketTest], [TcpBench], [TcpConnect] and
    [NcclBench]: elsewhere a system call runs as one
    step, and a lock taken twice by the same path is a fault; memory is
    sequentially consistent. The MMU, page tables except in [Vdso], and the other
    file systems. The inline wrappers of [syscalls.h] and what [Sched],
    [TaskFlags] and [PidFd] leave out of [sched.h] declare or forward and have no
    logic of their own. Broken connections in [TcpBench] (both loops then leave
    the program), the values of its floats and times; what CUDA, NCCL and MPI do
    inside a call, and [nccl.cu], whose threads go on after failed calls of NCCL
    with buffers of unspecified contents. The stress tests that are to be checked
    by hand (ch2_2, ch3_2, ch3_3, ch4_3), build files and the Python FUSE
    exercise. *)

From Stdlib Require Import ZArith Lia.
From stdpp Require Import base list gmap strings.

(** ** Scopes and notations *)

Declare Scope cmodel_scope.
Delimit Scope cmodel_scope with cm.
Open Scope Z_scope.

(** ** Machine integers

    A [w]-bit C integer is a [Z]; the conversions below are the modular
    conversions of C (unsigned) and of every compiler the kernel supports
    (signed, two's complement). *)

Definition uwrap (w z : Z) : Z := z mod 2 ^ w.
Definition swrap (w z : Z) : Z := (z + 2 ^ (w - 1)) mod 2 ^ w - 2 ^ (w - 1).

Abbreviation u8 := (uwrap 8).
Abbreviation u16 := (uwrap 16).
Abbreviation u32 := (uwrap 32).
Abbreviation u64 := (uwrap 64).
Abbreviation s32 := (swrap 32).
Abbreviation s64 := (swrap 64).

Definition is_u (w z : Z) : Prop := 0 <= z < 2 ^ w.
Definition is_s (w z : Z) : Prop := - 2 ^ (w - 1) <= z < 2 ^ (w - 1).
Abbreviation is_byte := (is_u 8).

(** [flags & mask] as a C condition. *)
Definition hasb (flags mask : Z) : bool := negb (Z.land flags mask =? 0).

Lemma uwrap_small w z : is_u w z -> uwrap w z = z.
Proof. unfold is_u, uwrap. intros. by apply Z.mod_small. Qed.

Lemma uwrap_range w z : 0 <= w -> is_u w (uwrap w z).
Proof. intros. apply Z.mod_pos_bound, Z.pow_pos_nonneg; lia. Qed.

Lemma swrap_range w z : 0 < w -> is_s w (swrap w z).
Proof.
  intros Hw. unfold is_s, swrap.
  pose proof (Z.mod_pos_bound (z + 2 ^ (w - 1)) (2 ^ w) ltac:(apply Z.pow_pos_nonneg; lia)).
  replace (2 ^ w) with (2 * 2 ^ (w - 1)) in * by
    (rewrite <- Z.pow_succ_r by lia; f_equal; lia).
  lia.
Qed.

Lemma swrap_small w z : 0 < w -> is_s w z -> swrap w z = z.
Proof.
  unfold is_s, swrap. intros Hw Hz. rewrite Z.mod_small; [lia|].
  replace (2 ^ w) with (2 * 2 ^ (w - 1)) by
    (rewrite <- Z.pow_succ_r by lia; f_equal; lia).
  lia.
Qed.

(** A signed value survives the trip through the unsigned type. *)
Lemma swrap_uwrap w z : 0 < w -> is_s w z -> swrap w (uwrap w z) = z.
Proof.
  intros Hw Hz. rewrite <- (swrap_small w z Hw Hz) at 2. unfold swrap, uwrap.
  by rewrite Zplus_mod_idemp_l.
Qed.

Lemma uwrap_mod_eq w a b : 0 <= w -> uwrap w a = uwrap w b ->
  exists k, a = b + k * 2 ^ w.
Proof.
  unfold uwrap. intros Hw H.
  assert (0 < 2 ^ w) by (apply Z.pow_pos_nonneg; lia).
  exists (a / 2 ^ w - b / 2 ^ w).
  pose proof (Z.div_mod a (2 ^ w)). pose proof (Z.div_mod b (2 ^ w)). nia.
Qed.

Lemma hasb_0_l m : hasb 0 m = false.
Proof. reflexivity. Qed.

Lemma hasb_true f m : hasb f m = true <-> Z.land f m <> 0.
Proof. unfold hasb. destruct (Z.eqb_spec (Z.land f m) 0); naive_solver. Qed.

Lemma hasb_false f m : hasb f m = false <-> Z.land f m = 0.
Proof. unfold hasb. destruct (Z.eqb_spec (Z.land f m) 0); naive_solver. Qed.

Lemma hasb_comm f m : hasb f m = hasb m f.
Proof. unfold hasb. by rewrite Z.land_comm. Qed.

Lemma hasb_lor_r f m1 m2 : hasb f (Z.lor m1 m2) = hasb f m1 || hasb f m2.
Proof.
  apply eq_bool_prop_intro. rewrite orb_True, !Is_true_true, !hasb_true.
  rewrite Z.land_lor_distr_r, Z.lor_eq_0_iff.
  destruct (Z.eq_dec (Z.land f m1) 0); tauto.
Qed.

Lemma hasb_lor_l f1 f2 m : hasb (Z.lor f1 f2) m = hasb f1 m || hasb f2 m.
Proof. by rewrite hasb_comm, hasb_lor_r, !(hasb_comm m). Qed.

(** Masks of one bit. *)
Lemma land_bit f n : 0 <= n -> Z.land f (2 ^ n) = if Z.testbit f n then 2 ^ n else 0.
Proof.
  intros Hn. apply Z.bits_inj'. intros k Hk. rewrite Z.land_spec, Z.pow2_bits_eqb by done.
  destruct (Z.eqb_spec n k) as [->|Hne].
  - destruct (Z.testbit f k); [by rewrite Z.pow2_bits_true|by rewrite Z.bits_0].
  - rewrite andb_false_r. destruct (Z.testbit f n); [by rewrite Z.pow2_bits_false by lia|by rewrite Z.bits_0].
Qed.

Lemma hasb_bit f n : 0 <= n -> hasb f (2 ^ n) = Z.testbit f n.
Proof.
  intros Hn. unfold hasb. rewrite land_bit by done. destruct (Z.testbit f n); [|done].
  assert (0 < 2 ^ n) by (apply Z.pow_pos_nonneg; lia). destruct (Z.eqb_spec (2 ^ n) 0); [lia|done].
Qed.

(** Clearing bits does not change the test of others. *)
Lemma hasb_ldiff f m k : Z.land m k = 0 -> hasb (Z.ldiff f m) k = hasb f k.
Proof.
  intros H. unfold hasb. do 2 f_equal. apply Z.bits_inj. intros n.
  pose proof (f_equal (fun z => Z.testbit z n) H) as Hn. cbn in Hn.
  rewrite Z.bits_0, Z.land_spec in Hn. rewrite !Z.land_spec, Z.ldiff_spec.
  destruct (Z.testbit f n), (Z.testbit m n), (Z.testbit k n); done.
Qed.

(** ** Faults and the state-and-fault monad

    A C function is a state transformer that either returns a value or
    ends in one of the undefined or fatal behaviours of [fault]. *)

Inductive fault :=
  | NullDeref      (** access through a NULL pointer *)
  | OutOfBounds    (** array access outside the object *)
  | Dangling       (** access to memory that is not allocated *)
  | Deadlock       (** a lock taken while it is held by the same path *)
  | BugOn          (** BUG_ON / VM_BUG_ON hit *)
  | OutOfFuel.     (** the model's loop bound was not enough *)

#[global] Instance fault_eq_dec : EqDecision fault.
Proof. solve_decision. Defined.

Inductive res (A : Type) :=
  | Ok (a : A)
  | Fault (f : fault).
Arguments Ok {A} a.
Arguments Fault {A} f.

#[global] Instance res_ret : MRet res := fun A a => Ok a.
#[global] Instance res_bind : MBind res := fun A B k r =>
  match r with Ok a => k a | Fault f => Fault f end.

Definition M (S A : Type) : Type := S -> res (A * S).
#[global] Instance M_ret S : MRet (M S) := fun A a s => Ok (a, s).
#[global] Instance M_bind S : MBind (M S) := fun A B k m s =>
  match m s with Ok (a, s') => k a s' | Fault f => Fault f end.

Definition get {S} : M S S := fun s => Ok (s, s).
Definition put {S} (s : S) : M S unit := fun _ => Ok (tt, s).
Definition modify {S} (f : S -> S) : M S unit := fun s => Ok (tt, f s).
Definition abort {S A} (f : fault) : M S A := fun _ => Fault f.
Definition lift {S A} (r : res A) : M S A := fun s =>
  match r with Ok a => Ok (a, s) | Fault f => Fault f end.

Definition res_of_opt {A} (f : fault) (o : option A) : res A :=
  match o with Some a => Ok a | None => Fault f end.

Lemma bind_ok {S A B} (m : M S A) (k : A -> M S B) (s s' : S) (a : A) :
  m s = Ok (a, s') -> (m ≫= k) s = k a s'.
Proof. intros H. unfold mbind, M_bind. by rewrite H. Qed.

(** [runs m s Q]: from [s] the computation returns, and [Q] holds of its result
    and final state. *)
Definition runs {S A} (m : M S A) (s : S) (Q : A -> S -> Prop) : Prop :=
  exists a s', m s = Ok (a, s') /\ Q a s'.

Lemma runs_bind {S A B} (m : M S A) (k : A -> M S B) s Q :
  runs m s (fun a s' => runs (k a) s' Q) -> runs (m ≫= k) s Q.
Proof. intros (a & s' & Hm & b & s2 & Hk & HQ). exists b, s2. by rewrite (bind_ok _ _ _ _ _ Hm). Qed.

Lemma runs_assoc {S A B C} (m : M S A) (k : A -> M S B) (k2 : B -> M S C) s Q :
  runs ((m ≫= k) ≫= k2) s Q -> runs (m ≫= fun a => k a ≫= k2) s Q.
Proof. unfold runs, mbind, M_bind. by destruct (m s) as [[a s1]|]. Qed.

Lemma runs_mono {S A} (m : M S A) s (Q Q' : A -> S -> Prop) :
  runs m s Q -> (forall a s', Q a s' -> Q' a s') -> runs m s Q'.
Proof. intros (a & s' & Hm & HQ) H. exists a, s'. auto. Qed.

Lemma runs_ret {S A} (a : A) (s : S) (Q : A -> S -> Prop) : Q a s -> runs (mret a) s Q.
Proof. intros H. by exists a, s. Qed.

Definition is_ok {A} (r : res A) : bool := match r with Ok _ => true | Fault _ => false end.

(** ** Pointers *)

Abbreviation ptr := Z (only parsing).
Definition NULL : ptr := 0.

(** Error pointers and error returns: the top 4095 values of an unsigned
    long encode [-errno]. *)
Definition MAX_ERRNO : Z := 4095.
Definition IS_ERR_VALUE (x : Z) : bool := (2 ^ 64 - MAX_ERRNO <=? u64 x).

Module Errno.
Definition EPERM := 1.
Definition ENOENT := 2.
Definition ESRCH := 3.
Definition EINTR := 4.
Definition E2BIG := 7.
Definition EBADF := 9.
Definition EAGAIN := 11.
Definition ENOMEM := 12.
Definition EACCES := 13.
Definition EFAULT := 14.
Definition EBUSY := 16.
Definition EEXIST := 17.
Definition ENODEV := 19.
Definition ENOTDIR := 20.
Definition EINVAL := 22.
Definition EFBIG := 27.
Definition ENOSPC := 28.
Definition ENAMETOOLONG := 36.
Definition ENOSYS := 38.
Definition ERESTARTNOINTR := 513.
Definition ENOPARAM := 519.
End Errno.

(** ** Sums over lists *)

Lemma sum_insert {A} (f : A -> nat) l i x y :
  l !! i = Some x -> (sum_list_with f (<[i := y]> l) + f x = sum_list_with f l + f y)%nat.
Proof.
  intros H. rewrite insert_take_drop by (by eapply lookup_lt_Some).
  rewrite <- (take_drop_middle l i x H) at 3. rewrite !sum_list_with_app. cbn. lia.
Qed.

(** ** Finite maps *)

(** The largest key of a map (0 when it is empty). *)
Definition max_key {A} (g : gmap Z A) : Z := map_fold (fun k _ acc => Z.max k acc) 0 g.

Lemma max_key_lookup {A} (g : gmap Z A) k x : g !! k = Some x -> k <= max_key g.
Proof.
  unfold max_key. revert k x.
  apply (map_fold_weak_ind (fun r g => forall k x, g !! k = Some x -> k <= r)).
  - intros k x. by rewrite lookup_empty.
  - intros i y g' r _ IH k x. rewrite lookup_insert. case_decide; [lia|].
    intros Hk. specialize (IH _ _ Hk). lia.
Qed.

(** ** Linked lists *)

(** The successor of a node in a list of nodes. *)
Fixpoint next_of (ps : list Z) (p : Z) : option Z :=
  match ps with
  | [] => None
  | x :: ps' => if x =? p then head ps' else next_of ps' p
  end.

Lemma next_of_mid pre p rest : NoDup (pre ++ p :: rest) -> next_of (pre ++ p :: rest) p = head rest.
Proof.
  induction pre as [|q pre IH]; cbn; intros Hn.
  - by rewrite Z.eqb_refl.
  - apply NoDup_cons in Hn as [Hq Hn]. destruct (Z.eqb_spec q p) as [->|]; [|auto].
    exfalso. apply Hq. set_solver.
Qed.

(** ** Automation *)

Create HintDb cmodel.

(** Run one monadic computation forward. *)
Ltac mrun := unfold mbind, mret, M_bind, M_ret, res_bind, res_ret,
  get, put, modify, abort, lift, res_of_opt in *; cbn in *.

(** Split every boolean test in sight into its arithmetic content. *)
Ltac bsplit := repeat match goal with
  | |- context [?a =? ?b] => destruct (Z.eqb_spec a b)
  | |- context [?a <? ?b] => destruct (Z.ltb_spec a b)
  | |- context [?a <=? ?b] => destruct (Z.leb_spec a b)
  | H : context [?a =? ?b] |- _ => destruct (Z.eqb_spec a b)
  | H : context [?a <? ?b] |- _ => destruct (Z.ltb_spec a b)
  | H : context [?a <=? ?b] |- _ => destruct (Z.leb_spec a b)
  end.
