(* ===== verification/Bytes.v ===== *)
(** * Bytes: memory as byte lists

    Byte lists, little-endian integers, [memcpy] into a buffer, C strings and
    [snprintf] of already formatted text: what the components use of C's object
    representation and of [string.h]. *)

From Stdlib Require Import ZArith Lia Ascii String.
From stdpp Require Import base list.
From S2P Require Import Prelude.

#[global] Arguments Z.pow : simpl never.

(** ** Little-endian integers *)

Fixpoint le_bytes (n : nat) (z : Z) : list Z :=
  match n with
  | O => []
  | S n' => z mod 256 :: le_bytes n' (z / 256)
  end.

Fixpoint le_val (bs : list Z) : Z :=
  match bs with
  | [] => 0
  | b :: bs' => b + 256 * le_val bs'
  end.

Lemma length_le_bytes n z : List.length (le_bytes n z) = n.
Proof. revert z. induction n; cbn; auto. Qed.

Lemma le_bytes_range n z : Forall is_byte (le_bytes n z).
Proof.
  revert z. induction n; cbn; constructor; [|done].
  apply Z.mod_pos_bound. lia.
Qed.

Lemma le_val_bytes n z : is_u (8 * Z.of_nat n) z -> le_val (le_bytes n z) = z.
Proof.
  revert z. induction n as [|n IH]; intros z Hz; cbn.
  - unfold is_u in Hz. rewrite Z.mul_0_r in Hz. change (2 ^ 0) with 1 in Hz. lia.
  - pose proof (Z.div_mod z 256). rewrite IH; [lia|]. unfold is_u in *.
    replace (8 * Z.of_nat (S n)) with (8 + 8 * Z.of_nat n) in Hz by lia.
    rewrite Z.pow_add_r in Hz by lia. change (2 ^ 8) with 256 in Hz.
    split; [apply Z.div_pos; lia|apply Z.div_lt_upper_bound; lia].
Qed.

Lemma le_val_range bs : Forall is_byte bs -> is_u (8 * Z.of_nat (List.length bs)) (le_val bs).
Proof.
  unfold is_u. induction 1 as [|b bs Hb _ IH]; cbn; [change (2 ^ _) with 1; lia|].
  replace (8 * Z.of_nat (S (List.length bs))) with (8 + 8 * Z.of_nat (List.length bs)) by lia.
  rewrite Z.pow_add_r by lia. change (2 ^ 8) with 256 in *. lia.
Qed.

(** A decision procedure for concrete byte lists. *)
Definition bytesb (bs : list Z) : bool := forallb (fun b => (0 <=? b) && (b <? 256)) bs.

Lemma bytesb_ok bs : bytesb bs = true -> Forall is_byte bs.
Proof.
  unfold bytesb. rewrite forallb_forall, List.Forall_forall. intros H x Hx.
  specialize (H x Hx). apply andb_true_iff in H as [H1 H2].
  unfold is_u. change (2 ^ 8) with 256. lia.
Qed.

(** ** Overwriting part of a buffer *)

(** [memcpy (buf + off, src, n)]; [None] when the target is not inside the
    buffer. *)
Definition memcpy (buf : list Z) (off : Z) (src : list Z) : option (list Z) :=
  if (0 <=? off) && (off + Z.of_nat (List.length src) <=? Z.of_nat (List.length buf)) then
    Some (take (Z.to_nat off) buf ++ src ++ drop (Z.to_nat off + List.length src) buf)
  else None.

(** [n] bytes read at offset [off]. *)
Definition slice (buf : list Z) (off n : Z) : list Z := take (Z.to_nat n) (drop (Z.to_nat off) buf).

Lemma memcpy_length buf off src buf' :
  memcpy buf off src = Some buf' -> List.length buf' = List.length buf.
Proof.
  unfold memcpy. intros H. bsplit; cbn in H; simplify_eq.
  rewrite !length_app, length_take, length_drop. lia.
Qed.

Lemma memcpy_some buf off src :
  0 <= off -> off + Z.of_nat (List.length src) <= Z.of_nat (List.length buf) ->
  memcpy buf off src =
    Some (take (Z.to_nat off) buf ++ src ++ drop (Z.to_nat off + List.length src) buf).
Proof. intros. unfold memcpy. bsplit; [done|lia..]. Qed.

Lemma memcpy_slice_new buf off src buf' :
  memcpy buf off src = Some buf' -> slice buf' off (Z.of_nat (List.length src)) = src.
Proof.
  unfold memcpy, slice. intros H. bsplit; cbn in H; simplify_eq.
  rewrite drop_app_length' by (rewrite length_take; lia).
  by rewrite take_app_length' by lia.
Qed.

Lemma memcpy_take buf off src buf' n :
  memcpy buf off src = Some buf' -> (n <= Z.to_nat off)%nat -> take n buf' = take n buf.
Proof.
  unfold memcpy. intros H Hn. bsplit; cbn in H; simplify_eq.
  rewrite take_app_le by (rewrite length_take; lia).
  by rewrite take_take, Nat.min_l.
Qed.

(** ** C strings *)

(** The bytes of a literal, without the terminator. *)
Fixpoint bytes_of (s : string) : list Z :=
  match s with
  | EmptyString => []
  | String a s' => Z.of_nat (nat_of_ascii a) :: bytes_of s'
  end.

(** The bytes before the first NUL. *)
Fixpoint cstr (bs : list Z) : list Z :=
  match bs with
  | [] => []
  | b :: bs' => if b =? 0 then [] else b :: cstr bs'
  end.

Definition terminated (bs : list Z) : bool := existsb (Z.eqb 0) bs.

(** [snprintf (dst, size, "%s", text)]: what the destination then holds as a
    string, and the value returned. *)
Definition snprintf (size : Z) (text : list Z) : list Z * Z :=
  (take (Z.to_nat (size - 1)) text, Z.of_nat (List.length text)).

Definition nonul (bs : list Z) : Prop := Forall (fun b => b <> 0) bs.

Lemma cstr_app_nul bs rest : nonul bs -> cstr (bs ++ 0 :: rest) = bs.
Proof. induction 1; cbn; [done|]. bsplit; [done|]. by f_equal. Qed.

Lemma cstr_nonul bs : nonul (cstr bs).
Proof. induction bs as [|b bs IH]; cbn; [constructor|]. bsplit; constructor; done. Qed.

Lemma cstr_length bs : (List.length (cstr bs) <= List.length bs)%nat.
Proof. induction bs; cbn; bsplit; cbn; lia. Qed.

Lemma cstr_id bs : nonul bs -> cstr bs = bs.
Proof. induction 1; cbn; [done|]. bsplit; [done|]. by f_equal. Qed.

Lemma snprintf_fits size text :
  Z.of_nat (List.length text) < size -> snprintf size text = (text, Z.of_nat (List.length text)).
Proof. intros. unfold snprintf. by rewrite take_ge by lia. Qed.
