(* ===== verification/KvStore.v ===== *)
(** * KvStore: the per-task key-value store

    Models [kernel/kv_store.c] (system calls 449 and 450) and the parts of
    [kernel/fork.c] that create, share and free a task's store.  The kernel's
    intrusive hash lists and its allocator are not part of this repository;
    they are the interfaces [HlistApi] and [KmallocApi], whose laws state what
    their documentation promises.  The client theorems hold for every
    implementation of the two interfaces; [HlistList] and [bump] are concrete
    ones used by the witnesses. *)

From Stdlib Require Import ZArith Lia.
From stdpp Require Import base list gmap.
From S2P Require Import Prelude.

#[local] Arguments replicate : simpl never.

(** ** Interfaces to the rest of the kernel *)

(** An hlist head together with the nodes [hlist_for_each_entry] visits. *)
Class HlistApi := {
  hlist_head : Type;
  INIT_HLIST_HEAD : hlist_head;
  hlist_add_head : ptr -> hlist_head -> hlist_head;
  hlist_entries : hlist_head -> list ptr;
  hlist_entries_init : hlist_entries INIT_HLIST_HEAD = [];
  hlist_entries_add n h : hlist_entries (hlist_add_head n h) = n :: hlist_entries h
}.

(** [struct kv_node]; its [hlist_node] member is the hlist's own link. *)
Record kv_node := KvNode { key : Z; value : Z }.

(** The two fields [kernel/fork.c] and [kernel/kv_store.c] use of a
    [task_struct]: pointers to the array of buckets and to the array of locks. *)
Record task_kv := TaskKv { kv_store : ptr; kv_locks : ptr }.

(** The kernel memory the store lives in: bucket arrays, lock arrays and
    nodes, each by address, and how many allocations were attempted. *)
Record kmem `{HlistApi} := Kmem {
  heads : gmap ptr (list hlist_head);
  locks : gmap ptr (list bool);
  nodes : gmap ptr kv_node;
  attempts : nat
}.

(** [kmalloc]: NULL, or the address of an object that is not in use. *)
Class KmallocApi `{HlistApi} := {
  kmalloc : kmem -> Z -> ptr;
  sizeof_spinlock_t : Z;
  kmalloc_fresh m sz : kmalloc m sz <> NULL ->
    heads m !! kmalloc m sz = None /\ locks m !! kmalloc m sz = None /\
    nodes m !! kmalloc m sz = None
}.

Section KvStore.
Context `{HA : HlistApi} `{KA : !KmallocApi}.

(** ** Memory operations *)

Definition set_heads (m : kmem) x := Kmem _ x (locks m) (nodes m) (attempts m).
Definition set_locks (m : kmem) x := Kmem _ (heads m) x (nodes m) (attempts m).
Definition set_nodes (m : kmem) x := Kmem _ (heads m) (locks m) x (attempts m).
Definition tick (m : kmem) := Kmem _ (heads m) (locks m) (nodes m) (S (attempts m)).

Definition do_kmalloc (sz : Z) : M kmem ptr :=
  m ← get; _ ← put (tick m); mret (kmalloc m sz).

(** [arr[i]] for an array found at address [arr]. *)
Definition index {A} (arrs : gmap ptr (list A)) (arr : ptr) (i : Z) : res A :=
  if arr =? NULL then Fault NullDeref else
  match arrs !! arr with
  | None => Fault Dangling
  | Some l => if i <? 0 then Fault OutOfBounds
              else res_of_opt OutOfBounds (l !! Z.to_nat i)
  end.

Definition store_index {A} (arrs : gmap ptr (list A)) (arr : ptr) (i : Z) (x : A) :=
  alter (fun l : list A => <[Z.to_nat i := x]> l) arr arrs.

Definition spin_lock (arr : ptr) (i : Z) : M kmem unit :=
  m ← get;
  held ← lift (index (locks m) arr i);
  if (held : bool) then abort Deadlock
  else put (set_locks m (store_index (locks m) arr i true)).

Definition spin_unlock (arr : ptr) (i : Z) : M kmem unit :=
  m ← get;
  _ ← lift (index (locks m) arr i);
  put (set_locks m (store_index (locks m) arr i false)).

Definition load_node (p : ptr) : M kmem kv_node :=
  m ← get; lift (res_of_opt Dangling (nodes m !! p)).

Definition store_node (p : ptr) (n : kv_node) : M kmem unit :=
  modify (fun m => set_nodes m (<[p := n]> (nodes m))).

(** ** kernel/kv_store.c *)

(** The search loop of [write_kv]: overwrite the value of the first node with
    the key; the result is [found]. *)
Fixpoint write_kv_loop (ps : list ptr) (k v : Z) : M kmem bool :=
  match ps with
  | [] => mret false
  | p :: ps' =>
      n ← load_node p;
      if key n =? k then _ ← store_node p (KvNode (key n) v); mret true
      else write_kv_loop ps' k v
  end.

Definition write_kv (task : task_kv) (k v : Z) : M kmem Z :=
  let bucket := Z.rem k 1024 in
  _ ← spin_lock (kv_locks task) bucket;
  m ← get;
  head ← lift (index (heads m) (kv_store task) bucket);
  found ← write_kv_loop (hlist_entries head) k v;
  if (found : bool) then
    _ ← spin_unlock (kv_locks task) bucket;
    mret 0
  else
    node ← do_kmalloc 24;
    if node =? NULL then
      _ ← spin_unlock (kv_locks task) bucket;
      mret (-1)
    else
      _ ← store_node node (KvNode k v);
      _ ← modify (fun m => set_heads m
            (store_index (heads m) (kv_store task) bucket (hlist_add_head node head)));
      _ ← spin_unlock (kv_locks task) bucket;
      mret 0.

(** The search loop of [read_kv]: the node with the key, if any. *)
Fixpoint read_kv_loop (ps : list ptr) (k : Z) : M kmem (option ptr) :=
  match ps with
  | [] => mret None
  | p :: ps' =>
      n ← load_node p;
      if key n =? k then mret (Some p) else read_kv_loop ps' k
  end.

Definition read_kv (task : task_kv) (k : Z) : M kmem Z :=
  let bucket := Z.rem k 1024 in
  _ ← spin_lock (kv_locks task) bucket;
  m ← get;
  head ← lift (index (heads m) (kv_store task) bucket);
  r ← read_kv_loop (hlist_entries head) k;
  _ ← spin_unlock (kv_locks task) bucket;
  match r with
  | Some p => n ← load_node p; mret (value n)     (* read after the lock is released *)
  | None => mret (-1)
  end.

(** ** kernel/fork.c: creating, sharing and freeing a store *)

Definition init_task_kv_store (task : task_kv) : M kmem (Z * task_kv) :=
  hs ← do_kmalloc (1024 * 8);
  if hs =? NULL then mret (- Errno.ENOMEM, TaskKv NULL (kv_locks task))
  else
    _ ← modify (fun m => set_heads m (<[hs := replicate 1024 INIT_HLIST_HEAD]> (heads m)));
    ls ← do_kmalloc (1024 * sizeof_spinlock_t);
    if ls =? NULL then
      _ ← modify (fun m => set_heads m (delete hs (heads m)));
      mret (- Errno.ENOMEM, TaskKv hs NULL)
    else
      _ ← modify (fun m => set_locks m (<[ls := replicate 1024 false]> (locks m)));
      mret (0, TaskKv hs ls).

Definition cleanup_task_kv_store (task : task_kv) : M kmem task_kv :=
  _ ← (if kv_store task =? NULL then mret tt
       else modify (fun m => set_heads m (delete (kv_store task) (heads m))));
  _ ← (if kv_locks task =? NULL then mret tt
       else modify (fun m => set_locks m (delete (kv_locks task) (locks m))));
  mret (TaskKv NULL NULL).

Definition CLONE_THREAD : Z := 0x00010000.

(** The store of the child [copy_process] builds; the child starts as a copy
    of the parent, so its fields are the parent's until they are set. *)
Definition copy_process_kv (clone_flags : Z) (current : task_kv) : M kmem task_kv :=
  if hasb clone_flags CLONE_THREAD then
    mret (TaskKv (kv_store current) (kv_locks current))
  else
    r ← init_task_kv_store current;
    mret (snd r).

(** ** The store as an abstract map *)

(** The first node of a chain with the key. *)
Fixpoint find_ptr (ns : gmap ptr kv_node) (ps : list ptr) (k : Z) : option ptr :=
  match ps with
  | [] => None
  | p :: ps' =>
      match ns !! p with
      | Some n => if key n =? k then Some p else find_ptr ns ps' k
      | None => None
      end
  end.

Definition chain_get (ns : gmap ptr kv_node) (ps : list ptr) (k : Z) : option Z :=
  p ← find_ptr ns ps k; n ← ns !! p; Some (value n).

Definition bucket_entries (m : kmem) (t : task_kv) (i : Z) : option (list ptr) :=
  hs ← heads m !! kv_store t; h ← hs !! Z.to_nat i; Some (hlist_entries h).

(** What [t]'s store holds under key [k]. *)
Definition kv_get (m : kmem) (t : task_kv) (k : Z) : option Z :=
  ps ← bucket_entries m t (Z.rem k 1024); chain_get (nodes m) ps k.

(** The keys the code can index with: the remainder is a bucket. *)
Definition kv_valid (k : Z) : Prop := 0 <= Z.rem k 1024.

#[global] Instance kv_valid_dec k : Decision (kv_valid k) := Z_le_dec 0 (Z.rem k 1024).

(** A bucket's chain: every node is allocated, belongs to the bucket, and no
    key occurs twice. *)
Inductive chain_ok (ns : gmap ptr kv_node) (i : Z) : list ptr -> Prop :=
  | chain_nil : chain_ok ns i []
  | chain_cons p n ps :
      ns !! p = Some n -> Z.rem (key n) 1024 = i ->
      find_ptr ns ps (key n) = None ->
      chain_ok ns i ps -> chain_ok ns i (p :: ps).

Record kv_wf (m : kmem) (t : task_kv) : Prop := {
  wf_store_nn : kv_store t <> NULL;
  wf_locks_nn : kv_locks t <> NULL;
  wf_store : exists hs, heads m !! kv_store t = Some hs /\ length hs = 1024%nat;
  wf_locks : locks m !! kv_locks t = Some (replicate 1024 false);
  wf_chains i ps : bucket_entries m t i = Some ps -> 0 <= i -> chain_ok (nodes m) i ps
}.

(** ** Chains *)

Lemma find_ptr_Some ns ps k p :
  find_ptr ns ps k = Some p -> p ∈ ps /\ exists n, ns !! p = Some n /\ key n = k.
Proof.
  induction ps as [|q ps IH]; cbn; [done|].
  destruct (ns !! q) as [n|] eqn:E; [|done]. bsplit.
  - intros [= ->]. split; [left|eauto].
  - intros H. destruct (IH H) as [? ?]. split; [by right|done].
Qed.

Lemma find_ptr_update ns ps k p n v :
  ns !! p = Some n ->
  find_ptr (<[p := KvNode (key n) v]> ns) ps k = find_ptr ns ps k.
Proof.
  intros Hp. induction ps as [|q ps IH]; cbn; [done|].
  destruct (decide (p = q)) as [->|Hne].
  - rewrite lookup_insert_eq, Hp; cbn. by rewrite IH.
  - rewrite lookup_insert_ne by done. by rewrite IH.
Qed.

Lemma chain_ok_dom ns i ps p : chain_ok ns i ps -> p ∈ ps -> is_Some (ns !! p).
Proof. induction 1; set_solver. Qed.

Lemma find_ptr_fresh ns i ps k p x :
  chain_ok ns i ps -> ns !! p = None ->
  find_ptr (<[p := x]> ns) ps k = find_ptr ns ps k.
Proof.
  induction 1 as [|q n ps Hq _ _ Hch IH]; intros Hp; cbn; [done|].
  rewrite lookup_insert_ne by naive_solver. rewrite Hq.
  by rewrite IH.
Qed.

Lemma chain_ok_update ns i ps p n v :
  ns !! p = Some n -> chain_ok ns i ps ->
  chain_ok (<[p := KvNode (key n) v]> ns) i ps.
Proof.
  intros Hp. induction 1 as [|q n' ps Hq Hr Hf Hch IH]; [constructor|].
  destruct (decide (p = q)) as [<-|Hne].
  - econstructor; [apply lookup_insert_eq|..]; simplify_eq; cbn;
      rewrite ?find_ptr_update; done.
  - econstructor; [by rewrite lookup_insert_ne|..]; rewrite ?find_ptr_update; done.
Qed.

Lemma chain_ok_fresh ns i ps p x :
  ns !! p = None -> chain_ok ns i ps -> chain_ok (<[p := x]> ns) i ps.
Proof.
  intros Hp. induction 1 as [|q n' ps Hq Hr Hf Hch IH]; [constructor|].
  econstructor; [rewrite lookup_insert_ne by naive_solver; eassumption|..];
    erewrite ?find_ptr_fresh by eassumption; done.
Qed.

(** A key whose remainder is another bucket's is not in the chain. *)
Lemma find_ptr_other_bucket ns i ps k :
  chain_ok ns i ps -> Z.rem k 1024 <> i -> find_ptr ns ps k = None.
Proof.
  intros Hch Hne. destruct (find_ptr ns ps k) as [p|] eqn:E; [exfalso|done].
  apply find_ptr_Some in E as [Hin (n & Hn & <-)].
  induction Hch; set_solver.
Qed.

(** ** The loops *)

Lemma write_kv_loop_spec m i ps k v :
  chain_ok (nodes m) i ps ->
  write_kv_loop ps k v m =
    Ok (match find_ptr (nodes m) ps k with
        | Some p => (true, set_nodes m (<[p := KvNode k v]> (nodes m)))
        | None => (false, m)
        end).
Proof.
  induction 1 as [|p n ps Hp Hr Hf Hch IH]; [done|].
  cbn. unfold load_node, store_node. mrun. rewrite Hp; cbn. bsplit; subst; [done|]. apply IH.
Qed.

Lemma read_kv_loop_spec m i ps k :
  chain_ok (nodes m) i ps ->
  read_kv_loop ps k m = Ok (find_ptr (nodes m) ps k, m).
Proof.
  induction 1 as [|p n ps Hp Hr Hf Hch IH]; [done|].
  cbn. unfold load_node. mrun. rewrite Hp; cbn. bsplit; subst; cbn; [done|]. apply IH.
Qed.

(** ** Locking *)

Lemma rem_1024_bound k : kv_valid k -> 0 <= Z.rem k 1024 < 1024.
Proof. unfold kv_valid. pose proof (Z.rem_bound_abs k 1024). lia. Qed.

Lemma lookup_replicate_rem k {A} (x : A) :
  kv_valid k -> replicate 1024 x !! Z.to_nat (Z.rem k 1024) = Some x.
Proof. intros Hk%rem_1024_bound. apply lookup_replicate_2. lia. Qed.

Lemma index_ok {A} (arrs : gmap ptr (list A)) arr i l x :
  arr <> NULL -> 0 <= i -> arrs !! arr = Some l -> l !! Z.to_nat i = Some x ->
  index arrs arr i = Ok x.
Proof. intros. unfold index. bsplit; try lia. by simplify_map_eq. Qed.

Lemma spin_lock_ok m t k :
  kv_wf m t -> kv_valid k ->
  spin_lock (kv_locks t) (Z.rem k 1024) m =
    Ok (tt, set_locks m (store_index (locks m) (kv_locks t) (Z.rem k 1024) true)).
Proof.
  intros Hwf Hk. mrun. unfold spin_lock; mrun.
  erewrite index_ok; [|apply Hwf|apply Hk|apply Hwf|by apply lookup_replicate_rem].
  done.
Qed.

(** Releasing the lock gives back the lock arrays as they were. *)
Lemma spin_unlock_ok m0 m t k :
  kv_wf m0 t -> kv_valid k ->
  locks m = store_index (locks m0) (kv_locks t) (Z.rem k 1024) true ->
  spin_unlock (kv_locks t) (Z.rem k 1024) m = Ok (tt, set_locks m (locks m0)).
Proof.
  intros Hwf Hk Hl. pose proof (rem_1024_bound k Hk).
  unfold spin_unlock; mrun. rewrite Hl. unfold store_index.
  erewrite index_ok; [..|rewrite lookup_alter_eq, wf_locks by done; reflexivity|];
    [|apply Hwf|lia|apply list_lookup_insert_eq; rewrite length_replicate; lia].
  do 3 f_equal. apply map_eq. intros a.
  destruct (decide (a = kv_locks t)) as [->|].
  - rewrite !lookup_alter_eq, wf_locks by done; cbn. f_equal.
    rewrite list_insert_insert_eq. apply list_insert_id.
    by apply lookup_replicate_rem.
  - by rewrite !lookup_alter_ne.
Qed.

Lemma wf_bucket m t k :
  kv_wf m t -> kv_valid k ->
  exists hs h, heads m !! kv_store t = Some hs /\ length hs = 1024%nat /\
    hs !! Z.to_nat (Z.rem k 1024) = Some h /\
    bucket_entries m t (Z.rem k 1024) = Some (hlist_entries h) /\
    chain_ok (nodes m) (Z.rem k 1024) (hlist_entries h).
Proof.
  intros Hwf Hk. destruct (wf_store m t Hwf) as (hs & Hhs & Hlen).
  pose proof (rem_1024_bound k Hk).
  destruct (lookup_lt_is_Some_2 hs (Z.to_nat (Z.rem k 1024))) as [h Hh]; [lia|].
  assert (bucket_entries m t (Z.rem k 1024) = Some (hlist_entries h)) as Hb.
  { unfold bucket_entries. rewrite Hhs; cbn. by rewrite Hh. }
  exists hs, h. split_and!; try done. by eapply wf_chains.
Qed.

(** The three outcomes of [write_kv] on a well-formed store. *)
Inductive write_outcome (m : kmem) (t : task_kv) (k v : Z) : Z -> kmem -> Prop :=
  | write_found ps p :
      bucket_entries m t (Z.rem k 1024) = Some ps -> find_ptr (nodes m) ps k = Some p ->
      write_outcome m t k v 0 (set_nodes m (<[p := KvNode k v]> (nodes m)))
  | write_nomem ps :
      bucket_entries m t (Z.rem k 1024) = Some ps -> find_ptr (nodes m) ps k = None ->
      write_outcome m t k v (-1) (tick m)
  | write_new hs h a :
      heads m !! kv_store t = Some hs -> hs !! Z.to_nat (Z.rem k 1024) = Some h ->
      find_ptr (nodes m) (hlist_entries h) k = None ->
      a <> NULL -> nodes m !! a = None ->
      write_outcome m t k v 0
        (tick (set_nodes (set_heads m
           (store_index (heads m) (kv_store t) (Z.rem k 1024) (hlist_add_head a h)))
           (<[a := KvNode k v]> (nodes m)))).

Lemma write_kv_exec m t k v :
  kv_wf m t -> kv_valid k ->
  exists r m', write_kv t k v m = Ok (r, m') /\ write_outcome m t k v r m'.
Proof.
  intros Hwf Hk. destruct (wf_bucket m t k Hwf Hk) as (hs & h & Hhs & Hlen & Hh & Hb & Hch).
  unfold write_kv. mrun. rewrite spin_lock_ok by done. cbn.
  erewrite index_ok; [|apply Hwf|apply Hk|done|done]. cbn.
  rewrite (write_kv_loop_spec _ (Z.rem k 1024)) by done. cbn.
  destruct (find_ptr (nodes m) (hlist_entries h) k) as [p|] eqn:Ef.
  - erewrite spin_unlock_ok by done. cbn.
    eexists _, _. split; [reflexivity|]. by eapply (write_found m t k v).
  - unfold do_kmalloc. mrun. set (m1 := set_locks m _).
    pose proof (kmalloc_fresh m1 24) as Hfresh.
    destruct (Z.eqb_spec (kmalloc m1 24) NULL).
    + erewrite spin_unlock_ok by done. cbn.
      eexists _, _. split; [reflexivity|]. by eapply (write_nomem m t k v).
    + destruct Hfresh as (_ & _ & Hn); [done|]. unfold store_node; mrun.
      erewrite spin_unlock_ok by done. cbn.
      eexists _, _. split; [reflexivity|]. by eapply (write_new m t k v hs h).
Qed.

Lemma read_kv_exec m t k :
  kv_wf m t -> kv_valid k -> read_kv t k m = Ok (default (-1) (kv_get m t k), m).
Proof.
  intros Hwf Hk. destruct (wf_bucket m t k Hwf Hk) as (hs & h & Hhs & Hlen & Hh & Hb & Hch).
  unfold read_kv, kv_get. rewrite Hb. mrun. rewrite spin_lock_ok by done. cbn.
  erewrite index_ok; [|apply Hwf|apply Hk|done|done]. cbn.
  rewrite (read_kv_loop_spec _ (Z.rem k 1024)) by done. cbn.
  erewrite spin_unlock_ok by done. cbn. unfold chain_get.
  destruct (find_ptr (nodes m) (hlist_entries h) k) as [p|] eqn:Ef; cbn; [|by destruct m].
  apply find_ptr_Some in Ef as [_ (n & Hn & _)]. unfold load_node. mrun. rewrite Hn. by destruct m.
Qed.

(** ** What a write does to the store *)

Lemma chain_get_found ns ps p k v k' n :
  ns !! p = Some n -> key n = k ->
  chain_get (<[p := KvNode k v]> ns) ps k' =
    if decide (find_ptr ns ps k' = Some p) then Some v else chain_get ns ps k'.
Proof.
  intros Hp <-. unfold chain_get. rewrite find_ptr_update by done.
  destruct (find_ptr ns ps k') as [q|]; cbn; [|by case_decide].
  case_decide as E; simplify_eq; [by rewrite lookup_insert_eq|].
  rewrite lookup_insert_ne by naive_solver. done.
Qed.

Lemma chain_get_fresh ns i ps p x k :
  chain_ok ns i ps -> ns !! p = None -> chain_get (<[p := x]> ns) ps k = chain_get ns ps k.
Proof.
  intros Hch Hp. unfold chain_get. erewrite find_ptr_fresh by eassumption.
  destruct (find_ptr ns ps k) as [q|] eqn:E; cbn; [|done].
  apply find_ptr_Some in E as [_ (n & Hn & _)].
  by rewrite lookup_insert_ne by naive_solver.
Qed.

Lemma bucket_entries_store m t t' b h a i hs :
  heads m !! kv_store t = Some hs -> hs !! Z.to_nat b = Some h -> 0 <= b -> 0 <= i ->
  bucket_entries (set_heads m (store_index (heads m) (kv_store t) b (hlist_add_head a h))) t' i
  = if decide (kv_store t' = kv_store t /\ i = b) then Some (a :: hlist_entries h)
    else bucket_entries m t' i.
Proof.
  intros Hhs Hh Hb Hi. unfold bucket_entries, store_index; cbn.
  destruct (decide (kv_store t' = kv_store t)) as [->|Hne].
  - rewrite lookup_alter_eq, Hhs; cbn. case_decide as D.
    + destruct D as [_ ->].
      rewrite list_lookup_insert_eq by (by eapply lookup_lt_Some).
      cbn. by rewrite hlist_entries_add.
    + rewrite list_lookup_insert_ne; [done|]. intros ?. apply D. split; [done|lia].
  - rewrite lookup_alter_ne by done. rewrite decide_False by naive_solver. done.
Qed.

(** The buckets after a write that added a node. *)
Lemma bucket_entries_new m t t' k h a i hs x :
  kv_valid k -> heads m !! kv_store t = Some hs -> hs !! Z.to_nat (Z.rem k 1024) = Some h ->
  0 <= i ->
  bucket_entries (tick (set_nodes (set_heads m
    (store_index (heads m) (kv_store t) (Z.rem k 1024) (hlist_add_head a h))) x)) t' i
  = if decide (kv_store t' = kv_store t /\ i = Z.rem k 1024) then Some (a :: hlist_entries h)
    else bucket_entries m t' i.
Proof. intros. by erewrite <- bucket_entries_store. Qed.

Lemma bucket_entries_hs m t hs i h :
  heads m !! kv_store t = Some hs -> hs !! Z.to_nat i = Some h ->
  bucket_entries m t i = Some (hlist_entries h).
Proof. intros E1 E2. unfold bucket_entries. rewrite E1; cbn. by rewrite E2. Qed.

Lemma write_outcome_wf m t k v r m' :
  kv_wf m t -> kv_valid k -> write_outcome m t k v r m' -> kv_wf m' t.
Proof.
  intros Hwf Hk Ho. pose proof (rem_1024_bound k Hk).
  destruct (wf_store m t Hwf) as (hs0 & Hhs0 & Hl).
  destruct Ho as [ps p Hb Hf|ps Hb Hf|hs h a Hhs Hh Hf Ha Hn];
    (split; [apply Hwf..| |apply Hwf|]); try (by eauto).
  - intros i ps' Hps Hi. apply find_ptr_Some in Hf as [_ (n & Hn & <-)].
    apply chain_ok_update; [done|]. by eapply wf_chains.
  - intros i ps' Hps Hi. by eapply (wf_chains m t).
  - cbn. unfold store_index. rewrite lookup_alter_eq, Hhs; cbn.
    eexists; split; [done|]. rewrite length_insert. naive_solver.
  - intros i ps Hps Hi. rewrite (bucket_entries_new m t t k h a i hs) in Hps by done.
    pose proof (bucket_entries_hs _ _ _ _ _ Hhs Hh) as Hb.
    case_decide as D; [destruct D as [_ ->]|]; simplify_eq; cbn.
    + pose proof (wf_chains m t Hwf _ _ Hb Hi) as Hch.
      econstructor; [apply lookup_insert_eq|done|cbn; by erewrite find_ptr_fresh|].
      by apply chain_ok_fresh.
    + apply chain_ok_fresh; [done|]. by eapply (wf_chains m t).
Qed.

(** A successful write changes the value of its key and of no other key; a
    failed one ([-1], out of memory) changes nothing. *)
Lemma write_outcome_get m t k v r m' k' :
  kv_wf m t -> kv_valid k -> kv_valid k' -> write_outcome m t k v r m' ->
  kv_get m' t k' = if decide (r = 0 /\ k' = k) then Some v else kv_get m t k'.
Proof.
  intros Hwf Hk Hk' Ho. unfold kv_get.
  destruct (wf_bucket m t k' Hwf Hk') as (_ & h' & _ & _ & _ & Hb' & Hch').
  destruct Ho as [ps p Hb Hf|ps Hb Hf|hs h a Hhs Hh Hf Ha Hn].
  - change (bucket_entries (set_nodes m _) t ?i) with (bucket_entries m t i).
    rewrite Hb'; cbn. pose proof (find_ptr_Some _ _ _ _ Hf) as [_ (n & Hn & Hkn)].
    rewrite (chain_get_found _ _ _ _ _ _ n) by done.
    destruct (decide (k' = k)) as [->|Hne].
    + rewrite (decide_True (P := 0 = 0 /\ k = k)) by (split; reflexivity).
      rewrite Hb in Hb'. simplify_eq. by rewrite decide_True.
    + rewrite (decide_False (P := 0 = 0 /\ k' = k)) by (intros [_ ?]; contradiction).
      rewrite decide_False; [done|]. intros E.
      apply find_ptr_Some in E as [_ (n' & Hn' & ?)]. congruence.
  - rewrite decide_False by (intros [? _]; lia). reflexivity.
  - rewrite (bucket_entries_new m t t k h a _ hs) by done. pose proof (bucket_entries_hs _ _ _ _ _ Hhs Hh) as Hb.
    cbn [nodes tick set_nodes set_heads].
    destruct (decide (Z.rem k' 1024 = Z.rem k 1024)) as [Er|Er].
    + rewrite decide_True by done. rewrite Er in *. rewrite Hb in *. simplify_eq/=.
      unfold chain_get; cbn. rewrite lookup_insert_eq; cbn.
      destruct (Z.eqb_spec k k') as [->|Hne]; cbn.
      * rewrite lookup_insert_eq; cbn. by rewrite decide_True.
      * rewrite decide_False by (intros [_ ?]; congruence).
        apply (chain_get_fresh (nodes m) (Z.rem k 1024)); [|done].
        by eapply wf_chains; [| |apply Hk].
    + rewrite decide_False by naive_solver. rewrite Hb'; cbn.
      rewrite decide_False by naive_solver. by erewrite chain_get_fresh.
Qed.

(** ** The abstract specification and the refinement *)

Inductive kv_op := OpWrite (k v : Z) | OpRead (k : Z).

Definition op_key (op : kv_op) : Z := match op with OpWrite k _ | OpRead k => k end.

Definition run_op (t : task_kv) (op : kv_op) : M kmem Z :=
  match op with OpWrite k v => write_kv t k v | OpRead k => read_kv t k end.

Fixpoint run_ops (t : task_kv) (ops : list kv_op) : M kmem (list Z) :=
  match ops with
  | [] => mret []
  | op :: ops' => r ← run_op t op; rs ← run_ops t ops'; mret (r :: rs)
  end.

(** A finite map; a write may fail for lack of memory, but only when the key
    is new, and then it changes nothing; a missing key reads as [-1]. *)
Inductive spec_op (σ : gmap Z Z) : kv_op -> Z -> gmap Z Z -> Prop :=
  | spec_write k v : spec_op σ (OpWrite k v) 0 (<[k := v]> σ)
  | spec_nomem k v : σ !! k = None -> spec_op σ (OpWrite k v) (-1) σ
  | spec_read k : spec_op σ (OpRead k) (default (-1) (σ !! k)) σ.

Inductive spec_ops : gmap Z Z -> list kv_op -> list Z -> gmap Z Z -> Prop :=
  | spec_done σ : spec_ops σ [] [] σ
  | spec_step σ σ' σ'' op r ops rs :
      spec_op σ op r σ' -> spec_ops σ' ops rs σ'' -> spec_ops σ (op :: ops) (r :: rs) σ''.

Definition kv_abs (m : kmem) (t : task_kv) (σ : gmap Z Z) : Prop :=
  forall k, kv_valid k -> σ !! k = kv_get m t k.

Lemma write_outcome_nomem m t k v m' :
  write_outcome m t k v (-1) m' -> kv_get m t k = None.
Proof.
  inversion 1 as [|ps Hb Hf|]; subst. unfold kv_get. rewrite Hb; cbn.
  unfold chain_get. by rewrite Hf.
Qed.

Lemma write_outcome_result m t k v r m' : write_outcome m t k v r m' -> r = 0 \/ r = -1.
Proof. inversion 1; auto. Qed.

Lemma run_op_refines m t σ op :
  kv_wf m t -> kv_abs m t σ -> kv_valid (op_key op) ->
  exists r m' σ', run_op t op m = Ok (r, m') /\ spec_op σ op r σ' /\
    kv_wf m' t /\ kv_abs m' t σ'.
Proof.
  intros Hwf Ha Hv. destruct op as [k v|k]; cbn in *.
  - destruct (write_kv_exec m t k v Hwf Hv) as (r & m' & Hrun & Ho).
    pose proof (write_outcome_wf _ _ _ _ _ _ Hwf Hv Ho) as Hwf'.
    assert (forall k', kv_valid k' -> kv_get m' t k' =
              if decide (r = 0 /\ k' = k) then Some v else kv_get m t k') as Hg
      by (intros; by eapply write_outcome_get).
    destruct (write_outcome_result _ _ _ _ _ _ Ho) as [-> | ->].
    + exists 0, m', (<[k := v]> σ). split_and!; [done|constructor|done|].
      intros k' Hk'. rewrite Hg by done. destruct (decide (k' = k)) as [->|].
      * by rewrite lookup_insert_eq, decide_True.
      * rewrite lookup_insert_ne, decide_False by naive_solver. by apply Ha.
    + exists (-1), m', σ. split_and!; [done| |done|].
      * constructor. rewrite Ha by done. by eapply write_outcome_nomem.
      * intros k' Hk'. rewrite Hg, decide_False by naive_solver. by apply Ha.
  - rewrite read_kv_exec by done. eexists _, m, σ. split_and!; try done.
    rewrite <- Ha by done. constructor.
Qed.

(** C1: any sequence of [write_kv] and [read_kv] calls with usable keys on a
    well-formed store returns (no fault, no deadlock), its results are those of
    a finite map in which a write fails only on a new key, and the store it
    leaves is well-formed and holds the resulting map. *)
Theorem kv_ops_refine_map m t σ ops :
  kv_wf m t -> kv_abs m t σ -> Forall (fun op => kv_valid (op_key op)) ops ->
  exists rs m' σ', run_ops t ops m = Ok (rs, m') /\ spec_ops σ ops rs σ' /\
    kv_wf m' t /\ kv_abs m' t σ'.
Proof.
  intros Hwf Ha Hv. revert m σ Hwf Ha. induction Hv as [|op ops Hop _ IH]; intros m σ Hwf Ha.
  - exists [], m, σ. split_and!; try done. constructor.
  - destruct (run_op_refines m t σ op Hwf Ha Hop) as (r & m1 & σ1 & Hr & Hs & Hwf1 & Ha1).
    destruct (IH m1 σ1 Hwf1 Ha1) as (rs & m2 & σ2 & Hrs & Hss & Hwf2 & Ha2).
    exists (r :: rs), m2, σ2. split_and!; try done; [|by econstructor].
    cbn. mrun. rewrite Hr. rewrite Hrs. done.
Qed.

(** A key whose C remainder is negative (every negative key that is not a
    multiple of 1024) makes both system calls index the lock array out of
    bounds, whatever the store holds. *)
Theorem kv_negative_key_out_of_bounds m t k v :
  kv_wf m t -> Z.rem k 1024 < 0 ->
  write_kv t k v m = Fault OutOfBounds /\ read_kv t k m = Fault OutOfBounds.
Proof.
  intros Hwf Hk. unfold write_kv, read_kv, spin_lock. mrun. unfold index.
  rewrite (wf_locks m t Hwf). destruct (Z.eqb_spec (kv_locks t) NULL) as [E|].
  - by destruct (wf_locks_nn m t Hwf).
  - destruct (Z.ltb_spec (Z.rem k 1024) 0); [done|lia].
Qed.

(** ** Isolation between processes *)

(** Two tasks whose stores share no array and no node. *)
Record kv_sep (m : kmem) (t t' : task_kv) : Prop := {
  sep_store : kv_store t <> kv_store t';
  sep_locks : kv_locks t <> kv_locks t';
  sep_nodes i j ps ps' : 0 <= i -> 0 <= j ->
    bucket_entries m t i = Some ps -> bucket_entries m t' j = Some ps' -> ps ## ps'
}.

Lemma find_ptr_agree ns ns' ps k :
  (forall p, p ∈ ps -> ns' !! p = ns !! p) -> find_ptr ns' ps k = find_ptr ns ps k.
Proof.
  induction ps as [|p ps IH]; intros H; cbn; [done|].
  rewrite H by left. destruct (ns !! p); [|done]. rewrite IH; [done|]. intros; apply H; by right.
Qed.

Lemma chain_get_agree ns ns' ps k :
  (forall p, p ∈ ps -> ns' !! p = ns !! p) -> chain_get ns' ps k = chain_get ns ps k.
Proof.
  intros H. unfold chain_get. rewrite (find_ptr_agree ns) by done.
  destruct (find_ptr ns ps k) as [p|] eqn:E; cbn; [|done].
  rewrite H; [done|]. by apply find_ptr_Some in E as [? _].
Qed.

Lemma chain_ok_agree ns ns' i ps :
  (forall p, p ∈ ps -> ns' !! p = ns !! p) -> chain_ok ns i ps -> chain_ok ns' i ps.
Proof.
  intros H Hch. induction Hch as [|p n ps Hp Hr Hf Hch IH]; [constructor|].
  econstructor; [rewrite H by left; eassumption|done|..].
  - rewrite (find_ptr_agree ns); [done|]. intros; apply H; by right.
  - apply IH. intros; apply H; by right.
Qed.

(** The buckets and nodes of a separated task are untouched by a write. *)
Lemma write_outcome_sep m t t' k v r m' :
  kv_wf m t' -> kv_valid k -> kv_sep m t t' -> write_outcome m t k v r m' ->
  (forall i, 0 <= i -> bucket_entries m' t' i = bucket_entries m t' i) /\
  (forall i ps p, 0 <= i -> bucket_entries m t' i = Some ps -> p ∈ ps ->
     nodes m' !! p = nodes m !! p) /\
  (forall i ps, 0 <= i -> bucket_entries m' t i = Some ps ->
     exists ps0, bucket_entries m t i = Some ps0 /\
       forall p, p ∈ ps -> p ∈ ps0 \/ nodes m !! p = None).
Proof.
  intros Hwf' Hk Hsep Ho. pose proof (rem_1024_bound k Hk).
  destruct Ho as [ps p Hb Hf|ps Hb Hf|hs h a Hhs Hh Hf Ha Hn].
  - split_and!; [done| |by eauto]. intros i ps' q Hi Hps' Hq. cbn.
    apply lookup_insert_ne. intros <-. apply find_ptr_Some in Hf as [Hin _].
    eapply (sep_nodes m t t' Hsep (Z.rem k 1024) i); try done; lia.
  - split_and!; by eauto.
  - split_and!.
    + intros i Hi. rewrite (bucket_entries_new m t t' k h a i hs) by done.
      rewrite decide_False; [done|]. intros [E _]. by destruct (sep_store m t t' Hsep).
    + intros i ps q Hi Hps Hq. cbn. apply lookup_insert_ne. intros <-.
      destruct (chain_ok_dom _ _ _ a (wf_chains m t' Hwf' i ps Hps Hi) Hq). congruence.
    + intros i ps Hi. rewrite (bucket_entries_new m t t k h a i hs) by done.
      case_decide as D; [destruct D as [_ ->]|by eauto]. intros [= <-].
      exists (hlist_entries h). split; [by eapply bucket_entries_hs|].
      intros p. rewrite elem_of_cons. intros [->|?]; auto.
Qed.

(** C11: a write with a usable key by one process leaves a separated process's store
    well-formed, with the same contents, and still separated; a write with any
    other key does not get that far: it indexes the array of locks out of its
    bounds. *)
Theorem kv_write_isolation m t t' k v :
  kv_wf m t -> kv_wf m t' -> kv_sep m t t' ->
  if bool_decide (kv_valid k)
  then exists r m', write_kv t k v m = Ok (r, m') /\ kv_wf m' t' /\ kv_sep m' t t' /\
    forall k', kv_valid k' -> kv_get m' t' k' = kv_get m t' k'
  else write_kv t k v m = Fault OutOfBounds.
Proof.
  intros Hwf Hwf' Hsep. case_bool_decide as Hk;
    [|apply kv_negative_key_out_of_bounds; [done|unfold kv_valid in Hk; lia]].
  destruct (write_kv_exec m t k v Hwf Hk) as (r & m' & Hrun & Ho).
  destruct (write_outcome_sep _ _ _ _ _ _ _ Hwf' Hk Hsep Ho) as (Hb & Hn & Ht).
  exists r, m'. split_and!; [done|..].
  - split; [apply Hwf'..| | |].
    + destruct (wf_store m t' Hwf') as (hs & Hhs & Hl). exists hs. split; [|done].
      destruct Ho; [done..|]. cbn. unfold store_index.
      rewrite lookup_alter_ne; [done|apply Hsep].
    + destruct Ho; apply Hwf'.
    + intros i ps Hps Hi. rewrite Hb in Hps by done.
      eapply chain_ok_agree; [|by eapply (wf_chains m t')]. intros; by eapply Hn.
  - split; [apply Hsep..|]. intros i j ps ps' Hi Hj Hps Hps' p Hp Hp'.
    rewrite Hb in Hps' by done. destruct (Ht i ps Hi Hps) as (ps0 & Hps0 & Hin).
    destruct (Hin p Hp) as [Hp0|Hnone].
    + by eapply (sep_nodes m t t' Hsep i j).
    + destruct (chain_ok_dom _ _ _ p (wf_chains m t' Hwf' j ps' Hps' Hj) Hp'). congruence.
  - intros k' Hk'. unfold kv_get. rewrite Hb by done.
    destruct (bucket_entries m t' (Z.rem k' 1024)) as [ps|] eqn:E; cbn; [|done].
    apply chain_get_agree. intros; by eapply Hn.
Qed.

(** ** Process creation *)

Lemma fresh_entries m s l i ps :
  heads m !! s = Some (replicate 1024 INIT_HLIST_HEAD) ->
  bucket_entries m (TaskKv s l) i = Some ps -> ps = [].
Proof.
  unfold bucket_entries; cbn. intros ->; cbn.
  destruct (replicate 1024 INIT_HLIST_HEAD !! Z.to_nat i) as [h|] eqn:E; cbn; [|done].
  apply lookup_replicate in E as [-> _]. rewrite hlist_entries_init. naive_solver.
Qed.

Lemma fresh_store_wf m s l :
  s <> NULL -> l <> NULL -> heads m !! s = Some (replicate 1024 INIT_HLIST_HEAD) ->
  locks m !! l = Some (replicate 1024 false) -> kv_wf m (TaskKv s l).
Proof.
  intros. split; try done.
  - eexists. split; [done|]. by rewrite length_replicate.
  - intros i ps Hps _. rewrite (fresh_entries _ _ _ _ _ ltac:(done) Hps). constructor.
Qed.

Lemma fresh_store_empty m s l k :
  heads m !! s = Some (replicate 1024 INIT_HLIST_HEAD) -> kv_get m (TaskKv s l) k = None.
Proof.
  intros Hs. unfold kv_get.
  destruct (bucket_entries m (TaskKv s l) (Z.rem k 1024)) as [ps|] eqn:E; cbn; [|done].
  by rewrite (fresh_entries _ _ _ _ _ Hs E).
Qed.

(** The outcomes of [init_task_kv_store]. *)
Inductive init_outcome (m : kmem) (t : task_kv) : Z -> task_kv -> kmem -> Prop :=
  | init_ok s l :
      s <> NULL -> l <> NULL -> heads m !! s = None -> locks m !! l = None ->
      init_outcome m t 0 (TaskKv s l)
        (Kmem _ (<[s := replicate 1024 INIT_HLIST_HEAD]> (heads m))
              (<[l := replicate 1024 false]> (locks m)) (nodes m) (S (S (attempts m))))
  | init_no_store :
      init_outcome m t (- Errno.ENOMEM) (TaskKv NULL (kv_locks t)) (tick m)
  | init_no_locks s :
      s <> NULL -> heads m !! s = None ->
      init_outcome m t (- Errno.ENOMEM) (TaskKv s NULL) (tick (tick m)).

Lemma init_task_kv_store_exec m t :
  exists r c m', init_task_kv_store t m = Ok ((r, c), m') /\ init_outcome m t r c m'.
Proof.
  unfold init_task_kv_store, do_kmalloc. mrun.
  pose proof (kmalloc_fresh m (1024 * 8)) as F1. set (s := kmalloc m _) in *.
  destruct (Z.eqb_spec s NULL); [eexists _, _, _; split; [done|constructor]|].
  destruct F1 as (Hs & _ & _); [done|]. set (m1 := set_heads (tick m) _).
  pose proof (kmalloc_fresh m1 (1024 * sizeof_spinlock_t)) as F2. set (l := kmalloc m1 _) in *.
  destruct (Z.eqb_spec l NULL).
  - eexists _, _, _; split; [done|]. unfold set_heads; cbn.
    rewrite delete_insert_id by done. by constructor.
  - destruct F2 as (_ & Hl & _); [done|].
    eexists _, _, _; split; [done|]. by constructor.
Qed.

Lemma kv_get_heads m m' t k :
  heads m' !! kv_store t = heads m !! kv_store t -> nodes m' = nodes m ->
  kv_get m' t k = kv_get m t k.
Proof. intros Hh Hn. unfold kv_get, bucket_entries. by rewrite Hh, Hn. Qed.

Lemma kv_wf_heads m m' t :
  heads m' !! kv_store t = heads m !! kv_store t -> nodes m' = nodes m ->
  locks m' !! kv_locks t = locks m !! kv_locks t -> kv_wf m t -> kv_wf m' t.
Proof.
  intros Hh Hn Hl Hwf. split; [apply Hwf..| | |].
  - rewrite Hh. apply Hwf.
  - rewrite Hl. apply Hwf.
  - intros i ps Hps Hi. rewrite Hn. eapply wf_chains; [done| |done].
    unfold bucket_entries in *. by rewrite <- Hh.
Qed.

(** A store is created unless an allocation fails. *)
Lemma init_task_kv_store_nomem m t e c m' :
  init_task_kv_store t m = Ok ((e, c), m') -> e <> 0 -> exists m1 sz, kmalloc m1 sz = NULL.
Proof.
  unfold init_task_kv_store, do_kmalloc. mrun. intros H He.
  destruct (Z.eqb_spec (kmalloc m (1024 * 8)) NULL); [by eauto|]. cbn in H.
  case_match eqn:E; [apply Z.eqb_eq in E; eauto|congruence].
Qed.

(** [copy_process] ignores the error of [init_task_kv_store].  When an
    allocation fails the child is still created, with a NULL pointer in its
    store, and its first [write_kv] or [read_kv] dereferences it. *)
Theorem kv_fork_nomem_null_deref m parent flags k v e child m' :
  kv_wf m parent -> hasb flags CLONE_THREAD = false -> kv_valid k ->
  init_task_kv_store parent m = Ok ((e, child), m') -> e <> 0 ->
  e = - Errno.ENOMEM /\ copy_process_kv flags parent m = Ok (child, m') /\
  write_kv child k v m' = Fault NullDeref /\ read_kv child k m' = Fault NullDeref.
Proof.
  intros Hwf Hf Hk Hi He. unfold copy_process_kv. rewrite Hf. mrun. rewrite Hi; cbn.
  destruct (init_task_kv_store_exec m parent) as (r & c & m'' & Hi' & Ho).
  rewrite Hi in Hi'. injection Hi' as <- <- <-.
  inversion Ho; subst; [done|split; [done|split; [done|]]..].
  - unfold write_kv, read_kv. mrun.
    assert (kv_wf (tick m) parent) as Hwf' by (by eapply (kv_wf_heads m)).
    rewrite (spin_lock_ok (tick m) parent k) by done. cbn. done.
  - unfold write_kv, read_kv, spin_lock. mrun. done.
Qed.

(** C13: [copy_process] without [CLONE_THREAD] leaves the parent's store as it was,
    whatever the allocator does.  When both allocations of [init_task_kv_store]
    succeed the child has a well-formed empty store separated from the parent's;
    when one fails, the error is dropped, the child is created all the same and
    its first system call on the store dereferences NULL. *)
Theorem kv_fork_fresh_store m parent flags :
  kv_wf m parent -> hasb flags CLONE_THREAD = false ->
  exists e child m', init_task_kv_store parent m = Ok ((e, child), m') /\
  copy_process_kv flags parent m = Ok (child, m') /\
  kv_wf m' parent /\ (forall k, kv_get m' parent k = kv_get m parent k) /\
  ((e = 0 /\ kv_wf m' child /\ (forall k, kv_get m' child k = None) /\ kv_sep m' parent child) \/
   (e = - Errno.ENOMEM /\ (exists m1 sz, kmalloc m1 sz = NULL) /\
    forall k v, kv_valid k ->
      write_kv child k v m' = Fault NullDeref /\ read_kv child k m' = Fault NullDeref)).
Proof.
  intros Hwf Hf. destruct (init_task_kv_store_exec m parent) as (e & child & m' & Hi & Ho).
  assert (copy_process_kv flags parent m = Ok (child, m')) as Hc
    by (unfold copy_process_kv; rewrite Hf; mrun; by rewrite Hi).
  exists e, child, m'. split; [done|]. split; [done|].
  assert (e <> 0 -> e = - Errno.ENOMEM /\ (exists m1 sz, kmalloc m1 sz = NULL) /\
    forall k v, kv_valid k ->
      write_kv child k v m' = Fault NullDeref /\ read_kv child k m' = Fault NullDeref) as Hfail.
  { intros He. split; [by inversion Ho|]. split; [by eapply init_task_kv_store_nomem|].
    intros k v Hk. by destruct (kv_fork_nomem_null_deref m parent flags k v e child m' Hwf Hf Hk Hi He) as (_ & _ & ?). }
  destruct Ho as [s l Hs Hl Hfs Hfl| |]; [|split; [by apply (kv_wf_heads m)|]; split; [done|]; right; by apply Hfail..].
  destruct (wf_store m parent Hwf) as (hs & Hhs & _).
  assert (s <> kv_store parent) by congruence.
  assert (l <> kv_locks parent) by (pose proof (wf_locks m parent Hwf); congruence).
  split; [eapply (kv_wf_heads m); cbn; try done; by apply lookup_insert_ne|].
  split; [intros k; apply kv_get_heads; cbn; [by apply lookup_insert_ne|done]|]. left. split_and!; [done|..].
  - apply fresh_store_wf; cbn; try done; apply lookup_insert_eq.
  - intros k. apply fresh_store_empty; cbn. apply lookup_insert_eq.
  - split; [done..|]. intros i j ps ps' _ _ _ Hps'.
    apply fresh_entries in Hps' as ->; [|apply lookup_insert_eq]. intros ? _. inversion 1.
Qed.

(** A thread ([CLONE_THREAD]) shares its creator's store: after a
    successful write by the new thread the creator reads the written value,
    and conversely. *)
Theorem kv_thread_shares_store m parent flags k v child m' m'' :
  kv_wf m parent -> hasb flags CLONE_THREAD = true -> kv_valid k ->
  copy_process_kv flags parent m = Ok (child, m') ->
  write_kv child k v m' = Ok (0, m'') ->
  m' = m /\ read_kv parent k m'' = Ok (v, m'') /\
  write_kv parent k v m' = Ok (0, m'') /\ read_kv child k m'' = Ok (v, m'').
Proof.
  intros Hwf Hf Hk. unfold copy_process_kv. rewrite Hf. mrun. intros [= <- <-].
  destruct parent as [s l]; cbn. intros Hw.
  destruct (write_kv_exec m (TaskKv s l) k v Hwf Hk) as (r & m1 & Hw' & Ho).
  rewrite Hw in Hw'. injection Hw' as <- <-.
  pose proof (write_outcome_wf _ _ _ _ _ _ Hwf Hk Ho) as Hwf'.
  rewrite read_kv_exec by done.
  rewrite (write_outcome_get _ _ _ _ _ _ k Hwf Hk Hk Ho), decide_True by done. done.
Qed.

End KvStore.

(** ** Concrete interfaces and witnesses *)

#[global] Instance HlistList : HlistApi := {|
  hlist_head := list Z;
  INIT_HLIST_HEAD := [];
  hlist_add_head := cons;
  hlist_entries h := h;
  hlist_entries_init := eq_refl;
  hlist_entries_add n h := eq_refl
|}.

(** The least address above every address in use. *)
Definition bump_addr (m : kmem) : Z :=
  1 + Z.max (max_key (heads m)) (Z.max (max_key (locks m)) (max_key (nodes m))).

(** An allocator that fails from the [limit]-th attempt on. *)
Definition bump_alloc (limit : nat) (m : kmem) (sz : Z) : Z :=
  if (attempts m <? limit)%nat then bump_addr m else NULL.

Lemma bump_fresh limit m sz : bump_alloc limit m sz <> NULL ->
  heads m !! bump_alloc limit m sz = None /\ locks m !! bump_alloc limit m sz = None /\
  nodes m !! bump_alloc limit m sz = None.
Proof.
  unfold bump_alloc. destruct (attempts m <? limit)%nat; [|done]. intros _.
  unfold bump_addr. split_and!; apply eq_None_not_Some; intros [x Hx%max_key_lookup]; lia.
Qed.

Definition bump (limit : nat) : KmallocApi := {|
  kmalloc := bump_alloc limit;
  sizeof_spinlock_t := 4;
  kmalloc_fresh := bump_fresh limit
|}.

(** A machine with one process, whose store is empty. *)
Definition mem0 : kmem :=
  Kmem _ {[ 1 := replicate 1024 [] ]} {[ 2 := replicate 1024 false ]} ∅ 0.
Definition task0 : task_kv := TaskKv 1 2.

Definition state_of {A} (d : kmem) (r : res (A * kmem)) : kmem :=
  match r with Ok (_, m) => m | Fault _ => d end.

Lemma mem0_wf : kv_wf mem0 task0.
Proof. apply fresh_store_wf; done. Qed.

(** The same machine after a fork. *)
Definition mem1 : kmem := state_of mem0 (init_task_kv_store (KA := bump 10) task0 mem0).
Definition task1 : task_kv := TaskKv 3 4.

Lemma mem1_init : init_task_kv_store (KA := bump 10) task0 mem0 = Ok ((0, task1), mem1).
Proof. vm_compute. reflexivity. Qed.

Lemma kv_ops_refine_map_witness :
  exists rs m' σ',
    run_ops (KA := bump 10) task0 [OpWrite 5 7; OpRead 5; OpRead 6] mem0 = Ok (rs, m') /\
    spec_ops ∅ [OpWrite 5 7; OpRead 5; OpRead 6] rs σ' /\ kv_wf m' task0 /\ kv_abs m' task0 σ'.
Proof.
  apply (kv_ops_refine_map (KA := bump 10) mem0 task0 ∅).
  - exact mem0_wf.
  - intros k _. rewrite lookup_empty. symmetry. by apply fresh_store_empty.
  - repeat constructor; by vm_compute.
Defined.

Lemma kv_negative_key_out_of_bounds_witness :
  write_kv (KA := bump 10) task0 (-1) 7 mem0 = Fault OutOfBounds /\
  read_kv task0 (-1) mem0 = Fault OutOfBounds.
Proof.
  apply (kv_negative_key_out_of_bounds (KA := bump 10) mem0 task0 (-1) 7).
  - exact mem0_wf.
  - by vm_compute.
Defined.

Lemma kv_fork_fresh_store_witness :
  exists e child m', init_task_kv_store (KA := bump 10) task0 mem0 = Ok ((e, child), m') /\
  kv_wf m' task0 /\ e = 0 /\ kv_wf m' child /\ kv_sep m' task0 child.
Proof.
  destruct (kv_fork_fresh_store (KA := bump 10) mem0 task0 0 mem0_wf eq_refl)
    as (e & child & m' & Hi & _ & Hp & _ & [(He & Hc & _ & Hs)|(He & _)]).
  - exists e, child, m'. split_and!; [exact Hi|exact Hp|exact He|exact Hc|exact Hs].
  - rewrite mem1_init in Hi. injection Hi as Hi _ _. rewrite <- Hi in He. discriminate He.
Defined.

Lemma mem1_sep : kv_wf mem1 task1 /\ kv_wf mem1 task0 /\ kv_sep mem1 task0 task1.
Proof.
  assert (kv_wf mem1 task0) as H.
  { apply (kv_wf_heads mem0); try apply mem0_wf; by vm_compute. }
  split_and!; [|done|].
  - apply fresh_store_wf; by vm_compute.
  - split; [done..|]. intros i j ps ps' _ _ _ Hps'.
    apply fresh_entries in Hps' as ->; [|by vm_compute]. intros ? _. inversion 1.
Qed.

Lemma kv_write_isolation_witness :
  exists r m', write_kv (KA := bump 10) task0 5 7 mem1 = Ok (r, m') /\ kv_wf m' task1 /\
    kv_sep m' task0 task1 /\
    forall k', kv_valid k' -> kv_get m' task1 k' = kv_get mem1 task1 k'.
Proof.
  destruct mem1_sep as (H1 & H0 & Hs).
  exact (kv_write_isolation (KA := bump 10) mem1 task0 task1 5 7 H0 H1 Hs).
Defined.

Lemma kv_fork_nomem_null_deref_witness :
  - Errno.ENOMEM = - Errno.ENOMEM /\
  copy_process_kv (KA := bump 1) 0 task0 mem0 = Ok (TaskKv 3 NULL, tick (tick mem0)) /\
  write_kv (KA := bump 1) (TaskKv 3 NULL) 5 7 (tick (tick mem0)) = Fault NullDeref /\
  read_kv (TaskKv 3 NULL) 5 (tick (tick mem0)) = Fault NullDeref.
Proof.
  apply (kv_fork_nomem_null_deref (KA := bump 1) mem0 task0 0 5 7).
  - exact mem0_wf.
  - reflexivity.
  - by vm_compute.
  - vm_compute. reflexivity.
  - by vm_compute.
Defined.

Lemma kv_thread_shares_store_witness :
  let m2 := state_of mem0 (write_kv (KA := bump 10) task0 5 7 mem0) in
  mem0 = mem0 /\ read_kv task0 5 m2 = Ok (7, m2) /\
  write_kv (KA := bump 10) task0 5 7 mem0 = Ok (0, m2) /\ read_kv task0 5 m2 = Ok (7, m2).
Proof.
  cbv zeta.
  apply (kv_thread_shares_store (KA := bump 10) mem0 task0 CLONE_THREAD 5 7).
  - exact mem0_wf.
  - reflexivity.
  - by vm_compute.
  - reflexivity.
  - vm_compute. reflexivity.
Defined.
