(* ===== verification/KvConc.v ===== *)
(** * KvConc: the key-value system calls of concurrent threads

    Threads of one process share a store ([copy_process_kv]).  Here several
    threads run [write_kv] and [read_kv] of [kernel/kv_store.c] at the same time:
    each call is a program counter ([pc]) that advances by one shared access at a
    time ([tstep]), a taken spin lock makes a thread wait, and any thread may move
    next ([sstep]).  The accesses are those of [KvStore]; the value of a found
    node is read after the lock is released, as the code does. *)

From Stdlib Require Import ZArith Lia.
From stdpp Require Import base list gmap relations.
From S2P Require Import Prelude KvStore.

#[local] Arguments replicate : simpl never.

(** ** One call, one access at a time *)

Inductive pc :=
  | Start                                    (** before [spin_lock] *)
  | WFirst                                   (** write: about to read [head->first] *)
  | WScan (pos : option ptr)                 (** at a position, about to read its successor *)
  | WKey (pos : ptr) (tmp : option ptr)      (** about to compare the key *)
  | WStore (pos : ptr)                       (** found: about to store the value *)
  | WAlloc                                   (** not found: about to allocate *)
  | WInit (node : ptr)                       (** about to fill in the node *)
  | WLink (node : ptr)                       (** about to add it to the list *)
  | WUnlock (r : Z)                          (** about to unlock and return [r] *)
  | RFirst                                   (** read: about to read [head->first] *)
  | RScan (pos : option ptr)                 (** about to compare the key *)
  | RNext (pos : ptr)                        (** about to read the successor *)
  | RUnlockFound (pos : ptr)                 (** found: about to unlock *)
  | RLoad (pos : ptr)                        (** unlocked: about to read the value *)
  | RUnlock                                  (** not found: about to unlock *)
  | Done (r : Z).

(** The value of a write. *)
Definition op_value (o : kv_op) : Z := match o with OpWrite _ v => v | OpRead _ => 0 end.

Section KvConc.
Context `{HA : HlistApi} `{KA : !KmallocApi} (t : task_kv).
(** What fresh memory holds. *)
Context (junk : kv_node).

Definition entries (b : Z) : M kmem (list ptr) :=
  m ← get; h ← lift (index (heads m) (kv_store t) b); mret (hlist_entries h).

(** One access of a call; [None] when the lock is taken. *)
Definition tstep (o : kv_op) (c : pc) : M kmem (option pc) :=
  let k := op_key o in
  let bucket := Z.rem k 1024 in
  match c with
  | Start =>
      m ← get;
      held ← lift (index (locks m) (kv_locks t) bucket);
      if (held : bool) then mret None
      else
        _ ← put (set_locks m (store_index (locks m) (kv_locks t) bucket true));
        mret (Some (match o with OpWrite _ _ => WFirst | OpRead _ => RFirst end))
  | WFirst => ps ← entries bucket; mret (Some (WScan (head ps)))
  | WScan None => mret (Some WAlloc)
  | WScan (Some p) => _ ← load_node p; ps ← entries bucket; mret (Some (WKey p (next_of ps p)))
  | WKey p tmp =>
      n ← load_node p;
      mret (Some (if key n =? k then WStore p else WScan tmp))
  | WStore p =>
      n ← load_node p;
      _ ← store_node p (KvNode (key n) (op_value o));
      mret (Some (WUnlock 0))
  | WAlloc =>
      node ← do_kmalloc 24;
      if node =? NULL then mret (Some (WUnlock (-1)))
      else _ ← store_node node junk; mret (Some (WInit node))
  | WInit node =>
      _ ← load_node node;
      _ ← store_node node (KvNode k (op_value o));
      mret (Some (WLink node))
  | WLink node =>
      m ← get;
      h ← lift (index (heads m) (kv_store t) bucket);
      _ ← modify (fun m => set_heads m
            (store_index (heads m) (kv_store t) bucket (hlist_add_head node h)));
      mret (Some (WUnlock 0))
  | WUnlock r => _ ← spin_unlock (kv_locks t) bucket; mret (Some (Done r))
  | RFirst => ps ← entries bucket; mret (Some (RScan (head ps)))
  | RScan None => mret (Some RUnlock)
  | RScan (Some p) =>
      n ← load_node p;
      mret (Some (if key n =? k then RUnlockFound p else RNext p))
  | RNext p => _ ← load_node p; ps ← entries bucket; mret (Some (RScan (next_of ps p)))
  | RUnlockFound p => _ ← spin_unlock (kv_locks t) bucket; mret (Some (RLoad p))
  | RLoad p => n ← load_node p; mret (Some (Done (value n)))
  | RUnlock => _ ← spin_unlock (kv_locks t) bucket; mret (Some (Done (-1)))
  | Done r => mret None
  end.

(** ** Threads *)

Record sys := Sys { mem : kmem; thr : list (kv_op * pc) }.

Inductive sstep : sys -> sys -> Prop :=
  | sstep_thread i o c c' m m' ths :
      ths !! i = Some (o, c) -> tstep o c m = Ok (Some c', m') ->
      sstep (Sys m ths) (Sys m' (<[i := (o, c')]> ths)).

(** ** What holds in every reachable state *)

(** The result of a call that has taken effect. *)
Definition effect (c : pc) : option Z :=
  match c with WUnlock r | Done r => Some r | RUnlock => Some (-1) | _ => None end.

(** The program counters inside the critical section. *)
Definition crit (c : pc) : bool :=
  match c with Start | RLoad _ | Done _ => false | _ => true end.

Definition bucket (o : kv_op) : Z := Z.rem (op_key o) 1024.

Definition holds (b : Z) (x : kv_op * pc) : Prop := crit (snd x) = true /\ bucket (fst x) = b.

(** A node that a thread has allocated and not yet linked. *)
Definition private (c : pc) : option ptr :=
  match c with WInit a | WLink a => Some a | _ => None end.

(** What a thread knows at each program counter about its bucket's list [ps]. *)
Definition local_ok (m : kmem) (o : kv_op) (c : pc) : Prop :=
  exists ps, bucket_entries m t (bucket o) = Some ps /\
  let k := op_key o in
  let found := find_ptr (nodes m) ps k in
  match c with
  | WScan pos | RScan pos =>
      exists pre rest, ps = pre ++ rest /\ pos = head rest /\ found = find_ptr (nodes m) rest k
  | WKey p tmp =>
      exists pre rest, ps = pre ++ p :: rest /\ tmp = head rest /\
        found = find_ptr (nodes m) (p :: rest) k
  | RNext p =>
      exists pre rest, ps = pre ++ p :: rest /\ found = find_ptr (nodes m) rest k
  | WStore p | RUnlockFound p | RLoad p => found = Some p
  | WAlloc => found = None
  | WInit a => found = None /\ is_Some (nodes m !! a)
  | WLink a => found = None /\ nodes m !! a = Some (KvNode k (op_value o))
  | _ => True
  end.

(** A writer is at a write's program counter, a reader at a read's. *)
Definition pc_of (o : kv_op) (c : pc) : Prop :=
  match c with
  | WFirst | WScan _ | WKey _ _ | WStore _ | WAlloc | WInit _ | WLink _ | WUnlock _ =>
      exists k v, o = OpWrite k v
  | RFirst | RScan _ | RNext _ | RUnlockFound _ | RLoad _ | RUnlock => exists k, o = OpRead k
  | Start | Done _ => True
  end.

(** The shared memory, whatever locks are taken. *)
Record mem_ok (m : kmem) : Prop := {
  ok_store_nn : kv_store t <> NULL;
  ok_locks_nn : kv_locks t <> NULL;
  ok_store : exists hs, heads m !! kv_store t = Some hs /\ length hs = 1024%nat;
  ok_locks : exists ls, locks m !! kv_locks t = Some ls /\ length ls = 1024%nat;
  ok_chains i ps : bucket_entries m t i = Some ps -> 0 <= i -> chain_ok (nodes m) i ps
}.

Record inv (s : sys) : Prop := {
  inv_mem : mem_ok (mem s);
  inv_key i o c : thr s !! i = Some (o, c) -> kv_valid (op_key o) /\ pc_of o c;
  inv_local i o c : thr s !! i = Some (o, c) -> local_ok (mem s) o c;
  inv_lock ls b : locks (mem s) !! kv_locks t = Some ls -> 0 <= b < 1024 ->
    ls !! Z.to_nat b = Some true <-> exists i x, thr s !! i = Some x /\ holds b x;
  inv_mutex i j x y b : thr s !! i = Some x -> thr s !! j = Some y ->
    holds b x -> holds b y -> i = j;
  inv_private i o c a b ps : thr s !! i = Some (o, c) -> private c = Some a -> 0 <= b ->
    bucket_entries (mem s) t b = Some ps -> a ∉ ps;
  inv_distinct i j o c o' c' a : thr s !! i = Some (o, c) -> thr s !! j = Some (o', c') ->
    private c = Some a -> private c' = Some a -> i = j
}.

(** ** Lists and chains *)

Lemma find_ptr_notin ns ps p x k : p ∉ ps -> find_ptr (<[p := x]> ns) ps k = find_ptr ns ps k.
Proof.
  induction ps as [|q ps IH]; intros Hp; cbn; [done|].
  rewrite not_elem_of_cons in Hp. destruct Hp as [H1 H2].
  rewrite lookup_insert_ne by done. by rewrite IH.
Qed.

Lemma chain_ok_notin ns i ps p x : p ∉ ps -> chain_ok ns i ps -> chain_ok (<[p := x]> ns) i ps.
Proof.
  intros Hp H. induction H as [|q n ps Hq Hr Hf Hc IH]; [constructor|].
  rewrite not_elem_of_cons in Hp. destruct Hp as [H1 H2].
  econstructor; [by rewrite lookup_insert_ne|done|by rewrite find_ptr_notin|auto].
Qed.

Lemma find_ptr_None_notin ns i ps k p n :
  chain_ok ns i ps -> find_ptr ns ps k = None -> ns !! p = Some n -> key n = k -> p ∉ ps.
Proof.
  induction 1 as [|q n' ps Hq _ _ _ IH]; intros Hf Hp Hk; [apply not_elem_of_nil|].
  cbn in Hf. rewrite Hq in Hf. destruct (Z.eqb_spec (key n') k); [done|].
  rewrite not_elem_of_cons. split; [naive_solver|by apply IH].
Qed.

Lemma chain_NoDup ns i ps : chain_ok ns i ps -> NoDup ps.
Proof.
  induction 1 as [|p n ps Hp _ Hf Hc IH]; constructor; [|done].
  by eapply find_ptr_None_notin.
Qed.

(** An update that keeps the key of a node, or is outside the list. *)
Lemma find_ptr_upd ns ps p x k :
  (exists n, ns !! p = Some n /\ key x = key n) \/ p ∉ ps ->
  find_ptr (<[p := x]> ns) ps k = find_ptr ns ps k.
Proof.
  intros [(n & Hn & Hk)|H]; [|by apply find_ptr_notin].
  destruct x as [kx vx]. cbn in Hk. subst. by apply find_ptr_update.
Qed.

Lemma chain_ok_upd ns i ps p x :
  (exists n, ns !! p = Some n /\ key x = key n) \/ p ∉ ps ->
  chain_ok ns i ps -> chain_ok (<[p := x]> ns) i ps.
Proof.
  intros [(n & Hn & Hk)|H]; [|by apply chain_ok_notin].
  destruct x as [kx vx]. cbn in Hk. subst. by apply chain_ok_update.
Qed.

(** ** The shared memory *)

Lemma mem_bucket m o :
  mem_ok m -> kv_valid (op_key o) ->
  exists hs h, heads m !! kv_store t = Some hs /\ length hs = 1024%nat /\
    hs !! Z.to_nat (bucket o) = Some h /\ index (heads m) (kv_store t) (bucket o) = Ok h /\
    bucket_entries m t (bucket o) = Some (hlist_entries h) /\
    chain_ok (nodes m) (bucket o) (hlist_entries h).
Proof.
  intros Hm Hk. destruct (ok_store m Hm) as (hs & Hhs & Hlen).
  pose proof (rem_1024_bound _ Hk) as Hb. fold (bucket o) in Hb.
  destruct (lookup_lt_is_Some_2 hs (Z.to_nat (bucket o))) as [h Hh]; [lia|].
  pose proof (bucket_entries_hs m t hs (bucket o) h Hhs Hh) as He.
  exists hs, h. split_and!; try done.
  - apply (index_ok _ _ _ hs); [apply Hm|lia|done|done].
  - apply (ok_chains m Hm); [done|lia].
Qed.

Lemma mem_lock m o :
  mem_ok m -> kv_valid (op_key o) ->
  exists ls b, locks m !! kv_locks t = Some ls /\ length ls = 1024%nat /\
    ls !! Z.to_nat (bucket o) = Some b /\ index (locks m) (kv_locks t) (bucket o) = Ok b.
Proof.
  intros Hm Hk. destruct (ok_locks m Hm) as (ls & Hls & Hlen).
  pose proof (rem_1024_bound _ Hk) as Hb. fold (bucket o) in Hb.
  destruct (lookup_lt_is_Some_2 ls (Z.to_nat (bucket o))) as [b Hl]; [lia|].
  exists ls, b. split_and!; try done. apply (index_ok _ _ _ ls); [apply Hm|lia|done|done].
Qed.

Lemma entries_ok m o ps :
  mem_ok m -> kv_valid (op_key o) -> bucket_entries m t (bucket o) = Some ps ->
  entries (bucket o) m = Ok (ps, m).
Proof.
  intros Hm Hk Hp. destruct (mem_bucket m o Hm Hk) as (hs & h & _ & _ & _ & Hi & He & _).
  unfold entries. mrun. rewrite Hi. congruence.
Qed.

Lemma load_ok m p n : nodes m !! p = Some n -> load_node p m = Ok (n, m).
Proof. intros H. unfold load_node. mrun. by rewrite H. Qed.

(** ** What one access does *)

Definition first_pc (o : kv_op) : pc := match o with OpWrite _ _ => WFirst | OpRead _ => RFirst end.

(** The accesses, with what holds of the memory when they happen. *)
Inductive trans (m : kmem) (o : kv_op) : pc -> pc -> kmem -> Prop :=
  | tr_lock ls :
      locks m !! kv_locks t = Some ls -> ls !! Z.to_nat (bucket o) = Some false ->
      trans m o Start (first_pc o) (set_locks m (store_index (locks m) (kv_locks t) (bucket o) true))
  | tr_unlock c c' :
      crit c = true -> crit c' = false -> effect c' = effect c -> private c = None -> private c' = None ->
      trans m o c c' (set_locks m (store_index (locks m) (kv_locks t) (bucket o) false))
  | tr_quiet c c' :
      crit c = true -> crit c' = true -> effect c = None -> effect c' = None ->
      private c = None -> private c' = None -> trans m o c c' m
  | tr_miss ps :
      bucket_entries m t (bucket o) = Some ps -> find_ptr (nodes m) ps (op_key o) = None ->
      trans m o (RScan None) RUnlock m
  | tr_load ps p n :
      bucket_entries m t (bucket o) = Some ps -> find_ptr (nodes m) ps (op_key o) = Some p ->
      nodes m !! p = Some n -> trans m o (RLoad p) (Done (value n)) m
  | tr_store ps p n :
      bucket_entries m t (bucket o) = Some ps -> find_ptr (nodes m) ps (op_key o) = Some p ->
      nodes m !! p = Some n -> key n = op_key o -> p ∈ ps ->
      trans m o (WStore p) (WUnlock 0) (set_nodes m (<[p := KvNode (key n) (op_value o)]> (nodes m)))
  | tr_nomem ps :
      bucket_entries m t (bucket o) = Some ps -> find_ptr (nodes m) ps (op_key o) = None ->
      trans m o WAlloc (WUnlock (-1)) (tick m)
  | tr_alloc a :
      nodes m !! a = None ->
      trans m o WAlloc (WInit a) (set_nodes (tick m) (<[a := junk]> (nodes m)))
  | tr_init a x :
      nodes m !! a = Some x ->
      trans m o (WInit a) (WLink a) (set_nodes m (<[a := KvNode (op_key o) (op_value o)]> (nodes m)))
  | tr_link a hs h :
      heads m !! kv_store t = Some hs -> hs !! Z.to_nat (bucket o) = Some h ->
      find_ptr (nodes m) (hlist_entries h) (op_key o) = None ->
      nodes m !! a = Some (KvNode (op_key o) (op_value o)) ->
      trans m o (WLink a) (WUnlock 0)
        (set_heads m (store_index (heads m) (kv_store t) (bucket o) (hlist_add_head a h))).

Lemma spin_unlock_step m o :
  mem_ok m -> kv_valid (op_key o) ->
  spin_unlock (kv_locks t) (bucket o) m
  = Ok (tt, set_locks m (store_index (locks m) (kv_locks t) (bucket o) false)).
Proof.
  intros Hm Hk. destruct (mem_lock m o Hm Hk) as (ls & b & _ & _ & _ & Hi).
  unfold spin_unlock. mrun. by rewrite Hi.
Qed.

(** Every call that has not returned can take its next access, unless it waits
    for its lock. *)
Lemma tstep_trans m o c :
  mem_ok m -> kv_valid (op_key o) -> pc_of o c -> local_ok m o c ->
  (forall a b ps, private c = Some a -> 0 <= b -> bucket_entries m t b = Some ps -> a ∉ ps) ->
  (tstep o c m = Ok (None, m) /\ ((exists r, c = Done r) \/ c = Start /\
     exists ls, locks m !! kv_locks t = Some ls /\ ls !! Z.to_nat (bucket o) = Some true)) \/
  exists c' m', tstep o c m = Ok (Some c', m') /\ trans m o c c' m' /\ pc_of o c' /\
    local_ok m' o c'.
Proof.
  intros Hm Hk Hpc (ps & Hps & Hl) Hpriv.
  destruct (mem_bucket m o Hm Hk) as (hs & h & Hhs & Hlen & Hh & Hi & He & Hch).
  assert (ps = hlist_entries h) as -> by congruence.
  pose proof (entries_ok m o _ Hm Hk He) as Hent. pose proof (chain_NoDup _ _ _ Hch) as Hnd.
  pose proof (spin_unlock_step m o Hm Hk) as Hun.
  destruct c as [| |[p|]|p tmp|p| |a|a|r| |[p|]|p|p|p| |r]; cbn in Hpc, Hl; cbn [tstep]; fold (bucket o);
    unfold mbind, M_bind, get, put, modify, mret, M_ret, lift; rewrite ?Hent, ?Hun, ?Hi.
  - destruct (mem_lock m o Hm Hk) as (ls & b & Hls & _ & Hb & Hidx). rewrite Hidx.
    destruct b; [left; eauto 10|right]. eexists _, _. split; [done|].
    split; [by eapply (tr_lock m o ls)|]. unfold first_pc. destruct o; (split; [cbn; eauto|by eexists]).
  - right. eexists _, _. split; [done|]. split; [by apply tr_quiet|]. split; [done|].
    eexists. split; [exact He|]. by exists [], (hlist_entries h).
  - right. destruct Hl as (pre & rest & Hr & Hhd & Hf). destruct rest as [|q rest]; [done|].
    injection Hhd as <-. destruct (chain_ok_dom _ _ _ p Hch) as [n Hn]; [rewrite Hr; set_solver|].
    rewrite (load_ok m p n Hn). cbv beta iota. rewrite ?Hent. eexists _, _. split; [done|]. split; [by apply tr_quiet|]. split; [done|].
    eexists. split; [exact He|]. exists pre, rest. split_and!; [done| |done].
    rewrite Hr in Hnd |- *. by apply next_of_mid.
  - right. destruct Hl as (pre & rest & Hr & Hhd & Hf). destruct rest; [|done].
    eexists _, _. split; [done|]. split; [by apply tr_quiet|]. split; [done|]. by eexists.
  - right. destruct Hl as (pre & rest & Hr & Htmp & Hf).
    destruct (chain_ok_dom _ _ _ p Hch) as [n Hn]; [rewrite Hr; set_solver|].
    rewrite (load_ok m p n Hn). cbn in Hf. rewrite Hn in Hf.
    destruct (key n =? op_key o); eexists _, _; (split; [done|]); (split; [by apply tr_quiet|]);
      (split; [done|]); eexists; (split; [exact He|]); [done|].
    exists (pre ++ [p]), rest. split_and!; [|done|done]. by rewrite <- app_assoc.
  - right. destruct (find_ptr_Some _ _ _ _ Hl) as (Hin & n & Hn & Hkn). rewrite (load_ok m p n Hn).
    eexists _, _. split; [done|]. split; [by eapply (tr_store m o (hlist_entries h) p n)|].
    split; [done|]. by eexists.
  - right. unfold do_kmalloc, mbind, M_bind, get, put, mret, M_ret. cbv beta iota. pose proof (kmalloc_fresh m 24) as Hfr.
    destruct (Z.eqb_spec (kmalloc m 24) NULL) as [|Hnn].
    + eexists _, _. split; [done|]. split; [by eapply (tr_nomem m o)|]. split; [done|]. by eexists.
    + destruct (Hfr Hnn) as (_ & _ & Hn). eexists _, _. split; [done|]. split; [exact (tr_alloc m o _ Hn)|].
      split; [done|]. eexists. split; [exact He|]. cbn.
      erewrite (find_ptr_fresh (nodes m)) by done. split; [done|]. by rewrite lookup_insert_eq.
  - right. destruct Hl as (Hf & [x Hx]). rewrite (load_ok m a x Hx).
    eexists _, _. split; [done|]. split; [by eapply tr_init|]. split; [done|].
    eexists. split; [exact He|]. cbn. rewrite find_ptr_notin by (by eapply Hpriv; [|apply Hk|]).
    split; [done|]. by rewrite lookup_insert_eq.
  - right. destruct Hl as (Hf & Hx). eexists _, _. split; [done|]. split; [by eapply tr_link|].
    split; [done|]. eexists. split; [|done]. unfold bucket. erewrite bucket_entries_store; [|done..|apply Hk|apply Hk].
    by rewrite decide_True.
  - right. eexists _, _. split; [done|]. split; [by apply tr_unlock|]. split; [done|]. by eexists.
  - right. eexists _, _. split; [done|]. split; [by apply tr_quiet|]. split; [done|].
    eexists. split; [exact He|]. by exists [], (hlist_entries h).
  - right. destruct Hl as (pre & rest & Hr & Hhd & Hf). destruct rest as [|q rest]; [done|].
    injection Hhd as <-. destruct (chain_ok_dom _ _ _ p Hch) as [n Hn]; [rewrite Hr; set_solver|].
    rewrite (load_ok m p n Hn). cbn in Hf. rewrite Hn in Hf.
    destruct (key n =? op_key o); eexists _, _; (split; [done|]); (split; [by apply tr_quiet|]);
      (split; [done|]); eexists; (split; [exact He|]); [done|]. by exists pre, rest.
  - right. destruct Hl as (pre & rest & Hr & Hhd & Hf). destruct rest; [|done].
    eexists _, _. split; [done|]. split; [by eapply tr_miss|]. split; [done|]. by eexists.
  - right. destruct Hl as (pre & rest & Hr & Hf).
    destruct (chain_ok_dom _ _ _ p Hch) as [n Hn]; [rewrite Hr; set_solver|].
    rewrite (load_ok m p n Hn). cbv beta iota. rewrite ?Hent. eexists _, _. split; [done|]. split; [by apply tr_quiet|]. split; [done|].
    eexists. split; [exact He|]. exists (pre ++ [p]), rest. rewrite <- app_assoc. split_and!; [done| |done].
    rewrite Hr in Hnd |- *. by apply next_of_mid.
  - right. eexists _, _. split; [done|]. split; [by apply tr_unlock|]. split; [done|]. by eexists.
  - right. destruct (find_ptr_Some _ _ _ _ Hl) as (Hin & n & Hn & Hkn). rewrite (load_ok m p n Hn).
    eexists _, _. split; [done|]. split; [by eapply tr_load|]. split; [done|]. by eexists.
  - right. eexists _, _. split; [done|]. split; [by apply tr_unlock|]. split; [done|]. by eexists.
  - left. split; [done|]. left. eauto.
Qed.

(** ** What an access leaves to the other threads *)

(** The list of every bucket is as before, or the access linked a node to it. *)
Lemma trans_entries m o c c' m' b ps' :
  trans m o c c' m' -> kv_valid (op_key o) -> 0 <= b -> bucket_entries m' t b = Some ps' ->
  bucket_entries m t b = Some ps' \/
  exists a ps, c = WLink a /\ b = bucket o /\ bucket_entries m t b = Some ps /\ ps' = a :: ps.
Proof.
  intros Ht Hk Hb. destruct Ht as [| | | | | | | | |a hs h Hhs Hh]; try (intros Hp; left; exact Hp).
  unfold bucket. erewrite bucket_entries_store; [|done..|apply Hk|done].
  case_decide as D; [|by left]. destruct D as [_ ->]. intros [= <-]. right.
  exists a, (hlist_entries h). split_and!; try done. by eapply bucket_entries_hs.
Qed.

(** What the access did to the nodes: nothing, or one node that is new, private
    to the thread, or keeps its key. *)
Lemma trans_nodes m o c c' m' :
  trans m o c c' m' ->
  nodes m' = nodes m \/
  exists p x, nodes m' = <[p := x]> (nodes m) /\ heads m' = heads m /\
    ((exists n, nodes m !! p = Some n /\ key x = key n /\
        exists ps, bucket_entries m t (bucket o) = Some ps /\ p ∈ ps) \/
     nodes m !! p = None \/ private c = Some p).
Proof.
  intros Ht. destruct Ht; try (by left); right; eexists _, _; (split; [done|]); (split; [done|]);
    [left; eauto 10|auto|auto].
Qed.

Lemma chain_fresh_notin m b ps p :
  mem_ok m -> 0 <= b -> bucket_entries m t b = Some ps -> nodes m !! p = None -> p ∉ ps.
Proof.
  intros Hm Hb Hp Hn Hin. destruct (chain_ok_dom _ _ _ p (ok_chains m Hm b ps Hp Hb) Hin). congruence.
Qed.

(** Such a change keeps every search in every list. *)
Lemma trans_keeps m o c c' m' b ps :
  mem_ok m -> 0 <= b -> trans m o c c' m' -> bucket_entries m t b = Some ps ->
  (forall a, private c = Some a -> a ∉ ps) ->
  (forall l k, l ⊆ ps -> find_ptr (nodes m') l k = find_ptr (nodes m) l k) /\
  (chain_ok (nodes m) b ps -> chain_ok (nodes m') b ps).
Proof.
  intros Hm Hb Ht Hps Hpr. destruct (trans_nodes _ _ _ _ _ Ht) as [->|(p & x & -> & _ & Hx)]; [done|].
  assert (forall l, l ⊆ ps -> (exists n, nodes m !! p = Some n /\ key x = key n) \/ p ∉ l) as Hu.
  { intros l Hl. destruct Hx as [(n & Hn & Hkx & _)|[Hn|Ha]]; [eauto| |];
      right; intros Hin; apply Hl in Hin; revert Hin; [by eapply chain_fresh_notin|by apply Hpr]. }
  split; [intros l k Hl; apply find_ptr_upd; auto|intros Hc; apply chain_ok_upd; auto].
Qed.

(** A node private to another thread is not touched. *)
Lemma trans_private m o c c' m' a :
  trans m o c c' m' -> kv_valid (op_key o) -> private c <> Some a -> is_Some (nodes m !! a) ->
  (forall b ps, 0 <= b -> bucket_entries m t b = Some ps -> a ∉ ps) ->
  nodes m' !! a = nodes m !! a.
Proof.
  intros Ht Hk Hpc [y Hy] Hna. destruct (trans_nodes _ _ _ _ _ Ht) as [->|(p & x & -> & _ & Hx)]; [done|].
  apply lookup_insert_ne. intros ->.
  destruct Hx as [(n & _ & _ & ps & Hps & Hin)|[Hn|Ha]]; [|congruence|done].
  revert Hin. eapply Hna; [apply Hk|exact Hps].
Qed.

(** The other threads' knowledge survives. *)
Lemma trans_frame m o c c' m' o2 c2 :
  mem_ok m -> trans m o c c' m' -> kv_valid (op_key o) -> kv_valid (op_key o2) ->
  (forall a b ps, private c = Some a -> 0 <= b -> bucket_entries m t b = Some ps -> a ∉ ps) ->
  (crit c = true -> crit c2 = true -> bucket o <> bucket o2) ->
  (forall a, private c2 = Some a -> private c <> Some a /\
     forall b ps, 0 <= b -> bucket_entries m t b = Some ps -> a ∉ ps) ->
  local_ok m o2 c2 -> local_ok m' o2 c2.
Proof.
  intros Hm Ht Hk Hk2 Hpr Hmx Hp2 (ps & Hps & Hl).
  assert (0 <= bucket o2) as Hb2 by apply Hk2.
  destruct (trans_keeps m o c c' m' _ ps Hm Hb2 Ht Hps (fun a Ha => Hpr a _ ps Ha Hb2 Hps)) as [Hf _].
  pose proof (trans_private m o c c' m') as Hpn.
  assert (exists ps', bucket_entries m' t (bucket o2) = Some ps' /\
    (ps' = ps \/ exists a n, c = WLink a /\ bucket o2 = bucket o /\ ps' = a :: ps /\ nodes m' !! a = Some n /\
       find_ptr (nodes m') ps (key n) = None)) as (ps' & Hps' & Hcase).
  { destruct Ht as [| | | | | | | | |a hs h Hhs Hh Hfn Ha]; try (exists ps; split; [exact Hps|by left]).
    unfold bucket at 1. erewrite bucket_entries_store; [|done..|apply Hk|done].
    case_decide as D; [|exists ps; auto]. destruct D as [_ D]. fold (bucket o) in D.
    rewrite D, (bucket_entries_hs m t hs (bucket o) h Hhs Hh) in Hps. injection Hps as <-.
    exists (a :: hlist_entries h). split; [done|]. right. by eexists a, _. }
  exists ps'. split; [done|]. destruct Hcase as [->|(a & n & -> & Hb & -> & Ha & Hn)].
  - destruct c2 as [| |pos|p tmp|p| |a|a|r| |pos|p|p|p| |r]; cbv beta iota zeta in Hl |- *;
      rewrite ?(Hf ps (op_key o2)) by done; try done.
    + destruct Hl as (pre & rest & -> & -> & Hr). exists pre, rest. by rewrite Hf by set_solver.
    + destruct Hl as (pre & rest & -> & -> & Hr). exists pre, rest. by rewrite Hf by set_solver.
    + destruct Hl as [H1 H2], (Hp2 a eq_refl). split; [done|]. by rewrite (Hpn a Ht Hk).
    + destruct Hl as [H1 H2], (Hp2 a eq_refl). split; [done|]. by rewrite (Hpn a Ht Hk).
    + destruct Hl as (pre & rest & -> & -> & Hr). exists pre, rest. by rewrite Hf by set_solver.
    + destruct Hl as (pre & rest & -> & Hr). exists pre, rest. by rewrite Hf by set_solver.
  - assert (crit c2 = false) as Hc2.
    { destruct (crit c2); [|done]. exfalso. by apply Hmx. }
    destruct c2; try done. cbv beta iota zeta in Hl |- *. cbn. rewrite Ha.
    destruct (Z.eqb_spec (key n) (op_key o2)) as [E|E]; [|by rewrite Hf].
    rewrite E, Hf in Hn by done. congruence.
Qed.

Lemma trans_mem_ok m o c c' m' :
  mem_ok m -> trans m o c c' m' -> kv_valid (op_key o) ->
  (forall a b ps, private c = Some a -> 0 <= b -> bucket_entries m t b = Some ps -> a ∉ ps) ->
  mem_ok m'.
Proof.
  intros Hm Ht Hk Hpr. split; [apply Hm|apply Hm| | |].
  - destruct (ok_store m Hm) as (hs & Hhs & Hl).
    destruct Ht as [| | | | | | | | |a hs' h Hhs' Hh]; try (exists hs; split; [exact Hhs|done]).
    cbn. unfold store_index. rewrite lookup_alter_eq, Hhs. eexists. split; [done|]. by rewrite length_insert.
  - destruct (ok_locks m Hm) as (ls & Hls & Hl).
    destruct Ht; try (exists ls; split; [exact Hls|done]);
      cbn; unfold store_index; rewrite lookup_alter_eq, Hls; eexists; (split; [done|]); by rewrite length_insert.
  - intros b ps' Hb' Hb.
    destruct (trans_entries m o c c' m' b ps' Ht Hk Hb Hb') as [He|(a & ps & -> & -> & He & ->)].
    + destruct (trans_keeps m o c c' m' b ps' Hm Hb Ht He (fun a Ha => Hpr a b ps' Ha Hb He)) as [_ Hc].
      apply Hc. by apply (ok_chains m Hm).
    + inversion Ht as [|? ? Hc1 Hc2 _ Hp| ? ? Hc1 Hc2 _ _ Hp| | | | | | |? hs h Hhs Hh Hf Ha]; subst; try done.
      rewrite (bucket_entries_hs m t hs (bucket o) h Hhs Hh) in He. injection He as <-.
      econstructor; [exact Ha|done|done|].
      apply (ok_chains m Hm); [|done]. by eapply bucket_entries_hs.
Qed.

(** ** The invariant *)

Lemma holds_insert (ths : list (kv_op * pc)) i o c c' b :
  ths !! i = Some (o, c) ->
  (exists j x, <[i := (o, c')]> ths !! j = Some x /\ holds b x) <->
  (crit c' = true /\ bucket o = b) \/ (exists j x, j <> i /\ ths !! j = Some x /\ holds b x).
Proof.
  intros Hi. pose proof (lookup_lt_Some _ _ _ Hi). split.
  - intros (j & x & Hj & Hx). destruct (decide (j = i)) as [->|Hne].
    + rewrite list_lookup_insert_eq in Hj by done. injection Hj as <-. by left.
    + rewrite list_lookup_insert_ne in Hj by done. right. eauto.
  - intros [Hc|(j & x & Hne & Hj & Hx)].
    + exists i, (o, c'). by rewrite list_lookup_insert_eq.
    + exists j, x. by rewrite list_lookup_insert_ne.
Qed.

(** The lock bits after an access. *)
Lemma trans_locks m o c c' m' ls ls' :
  trans m o c c' m' -> kv_valid (op_key o) -> locks m !! kv_locks t = Some ls -> length ls = 1024%nat ->
  locks m' !! kv_locks t = Some ls' ->
  (crit c' = crit c /\ ls' = ls) \/
  (crit c = false /\ crit c' = true /\ ls !! Z.to_nat (bucket o) = Some false /\
     ls' = <[Z.to_nat (bucket o) := true]> ls) \/
  (crit c = true /\ crit c' = false /\ ls' = <[Z.to_nat (bucket o) := false]> ls).
Proof.
  intros Ht Hk Hls Hlen. destruct Ht as [ls0 Hls0 Hb| | | | | | | | |]; cbn; unfold store_index;
    rewrite ?lookup_alter_eq, ?Hls; cbn; intros [= <-].
  - right. left. rewrite Hls in Hls0. injection Hls0 as ->. by destruct o.
  - right. by right.
  - left. split; [congruence|done].
  - by left.
  - by left.
  - by left.
  - by left.
  - by left.
  - by left.
  - by left.
Qed.

(** A new private node is new to everybody. *)
Lemma trans_new_private m o c c' m' a :
  trans m o c c' m' -> private c' = Some a -> private c = Some a \/ nodes m !! a = None.
Proof. intros Ht. destruct Ht; cbn; try congruence; [by destruct o|intros [= <-]; auto|auto]. Qed.

Lemma local_private m o c a : local_ok m o c -> private c = Some a -> is_Some (nodes m !! a).
Proof.
  intros (ps & _ & Hl) Hp. destruct c; try done; injection Hp as ->; cbn in Hl; destruct Hl as [_ Hl]; [done|].
  by rewrite Hl.
Qed.

(** The bit of one bucket when the thread's own part of "some thread is inside"
    changes; [others] is the rest. *)
Lemma lock_bit ls bo b (own own' : bool) (others : Prop) ls' :
  0 <= bo < 1024 -> 0 <= b < 1024 -> length ls = 1024%nat ->
  ls !! Z.to_nat b = Some true <-> own = true /\ bo = b \/ others ->
  (own = true -> bo = b -> ~ others) ->
  (own' = own /\ ls' = ls) \/ (own = false /\ own' = true /\ ls' = <[Z.to_nat bo := true]> ls) \/
    (own = true /\ own' = false /\ ls' = <[Z.to_nat bo := false]> ls) ->
  ls' !! Z.to_nat b = Some true <-> own' = true /\ bo = b \/ others.
Proof.
  intros Hbo Hb Hlen Hiff Hx [[-> ->]|[(-> & -> & ->)|(-> & -> & ->)]]; [done| |];
    (destruct (decide (bo = b)) as [->|Hne];
     [rewrite list_lookup_insert_eq by lia|rewrite list_lookup_insert_ne, Hiff by lia]).
  - split; auto.
  - split; [intros [[? _]|?]; [done|auto]|intros [[_ ?]|?]; [lia|auto]].
  - split; [done|]. intros [[? _]|Ho]; [done|]. by destruct Hx.
  - split; [intros [[_ ?]|?]; [lia|auto]|intros [[? _]|?]; [done|auto]].
Qed.

Section Step.
Context (m m' : kmem) (ths : list (kv_op * pc)) (i : nat) (o : kv_op) (c c' : pc).
Context (I : inv (Sys m ths)) (Hi : ths !! i = Some (o, c)).
Context (Hk : kv_valid (op_key o)) (Ht : trans m o c c' m').

Lemma thr_insert j x :
  <[i := (o, c')]> ths !! j = Some x -> j = i /\ x = (o, c') \/ j <> i /\ ths !! j = Some x.
Proof.
  intros Hj. destruct (decide (j = i)) as [->|Hne].
  - rewrite list_lookup_insert_eq in Hj by (by eapply lookup_lt_Some). left. by simplify_eq.
  - rewrite list_lookup_insert_ne in Hj by done. auto.
Qed.

(** Nobody else is inside the bucket of a thread that is, or that gets the lock. *)
Lemma alone j x b : j <> i -> ths !! j = Some x -> holds b x -> crit c' = true \/ crit c = true -> bucket o <> b.
Proof.
  intros Hne Hj Hx Hc <-. destruct (crit c) eqn:Ec.
  - apply Hne. symmetry. by eapply (inv_mutex _ I i j _ _ (bucket o) Hi Hj).
  - destruct Hc as [Hc|]; [|done]. pose proof (inv_mem _ I) as Hm.
    destruct (ok_locks m Hm) as (ls & Hls & Hlen).
    destruct (ok_locks m' ltac:(eapply trans_mem_ok; try done; intros; by eapply (inv_private _ I i))) as (ls' & Hls' & _).
    destruct (trans_locks m o c c' m' ls ls' Ht Hk Hls Hlen Hls') as [[? _]|[(_ & _ & Hb & _)|(? & _)]]; [congruence| |congruence].
    pose proof (proj2 (inv_lock _ I ls (bucket o) Hls (rem_1024_bound _ Hk))) as H.
    cbn in H. rewrite Hb in H. discriminate H. eauto.
Qed.

Lemma lock_step ls' b :
  locks m' !! kv_locks t = Some ls' -> 0 <= b < 1024 ->
  ls' !! Z.to_nat b = Some true <-> exists j x, <[i := (o, c')]> ths !! j = Some x /\ holds b x.
Proof.
  intros Hls' Hb. rewrite (holds_insert _ i o c c' b Hi).
  destruct (ok_locks m (inv_mem _ I)) as (ls & Hls & Hlen).
  pose proof (inv_lock _ I ls b Hls Hb) as Hiff. cbn in Hiff.
  pose proof (holds_insert _ i o c c b Hi) as Hold. rewrite list_insert_id in Hold by done.
  rewrite Hold in Hiff.
  apply (lock_bit ls (bucket o) b (crit c) (crit c')); try done; [apply (rem_1024_bound _ Hk)| |].
  - intros Hc Hbo (j & x & Hne & Hj & Hx). by eapply alone; eauto.
  - destruct (trans_locks m o c c' m' ls ls' Ht Hk Hls Hlen Hls') as [?|[(? & ? & _ & ?)|?]]; auto.
Qed.

Lemma mutex_step j1 j2 x y b :
  <[i := (o, c')]> ths !! j1 = Some x -> <[i := (o, c')]> ths !! j2 = Some y ->
  holds b x -> holds b y -> j1 = j2.
Proof.
  intros H1 H2 Hx Hy.
  destruct (thr_insert _ _ H1) as [[-> ->]|[N1 J1]], (thr_insert _ _ H2) as [[-> ->]|[N2 J2]]; [done| | |].
  - exfalso. destruct Hx as [Hc Hb]. exact (alone j2 y b N2 J2 Hy (or_introl Hc) Hb).
  - exfalso. destruct Hy as [Hc Hb]. exact (alone j1 x b N1 J1 Hx (or_introl Hc) Hb).
  - by eapply (inv_mutex _ I).
Qed.

Lemma private_step j o2 c2 a b ps' :
  <[i := (o, c')]> ths !! j = Some (o2, c2) -> private c2 = Some a -> 0 <= b ->
  bucket_entries m' t b = Some ps' -> a ∉ ps'.
Proof.
  intros Hj Ha Hb Hps'.
  destruct (trans_entries m o c c' m' b ps' Ht Hk Hb Hps') as [He|(a0 & ps & Hc & Hbo & He & Hps)].
  - destruct (thr_insert _ _ Hj) as [[-> [= -> ->]]|[Hne Hj2]]; [|by eapply (inv_private _ I j)].
    destruct (trans_new_private _ _ _ _ _ _ Ht Ha) as [Hc|Hn]; [by eapply (inv_private _ I i)|].
    eapply chain_fresh_notin; [apply (inv_mem _ I)|exact Hb|exact He|exact Hn].
  - destruct (thr_insert _ _ Hj) as [[-> [= -> ->]]|[Hne Hj2]].
    + exfalso. rewrite Hc in Ht. inversion Ht; subst; done.
    + rewrite Hps, not_elem_of_cons. split; [|by eapply (inv_private _ I j)].
      intros ->. apply Hne. eapply (inv_distinct _ I j i); [done..|by rewrite Hc].
Qed.

Lemma distinct_step j1 j2 o1 c1 o2 c2 a :
  <[i := (o, c')]> ths !! j1 = Some (o1, c1) -> <[i := (o, c')]> ths !! j2 = Some (o2, c2) ->
  private c1 = Some a -> private c2 = Some a -> j1 = j2.
Proof.
  assert (forall j o3 c3, j <> i -> ths !! j = Some (o3, c3) -> private c' = Some a -> private c3 = Some a -> False) as Hx.
  { intros j o3 c3 Hne Hj Ha Ha3. destruct (trans_new_private _ _ _ _ _ _ Ht Ha) as [Hc|Hn].
    - apply Hne. by eapply (inv_distinct _ I j i).
    - destruct (local_private m o3 c3 a (inv_local _ I j _ _ Hj) Ha3). congruence. }
  intros H1 H2 A1 A2.
  destruct (thr_insert _ _ H1) as [[-> [= -> ->]]|[N1 J1]], (thr_insert _ _ H2) as [[-> [= -> ->]]|[N2 J2]];
    [done|exfalso; by eapply Hx|exfalso; by eapply Hx|by eapply (inv_distinct _ I)].
Qed.

End Step.

(** A thread of a good state can move, or waits, or has returned; when it moves
    its access is one of [trans]. *)
Lemma inv_tstep m ths i o c :
  inv (Sys m ths) -> ths !! i = Some (o, c) ->
  (tstep o c m = Ok (None, m) /\ ((exists r, c = Done r) \/ c = Start /\
     exists ls, locks m !! kv_locks t = Some ls /\ ls !! Z.to_nat (bucket o) = Some true)) \/
  exists c' m', tstep o c m = Ok (Some c', m') /\ trans m o c c' m' /\ pc_of o c' /\ local_ok m' o c'.
Proof.
  intros I Hi. destruct (inv_key _ I i o c Hi). apply tstep_trans; [apply (inv_mem _ I)|done|done| |].
  - exact (inv_local _ I i o c Hi).
  - intros a b ps. exact (inv_private _ I i o c a b ps Hi).
Qed.

Lemma inv_step s s' : inv s -> sstep s s' -> inv s'.
Proof.
  intros I Hst. destruct Hst as [i o c c' m m' ths Hi Hts].
  destruct (inv_key _ I i o c Hi) as [Hk Hpc].
  destruct (inv_tstep m ths i o c I Hi) as [[H _]|(c2 & m2 & H & Ht & Hpc' & Hl')]; [congruence|].
  rewrite Hts in H. injection H as <- <-.
  assert (forall a b ps, private c = Some a -> 0 <= b -> bucket_entries m t b = Some ps -> a ∉ ps) as Hpr
    by (intros a b ps; by eapply (inv_private _ I i)).
  split; cbn [mem thr].
  - eapply trans_mem_ok; try done. apply (inv_mem _ I).
  - intros j o2 c2 Hj. destruct (thr_insert ths i o c c' Hi _ _ Hj) as [[-> [= -> ->]]|[Hne Hj2]]; [done|].
    by eapply (inv_key _ I).
  - intros j o2 c2 Hj. destruct (thr_insert ths i o c c' Hi _ _ Hj) as [[-> [= -> ->]]|[Hne Hj2]]; [done|].
    apply (trans_frame m o c c' m' o2 c2 (inv_mem _ I) Ht Hk); [by eapply (inv_key _ I)|done| | |].
    + intros H1 H2 Hb. eapply (alone m m' ths i o c c' I Hi Hk Ht j (o2, c2) (bucket o2)); try done. by right.
    + intros a Ha. split; [|intros b ps; by eapply (inv_private _ I j)].
      intros Hc. apply Hne. by eapply (inv_distinct _ I j i).
    + exact (inv_local _ I j o2 c2 Hj2).
  - intros ls' b. by eapply lock_step.
  - intros j1 j2 x y b. by eapply mutex_step.
  - intros j o2 c2 a b ps'. by eapply private_step.
  - intros j1 j2 o1 c1 o2 c2 a. by eapply distinct_step.
Qed.

(** ** Effects on the map *)

Lemma chain_get_notin ns i ps p x k :
  chain_ok ns i ps -> p ∉ ps -> chain_get (<[p := x]> ns) ps k = chain_get ns ps k.
Proof.
  intros Hc Hp. unfold chain_get. rewrite find_ptr_notin by done.
  destruct (find_ptr ns ps k) as [q|] eqn:E; [|done]. cbn.
  apply find_ptr_Some in E as [Hq _]. rewrite lookup_insert_ne by (intros ->; done). done.
Qed.

Lemma mem_valid m k : mem_ok m -> kv_valid k ->
  exists ps, bucket_entries m t (Z.rem k 1024) = Some ps /\ chain_ok (nodes m) (Z.rem k 1024) ps.
Proof.
  intros Hm Hk. destruct (mem_bucket m (OpRead k) Hm Hk) as (hs & h & _ & _ & _ & _ & He & Hc). eauto.
Qed.

(** Changing one node outside the lists does not change the map. *)
Lemma kv_get_outside m m' p x k :
  mem_ok m -> kv_valid k -> heads m' = heads m -> nodes m' = <[p := x]> (nodes m) ->
  (forall b ps, 0 <= b -> bucket_entries m t b = Some ps -> p ∉ ps) ->
  kv_get m' t k = kv_get m t k.
Proof.
  intros Hm Hk Hh Hn Hp. destruct (mem_valid m k Hm Hk) as (ps & Hps & Hc).
  unfold kv_get. assert (bucket_entries m' t (Z.rem k 1024) = Some ps) as ->
    by (unfold bucket_entries in *; by rewrite Hh).
  rewrite Hps, Hn. cbn. eapply chain_get_notin; [done|]. eapply Hp; [apply Hk|done].
Qed.

Lemma kv_get_store m o p n ps k' :
  mem_ok m -> kv_valid (op_key o) -> kv_valid k' ->
  bucket_entries m t (bucket o) = Some ps -> find_ptr (nodes m) ps (op_key o) = Some p ->
  nodes m !! p = Some n -> key n = op_key o ->
  kv_get (set_nodes m (<[p := KvNode (key n) (op_value o)]> (nodes m))) t k'
  = if decide (k' = op_key o) then Some (op_value o) else kv_get m t k'.
Proof.
  intros Hm Hk Hk' Hps Hf Hn Hkn. unfold kv_get.
  change (bucket_entries (set_nodes m _) t ?i) with (bucket_entries m t i).
  destruct (mem_valid m k' Hm Hk') as (ps' & Hps' & Hc). rewrite Hps'. cbn.
  rewrite (chain_get_found _ ps' p (key n) (op_value o) k' n Hn eq_refl).
  destruct (decide (k' = op_key o)) as [->|Hne].
  - unfold bucket in Hps. rewrite Hps in Hps'. injection Hps' as <-. by rewrite decide_True.
  - rewrite decide_False; [done|]. intros E. apply find_ptr_Some in E as [_ (n' & Hn' & Hkn')]. congruence.
Qed.

Lemma kv_get_link m o a hs h k' :
  mem_ok m -> kv_valid (op_key o) -> kv_valid k' ->
  heads m !! kv_store t = Some hs -> hs !! Z.to_nat (bucket o) = Some h ->
  nodes m !! a = Some (KvNode (op_key o) (op_value o)) ->
  kv_get (set_heads m (store_index (heads m) (kv_store t) (bucket o) (hlist_add_head a h))) t k'
  = if decide (k' = op_key o) then Some (op_value o) else kv_get m t k'.
Proof.
  intros Hm Hk Hk' Hhs Hh Ha. unfold kv_get, bucket.
  erewrite (bucket_entries_store m t t); [|done|done|apply Hk|apply Hk'].
  cbn [nodes set_heads]. destruct (decide (Z.rem k' 1024 = Z.rem (op_key o) 1024)) as [Eb|Eb].
  - rewrite decide_True by done. rewrite Eb, (bucket_entries_hs m t hs (Z.rem (op_key o) 1024) h Hhs Hh).
    unfold chain_get. cbn. rewrite Ha. cbn.
    destruct (Z.eqb_spec (op_key o) k') as [E|E]; cbn.
    + rewrite decide_True by done. by rewrite Ha.
    + by rewrite decide_False by congruence.
  - rewrite decide_False by naive_solver. rewrite decide_False by congruence. done.
Qed.

(** An access leaves the map and the thread's result alone, or it is the point at
    which the call takes effect. *)
Lemma trans_effect m o c c' m' σ :
  mem_ok m -> trans m o c c' m' -> kv_valid (op_key o) -> pc_of o c -> kv_abs m t σ ->
  (forall a b ps, private c = Some a -> 0 <= b -> bucket_entries m t b = Some ps -> a ∉ ps) ->
  (effect c' = effect c /\ kv_abs m' t σ) \/
  (effect c = None /\ exists r σ', effect c' = Some r /\ spec_op σ o r σ' /\ kv_abs m' t σ').
Proof.
  intros Hm Ht Hk Hpc Ha Hpr.
  assert (forall ps, bucket_entries m t (bucket o) = Some ps ->
    σ !! op_key o = chain_get (nodes m) ps (op_key o)) as Hσ.
  { intros ps Hps. rewrite Ha by done. unfold kv_get. unfold bucket in Hps. by rewrite Hps. }
  assert (forall k v m2, o = OpWrite k v ->
    (forall k', kv_valid k' -> kv_get m2 t k' = if decide (k' = op_key o) then Some (op_value o) else kv_get m t k') ->
    exists r σ', Some 0 = Some r /\ spec_op σ o r σ' /\ kv_abs m2 t σ') as Hwrite.
  { intros k v m2 -> Hg. exists 0, (<[k := v]> σ). split_and!; [done|constructor|].
    intros k' Hk'. rewrite Hg by done. destruct (decide (k' = k)) as [->|Hne].
    - by rewrite lookup_insert_eq, decide_True.
    - rewrite lookup_insert_ne, decide_False by done. by apply Ha. }
  destruct Ht as [ls Hls Hb|c c' _ _ He _ _|c c' _ _ He He' _ _|ps Hps Hf|ps p n Hps Hf Hn
    |ps p n Hps Hf Hn Hkn Hin|ps Hps Hf|a Hn|a x Hx|a hs h Hhs Hh Hf Hn].
  - left. by destruct o.
  - left. by split.
  - left. split; [congruence|done].
  - right. split; [done|]. destruct Hpc as [k ->]. eexists _, σ. split_and!; [done| |done].
    specialize (Hσ ps Hps). unfold chain_get in Hσ. rewrite Hf in Hσ. cbn in Hσ.
    replace (-1) with (default (-1) (σ !! k)) by (by rewrite Hσ). constructor.
  - right. split; [done|]. destruct Hpc as [k ->]. eexists _, σ. split_and!; [done| |done].
    specialize (Hσ ps Hps). unfold chain_get in Hσ. rewrite Hf in Hσ. cbn in Hσ. rewrite Hn in Hσ.
    replace (value n) with (default (-1) (σ !! k)) by (by rewrite Hσ). constructor.
  - right. split; [done|]. destruct Hpc as (k & v & Ho). eapply Hwrite; [exact Ho|].
    intros k' Hk'. by eapply kv_get_store.
  - right. split; [done|]. destruct Hpc as (k & v & ->). exists (-1), σ. split_and!; [done| |done].
    constructor. specialize (Hσ ps Hps). unfold chain_get in Hσ. by rewrite Hf in Hσ.
  - left. split; [done|]. intros k' Hk'. erewrite (kv_get_outside m); [by apply Ha|done..|].
    intros b ps Hb Hps. by eapply chain_fresh_notin.
  - left. split; [done|]. intros k' Hk'. erewrite (kv_get_outside m); [by apply Ha|done..|].
    intros b ps Hb Hps. by eapply Hpr.
  - right. split; [done|]. destruct Hpc as (k & v & Ho). eapply Hwrite; [exact Ho|].
    intros k' Hk'. by eapply kv_get_link.
Qed.

(** ** Runs *)

Definition returned (x : kv_op * pc) : Prop := exists r, snd x = Done r.

#[global] Instance returned_dec x : Decision (returned x).
Proof. destruct x as [o []]; first [left; by eexists | right; by intros [? ?]]. Defined.

Definition start (m : kmem) (ops : list kv_op) : sys := Sys m ((fun o => (o, Start)) <$> ops).

Lemma start_lookup m ops i o c : thr (start m ops) !! i = Some (o, c) -> ops !! i = Some o /\ c = Start.
Proof. cbn. rewrite list_lookup_fmap. destruct (ops !! i); cbn; naive_solver. Qed.

Lemma wf_mem_ok m : kv_wf m t -> mem_ok m.
Proof.
  intros Hw. split; [apply Hw..| |apply Hw]. exists (replicate 1024 false). split; [apply Hw|apply length_replicate].
Qed.

Lemma start_inv m ops : kv_wf m t -> Forall (fun o => kv_valid (op_key o)) ops -> inv (start m ops).
Proof.
  intros Hw Hv. rewrite Forall_lookup in Hv. split.
  - by apply wf_mem_ok.
  - intros i o c Hi. apply start_lookup in Hi as [Hi ->]. split; [by eapply Hv|done].
  - intros i o c Hi. apply start_lookup in Hi as [Hi ->].
    destruct (mem_bucket m o (wf_mem_ok m Hw) (Hv i o Hi)) as (_ & h & _ & _ & _ & _ & He & _). by exists (hlist_entries h).
  - intros ls b Hls Hb. cbn in Hls. rewrite (wf_locks m t Hw) in Hls. apply (inj Some) in Hls as <-.
    split; [intros H; apply lookup_replicate_1 in H as [? _]; done|].
    intros (i & [o c] & Hi & Hc & _). apply start_lookup in Hi as [_ ->]. done.
  - intros i j [o c] y b Hi _ [Hc _] _. apply start_lookup in Hi as [_ ->]. done.
  - intros i o c a b ps Hi Hc. apply start_lookup in Hi as [_ ->]. done.
  - intros i j o c o' c' a Hi _ Hc. apply start_lookup in Hi as [_ ->]. done.
Qed.

Lemma inv_steps s s' : inv s -> rtc sstep s s' -> inv s'.
Proof. intros Hi Hr. induction Hr; [done|]. eauto using inv_step. Qed.

(** When every call has returned no lock is held. *)
Lemma inv_quiescent s : inv s -> Forall returned (thr s) -> kv_wf (mem s) t.
Proof.
  intros I Hd. pose proof (inv_mem _ I) as Hm. split; [apply Hm..| |apply Hm].
  destruct (ok_locks _ Hm) as (ls & Hls & Hlen). rewrite Hls. f_equal.
  symmetry. apply replicate_as_elem_of. split; [done|]. intros [] Hin; [exfalso|done].
  apply list_elem_of_lookup in Hin as [b Hb]. pose proof (lookup_lt_Some _ _ _ Hb).
  destruct (proj1 (inv_lock _ I ls (Z.of_nat b) Hls ltac:(lia))) as (i & x & Hx & Hc & _); [by rewrite Nat2Z.id|].
  rewrite Forall_lookup in Hd. destruct (Hd i x Hx) as [r Hr]. by rewrite Hr in Hc.
Qed.

(** ** Theorems *)

(** A run: the states it visits, from the first on. *)
Inductive path : sys -> list sys -> Prop :=
  | path_one s : path s [s]
  | path_step s s' tr : sstep s s' -> path s' tr -> path s (s :: tr).

(** The calls that have taken effect in [s], in the order [h], with results [rs]. *)
Record effects (s : sys) (h : list nat) (rs : list Z) : Prop := {
  eff_len : length h = length rs;
  eff_nodup : NoDup h;
  eff_iff i o c r : thr s !! i = Some (o, c) ->
    effect c = Some r <-> exists n, h !! n = Some i /\ rs !! n = Some r
}.

Lemma effects_none s h rs i o c :
  effects s h rs -> thr s !! i = Some (o, c) -> effect c = None -> i ∉ h.
Proof.
  intros E Hi Hc (n & Hn)%list_elem_of_lookup.
  destruct (lookup_lt_is_Some_2 rs n) as [r Hr]; [rewrite <- (eff_len _ _ _ E); by eapply lookup_lt_Some|].
  destruct (eff_iff _ _ _ E i o c r Hi) as [_ H]. rewrite Hc in H. discriminate H. by exists n.
Qed.

(** One access of a thread either changes no result and not the abstract map, or
    is the moment at which its call takes effect. *)
Lemma effects_step s s' σ h rs :
  inv s -> sstep s s' -> kv_abs (mem s) t σ -> effects s h rs ->
  (kv_abs (mem s') t σ /\ effects s' h rs) \/
  exists (i : nat) o c r σ', thr s !! i = Some (o, c) /\ effect c = None /\ spec_op σ o r σ' /\
    kv_abs (mem s') t σ' /\ effects s' (h ++ [i]) (rs ++ [r]).
Proof.
  intros I Hst Ha E. destruct Hst as [i o c c' m m' ths Hi Hts]. cbn [mem thr] in *.
  destruct (inv_key _ I i o c Hi) as [Hk Hpc].
  destruct (inv_tstep m ths i o c I Hi) as [[H _]|(c2 & m2 & H & Ht & _)]; [congruence|].
  rewrite Hts in H. injection H as <- <-. pose proof (lookup_lt_Some _ _ _ Hi) as Hlt.
  destruct (trans_effect m o c c' m' σ (inv_mem _ I) Ht Hk Hpc Ha) as [[He Ha']|(He & r & σ' & He' & Hs & Ha')].
  { intros a b ps. by eapply (inv_private _ I i). }
  - left. split; [done|]. split; [apply E..|]. intros j oj cj r Hj. cbn in Hj.
    apply list_lookup_insert_Some in Hj as [(<- & [= <- <-] & _)|[Hne Hj]]; [|by apply (eff_iff _ _ _ E j oj)].
    rewrite <- (eff_iff _ _ _ E i o c r Hi). by rewrite He.
  - right. exists i, o, c, r, σ'. split_and!; try done. pose proof (effects_none _ _ _ i o c E Hi He) as Hnot.
    split.
    + rewrite !length_app. cbn. by rewrite (eff_len _ _ _ E).
    + apply NoDup_app. split_and!; [apply E| |apply NoDup_singleton].
      intros x Hx ->%list_elem_of_singleton. done.
    + intros j oj cj r' Hj. cbn in Hj. pose proof (eff_len _ _ _ E) as Hl.
      apply list_lookup_insert_Some in Hj as [(<- & [= <- <-] & _)|[Hne Hj]].
      * rewrite He'. split.
        -- intros [= <-]. exists (length h). by rewrite list_lookup_middle, Hl, list_lookup_middle.
        -- intros (n & Hn & Hr). apply lookup_app_Some in Hn as [Hn|[Hge Hn]];
             [by apply list_elem_of_lookup_2 in Hn|].
           assert (n = length h) as -> by
             (apply lookup_lt_Some in Hr; rewrite length_app in Hr; cbn in Hr; lia).
           rewrite Hl, list_lookup_middle in Hr; congruence.
      * rewrite (eff_iff _ _ _ E j oj cj r' Hj). split; intros (n & Hn & Hr).
        -- exists n. by rewrite !lookup_app_l by (by eapply lookup_lt_Some).
        -- apply lookup_app_Some in Hn as [Hn|[_ Hn]].
           ++ exists n. split; [done|]. rewrite lookup_app_l in Hr; [done|].
              rewrite <- Hl. by eapply lookup_lt_Some.
           ++ apply list_lookup_singleton_Some in Hn as [_ Hn]. congruence.
Qed.

(** The calls of a run in the order in which they take effect: an order [h] of
    thread numbers with results, of which each state visited has seen a prefix. *)
Lemma effects_path s tr σ h rs :
  path s tr -> inv s -> kv_abs (mem s) t σ -> effects s h rs ->
  exists hx rsx os σ' e,
    Forall2 (fun i o => exists c, thr s !! i = Some (o, c)) hx os /\ spec_ops σ os rsx σ' /\
    last tr = Some e /\ inv e /\ kv_abs (mem e) t σ' /\ effects e (h ++ hx) (rs ++ rsx) /\
    Forall (fun s' => exists p, effects s' (take p (h ++ hx)) (take p (rs ++ rsx))) tr.
Proof.
  intros Hp. revert σ h rs. induction Hp as [s|s s' tr Hst Hp IH]; intros σ h rs I Ha E.
  - exists [], [], [], σ, s. rewrite !app_nil_r. split_and!; [constructor|constructor|done..|].
    apply Forall_singleton. exists (length h). rewrite (take_ge rs), take_ge; [done|done|].
    by rewrite (eff_len _ _ _ E).
  - assert (forall i o c, thr s' !! i = Some (o, c) -> exists c', thr s !! i = Some (o, c')) as Hback.
    { destruct Hst as [i o c c' m m' ths Hi _]. intros j oj cj Hj. cbn in *.
      apply list_lookup_insert_Some in Hj as [(<- & [= <- <-] & _)|[_ Hj]]; eauto. }
    assert (forall hx rsx, effects s (take (length h) (h ++ hx)) (take (length h) (rs ++ rsx))) as Hpre.
    { intros. rewrite take_app_length. rewrite (eff_len _ _ _ E), take_app_length. exact E. }
    assert (last (s :: tr) = last tr) as Hlast by (destruct Hp; done).
    destruct (effects_step s s' σ h rs I Hst Ha E) as [[Ha' E']|(i & o & c & r & σ1 & Hi & _ & Hs & Ha' & E')];
      destruct (IH _ _ _ (inv_step _ _ I Hst) Ha' E') as (hx & rsx & os & σ' & e & Hos & Hss & He & Ie & Hae & Ee & Hall).
    + exists hx, rsx, os, σ', e. rewrite Hlast. split_and!; try done; [|constructor; eauto].
      eapply Forall2_impl; [exact Hos|]. intros ?? [? ?]. eauto.
    + exists (i :: hx), (r :: rsx), (o :: os), σ', e. rewrite <- !app_assoc in Ee. rewrite Hlast.
      split_and!; try done; [constructor; [eauto|]|by econstructor|constructor; [eauto|]].
      * eapply Forall2_impl; [exact Hos|]. intros ?? [? ?]. eauto.
      * eapply Forall_impl; [exact Hall|]. intros s1 [p Hp1]. exists p. by rewrite <- !app_assoc in Hp1.
Qed.

Lemma start_effects m ops : effects (start m ops) [] [].
Proof.
  split; [done|constructor|]. intros i o c r Hi. apply start_lookup in Hi as [_ ->].
  split; [done|]. intros (n & Hn & _). done.
Qed.

(** C2: calls with usable keys on a well-formed store are linearizable.  Take any
    interleaving of any number of calls.  There is an order of the calls that have
    taken effect, such that executing them one after another in this order on the
    finite map gives the results that the calls have returned and the map that the
    store holds in the end; calls that have returned are in it, calls not begun are
    not.  The order respects real time: if one call had returned at some moment of
    the run at which another had not begun, it comes before the other.  When all
    calls have returned the store is well-formed. *)
Theorem kv_linearizable m σ ops tr :
  kv_wf m t -> kv_abs m t σ -> Forall (fun o => kv_valid (op_key o)) ops ->
  path (start m ops) tr ->
  exists h rs os σ' e, last tr = Some e /\
    NoDup h /\ Forall2 (fun i o => ops !! i = Some o) h os /\
    spec_ops σ os rs σ' /\ kv_abs (mem e) t σ' /\
    (forall i o r, thr e !! i = Some (o, Done r) -> exists n, h !! n = Some i /\ rs !! n = Some r) /\
    (forall i o, thr e !! i = Some (o, Start) -> i ∉ h) /\
    (forall s i j oi ri oj nj, s ∈ tr ->
       thr s !! i = Some (oi, Done ri) -> thr s !! j = Some (oj, Start) -> h !! nj = Some j ->
       exists ni, h !! ni = Some i /\ (ni < nj)%nat) /\
    (Forall returned (thr e) -> kv_wf (mem e) t).
Proof.
  intros Hw Ha Hv Hp. pose proof (start_inv m ops Hw Hv) as I.
  destruct (effects_path _ _ σ [] [] Hp I Ha (start_effects m ops))
    as (h & rs & os & σ' & e & Hos & Hs & He & Ie & Hae & Ee & Hall). cbn [app] in *.
  exists h, rs, os, σ', e. split_and!; try done; [apply Ee| | | | |by apply inv_quiescent].
  - eapply Forall2_impl; [exact Hos|]. intros i o [c Hi]. by apply start_lookup in Hi as [? _].
  - intros i o r Hi. by apply (eff_iff _ _ _ Ee i o (Done r) r Hi).
  - intros i o Hi. by eapply effects_none.
  - intros s i j oi ri oj nj Hin Hi Hj Hnj. rewrite Forall_forall in Hall. destruct (Hall s Hin) as [p Hp'].
    destruct (proj1 (eff_iff _ _ _ Hp' i oi (Done ri) ri Hi) eq_refl) as (ni & Hni & _).
    apply lookup_take_Some in Hni as [Hni Hlt]. exists ni. split; [done|].
    destruct (decide (nj < p)%nat) as [Hc|]; [|lia]. exfalso.
    apply (effects_none _ _ _ j oj Start Hp' Hj eq_refl). apply list_elem_of_lookup. exists nj.
    by rewrite lookup_take_lt.
Qed.

(** C3: in every state that calls with usable keys reach from a well-formed store no
    access faults, the arrays and chains of the store are well-formed, at most one
    thread is inside each bucket's critical section, and a lock is taken exactly
    while a thread is inside. *)
Theorem kv_threads_safe m ops s :
  kv_wf m t -> Forall (fun o => kv_valid (op_key o)) ops -> rtc sstep (start m ops) s ->
  (forall i o c, thr s !! i = Some (o, c) -> exists r, tstep o c (mem s) = Ok r) /\
  mem_ok (mem s) /\
  (forall i j x y b, thr s !! i = Some x -> thr s !! j = Some y -> holds b x -> holds b y -> i = j) /\
  (forall ls b, locks (mem s) !! kv_locks t = Some ls -> 0 <= b < 1024 ->
     ls !! Z.to_nat b = Some true <-> exists i x, thr s !! i = Some x /\ holds b x).
Proof.
  intros Hw Hv Hr. pose proof (inv_steps _ _ (start_inv m ops Hw Hv) Hr) as I. destruct s as [m' ths].
  split; [|split; [apply I|split; [apply (inv_mutex _ I)|apply (inv_lock _ I)]]].
  intros i o c Hi. destruct (inv_tstep m' ths i o c I Hi) as [[H _]|(c2 & m2 & H & _)]; eauto.
Qed.

(** ** Every call returns *)

(** The length of the list from a position on. *)
Fixpoint len_from (ps : list ptr) (p : ptr) : nat :=
  match ps with
  | [] => 0
  | x :: ps' => if x =? p then S (length ps') else len_from ps' p
  end.
Definition len_opt (ps : list ptr) (pos : option ptr) : nat :=
  match pos with Some p => len_from ps p | None => 0 end.

Lemma len_mid pre p rest : NoDup (pre ++ p :: rest) -> len_from (pre ++ p :: rest) p = S (length rest).
Proof.
  induction pre as [|q pre IH]; cbn; intros Hn.
  - by rewrite Z.eqb_refl.
  - apply NoDup_cons in Hn as [Hq Hn]. destruct (Z.eqb_spec q p) as [->|]; [|auto].
    exfalso. apply Hq. set_solver.
Qed.

Lemma len_head pre rest : NoDup (pre ++ rest) -> len_opt (pre ++ rest) (head rest) = length rest.
Proof. destruct rest as [|p rest]; [done|]. apply len_mid. Qed.

Lemma len_suffix pre p rest : NoDup (pre ++ p :: rest) -> len_opt (pre ++ p :: rest) (head rest) = length rest.
Proof.
  intros Hn. pose proof (len_head (pre ++ [p]) rest) as H. rewrite <- app_assoc in H. by apply H.
Qed.

(** The accesses a call has left, when no list is longer than [N]. *)
Definition rank (N : nat) (m : kmem) (x : kv_op * pc) : nat :=
  let ps := default [] (bucket_entries m t (bucket (fst x))) in
  match snd x with
  | Start => 2 * N + 8
  | WFirst | RFirst => 2 * length ps + 7
  | WScan pos | RScan pos => 2 * len_opt ps pos + 6
  | WKey _ tmp => 2 * len_opt ps tmp + 7
  | RNext p => 2 * len_opt ps (next_of ps p) + 7
  | WAlloc => 5
  | WInit _ => 4
  | WLink _ | WStore _ => 3
  | WUnlock _ | RUnlockFound _ | RUnlock => 2
  | RLoad _ => 1
  | Done _ => 0
  end%nat.

Lemma tstep_rank N m o c c' m' :
  mem_ok m -> kv_valid (op_key o) -> local_ok m o c ->
  (forall ps, bucket_entries m t (bucket o) = Some ps -> length ps <= N)%nat ->
  tstep o c m = Ok (Some c', m') -> (rank N m' (o, c') < rank N m (o, c))%nat.
Proof.
  intros Hm Hk (ps & Hps & Hl) HN. specialize (HN ps Hps).
  pose proof (chain_NoDup _ _ _ (ok_chains m Hm _ _ Hps ltac:(apply Hk))) as Hnd.
  pose proof (entries_ok m o ps Hm Hk Hps) as Hent.
  assert (forall p, load_node p m = Fault Dangling \/ exists n, load_node p m = Ok (n, m)) as Hld.
  { intros p. unfold load_node. mrun. destruct (nodes m !! p); eauto. }
  assert (spin_unlock (kv_locks t) (bucket o) m = Ok (tt, _)) as Hun by exact (spin_unlock_step m o Hm Hk).
  unfold rank. cbn [fst snd].
  destruct c as [| |[p|]|p tmp|p| |a|a|r| |[p|]|p|p|p| |r]; cbn [tstep] in *; fold (bucket o);
    unfold do_kmalloc, store_node, mbind, M_bind, mret, M_ret, get, put, modify, lift; cbv beta iota;
    rewrite ?Hent, ?Hun; rewrite ?Hps; cbn [default from_option id];
    repeat match goal with |- context [load_node ?p m] =>
      let n := fresh "n" in let E := fresh in
      destruct (Hld p) as [E|[n E]]; rewrite E; [done|]; cbv beta iota; rewrite ?Hent end.
  - destruct (index (locks m) (kv_locks t) (bucket o)) as [[]|]; [done| |done].
    intros [= <- <-]. destruct o; cbn; change (bucket_entries (set_locks m _) t ?b) with (bucket_entries m t b);
      rewrite Hps; cbn; lia.
  - intros [= <- <-]. rewrite Hps. cbn [default from_option id]. pose proof (len_head [] ps Hnd) as Hlh. cbn [app] in Hlh. lia.
  - destruct Hl as (pre & rest & -> & Hh & _). destruct rest as [|q rest]; [done|]. injection Hh as <-.
    intros [= <- <-]. rewrite Hps. cbn [default from_option id len_opt].
    rewrite (next_of_mid _ _ _ Hnd), (len_mid _ _ _ Hnd), (len_suffix _ _ _ Hnd). lia.
  - intros [= <- <-]. cbn. lia.
  - intros [= <- <-]. destruct (key n =? op_key o); cbn; rewrite ?Hps; cbn; lia.
  - intros [= <- <-]. cbn. lia.
  - destruct (kmalloc m 24 =? NULL); intros [= <- <-]; cbn; lia.
  - intros [= <- <-]. cbn. lia.
  - destruct (index (heads m) (kv_store t) (bucket o)); [|done]. intros [= <- <-]. cbn. lia.
  - intros [= <- <-]. cbn. lia.
  - intros [= <- <-]. rewrite Hps. cbn [default from_option id]. pose proof (len_head [] ps Hnd) as Hlh. cbn [app] in Hlh. lia.
  - destruct Hl as (pre & rest & -> & Hh & _). destruct rest as [|q rest]; [done|]. injection Hh as <-.
    intros [= <- <-]. destruct (key n =? op_key o); rewrite ?Hps; cbn [default from_option id len_opt];
      rewrite ?(next_of_mid _ _ _ Hnd), ?(len_mid _ _ _ Hnd), ?(len_suffix _ _ _ Hnd); lia.
  - intros [= <- <-]. cbn. lia.
  - intros [= <- <-]. rewrite Hps. cbn. lia.
  - intros [= <- <-]. cbn. lia.
  - intros [= <- <-]. cbn. lia.
  - intros [= <- <-]. cbn. lia.
  - done.
Qed.

(** The other threads' ranks do not change. *)
Lemma rank_frame N m o c c' m' o2 c2 :
  mem_ok m -> trans m o c c' m' -> kv_valid (op_key o) -> kv_valid (op_key o2) ->
  (crit c = true -> crit c2 = true -> bucket o <> bucket o2) ->
  rank N m' (o2, c2) = rank N m (o2, c2).
Proof.
  intros Hm Ht Hk Hk2 Hmx. destruct (crit c2) eqn:Ec2; [|by destruct c2].
  assert (bucket_entries m' t (bucket o2) = bucket_entries m t (bucket o2)) as He.
  { destruct Ht as [| | | | | | | | |a hs h Hhs Hh]; try done.
    unfold bucket at 1. erewrite bucket_entries_store; [|done..|apply Hk|apply Hk2].
    rewrite decide_False; [done|]. intros [_ Hb]. by apply Hmx. }
  unfold rank. cbn [fst snd]. by rewrite He.
Qed.

(** A write that has not taken effect may still make its list longer. *)
Definition pending (x : kv_op * pc) : nat :=
  match fst x, effect (snd x) with OpWrite _ _, None => 1 | _, _ => 0 end.

Definition short (N : nat) (s : sys) : Prop :=
  forall b ps, 0 <= b -> bucket_entries (mem s) t b = Some ps ->
    (length ps + sum_list_with pending (thr s) <= N)%nat.

Lemma sum_eq {A} (f f' : A -> nat) l :
  (forall j z, l !! j = Some z -> f' z = f z) -> sum_list_with f' l = sum_list_with f l.
Proof.
  induction l as [|z l IH]; intros H; [done|]. cbn. rewrite (H 0%nat z eq_refl). f_equal.
  apply IH. intros j z' Hj. by apply (H (S j)).
Qed.

Lemma sum_step {A} (f f' : A -> nat) l i x y :
  l !! i = Some x -> (f' y < f x)%nat -> (forall j z, j <> i -> l !! j = Some z -> f' z = f z) ->
  (sum_list_with f' (<[i := y]> l) < sum_list_with f l)%nat.
Proof.
  intros Hi Hlt Heq. pose proof (lookup_lt_Some _ _ _ Hi) as Hlen.
  rewrite insert_take_drop by done. rewrite <- (take_drop_middle l i x Hi) at 3.
  rewrite !sum_list_with_app. cbn.
  rewrite (sum_eq f f' (take i l)), (sum_eq f f' (drop (S i) l)); [lia| |].
  - intros j z Hj. rewrite lookup_drop in Hj. apply (Heq _ _) in Hj; [done|lia].
  - intros j z Hj. apply lookup_take_Some in Hj as [Hj Hlt2]. apply (Heq _ _) in Hj; [done|lia].
Qed.

Lemma short_step N s s' : inv s -> short N s -> sstep s s' -> short N s'.
Proof.
  intros I Hs Hst. destruct Hst as [i o c c' m m' ths Hi Hts].
  destruct (inv_key _ I i o c Hi) as [Hk Hpc].
  destruct (inv_tstep m ths i o c I Hi) as [[H _]|(c2 & m2 & H & Ht & _)]; [congruence|].
  rewrite Hts in H. injection H as <- <-. intros b ps' Hb Hps'. cbn [mem thr] in *.
  pose proof (sum_insert pending ths i (o, c) (o, c') Hi) as Hsum.
  destruct (trans_entries m o c c' m' b ps' Ht Hk Hb Hps') as [He|(a & ps & -> & -> & He & ->)].
  - specialize (Hs b ps' Hb He). cbn in Hs.
    assert (pending (o, c') <= pending (o, c))%nat; [|lia].
    unfold pending. cbn. destruct o; [|done]. destruct Ht; cbn in *; try lia;
      repeat case_match; simplify_eq; try lia.
  - specialize (Hs (bucket o) ps Hb He). cbn in Hs |- *.
    assert (pending (o, WLink a) = 1%nat /\ pending (o, c') = 0%nat) as [H1 H2]; [|lia].
    destruct Hpc as (k & v & ->). inversion Ht; subst; try done.
Qed.

Definition total (N : nat) (s : sys) : nat := sum_list_with (rank N (mem s)) (thr s).

Lemma total_step N s s' : inv s -> short N s -> sstep s s' -> (total N s' < total N s)%nat.
Proof.
  intros I Hs Hst. destruct Hst as [i o c c' m m' ths Hi Hts].
  destruct (inv_key _ I i o c Hi) as [Hk Hpc].
  destruct (inv_tstep m ths i o c I Hi) as [[H _]|(c2 & m2 & H & Ht & _)]; [congruence|].
  rewrite Hts in H. injection H as <- <-.
  apply (sum_step _ _ ths i (o, c) (o, c') Hi).
  - eapply tstep_rank; [apply (inv_mem _ I)|done|exact (inv_local _ I i o c Hi)| |exact Hts].
    intros ps Hps. specialize (Hs (bucket o) ps ltac:(apply Hk) Hps). lia.
  - intros j [o2 c2] Hne Hj. apply (rank_frame N m o c c' m'); [apply (inv_mem _ I)|done|done|by eapply (inv_key _ I)|].
    intros H1 H2 Hb. apply Hne. by eapply (inv_mutex _ I j i _ _ (bucket o2) Hj Hi).
Qed.

(** Some thread can move unless all have returned. *)
Lemma inv_progress s :
  inv s -> Forall returned (thr s) \/ exists s', sstep s s'.
Proof.
  intros I. destruct s as [m ths].
  assert (forall i o c, ths !! i = Some (o, c) -> crit c = true -> exists s', sstep (Sys m ths) s') as Hcrit.
  { intros i o c Hi Hc. destruct (inv_tstep m ths i o c I Hi) as [[_ [[r ->]|[-> _]]]|(c' & m' & H & _)]; [done..|].
    eexists. by eapply sstep_thread. }
  destruct (decide (Forall returned ths)) as [Hd|Hd]; [by left|right].
  apply not_Forall_Exists in Hd; [|apply _].
  apply Exists_exists in Hd as ([o c] & Hin & Hc). apply list_elem_of_lookup in Hin as [i Hi].
  destruct (inv_tstep m ths i o c I Hi) as [[_ [[r ->]|[-> (ls & Hls & Hb)]]]|(c' & m' & H & _)].
  - destruct Hc. by eexists.
  - destruct (inv_key _ I i _ _ Hi) as [Hk _].
    destruct (proj1 (inv_lock _ I ls (bucket o) Hls (rem_1024_bound _ Hk)) Hb) as (j & [o2 c2] & Hj & Hc2 & _).
    by eapply Hcrit.
  - eexists. by eapply sstep_thread.
Qed.

Lemma short_start N m (ops : list kv_op) :
  (forall b ps, 0 <= b -> bucket_entries m t b = Some ps -> (length ps + length ops <= N)%nat) ->
  short N (start m ops).
Proof.
  intros HN b ps Hb Hps. specialize (HN b ps Hb Hps). cbn.
  assert (sum_list_with pending ((fun o => (o, Start)) <$> ops) <= length ops)%nat; [|cbn in *; lia].
  clear. induction ops as [|[] ops IH]; cbn in *; lia.
Qed.

(** C9: calls with usable keys on a well-formed store whose chains are no longer than
    [N] minus the number of calls return under every schedule: a run of the threads has a bounded
    number of accesses, whoever moves, and it can only stop when all calls have
    returned.  No deadlock, and no thread waits forever in a run that cannot be
    extended. *)
Theorem kv_calls_return N m ops :
  kv_wf m t -> Forall (fun o => kv_valid (op_key o)) ops ->
  (forall b ps, 0 <= b -> bucket_entries m t b = Some ps -> (length ps + length ops <= N)%nat) ->
  forall n s, nsteps sstep n (start m ops) s ->
  (n <= length ops * (2 * N + 8))%nat /\
  (Forall returned (thr s) \/ exists s', sstep s s').
Proof.
  intros Hw Hv HN n s Hn.
  assert (inv s /\ short N s /\ n + total N s <= total N (start m ops))%nat as (I & _ & Hle).
  { pose proof (start_inv m ops Hw Hv) as I0. pose proof (short_start N m ops HN) as S0.
    revert I0 S0. induction Hn as [s|n s1 s2 s3 H12 _ IH]; [intros; split_and!; (done || lia)|].
    intros I1 S1. pose proof (total_step N _ _ I1 S1 H12).
    destruct (IH (inv_step _ _ I1 H12) (short_step N _ _ I1 S1 H12)) as (? & ? & ?). split_and!; [done..|lia]. }
  split; [|by apply inv_progress].
  assert (total N (start m ops) = length ops * (2 * N + 8))%nat; [|lia].
  unfold total, start. cbn [mem thr]. clear. induction ops as [|o ops IH]; [done|]. cbn in *. lia.
Qed.

(** One thread tries to move; it passes when it waits or has returned. *)
Definition move (i : nat) (s : sys) : option sys :=
  '(o, c) ← thr s !! i;
  match tstep o c (mem s) with
  | Ok (Some c', m') => Some (Sys m' (<[i := (o, c')]> (thr s)))
  | _ => None
  end.

(** The states visited when the threads try to move in the order of a schedule. *)
Fixpoint visited (sch : list nat) (s : sys) : list sys :=
  match sch with
  | [] => [s]
  | i :: sch' => match move i s with Some s' => s :: visited sch' s' | None => visited sch' s end
  end.

Definition schedule (sch : list nat) (s : sys) : sys := default s (last (visited sch s)).

Lemma move_step i s s' : move i s = Some s' -> sstep s s'.
Proof.
  unfold move. destruct (thr s !! i) as [[o c]|] eqn:Hi; cbn; [|done].
  destruct (tstep o c (mem s)) as [[[c'|] m']|] eqn:Ht; intros [= <-].
  destruct s as [m ths]. by eapply sstep_thread.
Qed.

Lemma visited_path sch s : path s (visited sch s).
Proof.
  revert s. induction sch as [|i sch IH]; intros s; cbn; [constructor|].
  destruct (move i s) as [s'|] eqn:Hm; [|apply IH].
  econstructor; [by eapply move_step|apply IH].
Qed.

Lemma path_last s tr : path s tr -> exists e, last tr = Some e /\ rtc sstep s e.
Proof.
  induction 1 as [s|s s' tr Hs Hp (e & He & Hr)]; [eauto using rtc_refl|].
  exists e. split; [by destruct Hp|by eapply rtc_l].
Qed.

Lemma schedule_steps sch s : rtc sstep s (schedule sch s).
Proof. unfold schedule. by destruct (path_last _ _ (visited_path sch s)) as (e & -> & Hr). Qed.

End KvConc.

(** ** Witnesses *)

(** A writer and a reader of the same key; the reader is interrupted after it has
    released the lock. *)
Definition ops2 : list kv_op := [OpWrite 5 7; OpRead 5].
Definition junk0 : kv_node := KvNode 0 0.
Definition run2 (sch : list nat) : sys := schedule (KA := bump 10) task0 junk0 sch (start mem0 ops2).

(** The writer starts and the reader waits for the lock; then each runs to its end. *)
Example run2_results :
  snd <$> thr (run2 [0; 0; 1; 0; 0; 0; 0; 0; 1; 0; 1; 1; 1; 1; 1; 1])%nat = [Done 0; Done 7].
Proof. vm_compute. reflexivity. Qed.

Lemma mem0_empty : kv_abs mem0 task0 ∅.
Proof. intros k _. rewrite lookup_empty. symmetry. by apply fresh_store_empty. Qed.

Lemma ops2_valid : Forall (fun o => kv_valid (op_key o)) ops2.
Proof. repeat constructor; by vm_compute. Qed.

(** The write is over before the read begins: it comes first, and the read gets 7. *)
Definition tr2 : list sys :=
  visited (KA := bump 10) task0 junk0 [0; 0; 0; 0; 0; 0; 0; 1; 1; 1; 1; 1]%nat (start mem0 ops2).

Lemma kv_linearizable_witness :
  exists h rs os σ' e, last tr2 = Some e /\ Forall2 (fun i o => ops2 !! i = Some o) h os /\
    spec_ops ∅ os rs σ' /\ kv_abs (mem e) task0 σ' /\
    (forall nj, h !! nj = Some 1%nat -> exists ni, h !! ni = Some 0%nat /\ (ni < nj)%nat).
Proof.
  destruct (kv_linearizable (KA := bump 10) task0 junk0 mem0 ∅ ops2 tr2 mem0_wf mem0_empty ops2_valid
    (visited_path (KA := bump 10) task0 junk0 _ _))
    as (h & rs & os & σ' & e & H1 & _ & H2 & H3 & H4 & _ & _ & H5 & _).
  exists h, rs, os, σ', e. split; [exact H1|]. split; [exact H2|]. split; [exact H3|]. split; [exact H4|].
  intros nj. apply (H5 (default (start mem0 ops2) (tr2 !! 7%nat)) 0%nat 1%nat (OpWrite 5 7) 0 (OpRead 5)).
  - apply (list_elem_of_lookup_2 _ 7). vm_compute. reflexivity.
  - vm_compute. reflexivity.
  - vm_compute. reflexivity.
Defined.

Lemma kv_threads_safe_witness :
  (forall i o c, thr (run2 [0; 1; 0]%nat) !! i = Some (o, c) ->
     exists r, tstep (KA := bump 10) task0 junk0 o c (mem (run2 [0; 1; 0]%nat)) = Ok r) /\
  (forall i j x y b, thr (run2 [0; 1; 0]%nat) !! i = Some x -> thr (run2 [0; 1; 0]%nat) !! j = Some y ->
     holds b x -> holds b y -> i = j).
Proof.
  destruct (kv_threads_safe (KA := bump 10) task0 junk0 mem0 ops2 (run2 [0; 1; 0]%nat) mem0_wf ops2_valid
              (schedule_steps (KA := bump 10) task0 junk0 _ _)) as (H1 & _ & H2 & _).
  split; [exact H1|exact H2].
Defined.

Lemma mem0_short b ps :
  0 <= b -> bucket_entries mem0 task0 b = Some ps -> (length ps + length ops2 <= 2)%nat.
Proof.
  intros _. unfold bucket_entries, mem0. cbn [heads kv_store task0]. rewrite lookup_singleton_eq. cbn.
  destruct (replicate 1024 [] !! Z.to_nat b) as [h|] eqn:E; [|done]. cbn. intros [= <-].
  apply lookup_replicate_1 in E as [-> _]. cbn. lia.
Qed.

Lemma kv_calls_return_witness :
  (0 <= 2 * (2 * 2 + 8))%nat /\ exists s', sstep (KA := bump 10) task0 junk0 (start mem0 ops2) s'.
Proof.
  destruct (kv_calls_return (KA := bump 10) task0 junk0 2 mem0 ops2 mem0_wf ops2_valid mem0_short 0
    (start mem0 ops2) (nsteps_O _ _)) as [H1 [H2|H2]]; [|split; [exact H1|exact H2]].
  exfalso. apply Forall_cons in H2 as [[r Hr] _]. discriminate.
Defined.
