(* ===== verification/KvClients.v ===== *)
(** * KvClients: the programs that use the key-value store

    Models the two wrappers of [user/kv_syscall/kv.h], the consistency test
    [ch2_1/test1-serial.c] with its threads, and the test module
    [ch2_1/test3-kernel-module.c].  The store below them is the atomic
    specification [spec_op] of [KvStore], which [KvConc] shows the concurrent calls
    to refine; random numbers are scripts chosen in advance, over all of which the
    theorems quantify. *)

From Stdlib Require Import ZArith Lia.
From stdpp Require Import base gmap list relations.
From S2P Require Import Prelude KvStore.

(** ** The wrappers *)

(** The C library's [syscall] answers -1, with the error in [errno], for results
    from -4095 to -1. *)
Definition libc_syscall (r : Z) : Z := if (- MAX_ERRNO <=? r) && (r <? 0) then -1 else r.

(** The wrappers return the [long] of [syscall] as an [int]. *)
Definition user_result (r : Z) : Z := swrap 32 (libc_syscall r).

(** A call of a wrapper. *)
Inductive user_op (σ : gmap Z Z) (op : kv_op) (x : Z) (σ' : gmap Z Z) : Prop :=
| user_call r : spec_op σ op r σ' -> x = user_result r -> user_op σ op x σ'.

Lemma user_result_int r : is_s 32 r -> user_result r = if (- MAX_ERRNO <=? r) && (r <? 0) then -1 else r.
Proof.
  intros Hr. unfold user_result, libc_syscall. destruct ((- MAX_ERRNO <=? r) && (r <? 0)); [done|].
  by apply swrap_small.
Qed.

Lemma user_write_cases σ k v x σ' :
  user_op σ (OpWrite k v) x σ' -> (x = 0 /\ σ' = <[k := v]> σ) \/ (x = -1 /\ σ' = σ /\ σ !! k = None).
Proof. intros [r Hs ->]. inversion Hs; subst; [by left|by right]. Qed.

Lemma user_read_cases σ k x σ' : user_op σ (OpRead k) x σ' -> σ' = σ /\ x = user_result (default (-1) (σ !! k)).
Proof. intros [r Hs ->]. by inversion Hs; subst. Qed.

(** What a program reads after it has written: the value, except that the values
    from -4095 to -2 come back as -1, as if the key were absent. *)
Theorem user_read_back σ k v x σ1 y σ2 :
  is_s 32 v -> user_op σ (OpWrite k v) x σ1 -> x <> -1 -> user_op σ1 (OpRead k) y σ2 ->
  (y = v <-> ~ (- MAX_ERRNO <= v <= -2)) /\ (- MAX_ERRNO <= v <= -2 -> y = -1) /\ σ2 = <[k := v]> σ.
Proof.
  intros Hv [[-> ->]|(-> & _)]%user_write_cases Hx; [|done]. intros [-> ->]%user_read_cases.
  rewrite lookup_insert_eq. cbn [default from_option id]. rewrite user_result_int by done. unfold MAX_ERRNO.
  destruct (Z.leb_spec (-(4095)) v), (Z.ltb_spec v 0); cbn; split_and!; try done; lia.
Qed.

(** ** The consistency test *)

Definition MAX_KEY : Z := 2048.

(** One iteration: key, value and operation drawn by [rand]. *)
Record draw := Draw { d_key : Z; d_val : Z; d_write : bool }.

(** Where a thread is in its loop, with the draws it has left: before the call, after
    a successful [write_kv], or after [read_kv] with its answer. *)
Inductive tpos := Top | Written (k v : Z) | Got (k r : Z).

Record tthread := TThread { at_ : tpos; script : list draw }.

Inductive report := WriteError (k : Z) | Inconsistent (k expected got : Z).

Record tstate := TState {
  store : gmap Z Z;
  expected_values : gmap Z Z;      (** an absent key is the initial -1 *)
  tthreads : list tthread;
  reports : list report
}.

Definition expected (s : tstate) (k : Z) : Z := default (-1) (expected_values s !! k).

(** A step of [thread_function]: a call, or a section under the mutex with what
    follows it. *)
Inductive thread_function : tstate -> tthread -> tstate -> tthread -> Prop :=
| tf_write k v sc σ' x s :
    user_op (store s) (OpWrite k v) x σ' -> x <> -1 ->
    thread_function s (TThread Top (Draw k v true :: sc))
      (TState σ' (expected_values s) (tthreads s) (reports s)) (TThread (Written k v) sc)
| tf_write_fails k v sc σ' s :
    user_op (store s) (OpWrite k v) (-1) σ' ->
    thread_function s (TThread Top (Draw k v true :: sc))
      (TState σ' (expected_values s) (tthreads s) (reports s ++ [WriteError k])) (TThread Top sc)
| tf_expect k v sc s :
    thread_function s (TThread (Written k v) sc)
      (TState (store s) (<[k := v]> (expected_values s)) (tthreads s) (reports s)) (TThread Top sc)
| tf_read k v sc σ' x s :
    user_op (store s) (OpRead k) x σ' ->
    thread_function s (TThread Top (Draw k v false :: sc))
      (TState σ' (expected_values s) (tthreads s) (reports s)) (TThread (Got k x) sc)
| tf_compare k r sc s :
    thread_function s (TThread (Got k r) sc)
      (TState (store s) (expected_values s) (tthreads s)
         (if negb (r =? -1) && negb (r =? expected s k) then reports s ++ [Inconsistent k (expected s k) r]
          else reports s))
      (TThread Top sc).

Definition set_threads (ts : list tthread) (s : tstate) : tstate :=
  TState (store s) (expected_values s) ts (reports s).

Inductive tstep : tstate -> tstate -> Prop :=
| tstep_thread i t t' s s' :
    tthreads s !! i = Some t -> thread_function s t s' t' ->
    tstep s (set_threads (<[i := t']> (tthreads s)) s').

(** [main] starts all threads on an empty store with nothing expected.  If a thread
    cannot be created, [main] returns -1 and the process ends: what happened until
    then is a beginning of a run with the scripts of the threads created before. *)
Definition test_start (scripts : list (list draw)) : tstate := TState ∅ ∅ (TThread Top <$> scripts) [].

Definition all_returned (s : tstate) : Prop := Forall (fun t => t = TThread Top []) (tthreads s).

(** Keys and values are what [rand] and the remainder give. *)
Definition draw_ok (d : draw) : Prop := 0 <= d_key d < MAX_KEY /\ 0 <= d_val d < 2 ^ 31.

(** *** It ends *)

Definition weight (t : tthread) : nat :=
  (2 * List.length (script t) + match at_ t with Top => 0 | _ => 1 end)%nat.
Definition total_weight (s : tstate) : nat := sum_list_with weight (tthreads s).

Lemma tf_weight s t s' t' : thread_function s t s' t' -> (weight t' < weight t)%nat /\ tthreads s' = tthreads s.
Proof. destruct 1; cbn; split; (done || lia). Qed.

Lemma tstep_weight s s' : tstep s s' -> (total_weight s' < total_weight s)%nat.
Proof.
  destruct 1 as [i t t' s s' Hi Hf]. apply tf_weight in Hf as [Hw _]. unfold total_weight. cbn.
  pose proof (sum_insert weight _ _ _ t' Hi). lia.
Qed.

(** A thread that has not returned can go on. *)
Lemma tstep_progress s : all_returned s \/ exists s', tstep s s'.
Proof.
  destruct (decide (Forall (fun t => weight t = 0%nat) (tthreads s))) as [H0|Hn].
  - left. eapply Forall_impl; [exact H0|]. intros [[|k v|k r] [|d sc]]; cbn; (done || lia).
  - right. apply not_Forall_Exists, Exists_exists in Hn as (t & Hin & Hw); [|intros t; apply _].
    apply list_elem_of_lookup in Hin as [i Hi].
    assert (exists s' t', thread_function s t s' t') as (s' & t' & Hf).
    { destruct t as [[|k v|k r] sc]; [destruct sc as [|[k v []] sc]| |].
      - by destruct Hw.
      - eexists _, _. apply (tf_write k v sc (<[k := v]> (store s)) 0); [|done].
        econstructor; [constructor|reflexivity].
      - eexists _, _. eapply (tf_read k v sc). econstructor; [constructor|reflexivity].
      - eexists _, _. constructor.
      - eexists _, _. constructor. }
    eexists. by econstructor.
Qed.

(** *** Keys of one thread *)

(** The thread has nothing to do with the key. *)
Definition avoids (k : Z) (t : tthread) : Prop :=
  Forall (fun d => d_key d <> k) (script t) /\
  match at_ t with Top => True | Written k' _ | Got k' _ => k' <> k end.

Definition values_ok (t : tthread) : Prop :=
  Forall draw_ok (script t) /\ match at_ t with Written _ v => 0 <= v < 2 ^ 31 | _ => True end.

(** Store and expectation agree on the key, up to an update its thread still owes. *)
Definition agree (k : Z) (s : tstate) (t : tthread) : Prop :=
  (forall v, store s !! k = Some v -> 0 <= v < 2 ^ 31) /\
  match at_ t with
  | Written k' v => if k' =? k then store s !! k = Some v else store s !! k = expected_values s !! k
  | Got k' r => store s !! k = expected_values s !! k /\ (k' = k -> r = user_result (default (-1) (store s !! k)))
  | Top => store s !! k = expected_values s !! k
  end.

Definition accused (k : Z) (r : report) : Prop := match r with Inconsistent k' _ _ => k' = k | _ => False end.

Record private_inv (i : nat) (k : Z) (s : tstate) : Prop := {
  pi_others j t : tthreads s !! j = Some t -> j <> i -> avoids k t;
  pi_values j t : tthreads s !! j = Some t -> values_ok t;
  pi_agree t : tthreads s !! i = Some t -> agree k s t;
  pi_clean : Forall (fun r => ~ accused k r) (reports s)
}.

(** Every step keeps the values in range. *)
Lemma tf_values s t s' t' : thread_function s t s' t' -> values_ok t -> values_ok t'.
Proof.
  intros Hf [Hd Hv]. destruct Hf; split; cbn in *; try done;
    try (apply Forall_cons_1 in Hd as [Hd Hr]; cbn in Hd); try done.
  destruct Hd as [_ ?]. done.
Qed.

(** A step on other keys. *)
Lemma tf_avoids k s t s' t' :
  thread_function s t s' t' -> avoids k t ->
  avoids k t' /\ store s' !! k = store s !! k /\ expected_values s' !! k = expected_values s !! k /\
  (Forall (fun r => ~ accused k r) (reports s) -> Forall (fun r => ~ accused k r) (reports s')).
Proof.
  intros Hf [Hd Ha].
  destruct Hf as [k' v sc σ' x s Hu Hx|k' v sc σ' s Hu|k' v sc s|k' v sc σ' x s Hu|k' r sc s]; cbn in *;
    try (apply Forall_cons_1 in Hd as [Hk Hd]; cbn in Hk).
  - apply user_write_cases in Hu as [[-> ->]|(-> & _)]; [|done]. split_and!; try done. by apply lookup_insert_ne.
  - apply user_write_cases in Hu as [[? _]|(_ & -> & _)]; [done|]. split_and!; try done.
    intros Hr. apply Forall_app. split; [done|]. constructor; [by intros []|constructor].
  - split_and!; try done. by apply lookup_insert_ne.
  - apply user_read_cases in Hu as [-> ->]. done.
  - split_and!; try done. intros Hr. destruct (_ && _); [|done]. apply Forall_app. split; [done|]. constructor; [done|constructor].
Qed.

(** A step of the thread the key belongs to. *)
Lemma tf_agree k s t s' t' :
  thread_function s t s' t' -> values_ok t -> agree k s t -> Forall (fun r => ~ accused k r) (reports s) ->
  agree k s' t' /\ Forall (fun r => ~ accused k r) (reports s').
Proof.
  intros Hf [Hd Hv] [Hs Ha] Hr.
  destruct Hf as [k' v sc σ' x s Hu Hx|k' v sc σ' s Hu|k' v sc s|k' v sc σ' x s Hu|k' r sc s]; cbn in *;
    try (apply Forall_cons_1 in Hd as [Hk Hd]; cbn in Hk).
  - apply user_write_cases in Hu as [[-> ->]|(-> & _)]; [|done]. split; [|done].
    destruct (Z.eqb_spec k' k) as [->|Hne]; split; cbn; rewrite ?lookup_insert_eq, ?lookup_insert_ne by done.
    + intros ? [= <-]. apply Hk.
    + by rewrite Z.eqb_refl.
    + done.
    + by rewrite (proj2 (Z.eqb_neq k' k) Hne).
  - apply user_write_cases in Hu as [[? _]|(_ & -> & _)]; [done|]. split; [done|].
    apply Forall_app. split; [done|]. constructor; [by intros []|constructor].
  - split; [|done]. split; [done|]. cbn. destruct (Z.eqb_spec k' k) as [->|Hne].
    + by rewrite lookup_insert_eq.
    + by rewrite lookup_insert_ne.
  - apply user_read_cases in Hu as [-> ->]. split; [|done]. split; [done|]. cbn. split; [done|]. by intros ->.
  - destruct Ha as [Ha Hgot]. split; [done|].
    destruct (negb (r =? -1) && negb (r =? expected s k')) eqn:E; [|done].
    apply Forall_app. split; [done|]. constructor; [|constructor]. cbn. intros ->.
    rewrite (Hgot eq_refl) in E. unfold expected in E. rewrite <- Ha in E.
    destruct (store s !! k) as [v|] eqn:Hst; cbn in E; [|done].
    specialize (Hs v eq_refl). rewrite user_result_int in E by (unfold is_s; cbn; lia).
    destruct (Z.ltb_spec v 0); [lia|]. rewrite andb_false_r in E.
    rewrite Z.eqb_refl in E. by rewrite andb_false_r in E.
Qed.

Lemma key_step i k s s' : private_inv i k s -> tstep s s' -> private_inv i k s'.
Proof.
  intros [Ho Hv Ha Hc] Hs. destruct Hs as [j t t' s s' Hj Hf].
  pose proof (tf_values _ _ _ _ Hf (Hv j t Hj)) as Hv'.
  assert (forall l x, <[j := t']> (tthreads s) !! l = Some x ->
            (l = j /\ x = t') \/ (l <> j /\ tthreads s !! l = Some x)) as Hl.
  { intros l x. destruct (decide (l = j)) as [->|Hne].
    - rewrite list_lookup_insert_eq by by eapply lookup_lt_Some. left. naive_solver.
    - rewrite list_lookup_insert_ne by done. by right. }
  destruct (decide (j = i)) as [->|Hji].
  - destruct (tf_agree k _ _ _ _ Hf (Hv i t Hj) (Ha t Hj) Hc) as [Ha' Hc'].
    constructor; cbn; [|intros l x [[-> ->]|[? ?]]%Hl; [done|by eapply Hv]| |done].
    + intros l x [[-> ->]|[? ?]]%Hl Hne; [done|by eapply Ho].
    + intros x [[_ ->]|[? _]]%Hl; [|done]. exact Ha'.
  - destruct (tf_avoids k _ _ _ _ Hf (Ho j t Hj Hji)) as (Hav & Hst & Hex & Hc').
    constructor; cbn; [|intros l x [[-> ->]|[? ?]]%Hl; [done|by eapply Hv]| |by apply Hc'].
    + intros l x [[-> ->]|[? ?]]%Hl Hne; [done|by eapply Ho].
    + intros x [[? _]|[_ Hx]]%Hl; [congruence|]. destruct (Ha x Hx) as [H1 H2].
      split; cbn; rewrite Hst; [done|]. destruct (at_ x); by rewrite Hex.
Qed.

(** C27: the consistency test, with any number of threads and any random numbers:
    every run ends with all threads returned, and it never accuses the store about
    a key that only one of the threads uses; a test with one thread accuses it of
    nothing. *)
Theorem serial_test_sound scripts :
  Forall (Forall draw_ok) scripts ->
  sn tstep (test_start scripts) /\
  forall s, rtc tstep (test_start scripts) s ->
    (all_returned s \/ exists s', tstep s s') /\
    forall i k,
      (forall j sc, scripts !! j = Some sc -> j <> i -> Forall (fun d => d_key d <> k) sc) ->
      forall e g, Inconsistent k e g ∉ reports s.
Proof.
  intros Hd. split.
  - generalize (test_start scripts). intros s. remember (total_weight s) as n eqn:Hn. revert s Hn.
    induction n as [n IH] using lt_wf_ind. intros s ->. constructor. intros s' Hs.
    by eapply IH; [apply tstep_weight|].
  - intros s Hr. split; [apply tstep_progress|]. intros i k Hk e g Hin.
    assert (private_inv i k (test_start scripts)) as H0.
    { constructor; cbn; [| | |constructor].
      - intros j t Ht Hj. apply list_lookup_fmap_Some in Ht as (sc & -> & Hsc). by split; [eapply Hk|].
      - intros j t Ht. apply list_lookup_fmap_Some in Ht as (sc & -> & Hsc). split; [|done]. by eapply Forall_lookup_1.
      - intros t Ht. apply list_lookup_fmap_Some in Ht as (sc & -> & Hsc). by split. }
    assert (private_inv i k s) as [_ _ _ Hc] by (induction Hr; eauto using key_step).
    rewrite Forall_forall in Hc. by apply (Hc _ Hin).
Qed.

(** Keys that two threads use are another matter: the expectation is updated after
    the call and not together with it.  Here a read comes in between, and the test
    accuses a store that did nothing wrong. *)
Definition race : list (list draw) := [[Draw 5 1 true]; [Draw 5 0 false]].

Lemma thread_step i t t' s s' s'' :
  tthreads s !! i = Some t -> thread_function s t s' t' ->
  s'' = set_threads (<[i := t']> (tthreads s)) s' -> tstep s s''.
Proof. intros Hi Hf ->. by econstructor. Qed.

Example race_accuses :
  exists s, rtc tstep (test_start race) s /\ reports s = [Inconsistent 5 (-1) 1] /\ store s = {[ 5 := 1 ]}.
Proof.
  eexists. split; [|split].
  - eapply rtc_l.
    { eapply (thread_step 0); [reflexivity| |reflexivity].
      apply (tf_write 5 1 [] {[ 5 := 1 ]} 0); [|done]. econstructor; [apply spec_write|reflexivity]. }
    eapply rtc_l.
    { eapply (thread_step 1); [reflexivity| |reflexivity].
      apply (tf_read 5 0 [] {[ 5 := 1 ]} 1). econstructor; [apply spec_read|reflexivity]. }
    eapply rtc_once, (thread_step 1); [reflexivity|apply tf_compare|reflexivity].
  - reflexivity.
  - reflexivity.
Qed.

(** The same race between two writers leaves a wrong expectation for good. *)
Example race_diverges :
  exists s, rtc tstep (test_start [[Draw 5 1 true]; [Draw 5 2 true]]) s /\ all_returned s /\
            store s !! 5 = Some 2 /\ expected s 5 = 1.
Proof.
  eexists. split; [|split_and!].
  - eapply rtc_l.
    { eapply (thread_step 0); [reflexivity| |reflexivity].
      apply (tf_write 5 1 [] {[ 5 := 1 ]} 0); [|done]. econstructor; [apply spec_write|reflexivity]. }
    eapply rtc_l.
    { eapply (thread_step 1); [reflexivity| |reflexivity].
      apply (tf_write 5 2 [] (<[5 := 2]> {[ 5 := 1 ]}) 0); [|done]. econstructor; [apply spec_write|reflexivity]. }
    eapply rtc_l; [eapply (thread_step 1); [reflexivity|apply tf_expect|reflexivity]|].
    eapply rtc_once, (thread_step 0); [reflexivity|apply tf_expect|reflexivity].
  - by repeat constructor.
  - reflexivity.
  - reflexivity.
Qed.

(** ** The test module *)

Section Module.
Context `{HA : HlistApi} `{KA : !KmallocApi}.

(** [abs (k) % MAX_KEY]; [abs] of the smallest integer is that integer again. *)
Definition module_key (k : Z) : Z := Z.rem (swrap 32 (Z.abs k)) MAX_KEY.

(** One iteration of [kv_test_thread] for two random integers. *)
Definition module_op (d : Z * Z) : kv_op :=
  let k := module_key d.1 in
  if negb (Z.rem k 2 =? 0) then OpWrite k d.2 else OpRead k.

(** The calls of a kernel thread that is not stopped; each kernel thread has a store
    of its own. *)
Definition kv_test_thread (draws : list (Z * Z)) : list kv_op := module_op <$> draws.

Lemma module_key_range k : is_s 32 k -> 0 <= module_key k < MAX_KEY.
Proof.
  intros Hk. unfold module_key, MAX_KEY. unfold is_s in Hk. cbn in Hk.
  destruct (decide (k = -2147483648)) as [->|Hne]; [by vm_compute|].
  rewrite swrap_small by (try lia; unfold is_s; cbn; lia). apply Z.rem_bound_pos; lia.
Qed.

Lemma module_op_valid d : is_s 32 d.1 -> kv_valid (op_key (module_op d)).
Proof.
  intros Hd. pose proof (module_key_range _ Hd) as Hr. unfold module_op.
  destruct (negb _); cbn; unfold kv_valid, MAX_KEY in *; apply Z.rem_bound_pos; lia.
Qed.

(** Keys the module reads are even, keys it writes are odd. *)
Definition odd_only (σ : gmap Z Z) : Prop := forall k, Z.rem k 2 = 0 -> σ !! k = None.

Lemma module_step d σ r σ' :
  odd_only σ -> spec_op σ (module_op d) r σ' ->
  odd_only σ' /\ (forall k, module_op d = OpRead k -> r = -1).
Proof.
  intros Ho. unfold module_op. destruct (Z.eqb_spec (Z.rem (module_key d.1) 2) 0) as [E|E]; cbn [negb];
    inversion 1; subst.
  - split; [done|]. intros k _. by rewrite Ho.
  - split; [|done]. intros k Hk. rewrite lookup_insert_ne by congruence. by apply Ho.
  - by split.
Qed.

(** Whatever the random numbers, the module's calls are memory safe and keep the
    store well-formed, but every one of its reads fails, as it only reads keys it
    never writes. *)
Theorem module_reads_fail t draws m σ :
  kv_wf m t -> kv_abs m t σ -> odd_only σ -> Forall (fun d => is_s 32 d.1) draws ->
  exists rs m', run_ops t (kv_test_thread draws) m = Ok (rs, m') /\ kv_wf m' t /\
    forall i k, kv_test_thread draws !! i = Some (OpRead k) -> rs !! i = Some (-1).
Proof.
  intros Hw Ha Ho Hd. revert m σ Hw Ha Ho. induction Hd as [|d ds Hd1 _ IH]; intros m σ Hw Ha Ho.
  - exists [], m. by split_and!.
  - destruct (run_op_refines m t σ (module_op d) Hw Ha (module_op_valid d Hd1)) as (r & m1 & σ1 & Hr & Hs & Hw1 & Ha1).
    destruct (module_step d σ r σ1 Ho Hs) as [Ho1 Hread].
    destruct (IH m1 σ1 Hw1 Ha1 Ho1) as (rs & m2 & Hrs & Hw2 & Hi).
    exists (r :: rs), m2. split_and!; [|done|].
    + cbn [kv_test_thread fmap list_fmap run_ops]. mrun. rewrite Hr. cbn. change (module_op <$> ds) with (kv_test_thread ds).
      by rewrite Hrs.
    + intros [|i] k Hk; [|by apply (Hi i k)]. cbn in Hk. injection Hk as Hk. cbn. by rewrite (Hread k Hk).
Qed.

End Module.

(** *** Loading and unloading *)

(** A kernel thread runs, or its function has returned and its task is gone: nothing
    holds a reference to it. *)
Inductive kthread := KRunning | KGone.

Section Unload.
(** [kthread_run] for the i-th thread, [None] for an error; [kthread_stop] waits for
    a running thread and must not be given one whose task is gone. *)
Context (kthread_run : nat -> option kthread) (kthread_stop : kthread -> res unit).
Context (stop_running : kthread_stop KRunning = Ok tt) (stop_gone : kthread_stop KGone = Fault Dangling).

Definition NUM_THREADS : nat := 100.

(** [threads[i]] is [NULL] when [kthread_run] failed. *)
Definition kv_test_init : list (option kthread) := kthread_run <$> seq 0 NUM_THREADS.

Fixpoint kv_test_exit (threads : list (option kthread)) : res unit :=
  match threads with
  | [] => Ok tt
  | None :: rest => kv_test_exit rest
  | Some t :: rest => _ ← kthread_stop t; kv_test_exit rest
  end.

(** Unloading is safe exactly while every thread is still in its loop: once one has
    done its 1000 iterations its task is used after it is gone. *)
Theorem unload_safe_iff threads : kv_test_exit threads = Ok tt <-> Some KGone ∉ threads.
Proof.
  induction threads as [|[[|]|] l IH]; cbn [kv_test_exit].
  - split; [intros _; apply not_elem_of_nil|done].
  - rewrite stop_running. cbn. rewrite IH. set_solver.
  - rewrite stop_gone. cbn. split; [done|]. intros H. destruct H. left.
  - rewrite IH. set_solver.
Qed.

End Unload.

(** ** Witnesses *)

Lemma serial_test_sound_witness :
  sn tstep (test_start [[Draw 5 1 true; Draw 5 0 false]; [Draw 6 2 true]]) /\
  forall s, rtc tstep (test_start [[Draw 5 1 true; Draw 5 0 false]; [Draw 6 2 true]]) s ->
    forall e g, Inconsistent 5 e g ∉ reports s.
Proof.
  destruct (serial_test_sound [[Draw 5 1 true; Draw 5 0 false]; [Draw 6 2 true]]) as [H1 H2].
  - repeat constructor; cbn; unfold MAX_KEY; lia.
  - split; [exact H1|]. intros s Hs. destruct (H2 s Hs) as [_ H3]. apply (H3 0%nat 5).
    intros [|[|j]] sc Hj Hne; [done| |by destruct j]. injection Hj as <-. repeat constructor. done.
Defined.

(** The user reads 7 as 7, and -5 as if nothing was there. *)
Example minus_five_lost :
  user_op {[ 3 := -5 ]} (OpRead 3) (-1) {[ 3 := -5 ]} /\ user_op {[ 3 := 7 ]} (OpRead 3) 7 {[ 3 := 7 ]}.
Proof. split; (econstructor; [apply spec_read|reflexivity]). Qed.
