(* ===== verification/Syscalls.v ===== *)
(** * Syscalls: the system call numbers

    Models [include/uapi/asm-generic/unistd.h] as the sequence of [#define]
    and [__SYSCALL]-style lines it is, with its conditionals, a small
    preprocessor that expands it for a configuration, the numbers the user
    side uses ([user/kv_syscall/kv.h]) and the rows 424 to 451 of
    [arch/x86/entry/syscalls/syscall_64.tbl].  The theorems hold for every
    configuration: they go through a static check of the header
    ([check_items]) whose soundness is proved once. *)

From Stdlib Require Import ZArith Lia.
From stdpp Require Import base list strings sets.
From S2P Require Import Prelude.

(** ** Configurations and lines *)

(** The macros the header tests. *)
Record config := Config {
  bits_per_long_32 : bool;
  syscall_compat : bool;
  want_time32_syscalls : bool;
  want_renameat : bool;
  want_new_stat : bool;
  want_stat64 : bool;
  want_sync_file_range2 : bool;
  want_set_get_rlimit : bool;
  arch_nommu : bool;
  want_sys_clone3 : bool;
  want_memfd_secret : bool
}.

Inductive cond :=
  | C_time32 | C_renameat | C_stat | C_sync_file_range2 | C_set_get_rlimit
  | C_mmu | C_bits32 | C_sys_clone3 | C_memfd_secret.

#[global] Instance cond_eq_dec : EqDecision cond.
Proof. solve_decision. Defined.

Definition holds (g : config) (c : cond) : bool :=
  match c with
  | C_time32 => want_time32_syscalls g || negb (bits_per_long_32 g)
  | C_renameat => want_renameat g
  | C_stat => want_new_stat g || want_stat64 g
  | C_sync_file_range2 => want_sync_file_range2 g
  | C_set_get_rlimit => want_set_get_rlimit g
  | C_mmu => negb (arch_nommu g)
  | C_bits32 => bits_per_long_32 g
  | C_sys_clone3 => want_sys_clone3 g
  | C_memfd_secret => want_memfd_secret g
  end.

Inductive sc_macro :=
  | SYSCALL (sys : string)
  | SC_COMP (sys comp : string)
  | SC_3264 (sys32 sys64 : string)
  | SC_COMP_3264 (sys32 sys64 comp : string).

(** [#define nm n] and [__SYSCALL(nm, ...)]. *)
Inductive line :=
  | Define (nm : string) (n : Z)
  | Wire (nm : string) (mac : sc_macro).

(** A line, or an [#if] block with its two branches. *)
Inductive item :=
  | Plain (l : line)
  | Cond (c : cond) (yes no : list line).

(** The definitions of [__SC_3264], [__SC_COMP] and [__SC_COMP_3264]. *)
Definition wire_target (g : config) (mac : sc_macro) : string :=
  let sc3264 s32 s64 := if bits_per_long_32 g || syscall_compat g then s32 else s64 in
  match mac with
  | SYSCALL s => s
  | SC_3264 s32 s64 => sc3264 s32 s64
  | SC_COMP s comp => if syscall_compat g then comp else s
  | SC_COMP_3264 s32 s64 comp => if syscall_compat g then comp else sc3264 s32 s64
  end.

(** ** The preprocessor *)

(** What has been expanded so far: the numbers defined, latest first, and the
    entries wired. *)
Record expansion := Expansion {
  env : list (string * Z);
  table : list (Z * string)
}.

Fixpoint assoc {A} (nm : string) (l : list (string * A)) : option A :=
  match l with
  | [] => None
  | (nm', x) :: l' => if decide (nm = nm') then Some x else assoc nm l'
  end.

(** [None]: a wired name that is not defined, which does not compile. *)
Definition expand_line (g : config) (e : expansion) (l : line) : option expansion :=
  match l with
  | Define nm n => Some (Expansion ((nm, n) :: env e) (table e))
  | Wire nm mac =>
      n ← assoc nm (env e);
      Some (Expansion (env e) (table e ++ [(n, wire_target g mac)]))
  end.

Fixpoint expand_lines (g : config) (e : expansion) (ls : list line) : option expansion :=
  match ls with
  | [] => Some e
  | l :: ls' => e' ← expand_line g e l; expand_lines g e' ls'
  end.

Definition expand_item (g : config) (e : expansion) (it : item) : option expansion :=
  match it with
  | Plain l => expand_line g e l
  | Cond c yes no => expand_lines g e (if holds g c then yes else no)
  end.

Fixpoint expand (g : config) (e : expansion) (its : list item) : option expansion :=
  match its with
  | [] => Some e
  | it :: its' => e' ← expand_item g e it; expand g e' its'
  end.

Open Scope string_scope.

(** ** include/uapi/asm-generic/unistd.h *)

(** [unistd.h], lines 33 to 180. *)
Definition unistd_part1 : list item := [
  Plain (Define "__NR_io_setup" 0);
  Plain (Wire "__NR_io_setup" (SC_COMP "sys_io_setup" "compat_sys_io_setup"));
  Plain (Define "__NR_io_destroy" 1);
  Plain (Wire "__NR_io_destroy" (SYSCALL "sys_io_destroy"));
  Plain (Define "__NR_io_submit" 2);
  Plain (Wire "__NR_io_submit" (SC_COMP "sys_io_submit" "compat_sys_io_submit"));
  Plain (Define "__NR_io_cancel" 3);
  Plain (Wire "__NR_io_cancel" (SYSCALL "sys_io_cancel"));
  Cond C_time32
    [Define "__NR_io_getevents" 4;
     Wire "__NR_io_getevents" (SC_3264 "sys_io_getevents_time32" "sys_io_getevents")]
    [];
  Plain (Define "__NR_setxattr" 5);
  Plain (Wire "__NR_setxattr" (SYSCALL "sys_setxattr"));
  Plain (Define "__NR_lsetxattr" 6);
  Plain (Wire "__NR_lsetxattr" (SYSCALL "sys_lsetxattr"));
  Plain (Define "__NR_fsetxattr" 7);
  Plain (Wire "__NR_fsetxattr" (SYSCALL "sys_fsetxattr"));
  Plain (Define "__NR_getxattr" 8);
  Plain (Wire "__NR_getxattr" (SYSCALL "sys_getxattr"));
  Plain (Define "__NR_lgetxattr" 9);
  Plain (Wire "__NR_lgetxattr" (SYSCALL "sys_lgetxattr"));
  Plain (Define "__NR_fgetxattr" 10);
  Plain (Wire "__NR_fgetxattr" (SYSCALL "sys_fgetxattr"));
  Plain (Define "__NR_listxattr" 11);
  Plain (Wire "__NR_listxattr" (SYSCALL "sys_listxattr"));
  Plain (Define "__NR_llistxattr" 12);
  Plain (Wire "__NR_llistxattr" (SYSCALL "sys_llistxattr"));
  Plain (Define "__NR_flistxattr" 13);
  Plain (Wire "__NR_flistxattr" (SYSCALL "sys_flistxattr"));
  Plain (Define "__NR_removexattr" 14);
  Plain (Wire "__NR_removexattr" (SYSCALL "sys_removexattr"));
  Plain (Define "__NR_lremovexattr" 15);
  Plain (Wire "__NR_lremovexattr" (SYSCALL "sys_lremovexattr"));
  Plain (Define "__NR_fremovexattr" 16);
  Plain (Wire "__NR_fremovexattr" (SYSCALL "sys_fremovexattr"));
  Plain (Define "__NR_getcwd" 17);
  Plain (Wire "__NR_getcwd" (SYSCALL "sys_getcwd"));
  Plain (Define "__NR_lookup_dcookie" 18);
  Plain (Wire "__NR_lookup_dcookie" (SC_COMP "sys_lookup_dcookie" "compat_sys_lookup_dcookie"));
  Plain (Define "__NR_eventfd2" 19);
  Plain (Wire "__NR_eventfd2" (SYSCALL "sys_eventfd2"));
  Plain (Define "__NR_epoll_create1" 20);
  Plain (Wire "__NR_epoll_create1" (SYSCALL "sys_epoll_create1"));
  Plain (Define "__NR_epoll_ctl" 21);
  Plain (Wire "__NR_epoll_ctl" (SYSCALL "sys_epoll_ctl"));
  Plain (Define "__NR_epoll_pwait" 22);
  Plain (Wire "__NR_epoll_pwait" (SC_COMP "sys_epoll_pwait" "compat_sys_epoll_pwait"));
  Plain (Define "__NR_dup" 23);
  Plain (Wire "__NR_dup" (SYSCALL "sys_dup"));
  Plain (Define "__NR_dup3" 24);
  Plain (Wire "__NR_dup3" (SYSCALL "sys_dup3"));
  Plain (Define "__NR3264_fcntl" 25);
  Plain (Wire "__NR3264_fcntl" (SC_COMP_3264 "sys_fcntl64" "sys_fcntl" "compat_sys_fcntl64"));
  Plain (Define "__NR_inotify_init1" 26);
  Plain (Wire "__NR_inotify_init1" (SYSCALL "sys_inotify_init1"));
  Plain (Define "__NR_inotify_add_watch" 27);
  Plain (Wire "__NR_inotify_add_watch" (SYSCALL "sys_inotify_add_watch"));
  Plain (Define "__NR_inotify_rm_watch" 28);
  Plain (Wire "__NR_inotify_rm_watch" (SYSCALL "sys_inotify_rm_watch"));
  Plain (Define "__NR_ioctl" 29);
  Plain (Wire "__NR_ioctl" (SC_COMP "sys_ioctl" "compat_sys_ioctl"));
  Plain (Define "__NR_ioprio_set" 30);
  Plain (Wire "__NR_ioprio_set" (SYSCALL "sys_ioprio_set"));
  Plain (Define "__NR_ioprio_get" 31);
  Plain (Wire "__NR_ioprio_get" (SYSCALL "sys_ioprio_get"));
  Plain (Define "__NR_flock" 32);
  Plain (Wire "__NR_flock" (SYSCALL "sys_flock"));
  Plain (Define "__NR_mknodat" 33);
  Plain (Wire "__NR_mknodat" (SYSCALL "sys_mknodat"));
  Plain (Define "__NR_mkdirat" 34);
  Plain (Wire "__NR_mkdirat" (SYSCALL "sys_mkdirat"));
  Plain (Define "__NR_unlinkat" 35);
  Plain (Wire "__NR_unlinkat" (SYSCALL "sys_unlinkat"));
  Plain (Define "__NR_symlinkat" 36);
  Plain (Wire "__NR_symlinkat" (SYSCALL "sys_symlinkat"));
  Plain (Define "__NR_linkat" 37);
  Plain (Wire "__NR_linkat" (SYSCALL "sys_linkat"));
  Cond C_renameat
    [Define "__NR_renameat" 38;
     Wire "__NR_renameat" (SYSCALL "sys_renameat")]
    [];
  Plain (Define "__NR_umount2" 39);
  Plain (Wire "__NR_umount2" (SYSCALL "sys_umount"));
  Plain (Define "__NR_mount" 40);
  Plain (Wire "__NR_mount" (SYSCALL "sys_mount"));
  Plain (Define "__NR_pivot_root" 41);
  Plain (Wire "__NR_pivot_root" (SYSCALL "sys_pivot_root"));
  Plain (Define "__NR_nfsservctl" 42);
  Plain (Wire "__NR_nfsservctl" (SYSCALL "sys_ni_syscall"));
  Plain (Define "__NR3264_statfs" 43);
  Plain (Wire "__NR3264_statfs" (SC_COMP_3264 "sys_statfs64" "sys_statfs" "compat_sys_statfs64"));
  Plain (Define "__NR3264_fstatfs" 44);
  Plain (Wire "__NR3264_fstatfs" (SC_COMP_3264 "sys_fstatfs64" "sys_fstatfs" "compat_sys_fstatfs64"));
  Plain (Define "__NR3264_truncate" 45);
  Plain (Wire "__NR3264_truncate" (SC_COMP_3264 "sys_truncate64" "sys_truncate" "compat_sys_truncate64"));
  Plain (Define "__NR3264_ftruncate" 46);
  Plain (Wire "__NR3264_ftruncate" (SC_COMP_3264 "sys_ftruncate64" "sys_ftruncate" "compat_sys_ftruncate64"));
  Plain (Define "__NR_fallocate" 47);
  Plain (Wire "__NR_fallocate" (SC_COMP "sys_fallocate" "compat_sys_fallocate"));
  Plain (Define "__NR_faccessat" 48);
  Plain (Wire "__NR_faccessat" (SYSCALL "sys_faccessat"));
  Plain (Define "__NR_chdir" 49);
  Plain (Wire "__NR_chdir" (SYSCALL "sys_chdir"));
  Plain (Define "__NR_fchdir" 50);
  Plain (Wire "__NR_fchdir" (SYSCALL "sys_fchdir"));
  Plain (Define "__NR_chroot" 51);
  Plain (Wire "__NR_chroot" (SYSCALL "sys_chroot"));
  Plain (Define "__NR_fchmod" 52);
  Plain (Wire "__NR_fchmod" (SYSCALL "sys_fchmod"));
  Plain (Define "__NR_fchmodat" 53);
  Plain (Wire "__NR_fchmodat" (SYSCALL "sys_fchmodat"));
  Plain (Define "__NR_fchownat" 54);
  Plain (Wire "__NR_fchownat" (SYSCALL "sys_fchownat"))
].

(** [unistd.h], lines 181 to 329. *)
Definition unistd_part2 : list item := [
  Plain (Define "__NR_fchown" 55);
  Plain (Wire "__NR_fchown" (SYSCALL "sys_fchown"));
  Plain (Define "__NR_openat" 56);
  Plain (Wire "__NR_openat" (SYSCALL "sys_openat"));
  Plain (Define "__NR_close" 57);
  Plain (Wire "__NR_close" (SYSCALL "sys_close"));
  Plain (Define "__NR_vhangup" 58);
  Plain (Wire "__NR_vhangup" (SYSCALL "sys_vhangup"));
  Plain (Define "__NR_pipe2" 59);
  Plain (Wire "__NR_pipe2" (SYSCALL "sys_pipe2"));
  Plain (Define "__NR_quotactl" 60);
  Plain (Wire "__NR_quotactl" (SYSCALL "sys_quotactl"));
  Plain (Define "__NR_getdents64" 61);
  Plain (Wire "__NR_getdents64" (SYSCALL "sys_getdents64"));
  Plain (Define "__NR3264_lseek" 62);
  Plain (Wire "__NR3264_lseek" (SC_3264 "sys_llseek" "sys_lseek"));
  Plain (Define "__NR_read" 63);
  Plain (Wire "__NR_read" (SYSCALL "sys_read"));
  Plain (Define "__NR_write" 64);
  Plain (Wire "__NR_write" (SYSCALL "sys_write"));
  Plain (Define "__NR_readv" 65);
  Plain (Wire "__NR_readv" (SC_COMP "sys_readv" "sys_readv"));
  Plain (Define "__NR_writev" 66);
  Plain (Wire "__NR_writev" (SC_COMP "sys_writev" "sys_writev"));
  Plain (Define "__NR_pread64" 67);
  Plain (Wire "__NR_pread64" (SC_COMP "sys_pread64" "compat_sys_pread64"));
  Plain (Define "__NR_pwrite64" 68);
  Plain (Wire "__NR_pwrite64" (SC_COMP "sys_pwrite64" "compat_sys_pwrite64"));
  Plain (Define "__NR_preadv" 69);
  Plain (Wire "__NR_preadv" (SC_COMP "sys_preadv" "compat_sys_preadv"));
  Plain (Define "__NR_pwritev" 70);
  Plain (Wire "__NR_pwritev" (SC_COMP "sys_pwritev" "compat_sys_pwritev"));
  Plain (Define "__NR3264_sendfile" 71);
  Plain (Wire "__NR3264_sendfile" (SYSCALL "sys_sendfile64"));
  Cond C_time32
    [Define "__NR_pselect6" 72;
     Wire "__NR_pselect6" (SC_COMP_3264 "sys_pselect6_time32" "sys_pselect6" "compat_sys_pselect6_time32");
     Define "__NR_ppoll" 73;
     Wire "__NR_ppoll" (SC_COMP_3264 "sys_ppoll_time32" "sys_ppoll" "compat_sys_ppoll_time32")]
    [];
  Plain (Define "__NR_signalfd4" 74);
  Plain (Wire "__NR_signalfd4" (SC_COMP "sys_signalfd4" "compat_sys_signalfd4"));
  Plain (Define "__NR_vmsplice" 75);
  Plain (Wire "__NR_vmsplice" (SYSCALL "sys_vmsplice"));
  Plain (Define "__NR_splice" 76);
  Plain (Wire "__NR_splice" (SYSCALL "sys_splice"));
  Plain (Define "__NR_tee" 77);
  Plain (Wire "__NR_tee" (SYSCALL "sys_tee"));
  Plain (Define "__NR_readlinkat" 78);
  Plain (Wire "__NR_readlinkat" (SYSCALL "sys_readlinkat"));
  Cond C_stat
    [Define "__NR3264_fstatat" 79;
     Wire "__NR3264_fstatat" (SC_3264 "sys_fstatat64" "sys_newfstatat");
     Define "__NR3264_fstat" 80;
     Wire "__NR3264_fstat" (SC_3264 "sys_fstat64" "sys_newfstat")]
    [];
  Plain (Define "__NR_sync" 81);
  Plain (Wire "__NR_sync" (SYSCALL "sys_sync"));
  Plain (Define "__NR_fsync" 82);
  Plain (Wire "__NR_fsync" (SYSCALL "sys_fsync"));
  Plain (Define "__NR_fdatasync" 83);
  Plain (Wire "__NR_fdatasync" (SYSCALL "sys_fdatasync"));
  Cond C_sync_file_range2
    [Define "__NR_sync_file_range2" 84;
     Wire "__NR_sync_file_range2" (SC_COMP "sys_sync_file_range2" "compat_sys_sync_file_range2")]
    [Define "__NR_sync_file_range" 84;
     Wire "__NR_sync_file_range" (SC_COMP "sys_sync_file_range" "compat_sys_sync_file_range")];
  Plain (Define "__NR_timerfd_create" 85);
  Plain (Wire "__NR_timerfd_create" (SYSCALL "sys_timerfd_create"));
  Cond C_time32
    [Define "__NR_timerfd_settime" 86;
     Wire "__NR_timerfd_settime" (SC_3264 "sys_timerfd_settime32" "sys_timerfd_settime");
     Define "__NR_timerfd_gettime" 87;
     Wire "__NR_timerfd_gettime" (SC_3264 "sys_timerfd_gettime32" "sys_timerfd_gettime")]
    [];
  Cond C_time32
    [Define "__NR_utimensat" 88;
     Wire "__NR_utimensat" (SC_3264 "sys_utimensat_time32" "sys_utimensat")]
    [];
  Plain (Define "__NR_acct" 89);
  Plain (Wire "__NR_acct" (SYSCALL "sys_acct"));
  Plain (Define "__NR_capget" 90);
  Plain (Wire "__NR_capget" (SYSCALL "sys_capget"));
  Plain (Define "__NR_capset" 91);
  Plain (Wire "__NR_capset" (SYSCALL "sys_capset"));
  Plain (Define "__NR_personality" 92);
  Plain (Wire "__NR_personality" (SYSCALL "sys_personality"));
  Plain (Define "__NR_exit" 93);
  Plain (Wire "__NR_exit" (SYSCALL "sys_exit"));
  Plain (Define "__NR_exit_group" 94);
  Plain (Wire "__NR_exit_group" (SYSCALL "sys_exit_group"));
  Plain (Define "__NR_waitid" 95);
  Plain (Wire "__NR_waitid" (SC_COMP "sys_waitid" "compat_sys_waitid"));
  Plain (Define "__NR_set_tid_address" 96);
  Plain (Wire "__NR_set_tid_address" (SYSCALL "sys_set_tid_address"));
  Plain (Define "__NR_unshare" 97);
  Plain (Wire "__NR_unshare" (SYSCALL "sys_unshare"));
  Cond C_time32
    [Define "__NR_futex" 98;
     Wire "__NR_futex" (SC_3264 "sys_futex_time32" "sys_futex")]
    [];
  Plain (Define "__NR_set_robust_list" 99);
  Plain (Wire "__NR_set_robust_list" (SC_COMP "sys_set_robust_list" "compat_sys_set_robust_list"));
  Plain (Define "__NR_get_robust_list" 100);
  Plain (Wire "__NR_get_robust_list" (SC_COMP "sys_get_robust_list" "compat_sys_get_robust_list"))
].

(** [unistd.h], lines 332 to 479. *)
Definition unistd_part3 : list item := [
  Cond C_time32
    [Define "__NR_nanosleep" 101;
     Wire "__NR_nanosleep" (SC_3264 "sys_nanosleep_time32" "sys_nanosleep")]
    [];
  Plain (Define "__NR_getitimer" 102);
  Plain (Wire "__NR_getitimer" (SC_COMP "sys_getitimer" "compat_sys_getitimer"));
  Plain (Define "__NR_setitimer" 103);
  Plain (Wire "__NR_setitimer" (SC_COMP "sys_setitimer" "compat_sys_setitimer"));
  Plain (Define "__NR_kexec_load" 104);
  Plain (Wire "__NR_kexec_load" (SC_COMP "sys_kexec_load" "compat_sys_kexec_load"));
  Plain (Define "__NR_init_module" 105);
  Plain (Wire "__NR_init_module" (SYSCALL "sys_init_module"));
  Plain (Define "__NR_delete_module" 106);
  Plain (Wire "__NR_delete_module" (SYSCALL "sys_delete_module"));
  Plain (Define "__NR_timer_create" 107);
  Plain (Wire "__NR_timer_create" (SC_COMP "sys_timer_create" "compat_sys_timer_create"));
  Cond C_time32
    [Define "__NR_timer_gettime" 108;
     Wire "__NR_timer_gettime" (SC_3264 "sys_timer_gettime32" "sys_timer_gettime")]
    [];
  Plain (Define "__NR_timer_getoverrun" 109);
  Plain (Wire "__NR_timer_getoverrun" (SYSCALL "sys_timer_getoverrun"));
  Cond C_time32
    [Define "__NR_timer_settime" 110;
     Wire "__NR_timer_settime" (SC_3264 "sys_timer_settime32" "sys_timer_settime")]
    [];
  Plain (Define "__NR_timer_delete" 111);
  Plain (Wire "__NR_timer_delete" (SYSCALL "sys_timer_delete"));
  Cond C_time32
    [Define "__NR_clock_settime" 112;
     Wire "__NR_clock_settime" (SC_3264 "sys_clock_settime32" "sys_clock_settime");
     Define "__NR_clock_gettime" 113;
     Wire "__NR_clock_gettime" (SC_3264 "sys_clock_gettime32" "sys_clock_gettime");
     Define "__NR_clock_getres" 114;
     Wire "__NR_clock_getres" (SC_3264 "sys_clock_getres_time32" "sys_clock_getres");
     Define "__NR_clock_nanosleep" 115;
     Wire "__NR_clock_nanosleep" (SC_3264 "sys_clock_nanosleep_time32" "sys_clock_nanosleep")]
    [];
  Plain (Define "__NR_syslog" 116);
  Plain (Wire "__NR_syslog" (SYSCALL "sys_syslog"));
  Plain (Define "__NR_ptrace" 117);
  Plain (Wire "__NR_ptrace" (SYSCALL "sys_ptrace"));
  Plain (Define "__NR_sched_setparam" 118);
  Plain (Wire "__NR_sched_setparam" (SYSCALL "sys_sched_setparam"));
  Plain (Define "__NR_sched_setscheduler" 119);
  Plain (Wire "__NR_sched_setscheduler" (SYSCALL "sys_sched_setscheduler"));
  Plain (Define "__NR_sched_getscheduler" 120);
  Plain (Wire "__NR_sched_getscheduler" (SYSCALL "sys_sched_getscheduler"));
  Plain (Define "__NR_sched_getparam" 121);
  Plain (Wire "__NR_sched_getparam" (SYSCALL "sys_sched_getparam"));
  Plain (Define "__NR_sched_setaffinity" 122);
  Plain (Wire "__NR_sched_setaffinity" (SC_COMP "sys_sched_setaffinity" "compat_sys_sched_setaffinity"));
  Plain (Define "__NR_sched_getaffinity" 123);
  Plain (Wire "__NR_sched_getaffinity" (SC_COMP "sys_sched_getaffinity" "compat_sys_sched_getaffinity"));
  Plain (Define "__NR_sched_yield" 124);
  Plain (Wire "__NR_sched_yield" (SYSCALL "sys_sched_yield"));
  Plain (Define "__NR_sched_get_priority_max" 125);
  Plain (Wire "__NR_sched_get_priority_max" (SYSCALL "sys_sched_get_priority_max"));
  Plain (Define "__NR_sched_get_priority_min" 126);
  Plain (Wire "__NR_sched_get_priority_min" (SYSCALL "sys_sched_get_priority_min"));
  Cond C_time32
    [Define "__NR_sched_rr_get_interval" 127;
     Wire "__NR_sched_rr_get_interval" (SC_3264 "sys_sched_rr_get_interval_time32" "sys_sched_rr_get_interval")]
    [];
  Plain (Define "__NR_restart_syscall" 128);
  Plain (Wire "__NR_restart_syscall" (SYSCALL "sys_restart_syscall"));
  Plain (Define "__NR_kill" 129);
  Plain (Wire "__NR_kill" (SYSCALL "sys_kill"));
  Plain (Define "__NR_tkill" 130);
  Plain (Wire "__NR_tkill" (SYSCALL "sys_tkill"));
  Plain (Define "__NR_tgkill" 131);
  Plain (Wire "__NR_tgkill" (SYSCALL "sys_tgkill"));
  Plain (Define "__NR_sigaltstack" 132);
  Plain (Wire "__NR_sigaltstack" (SC_COMP "sys_sigaltstack" "compat_sys_sigaltstack"));
  Plain (Define "__NR_rt_sigsuspend" 133);
  Plain (Wire "__NR_rt_sigsuspend" (SC_COMP "sys_rt_sigsuspend" "compat_sys_rt_sigsuspend"));
  Plain (Define "__NR_rt_sigaction" 134);
  Plain (Wire "__NR_rt_sigaction" (SC_COMP "sys_rt_sigaction" "compat_sys_rt_sigaction"));
  Plain (Define "__NR_rt_sigprocmask" 135);
  Plain (Wire "__NR_rt_sigprocmask" (SC_COMP "sys_rt_sigprocmask" "compat_sys_rt_sigprocmask"));
  Plain (Define "__NR_rt_sigpending" 136);
  Plain (Wire "__NR_rt_sigpending" (SC_COMP "sys_rt_sigpending" "compat_sys_rt_sigpending"));
  Cond C_time32
    [Define "__NR_rt_sigtimedwait" 137;
     Wire "__NR_rt_sigtimedwait" (SC_COMP_3264 "sys_rt_sigtimedwait_time32" "sys_rt_sigtimedwait" "compat_sys_rt_sigtimedwait_time32")]
    [];
  Plain (Define "__NR_rt_sigqueueinfo" 138);
  Plain (Wire "__NR_rt_sigqueueinfo" (SC_COMP "sys_rt_sigqueueinfo" "compat_sys_rt_sigqueueinfo"));
  Plain (Define "__NR_rt_sigreturn" 139);
  Plain (Wire "__NR_rt_sigreturn" (SC_COMP "sys_rt_sigreturn" "compat_sys_rt_sigreturn"));
  Plain (Define "__NR_setpriority" 140);
  Plain (Wire "__NR_setpriority" (SYSCALL "sys_setpriority"));
  Plain (Define "__NR_getpriority" 141);
  Plain (Wire "__NR_getpriority" (SYSCALL "sys_getpriority"));
  Plain (Define "__NR_reboot" 142);
  Plain (Wire "__NR_reboot" (SYSCALL "sys_reboot"));
  Plain (Define "__NR_setregid" 143);
  Plain (Wire "__NR_setregid" (SYSCALL "sys_setregid"));
  Plain (Define "__NR_setgid" 144);
  Plain (Wire "__NR_setgid" (SYSCALL "sys_setgid"));
  Plain (Define "__NR_setreuid" 145);
  Plain (Wire "__NR_setreuid" (SYSCALL "sys_setreuid"));
  Plain (Define "__NR_setuid" 146);
  Plain (Wire "__NR_setuid" (SYSCALL "sys_setuid"));
  Plain (Define "__NR_setresuid" 147);
  Plain (Wire "__NR_setresuid" (SYSCALL "sys_setresuid"));
  Plain (Define "__NR_getresuid" 148);
  Plain (Wire "__NR_getresuid" (SYSCALL "sys_getresuid"));
  Plain (Define "__NR_setresgid" 149);
  Plain (Wire "__NR_setresgid" (SYSCALL "sys_setresgid"));
  Plain (Define "__NR_getresgid" 150);
  Plain (Wire "__NR_getresgid" (SYSCALL "sys_getresgid"));
  Plain (Define "__NR_setfsuid" 151);
  Plain (Wire "__NR_setfsuid" (SYSCALL "sys_setfsuid"));
  Plain (Define "__NR_setfsgid" 152);
  Plain (Wire "__NR_setfsgid" (SYSCALL "sys_setfsgid"));
  Plain (Define "__NR_times" 153);
  Plain (Wire "__NR_times" (SC_COMP "sys_times" "compat_sys_times"));
  Plain (Define "__NR_setpgid" 154);
  Plain (Wire "__NR_setpgid" (SYSCALL "sys_setpgid"));
  Plain (Define "__NR_getpgid" 155);
  Plain (Wire "__NR_getpgid" (SYSCALL "sys_getpgid"));
  Plain (Define "__NR_getsid" 156);
  Plain (Wire "__NR_getsid" (SYSCALL "sys_getsid"))
].

(** [unistd.h], lines 480 to 627. *)
Definition unistd_part4 : list item := [
  Plain (Define "__NR_setsid" 157);
  Plain (Wire "__NR_setsid" (SYSCALL "sys_setsid"));
  Plain (Define "__NR_getgroups" 158);
  Plain (Wire "__NR_getgroups" (SYSCALL "sys_getgroups"));
  Plain (Define "__NR_setgroups" 159);
  Plain (Wire "__NR_setgroups" (SYSCALL "sys_setgroups"));
  Plain (Define "__NR_uname" 160);
  Plain (Wire "__NR_uname" (SYSCALL "sys_newuname"));
  Plain (Define "__NR_sethostname" 161);
  Plain (Wire "__NR_sethostname" (SYSCALL "sys_sethostname"));
  Plain (Define "__NR_setdomainname" 162);
  Plain (Wire "__NR_setdomainname" (SYSCALL "sys_setdomainname"));
  Cond C_set_get_rlimit
    [Define "__NR_getrlimit" 163;
     Wire "__NR_getrlimit" (SC_COMP "sys_getrlimit" "compat_sys_getrlimit");
     Define "__NR_setrlimit" 164;
     Wire "__NR_setrlimit" (SC_COMP "sys_setrlimit" "compat_sys_setrlimit")]
    [];
  Plain (Define "__NR_getrusage" 165);
  Plain (Wire "__NR_getrusage" (SC_COMP "sys_getrusage" "compat_sys_getrusage"));
  Plain (Define "__NR_umask" 166);
  Plain (Wire "__NR_umask" (SYSCALL "sys_umask"));
  Plain (Define "__NR_prctl" 167);
  Plain (Wire "__NR_prctl" (SYSCALL "sys_prctl"));
  Plain (Define "__NR_getcpu" 168);
  Plain (Wire "__NR_getcpu" (SYSCALL "sys_getcpu"));
  Cond C_time32
    [Define "__NR_gettimeofday" 169;
     Wire "__NR_gettimeofday" (SC_COMP "sys_gettimeofday" "compat_sys_gettimeofday");
     Define "__NR_settimeofday" 170;
     Wire "__NR_settimeofday" (SC_COMP "sys_settimeofday" "compat_sys_settimeofday");
     Define "__NR_adjtimex" 171;
     Wire "__NR_adjtimex" (SC_3264 "sys_adjtimex_time32" "sys_adjtimex")]
    [];
  Plain (Define "__NR_getpid" 172);
  Plain (Wire "__NR_getpid" (SYSCALL "sys_getpid"));
  Plain (Define "__NR_getppid" 173);
  Plain (Wire "__NR_getppid" (SYSCALL "sys_getppid"));
  Plain (Define "__NR_getuid" 174);
  Plain (Wire "__NR_getuid" (SYSCALL "sys_getuid"));
  Plain (Define "__NR_geteuid" 175);
  Plain (Wire "__NR_geteuid" (SYSCALL "sys_geteuid"));
  Plain (Define "__NR_getgid" 176);
  Plain (Wire "__NR_getgid" (SYSCALL "sys_getgid"));
  Plain (Define "__NR_getegid" 177);
  Plain (Wire "__NR_getegid" (SYSCALL "sys_getegid"));
  Plain (Define "__NR_gettid" 178);
  Plain (Wire "__NR_gettid" (SYSCALL "sys_gettid"));
  Plain (Define "__NR_sysinfo" 179);
  Plain (Wire "__NR_sysinfo" (SC_COMP "sys_sysinfo" "compat_sys_sysinfo"));
  Plain (Define "__NR_mq_open" 180);
  Plain (Wire "__NR_mq_open" (SC_COMP "sys_mq_open" "compat_sys_mq_open"));
  Plain (Define "__NR_mq_unlink" 181);
  Plain (Wire "__NR_mq_unlink" (SYSCALL "sys_mq_unlink"));
  Cond C_time32
    [Define "__NR_mq_timedsend" 182;
     Wire "__NR_mq_timedsend" (SC_3264 "sys_mq_timedsend_time32" "sys_mq_timedsend");
     Define "__NR_mq_timedreceive" 183;
     Wire "__NR_mq_timedreceive" (SC_3264 "sys_mq_timedreceive_time32" "sys_mq_timedreceive")]
    [];
  Plain (Define "__NR_mq_notify" 184);
  Plain (Wire "__NR_mq_notify" (SC_COMP "sys_mq_notify" "compat_sys_mq_notify"));
  Plain (Define "__NR_mq_getsetattr" 185);
  Plain (Wire "__NR_mq_getsetattr" (SC_COMP "sys_mq_getsetattr" "compat_sys_mq_getsetattr"));
  Plain (Define "__NR_msgget" 186);
  Plain (Wire "__NR_msgget" (SYSCALL "sys_msgget"));
  Plain (Define "__NR_msgctl" 187);
  Plain (Wire "__NR_msgctl" (SC_COMP "sys_msgctl" "compat_sys_msgctl"));
  Plain (Define "__NR_msgrcv" 188);
  Plain (Wire "__NR_msgrcv" (SC_COMP "sys_msgrcv" "compat_sys_msgrcv"));
  Plain (Define "__NR_msgsnd" 189);
  Plain (Wire "__NR_msgsnd" (SC_COMP "sys_msgsnd" "compat_sys_msgsnd"));
  Plain (Define "__NR_semget" 190);
  Plain (Wire "__NR_semget" (SYSCALL "sys_semget"));
  Plain (Define "__NR_semctl" 191);
  Plain (Wire "__NR_semctl" (SC_COMP "sys_semctl" "compat_sys_semctl"));
  Cond C_time32
    [Define "__NR_semtimedop" 192;
     Wire "__NR_semtimedop" (SC_3264 "sys_semtimedop_time32" "sys_semtimedop")]
    [];
  Plain (Define "__NR_semop" 193);
  Plain (Wire "__NR_semop" (SYSCALL "sys_semop"));
  Plain (Define "__NR_shmget" 194);
  Plain (Wire "__NR_shmget" (SYSCALL "sys_shmget"));
  Plain (Define "__NR_shmctl" 195);
  Plain (Wire "__NR_shmctl" (SC_COMP "sys_shmctl" "compat_sys_shmctl"));
  Plain (Define "__NR_shmat" 196);
  Plain (Wire "__NR_shmat" (SC_COMP "sys_shmat" "compat_sys_shmat"));
  Plain (Define "__NR_shmdt" 197);
  Plain (Wire "__NR_shmdt" (SYSCALL "sys_shmdt"));
  Plain (Define "__NR_socket" 198);
  Plain (Wire "__NR_socket" (SYSCALL "sys_socket"));
  Plain (Define "__NR_socketpair" 199);
  Plain (Wire "__NR_socketpair" (SYSCALL "sys_socketpair"));
  Plain (Define "__NR_bind" 200);
  Plain (Wire "__NR_bind" (SYSCALL "sys_bind"));
  Plain (Define "__NR_listen" 201);
  Plain (Wire "__NR_listen" (SYSCALL "sys_listen"));
  Plain (Define "__NR_accept" 202);
  Plain (Wire "__NR_accept" (SYSCALL "sys_accept"));
  Plain (Define "__NR_connect" 203);
  Plain (Wire "__NR_connect" (SYSCALL "sys_connect"));
  Plain (Define "__NR_getsockname" 204);
  Plain (Wire "__NR_getsockname" (SYSCALL "sys_getsockname"));
  Plain (Define "__NR_getpeername" 205);
  Plain (Wire "__NR_getpeername" (SYSCALL "sys_getpeername"));
  Plain (Define "__NR_sendto" 206);
  Plain (Wire "__NR_sendto" (SYSCALL "sys_sendto"));
  Plain (Define "__NR_recvfrom" 207);
  Plain (Wire "__NR_recvfrom" (SC_COMP "sys_recvfrom" "compat_sys_recvfrom"));
  Plain (Define "__NR_setsockopt" 208);
  Plain (Wire "__NR_setsockopt" (SC_COMP "sys_setsockopt" "sys_setsockopt"));
  Plain (Define "__NR_getsockopt" 209);
  Plain (Wire "__NR_getsockopt" (SC_COMP "sys_getsockopt" "sys_getsockopt"));
  Plain (Define "__NR_shutdown" 210);
  Plain (Wire "__NR_shutdown" (SYSCALL "sys_shutdown"));
  Plain (Define "__NR_sendmsg" 211);
  Plain (Wire "__NR_sendmsg" (SC_COMP "sys_sendmsg" "compat_sys_sendmsg"));
  Plain (Define "__NR_recvmsg" 212);
  Plain (Wire "__NR_recvmsg" (SC_COMP "sys_recvmsg" "compat_sys_recvmsg"));
  Plain (Define "__NR_readahead" 213);
  Plain (Wire "__NR_readahead" (SC_COMP "sys_readahead" "compat_sys_readahead"));
  Plain (Define "__NR_brk" 214);
  Plain (Wire "__NR_brk" (SYSCALL "sys_brk"));
  Plain (Define "__NR_munmap" 215);
  Plain (Wire "__NR_munmap" (SYSCALL "sys_munmap"))
].

(** [unistd.h], lines 628 to 772. *)
Definition unistd_part5 : list item := [
  Plain (Define "__NR_mremap" 216);
  Plain (Wire "__NR_mremap" (SYSCALL "sys_mremap"));
  Plain (Define "__NR_add_key" 217);
  Plain (Wire "__NR_add_key" (SYSCALL "sys_add_key"));
  Plain (Define "__NR_request_key" 218);
  Plain (Wire "__NR_request_key" (SYSCALL "sys_request_key"));
  Plain (Define "__NR_keyctl" 219);
  Plain (Wire "__NR_keyctl" (SC_COMP "sys_keyctl" "compat_sys_keyctl"));
  Plain (Define "__NR_clone" 220);
  Plain (Wire "__NR_clone" (SYSCALL "sys_clone"));
  Plain (Define "__NR_execve" 221);
  Plain (Wire "__NR_execve" (SC_COMP "sys_execve" "compat_sys_execve"));
  Plain (Define "__NR3264_mmap" 222);
  Plain (Wire "__NR3264_mmap" (SC_3264 "sys_mmap2" "sys_mmap"));
  Plain (Define "__NR3264_fadvise64" 223);
  Plain (Wire "__NR3264_fadvise64" (SC_COMP "sys_fadvise64_64" "compat_sys_fadvise64_64"));
  Cond C_mmu
    [Define "__NR_swapon" 224;
     Wire "__NR_swapon" (SYSCALL "sys_swapon");
     Define "__NR_swapoff" 225;
     Wire "__NR_swapoff" (SYSCALL "sys_swapoff");
     Define "__NR_mprotect" 226;
     Wire "__NR_mprotect" (SYSCALL "sys_mprotect");
     Define "__NR_msync" 227;
     Wire "__NR_msync" (SYSCALL "sys_msync");
     Define "__NR_mlock" 228;
     Wire "__NR_mlock" (SYSCALL "sys_mlock");
     Define "__NR_munlock" 229;
     Wire "__NR_munlock" (SYSCALL "sys_munlock");
     Define "__NR_mlockall" 230;
     Wire "__NR_mlockall" (SYSCALL "sys_mlockall");
     Define "__NR_munlockall" 231;
     Wire "__NR_munlockall" (SYSCALL "sys_munlockall");
     Define "__NR_mincore" 232;
     Wire "__NR_mincore" (SYSCALL "sys_mincore");
     Define "__NR_madvise" 233;
     Wire "__NR_madvise" (SYSCALL "sys_madvise");
     Define "__NR_remap_file_pages" 234;
     Wire "__NR_remap_file_pages" (SYSCALL "sys_remap_file_pages");
     Define "__NR_mbind" 235;
     Wire "__NR_mbind" (SYSCALL "sys_mbind");
     Define "__NR_get_mempolicy" 236;
     Wire "__NR_get_mempolicy" (SYSCALL "sys_get_mempolicy");
     Define "__NR_set_mempolicy" 237;
     Wire "__NR_set_mempolicy" (SYSCALL "sys_set_mempolicy");
     Define "__NR_migrate_pages" 238;
     Wire "__NR_migrate_pages" (SYSCALL "sys_migrate_pages");
     Define "__NR_move_pages" 239;
     Wire "__NR_move_pages" (SYSCALL "sys_move_pages")]
    [];
  Plain (Define "__NR_rt_tgsigqueueinfo" 240);
  Plain (Wire "__NR_rt_tgsigqueueinfo" (SC_COMP "sys_rt_tgsigqueueinfo" "compat_sys_rt_tgsigqueueinfo"));
  Plain (Define "__NR_perf_event_open" 241);
  Plain (Wire "__NR_perf_event_open" (SYSCALL "sys_perf_event_open"));
  Plain (Define "__NR_accept4" 242);
  Plain (Wire "__NR_accept4" (SYSCALL "sys_accept4"));
  Cond C_time32
    [Define "__NR_recvmmsg" 243;
     Wire "__NR_recvmmsg" (SC_COMP_3264 "sys_recvmmsg_time32" "sys_recvmmsg" "compat_sys_recvmmsg_time32")]
    [];
  Plain (Define "__NR_arch_specific_syscall" 244);
  Cond C_time32
    [Define "__NR_wait4" 260;
     Wire "__NR_wait4" (SC_COMP "sys_wait4" "compat_sys_wait4")]
    [];
  Plain (Define "__NR_prlimit64" 261);
  Plain (Wire "__NR_prlimit64" (SYSCALL "sys_prlimit64"));
  Plain (Define "__NR_fanotify_init" 262);
  Plain (Wire "__NR_fanotify_init" (SYSCALL "sys_fanotify_init"));
  Plain (Define "__NR_fanotify_mark" 263);
  Plain (Wire "__NR_fanotify_mark" (SYSCALL "sys_fanotify_mark"));
  Plain (Define "__NR_name_to_handle_at" 264);
  Plain (Wire "__NR_name_to_handle_at" (SYSCALL "sys_name_to_handle_at"));
  Plain (Define "__NR_open_by_handle_at" 265);
  Plain (Wire "__NR_open_by_handle_at" (SYSCALL "sys_open_by_handle_at"));
  Cond C_time32
    [Define "__NR_clock_adjtime" 266;
     Wire "__NR_clock_adjtime" (SC_3264 "sys_clock_adjtime32" "sys_clock_adjtime")]
    [];
  Plain (Define "__NR_syncfs" 267);
  Plain (Wire "__NR_syncfs" (SYSCALL "sys_syncfs"));
  Plain (Define "__NR_setns" 268);
  Plain (Wire "__NR_setns" (SYSCALL "sys_setns"));
  Plain (Define "__NR_sendmmsg" 269);
  Plain (Wire "__NR_sendmmsg" (SC_COMP "sys_sendmmsg" "compat_sys_sendmmsg"));
  Plain (Define "__NR_process_vm_readv" 270);
  Plain (Wire "__NR_process_vm_readv" (SYSCALL "sys_process_vm_readv"));
  Plain (Define "__NR_process_vm_writev" 271);
  Plain (Wire "__NR_process_vm_writev" (SYSCALL "sys_process_vm_writev"));
  Plain (Define "__NR_kcmp" 272);
  Plain (Wire "__NR_kcmp" (SYSCALL "sys_kcmp"));
  Plain (Define "__NR_finit_module" 273);
  Plain (Wire "__NR_finit_module" (SYSCALL "sys_finit_module"));
  Plain (Define "__NR_sched_setattr" 274);
  Plain (Wire "__NR_sched_setattr" (SYSCALL "sys_sched_setattr"));
  Plain (Define "__NR_sched_getattr" 275);
  Plain (Wire "__NR_sched_getattr" (SYSCALL "sys_sched_getattr"));
  Plain (Define "__NR_renameat2" 276);
  Plain (Wire "__NR_renameat2" (SYSCALL "sys_renameat2"));
  Plain (Define "__NR_seccomp" 277);
  Plain (Wire "__NR_seccomp" (SYSCALL "sys_seccomp"));
  Plain (Define "__NR_getrandom" 278);
  Plain (Wire "__NR_getrandom" (SYSCALL "sys_getrandom"));
  Plain (Define "__NR_memfd_create" 279);
  Plain (Wire "__NR_memfd_create" (SYSCALL "sys_memfd_create"));
  Plain (Define "__NR_bpf" 280);
  Plain (Wire "__NR_bpf" (SYSCALL "sys_bpf"));
  Plain (Define "__NR_execveat" 281);
  Plain (Wire "__NR_execveat" (SC_COMP "sys_execveat" "compat_sys_execveat"));
  Plain (Define "__NR_userfaultfd" 282);
  Plain (Wire "__NR_userfaultfd" (SYSCALL "sys_userfaultfd"));
  Plain (Define "__NR_membarrier" 283);
  Plain (Wire "__NR_membarrier" (SYSCALL "sys_membarrier"));
  Plain (Define "__NR_mlock2" 284);
  Plain (Wire "__NR_mlock2" (SYSCALL "sys_mlock2"));
  Plain (Define "__NR_copy_file_range" 285);
  Plain (Wire "__NR_copy_file_range" (SYSCALL "sys_copy_file_range"));
  Plain (Define "__NR_preadv2" 286);
  Plain (Wire "__NR_preadv2" (SC_COMP "sys_preadv2" "compat_sys_preadv2"));
  Plain (Define "__NR_pwritev2" 287);
  Plain (Wire "__NR_pwritev2" (SC_COMP "sys_pwritev2" "compat_sys_pwritev2"));
  Plain (Define "__NR_pkey_mprotect" 288);
  Plain (Wire "__NR_pkey_mprotect" (SYSCALL "sys_pkey_mprotect"));
  Plain (Define "__NR_pkey_alloc" 289);
  Plain (Wire "__NR_pkey_alloc" (SYSCALL "sys_pkey_alloc"));
  Plain (Define "__NR_pkey_free" 290);
  Plain (Wire "__NR_pkey_free" (SYSCALL "sys_pkey_free"));
  Plain (Define "__NR_statx" 291);
  Plain (Wire "__NR_statx" (SYSCALL "sys_statx"))
].

(** [unistd.h], lines 773 to 889. *)
Definition unistd_part6 : list item := [
  Cond C_time32
    [Define "__NR_io_pgetevents" 292;
     Wire "__NR_io_pgetevents" (SC_COMP_3264 "sys_io_pgetevents_time32" "sys_io_pgetevents" "compat_sys_io_pgetevents")]
    [];
  Plain (Define "__NR_rseq" 293);
  Plain (Wire "__NR_rseq" (SYSCALL "sys_rseq"));
  Plain (Define "__NR_kexec_file_load" 294);
  Plain (Wire "__NR_kexec_file_load" (SYSCALL "sys_kexec_file_load"));
  Cond C_bits32
    [Define "__NR_clock_gettime64" 403;
     Wire "__NR_clock_gettime64" (SYSCALL "sys_clock_gettime");
     Define "__NR_clock_settime64" 404;
     Wire "__NR_clock_settime64" (SYSCALL "sys_clock_settime");
     Define "__NR_clock_adjtime64" 405;
     Wire "__NR_clock_adjtime64" (SYSCALL "sys_clock_adjtime");
     Define "__NR_clock_getres_time64" 406;
     Wire "__NR_clock_getres_time64" (SYSCALL "sys_clock_getres");
     Define "__NR_clock_nanosleep_time64" 407;
     Wire "__NR_clock_nanosleep_time64" (SYSCALL "sys_clock_nanosleep");
     Define "__NR_timer_gettime64" 408;
     Wire "__NR_timer_gettime64" (SYSCALL "sys_timer_gettime");
     Define "__NR_timer_settime64" 409;
     Wire "__NR_timer_settime64" (SYSCALL "sys_timer_settime");
     Define "__NR_timerfd_gettime64" 410;
     Wire "__NR_timerfd_gettime64" (SYSCALL "sys_timerfd_gettime");
     Define "__NR_timerfd_settime64" 411;
     Wire "__NR_timerfd_settime64" (SYSCALL "sys_timerfd_settime");
     Define "__NR_utimensat_time64" 412;
     Wire "__NR_utimensat_time64" (SYSCALL "sys_utimensat");
     Define "__NR_pselect6_time64" 413;
     Wire "__NR_pselect6_time64" (SC_COMP "sys_pselect6" "compat_sys_pselect6_time64");
     Define "__NR_ppoll_time64" 414;
     Wire "__NR_ppoll_time64" (SC_COMP "sys_ppoll" "compat_sys_ppoll_time64");
     Define "__NR_io_pgetevents_time64" 416;
     Wire "__NR_io_pgetevents_time64" (SC_COMP "sys_io_pgetevents" "compat_sys_io_pgetevents_time64");
     Define "__NR_recvmmsg_time64" 417;
     Wire "__NR_recvmmsg_time64" (SC_COMP "sys_recvmmsg" "compat_sys_recvmmsg_time64");
     Define "__NR_mq_timedsend_time64" 418;
     Wire "__NR_mq_timedsend_time64" (SYSCALL "sys_mq_timedsend");
     Define "__NR_mq_timedreceive_time64" 419;
     Wire "__NR_mq_timedreceive_time64" (SYSCALL "sys_mq_timedreceive");
     Define "__NR_semtimedop_time64" 420;
     Wire "__NR_semtimedop_time64" (SYSCALL "sys_semtimedop");
     Define "__NR_rt_sigtimedwait_time64" 421;
     Wire "__NR_rt_sigtimedwait_time64" (SC_COMP "sys_rt_sigtimedwait" "compat_sys_rt_sigtimedwait_time64");
     Define "__NR_futex_time64" 422;
     Wire "__NR_futex_time64" (SYSCALL "sys_futex");
     Define "__NR_sched_rr_get_interval_time64" 423;
     Wire "__NR_sched_rr_get_interval_time64" (SYSCALL "sys_sched_rr_get_interval")]
    [];
  Plain (Define "__NR_pidfd_send_signal" 424);
  Plain (Wire "__NR_pidfd_send_signal" (SYSCALL "sys_pidfd_send_signal"));
  Plain (Define "__NR_io_uring_setup" 425);
  Plain (Wire "__NR_io_uring_setup" (SYSCALL "sys_io_uring_setup"));
  Plain (Define "__NR_io_uring_enter" 426);
  Plain (Wire "__NR_io_uring_enter" (SYSCALL "sys_io_uring_enter"));
  Plain (Define "__NR_io_uring_register" 427);
  Plain (Wire "__NR_io_uring_register" (SYSCALL "sys_io_uring_register"));
  Plain (Define "__NR_open_tree" 428);
  Plain (Wire "__NR_open_tree" (SYSCALL "sys_open_tree"));
  Plain (Define "__NR_move_mount" 429);
  Plain (Wire "__NR_move_mount" (SYSCALL "sys_move_mount"));
  Plain (Define "__NR_fsopen" 430);
  Plain (Wire "__NR_fsopen" (SYSCALL "sys_fsopen"));
  Plain (Define "__NR_fsconfig" 431);
  Plain (Wire "__NR_fsconfig" (SYSCALL "sys_fsconfig"));
  Plain (Define "__NR_fsmount" 432);
  Plain (Wire "__NR_fsmount" (SYSCALL "sys_fsmount"));
  Plain (Define "__NR_fspick" 433);
  Plain (Wire "__NR_fspick" (SYSCALL "sys_fspick"));
  Plain (Define "__NR_pidfd_open" 434);
  Plain (Wire "__NR_pidfd_open" (SYSCALL "sys_pidfd_open"));
  Cond C_sys_clone3
    [Define "__NR_clone3" 435;
     Wire "__NR_clone3" (SYSCALL "sys_clone3")]
    [];
  Plain (Define "__NR_close_range" 436);
  Plain (Wire "__NR_close_range" (SYSCALL "sys_close_range"));
  Plain (Define "__NR_openat2" 437);
  Plain (Wire "__NR_openat2" (SYSCALL "sys_openat2"));
  Plain (Define "__NR_pidfd_getfd" 438);
  Plain (Wire "__NR_pidfd_getfd" (SYSCALL "sys_pidfd_getfd"));
  Plain (Define "__NR_faccessat2" 439);
  Plain (Wire "__NR_faccessat2" (SYSCALL "sys_faccessat2"));
  Plain (Define "__NR_process_madvise" 440);
  Plain (Wire "__NR_process_madvise" (SYSCALL "sys_process_madvise"));
  Plain (Define "__NR_epoll_pwait2" 441);
  Plain (Wire "__NR_epoll_pwait2" (SC_COMP "sys_epoll_pwait2" "compat_sys_epoll_pwait2"));
  Plain (Define "__NR_mount_setattr" 442);
  Plain (Wire "__NR_mount_setattr" (SYSCALL "sys_mount_setattr"));
  Plain (Define "__NR_quotactl_fd" 443);
  Plain (Wire "__NR_quotactl_fd" (SYSCALL "sys_quotactl_fd"));
  Plain (Define "__NR_landlock_create_ruleset" 444);
  Plain (Wire "__NR_landlock_create_ruleset" (SYSCALL "sys_landlock_create_ruleset"));
  Plain (Define "__NR_landlock_add_rule" 445);
  Plain (Wire "__NR_landlock_add_rule" (SYSCALL "sys_landlock_add_rule"));
  Plain (Define "__NR_landlock_restrict_self" 446);
  Plain (Wire "__NR_landlock_restrict_self" (SYSCALL "sys_landlock_restrict_self"));
  Cond C_memfd_secret
    [Define "__NR_memfd_secret" 447;
     Wire "__NR_memfd_secret" (SYSCALL "sys_memfd_secret")]
    [];
  Plain (Define "__NR_process_mrelease" 448);
  Plain (Wire "__NR_process_mrelease" (SYSCALL "sys_process_mrelease"));
  Plain (Define "__NR_write_kv" 449);
  Plain (Wire "__NR_write_kv" (SYSCALL "sys_write_kv"));
  Plain (Define "__NR_read_kv" 450);
  Plain (Wire "__NR_read_kv" (SYSCALL "sys_read_kv"));
  Plain (Define "__NR_configure_socket_fairness" 451);
  Plain (Wire "__NR_configure_socket_fairness" (SYSCALL "sys_configure_socket_fairness"))
].

Definition unistd : list item :=
  unistd_part1 ++ unistd_part2 ++ unistd_part3 ++ unistd_part4 ++ unistd_part5 ++ unistd_part6.

(** [#undef __NR_syscalls], [#define __NR_syscalls 452]. *)
Definition NR_syscalls : Z := 452.

(** The names of the 32/64-bit pairs: the alias and what it stands for. *)
Definition aliases (g : config) (e : expansion) : list (string * string) :=
  let stat := want_new_stat g || want_stat64 g in
  let has_stat := bool_decide (is_Some (assoc "__NR3264_stat" (env e))) in
  if negb (bits_per_long_32 g) && negb (syscall_compat g) then
    [("__NR_fcntl", "__NR3264_fcntl");
     ("__NR_statfs", "__NR3264_statfs");
     ("__NR_fstatfs", "__NR3264_fstatfs");
     ("__NR_truncate", "__NR3264_truncate");
     ("__NR_ftruncate", "__NR3264_ftruncate");
     ("__NR_lseek", "__NR3264_lseek");
     ("__NR_sendfile", "__NR3264_sendfile")] ++
    (if stat then
       [("__NR_newfstatat", "__NR3264_fstatat"); ("__NR_fstat", "__NR3264_fstat")] else []) ++
    [("__NR_mmap", "__NR3264_mmap");
     ("__NR_fadvise64", "__NR3264_fadvise64")] ++
    (if has_stat then
       [("__NR_stat", "__NR3264_stat"); ("__NR_lstat", "__NR3264_lstat")] else [])
  else
    [("__NR_fcntl64", "__NR3264_fcntl");
     ("__NR_statfs64", "__NR3264_statfs");
     ("__NR_fstatfs64", "__NR3264_fstatfs");
     ("__NR_truncate64", "__NR3264_truncate");
     ("__NR_ftruncate64", "__NR3264_ftruncate");
     ("__NR_llseek", "__NR3264_lseek");
     ("__NR_sendfile64", "__NR3264_sendfile")] ++
    (if stat then
       [("__NR_fstatat64", "__NR3264_fstatat"); ("__NR_fstat64", "__NR3264_fstat")] else []) ++
    [("__NR_mmap2", "__NR3264_mmap");
     ("__NR_fadvise64_64", "__NR3264_fadvise64")] ++
    (if has_stat then
       [("__NR_stat64", "__NR3264_stat"); ("__NR_lstat64", "__NR3264_lstat")] else []).

(** ** The user side and the x86 table *)

(** [user/kv_syscall/kv.h]. *)
Definition SYS_write_kv : Z := 449.
Definition SYS_read_kv : Z := 450.

(** [network/socket/socket_test.c]. *)
Definition NR_configure_socket_fairness : Z := 451.

(** [syscall_64.tbl], rows 424 to 451 (all of ABI [common]): number and entry
    point. *)
Definition syscall_64_new : list (Z * string) := [
  (424, "sys_pidfd_send_signal"); (425, "sys_io_uring_setup"); (426, "sys_io_uring_enter");
  (427, "sys_io_uring_register"); (428, "sys_open_tree"); (429, "sys_move_mount");
  (430, "sys_fsopen"); (431, "sys_fsconfig"); (432, "sys_fsmount"); (433, "sys_fspick");
  (434, "sys_pidfd_open"); (435, "sys_clone3"); (436, "sys_close_range");
  (437, "sys_openat2"); (438, "sys_pidfd_getfd"); (439, "sys_faccessat2");
  (440, "sys_process_madvise"); (441, "sys_epoll_pwait2"); (442, "sys_mount_setattr");
  (443, "sys_quotactl_fd"); (444, "sys_landlock_create_ruleset");
  (445, "sys_landlock_add_rule"); (446, "sys_landlock_restrict_self");
  (447, "sys_memfd_secret"); (448, "sys_process_mrelease"); (449, "sys_write_kv");
  (450, "sys_read_kv"); (451, "sys_configure_socket_fairness")].

Close Scope string_scope.

(** ** A static check of the header *)

(** The last name defined and the set of numbers wired, as a bit mask. *)
Record check_state := CheckState { last_def : option (string * Z); seen : Z }.

Definition check_line (st : check_state) (l : line) : option check_state :=
  match l, last_def st with
  | Define nm n, _ => Some (CheckState (Some (nm, n)) (seen st))
  | Wire nm _, Some (nm', n) =>
      if bool_decide (nm = nm') && (0 <=? n) && (n <? NR_syscalls) && negb (Z.testbit (seen st) n)
      then Some (CheckState (last_def st) (Z.setbit (seen st) n)) else None
  | Wire _ _, None => None
  end.

Fixpoint check_lines (st : check_state) (ls : list line) : option check_state :=
  match ls with
  | [] => Some st
  | l :: ls' => st' ← check_line st l; check_lines st' ls'
  end.

Definition check_item (st : check_state) (it : item) : option check_state :=
  match it with
  | Plain l => check_line st l
  | Cond _ yes no =>
      a ← check_lines st yes; b ← check_lines st no;
      Some (CheckState None (Z.lor (seen a) (seen b)))
  end.

Fixpoint check_items (st : check_state) (its : list item) : option check_state :=
  match its with
  | [] => Some st
  | it :: its' => st' ← check_item st it; check_items st' its'
  end.

(** What the check state says of an expansion. *)
Record covers (st : check_state) (e : expansion) : Prop := {
  cov_last nm n : last_def st = Some (nm, n) -> assoc nm (env e) = Some n;
  cov_nodup : NoDup (table e).*1;
  cov_seen n : n ∈ (table e).*1 -> 0 <= n < NR_syscalls /\ Z.testbit (seen st) n = true
}.

Lemma check_line_sound g st l st' e :
  check_line st l = Some st' -> covers st e ->
  exists e', expand_line g e l = Some e' /\ covers st' e'.
Proof.
  intros Hc He. destruct l as [nm n|nm mac]; cbn in *.
  - simplify_eq. eexists; split; [done|]. split; [|apply He..].
    intros nm' n'; cbn. intros [= <- <-]. by rewrite decide_True.
  - destruct (last_def st) as [[nm' n]|] eqn:El; [|done].
    case_bool_decide; cbn in Hc; [|done]. subst nm'.
    destruct (Z.leb_spec 0 n), (Z.ltb_spec n NR_syscalls), (Z.testbit (seen st) n) eqn:Eb;
      cbn in Hc; try done. simplify_eq.
    rewrite (cov_last _ _ He _ _ El); cbn. eexists; split; [done|]. split; cbn.
    + intros ?? [= <- <-]. by apply (cov_last _ _ He).
    + rewrite fmap_app. apply NoDup_app. split_and!; [apply He| |apply NoDup_singleton].
      intros x Hx%(cov_seen _ _ He). cbn. rewrite list_elem_of_singleton. intros ->.
      destruct Hx. congruence.
    + intros x. rewrite fmap_app, elem_of_app; cbn. rewrite Z.setbit_eqb by lia.
      intros [Hx%(cov_seen _ _ He)|Hx%list_elem_of_singleton]; cbn in *; subst.
      * destruct Hx as [? ->]. by rewrite orb_true_r.
      * by rewrite Z.eqb_refl.
Qed.

Lemma check_lines_sound g ls : forall st st' e,
  check_lines st ls = Some st' -> covers st e ->
  exists e', expand_lines g e ls = Some e' /\ covers st' e'.
Proof.
  induction ls as [|l ls IH]; intros st st' e; cbn.
  - intros [= <-]. eauto.
  - destruct (check_line st l) as [st1|] eqn:E; cbn; [|done]. intros Hc He.
    destruct (check_line_sound g _ _ _ _ E He) as (e1 & -> & He1); cbn. eauto.
Qed.

Lemma covers_weaken st e s :
  covers st e -> (forall n, Z.testbit (seen st) n = true -> Z.testbit s n = true) ->
  covers (CheckState None s) e.
Proof.
  intros He Hs. split; [done|apply He|]. intros n Hn%(cov_seen _ _ He).
  destruct Hn. auto.
Qed.

Lemma check_item_sound g it st st' e :
  check_item st it = Some st' -> covers st e ->
  exists e', expand_item g e it = Some e' /\ covers st' e'.
Proof.
  destruct it as [l|c yes no]; cbn; [apply check_line_sound|].
  destruct (check_lines st yes) as [a|] eqn:Ea; cbn; [|done].
  destruct (check_lines st no) as [b|] eqn:Eb; cbn; [|done]. intros [= <-] He.
  destruct (holds g c);
    [destruct (check_lines_sound g _ _ _ _ Ea He) as (e' & -> & He')
    |destruct (check_lines_sound g _ _ _ _ Eb He) as (e' & -> & He')];
    eexists; (split; [done|]); eapply covers_weaken; try done;
    intros n Hn; by rewrite Z.lor_spec, Hn, ?orb_true_r.
Qed.

Lemma check_items_sound g its : forall st st' e,
  check_items st its = Some st' -> covers st e ->
  exists e', expand g e its = Some e' /\ covers st' e'.
Proof.
  induction its as [|it its IH]; intros st st' e; cbn.
  - intros [= <-]. eauto.
  - destruct (check_item st it) as [st1|] eqn:E; cbn; [|done]. intros Hc He.
    destruct (check_item_sound g _ _ _ _ E He) as (e1 & -> & He1); cbn. eauto.
Qed.

(** The header passes the check. *)
Lemma unistd_checks : is_Some (check_items (CheckState None 0) unistd).
Proof. vm_compute. eauto. Qed.

Definition empty_expansion : expansion := Expansion [] [].

Lemma empty_covered : covers (CheckState None 0) empty_expansion.
Proof. split; cbn; [done|constructor|]. intros n. by rewrite elem_of_nil. Qed.

Lemma unistd_expands g : exists e st,
  expand g empty_expansion unistd = Some e /\ covers st e.
Proof.
  destruct unistd_checks as [st Hst].
  destruct (check_items_sound g _ _ _ _ Hst empty_covered) as (e & He).
  exists e, st. exact He.
Qed.

(** ** What an expansion contains *)

Lemma assoc_Some {A} nm (l : list (string * A)) x : assoc nm l = Some x -> (nm, x) ∈ l.
Proof.
  induction l as [|[nm' y] l IH]; cbn; [done|]. case_decide as E.
  - intros [= ->]. subst. left.
  - intros H. right. auto.
Qed.

Lemma assoc_is_Some {A} nm (l : list (string * A)) : nm ∈ l.*1 -> is_Some (assoc nm l).
Proof.
  induction l as [|[nm' y] l IH]; cbn; rewrite ?elem_of_nil, ?elem_of_cons; [done|].
  case_decide; [eauto|]. intros [->|?]; [done|auto].
Qed.

Lemma expand_line_mono g e l e' :
  expand_line g e l = Some e' -> (env e).*1 ⊆ (env e').*1 /\ table e ⊆ table e'.
Proof.
  destruct l as [nm n|nm mac]; cbn.
  - intros [= <-]; cbn. set_solver.
  - destruct (assoc nm (env e)); cbn; [|done]. intros [= <-]; cbn. set_solver.
Qed.

Lemma expand_lines_mono g ls : forall e e',
  expand_lines g e ls = Some e' -> (env e).*1 ⊆ (env e').*1 /\ table e ⊆ table e'.
Proof.
  induction ls as [|l ls IH]; cbn; intros e e'; [intros [= <-]; done|].
  destruct (expand_line g e l) as [e1|] eqn:E; cbn; [|done]. intros H%IH.
  apply expand_line_mono in E. set_solver.
Qed.

Lemma expand_mono g its : forall e e',
  expand g e its = Some e' -> (env e).*1 ⊆ (env e').*1 /\ table e ⊆ table e'.
Proof.
  induction its as [|it its IH]; cbn; intros e e'; [intros [= <-]; done|].
  destruct (expand_item g e it) as [e1|] eqn:E; cbn; [|done]. intros H%IH.
  destruct it as [l|c yes no]; cbn in E;
    [apply expand_line_mono in E|apply expand_lines_mono in E]; set_solver.
Qed.

(** The lines an item keeps in a configuration. *)
Definition kept (g : config) (it : item) : list line :=
  match it with Plain l => [l] | Cond c yes no => if holds g c then yes else no end.

Definition expand_kept g e it : expand_item g e it = expand_lines g e (kept g it).
Proof. destruct it; cbn; [by destruct (expand_line g e l)|done]. Qed.

(** A [#define] kept by the configuration is in the environment. *)
Lemma expand_lines_defines g ls : forall e e' nm n,
  expand_lines g e ls = Some e' -> Define nm n ∈ ls -> nm ∈ (env e').*1.
Proof.
  induction ls as [|l ls IH]; cbn; intros e e' nm n; [by rewrite elem_of_nil|].
  destruct (expand_line g e l) as [e1|] eqn:E; cbn; [|done].
  rewrite elem_of_cons. intros H [<-|Hin]; [|by eapply IH].
  cbn in E. simplify_eq. apply expand_lines_mono in H as [H _]. set_solver.
Qed.

Lemma expand_defines g its : forall e e' it nm n,
  expand g e its = Some e' -> it ∈ its -> Define nm n ∈ kept g it -> nm ∈ (env e').*1.
Proof.
  induction its as [|it0 its IH]; cbn; intros e e' it nm n; [by rewrite elem_of_nil|].
  destruct (expand_item g e it0) as [e1|] eqn:E; cbn; [|done].
  rewrite elem_of_cons. intros H [->|Hin] Hd; [|by eapply IH].
  rewrite expand_kept in E. apply expand_mono in H as [H _]. apply H.
  by eapply expand_lines_defines.
Qed.

(** The entries that are wired whenever the conditions [cs] hold: a definition
    followed by its wiring. *)
Fixpoint wires (cs : list cond) (its : list item) : list (Z * sc_macro) :=
  match its with
  | [] => []
  | it :: rest =>
      match it, rest with
      | Plain (Define nm n), Plain (Wire nm' mac) :: _ =>
          if decide (nm = nm') then [(n, mac)] else []
      | Cond c (Define nm n :: Wire nm' mac :: _) _, _ =>
          if decide (nm = nm' /\ c ∈ cs) then [(n, mac)] else []
      | _, _ => []
      end ++ wires cs rest
  end.

Lemma expand_define_wire g e nm n mac :
  exists e', expand_lines g e [Define nm n; Wire nm mac] = Some e' /\
    (n, wire_target g mac) ∈ table e'.
Proof. cbn. rewrite decide_True by done. cbn. eexists; split; [done|]. cbn. set_solver. Qed.

Lemma expand_wires g cs its : Forall (fun c => holds g c = true) cs ->
  forall e e' n mac, expand g e its = Some e' -> (n, mac) ∈ wires cs its ->
  (n, wire_target g mac) ∈ table e'.
Proof.
  intros Hcs. induction its as [|it its IH]; intros e e' n mac; [by rewrite elem_of_nil|].
  cbn [wires]. rewrite elem_of_app. intros He [Hin|Hin].
  2: { cbn in He. destruct (expand_item g e it); cbn in He; [by eapply IH|done]. }
  destruct it as [[nm n'|nm mac']|c [|[nm n'|] [|[|nm' mac'] yes]] no]; try by inversion Hin.
  - destruct its as [|[[|nm' mac']|] its]; try by inversion Hin.
    case_decide; [subst nm'|by inversion Hin]. apply list_elem_of_singleton in Hin as [= -> ->].
    destruct (expand_define_wire g e nm n' mac') as (e1 & He1 & Hin).
    cbn [expand expand_item] in He. cbn in He1, He. rewrite decide_True in * by done. cbn in *.
    simplify_eq. apply expand_mono in He as [_ He]. by apply He.
  - case_decide as D; [destruct D as [<- Hc]|by inversion Hin].
    apply list_elem_of_singleton in Hin as [= -> ->].
    rewrite Forall_forall in Hcs. specialize (Hcs c Hc).
    cbn [expand expand_item] in He. rewrite Hcs in He. cbn in He.
    rewrite decide_True in He by done. cbn in He.
    destruct (expand_lines g _ yes) as [e1|] eqn:E; cbn in He; [|done].
    apply expand_mono in He as [_ He]. apply expand_lines_mono in E as [_ E].
    apply He, E. cbn. set_solver.
Qed.

(** The names defined whenever the conditions [cs] hold. *)
Definition defined (cs : list cond) (its : list item) : list string :=
  flat_map (fun it => match it with
    | Plain (Define nm _) => [nm]
    | Cond c yes _ => if decide (c ∈ cs)
        then flat_map (fun l => match l with Define nm _ => [nm] | _ => [] end) yes else []
    | _ => []
    end) its.

Lemma expand_defined g cs its e e' nm :
  Forall (fun c => holds g c = true) cs -> expand g e its = Some e' ->
  nm ∈ defined cs its -> is_Some (assoc nm (env e')).
Proof.
  intros Hcs He Hin. apply assoc_is_Some. unfold defined in Hin.
  apply list_elem_of_In, in_flat_map in Hin as (it & Hit%list_elem_of_In & Hnm).
  assert (exists n, Define nm n ∈ kept g it) as [n Hn]; [|by eapply expand_defines].
  destruct it as [[nm' n|]|c yes no]; cbn in Hnm; [|done|].
  - destruct Hnm as [->|[]]. exists n. left.
  - case_decide as D; [|done]. rewrite Forall_forall in Hcs. cbn. rewrite (Hcs c D).
    apply in_flat_map in Hnm as (l & Hl%list_elem_of_In & Hnm).
    destruct l as [nm' n|]; [|done]. destruct Hnm as [->|[]]. eauto.
Qed.

(** Every name the header can define. *)
Definition line_names (ls : list line) : list string :=
  flat_map (fun l => match l with Define nm _ => [nm] | _ => [] end) ls.

Definition all_names (its : list item) : list string :=
  flat_map (fun it => match it with
    | Plain l => line_names [l]
    | Cond _ yes no => line_names yes ++ line_names no
    end) its.

Lemma expand_lines_names g ls : forall e e',
  expand_lines g e ls = Some e' -> (env e').*1 ⊆ (env e).*1 ++ line_names ls.
Proof.
  induction ls as [|l ls IH]; cbn; intros e e'; [intros [= <-]; set_solver|].
  destruct (expand_line g e l) as [e1|] eqn:E; cbn; [|done]. intros H%IH.
  destruct l as [nm n|nm mac]; cbn in E.
  - simplify_eq/=. set_solver.
  - destruct (assoc nm (env e)); simplify_eq/=. set_solver.
Qed.

Lemma expand_names g its : forall e e',
  expand g e its = Some e' -> (env e').*1 ⊆ (env e).*1 ++ all_names its.
Proof.
  induction its as [|it its IH]; cbn; intros e e'; [intros [= <-]; set_solver|].
  rewrite expand_kept. destruct (expand_lines g e (kept g it)) as [e1|] eqn:E; cbn; [|done].
  intros H%IH. apply expand_lines_names in E.
  destruct it as [l|c yes no]; cbn in E; [set_solver|]. destruct (holds g c); set_solver.
Qed.

Lemma no_nr3264_stat : bool_decide ("__NR3264_stat"%string ∈ all_names unistd) = false.
Proof. vm_compute. reflexivity. Qed.

(** ** Theorems *)

(** In every configuration the header expands (every wired name is
    defined), no system call number is wired twice, and every number is below
    [__NR_syscalls]. *)
Theorem unistd_numbers_unique g :
  exists e, expand g empty_expansion unistd = Some e /\
    NoDup (table e).*1 /\ Forall (fun n => 0 <= n < NR_syscalls) (table e).*1.
Proof.
  destruct (unistd_expands g) as (e & st & He & Hc). exists e.
  split; [exact He|]. clear He. split; [apply Hc|]. apply Forall_forall. intros n Hn%(cov_seen _ _ Hc). apply Hn.
Qed.

(** What an entry resolves to for native (non-compat) callers of any width. *)
Definition native (mac : sc_macro) : option string :=
  match mac with SYSCALL s | SC_COMP s _ => Some s | _ => None end.

Lemma native_target g mac s :
  native mac = Some s -> (forall s', mac = SYSCALL s' \/ syscall_compat g = false) ->
  wire_target g mac = s.
Proof.
  destruct mac as [s1|s1 c| |]; cbn; intros [= <-] H; [done|].
  destruct (H s1) as [?|E]; [done|by rewrite E].
Qed.

Definition sure_entry (cs : list cond) (r : Z * string) : bool :=
  existsb (fun w => (fst w =? fst r) && bool_decide (native (snd w) = Some (snd r)))
    (wires cs unistd).

Lemma sure_entry_sound g cs e r :
  Forall (fun c => holds g c = true) cs -> syscall_compat g = false ->
  expand g empty_expansion unistd = Some e -> sure_entry cs r = true -> r ∈ table e.
Proof.
  intros Hcs Hg He Hs. unfold sure_entry in Hs. apply existsb_exists in Hs as ([n mac] & Hin & H).
  apply andb_prop in H as [Hn Hm]. cbn in Hn, Hm. apply Z.eqb_eq in Hn.
  apply bool_decide_eq_true in Hm. destruct r as [n' s]; cbn in Hn, Hm. subst n'.
  rewrite <- (native_target g mac s) by (try done; intros; by right).
  eapply expand_wires; [exact Hcs|exact He|by apply list_elem_of_In].
Qed.

Definition fixed_entry (r : Z * string) : bool :=
  existsb (fun w => (fst w =? fst r) &&
     match snd w with SYSCALL s => bool_decide (s = snd r) | _ => false end) (wires [] unistd).

Lemma fixed_entry_sound g e r :
  expand g empty_expansion unistd = Some e -> fixed_entry r = true -> r ∈ table e.
Proof.
  intros He Hs. unfold fixed_entry in Hs. apply existsb_exists in Hs as ([n mac] & Hin & H).
  apply andb_prop in H as [Hn Hm]. cbn in Hn, Hm. apply Z.eqb_eq in Hn.
  destruct mac as [s| | |]; try done. apply bool_decide_eq_true in Hm.
  destruct r as [n' s']; cbn in Hn, Hm. subst.
  apply (expand_wires g [] unistd (Forall_nil_2 _) _ _ _ (SYSCALL s') He).
  by apply list_elem_of_In.
Qed.

(** The numbers the user-space wrappers of [kv.h] and the socket test use
    reach, in every configuration, the system calls they are meant for. *)
Theorem user_numbers_reach_handlers g :
  exists e, expand g empty_expansion unistd = Some e /\
  (SYS_write_kv, "sys_write_kv"%string) ∈ table e /\
  (SYS_read_kv, "sys_read_kv"%string) ∈ table e /\
  (NR_configure_socket_fairness, "sys_configure_socket_fairness"%string) ∈ table e.
Proof.
  destruct (unistd_expands g) as (e & _ & He & _). exists e. split; [exact He|].
  split_and!; apply (fixed_entry_sound g e _ He); vm_compute; reflexivity.
Qed.

Lemma syscall_64_sure :
  forallb (sure_entry [C_sys_clone3; C_memfd_secret]) syscall_64_new = true.
Proof. vm_compute. reflexivity. Qed.

(** For native callers of an architecture with [clone3] and
    [memfd_secret], every row from 424 on of the x86-64 table is an entry of
    the generic table: the same number reaches the same function. *)
Theorem syscall_64_agrees_with_unistd g e :
  syscall_compat g = false -> want_sys_clone3 g = true -> want_memfd_secret g = true ->
  expand g empty_expansion unistd = Some e ->
  Forall (fun r => r ∈ table e) syscall_64_new.
Proof.
  intros Hg Hc Hm He. apply Forall_forall. intros r Hr.
  apply (sure_entry_sound g [C_sys_clone3; C_memfd_secret] e); [|exact Hg|exact He|].
  - repeat constructor; cbn; assumption.
  - pose proof syscall_64_sure as H. rewrite forallb_forall in H.
    apply H. by apply list_elem_of_In.
Qed.

Definition plain_3264 : list string :=
  ["__NR3264_fcntl"; "__NR3264_statfs"; "__NR3264_fstatfs"; "__NR3264_truncate";
   "__NR3264_ftruncate"; "__NR3264_lseek"; "__NR3264_sendfile"; "__NR3264_mmap";
   "__NR3264_fadvise64"]%string.
Definition stat_3264 : list string := ["__NR3264_fstatat"; "__NR3264_fstat"]%string.

Lemma aliases_defined :
  forallb (fun nm => bool_decide (nm ∈ defined [] unistd)) plain_3264 = true /\
  forallb (fun nm => bool_decide (nm ∈ defined [C_stat] unistd)) stat_3264 = true.
Proof. split; vm_compute; reflexivity. Qed.

Lemma checked_defined g cs nms e :
  Forall (fun c => holds g c = true) cs -> expand g empty_expansion unistd = Some e ->
  forallb (fun nm => bool_decide (nm ∈ defined cs unistd)) nms = true ->
  Forall (fun nm => is_Some (assoc nm (env e))) nms.
Proof.
  intros Hcs He Hd. apply Forall_forall. intros nm Hnm%list_elem_of_In.
  rewrite forallb_forall in Hd. specialize (Hd nm Hnm). apply bool_decide_eq_true in Hd.
  exact (expand_defined g cs unistd _ _ nm Hcs He Hd).
Qed.

(** The targets of the aliases, by kind. *)
Lemma aliases_targets g e nm :
  assoc "__NR3264_stat" (env e) = None -> nm ∈ (aliases g e).*2 ->
  nm ∈ plain_3264 \/ (holds g C_stat = true /\ nm ∈ stat_3264).
Proof.
  intros Hn. unfold aliases. rewrite Hn, bool_decide_eq_false_2 by (intros [? ?]; done).
  cbn [holds]. unfold plain_3264, stat_3264.
  destruct (negb (bits_per_long_32 g) && negb (syscall_compat g)),
    (want_new_stat g || want_stat64 g); cbn; set_solver.
Qed.

(** In every configuration each 32/64-bit alias the header defines stands
    for a name the header defines. *)
Theorem unistd_aliases_resolve g :
  exists e, expand g empty_expansion unistd = Some e /\
    Forall (fun nm => is_Some (assoc nm (env e))) (aliases g e).*2.
Proof.
  destruct (unistd_expands g) as (e & _ & He & _). exists e. split; [exact He|].
  destruct aliases_defined as [Hp Hs].
  pose proof (checked_defined g [] plain_3264 e (Forall_nil_2 _) He Hp) as Fp.
  assert (assoc "__NR3264_stat" (env e) = None) as Hn.
  { destruct (assoc "__NR3264_stat" (env e)) eqn:E; [exfalso|done].
    apply assoc_Some, (list_elem_of_fmap_2 fst) in E. apply (expand_names g _ _ _ He) in E.
    pose proof no_nr3264_stat as H. apply bool_decide_eq_false in H. exact (H E). }
  apply Forall_forall. intros nm Hnm.
  destruct (aliases_targets g e nm Hn Hnm) as [H|[Hst H]].
  - by apply (proj1 (Forall_forall _ _) Fp).
  - assert (Forall (fun c => holds g c = true) [C_stat]) as Hcs by (by repeat constructor).
    pose proof (checked_defined g [C_stat] stat_3264 e Hcs He Hs) as Fs.
    by apply (proj1 (Forall_forall _ _) Fs).
Qed.

(** ** Witnesses *)

(** x86-64 as [syscall_64.tbl] serves it. *)
Definition x86_64 : config := Config false false false false true false false true false true true.

Definition x86_expansion : expansion :=
  default empty_expansion (expand x86_64 empty_expansion unistd).

Lemma syscall_64_agrees_with_unistd_witness :
  Forall (fun r => r ∈ table x86_expansion) syscall_64_new.
Proof.
  apply (syscall_64_agrees_with_unistd x86_64 x86_expansion).
  - reflexivity.
  - reflexivity.
  - reflexivity.
  - vm_compute. reflexivity.
Defined.
