(* ===== verification/Prototypes.v ===== *)
(** * Prototypes: the system call interface of the kernel

    Models [include/linux/syscalls.h]: the prototypes of all system calls with the
    conditions under which they are declared, and the macros behind
    [SYSCALL_DEFINEx] that convert the registers of a call to the arguments of its
    handler.  Typedefs declared in other headers are names; what they stand for is a
    parameter.  All prototypes are inside [#ifndef CONFIG_ARCH_HAS_SYSCALL_WRAPPER],
    and so are those of this file: they are what the compiler sees where an
    architecture keeps the default calling convention, the same in which it builds
    its table from [unistd.h].  Together with [Syscalls] this shows that this table is
    well typed. *)

From Stdlib Require Import ZArith Lia.
From stdpp Require Import base list strings sets.
From S2P Require Import Prelude Syscalls.

(** ** Types and prototypes *)

Inductive cty := UShort | Int | UInt | Long | ULong | LongLong | ULongLong | Ptr | Enum | Named (nm : string).

Record proto := Proto { pname : string; params : list cty }.

(** The macros tested around prototypes. *)
Inductive pcond :=
  | P_bits32 | P_stat64 | P_odd_rt_sigaction | P_clone_backwards | P_clone_backwards3 | P_split_arg64
  | P_sys_utime | P_old_sigsuspend | P_old_sigsuspend3 | P_old_sigaction | P_have_uid16 | P_sys_old_getrlimit.

#[global] Instance pcond_eq_dec : EqDecision pcond.
Proof. solve_decision. Defined.

(** Prototypes with the conditions around them, each with the branch they are in. *)
Record pgroup := PGroup { guards : list (pcond * bool); decls : list proto }.

Open Scope string_scope.

(** ** include/linux/syscalls.h *)

(** [syscalls.h], lines 316 to 461. *)
Definition protos_part1 : list pgroup := [
  PGroup [] [
    Proto "sys_io_setup" [UInt; Ptr];
    Proto "sys_io_destroy" [(Named "aio_context_t")];
    Proto "sys_io_submit" [(Named "aio_context_t"); Long; Ptr];
    Proto "sys_io_cancel" [(Named "aio_context_t"); Ptr; Ptr];
    Proto "sys_io_getevents" [(Named "aio_context_t"); Long; Long; Ptr; Ptr];
    Proto "sys_io_getevents_time32" [(Named "__u32"); (Named "__s32"); (Named "__s32"); Ptr; Ptr];
    Proto "sys_io_pgetevents" [(Named "aio_context_t"); Long; Long; Ptr; Ptr; Ptr];
    Proto "sys_io_pgetevents_time32" [(Named "aio_context_t"); Long; Long; Ptr; Ptr; Ptr];
    Proto "sys_io_uring_setup" [(Named "u32"); Ptr];
    Proto "sys_io_uring_enter" [UInt; (Named "u32"); (Named "u32"); (Named "u32"); Ptr; (Named "size_t")];
    Proto "sys_io_uring_register" [UInt; UInt; Ptr; UInt];
    Proto "sys_setxattr" [Ptr; Ptr; Ptr; (Named "size_t"); Int];
    Proto "sys_lsetxattr" [Ptr; Ptr; Ptr; (Named "size_t"); Int];
    Proto "sys_fsetxattr" [Int; Ptr; Ptr; (Named "size_t"); Int];
    Proto "sys_getxattr" [Ptr; Ptr; Ptr; (Named "size_t")];
    Proto "sys_lgetxattr" [Ptr; Ptr; Ptr; (Named "size_t")];
    Proto "sys_fgetxattr" [Int; Ptr; Ptr; (Named "size_t")];
    Proto "sys_listxattr" [Ptr; Ptr; (Named "size_t")];
    Proto "sys_llistxattr" [Ptr; Ptr; (Named "size_t")];
    Proto "sys_flistxattr" [Int; Ptr; (Named "size_t")];
    Proto "sys_removexattr" [Ptr; Ptr];
    Proto "sys_lremovexattr" [Ptr; Ptr];
    Proto "sys_fremovexattr" [Int; Ptr];
    Proto "sys_getcwd" [Ptr; ULong];
    Proto "sys_lookup_dcookie" [(Named "u64"); Ptr; (Named "size_t")];
    Proto "sys_eventfd2" [UInt; Int];
    Proto "sys_epoll_create1" [Int];
    Proto "sys_epoll_ctl" [Int; Int; Int; Ptr];
    Proto "sys_epoll_pwait" [Int; Ptr; Int; Int; Ptr; (Named "size_t")];
    Proto "sys_epoll_pwait2" [Int; Ptr; Int; Ptr; Ptr; (Named "size_t")];
    Proto "sys_dup" [UInt];
    Proto "sys_dup3" [UInt; UInt; Int];
    Proto "sys_fcntl" [UInt; UInt; ULong]];
  PGroup [(P_bits32, true)] [
    Proto "sys_fcntl64" [UInt; UInt; ULong]];
  PGroup [] [
    Proto "sys_inotify_init1" [Int];
    Proto "sys_inotify_add_watch" [Int; Ptr; (Named "u32")];
    Proto "sys_inotify_rm_watch" [Int; (Named "__s32")];
    Proto "sys_ioctl" [UInt; UInt; ULong];
    Proto "sys_ioprio_set" [Int; Int; Int];
    Proto "sys_ioprio_get" [Int; Int];
    Proto "sys_flock" [UInt; UInt];
    Proto "sys_mknodat" [Int; Ptr; (Named "umode_t"); UInt];
    Proto "sys_mkdirat" [Int; Ptr; (Named "umode_t")];
    Proto "sys_unlinkat" [Int; Ptr; Int];
    Proto "sys_symlinkat" [Ptr; Int; Ptr];
    Proto "sys_linkat" [Int; Ptr; Int; Ptr; Int];
    Proto "sys_renameat" [Int; Ptr; Int; Ptr];
    Proto "sys_umount" [Ptr; Int];
    Proto "sys_mount" [Ptr; Ptr; Ptr; ULong; Ptr];
    Proto "sys_pivot_root" [Ptr; Ptr];
    Proto "sys_statfs" [Ptr; Ptr];
    Proto "sys_statfs64" [Ptr; (Named "size_t"); Ptr];
    Proto "sys_fstatfs" [UInt; Ptr];
    Proto "sys_fstatfs64" [UInt; (Named "size_t"); Ptr];
    Proto "sys_truncate" [Ptr; Long];
    Proto "sys_ftruncate" [UInt; (Named "off_t")]];
  PGroup [(P_bits32, true)] [
    Proto "sys_truncate64" [Ptr; (Named "loff_t")];
    Proto "sys_ftruncate64" [UInt; (Named "loff_t")]];
  PGroup [] [
    Proto "sys_fallocate" [Int; Int; (Named "loff_t"); (Named "loff_t")]]
].

(** [syscalls.h], lines 462 to 605. *)
Definition protos_part2 : list pgroup := [
  PGroup [] [
    Proto "sys_faccessat" [Int; Ptr; Int];
    Proto "sys_faccessat2" [Int; Ptr; Int; Int];
    Proto "sys_chdir" [Ptr];
    Proto "sys_fchdir" [UInt];
    Proto "sys_chroot" [Ptr];
    Proto "sys_fchmod" [UInt; (Named "umode_t")];
    Proto "sys_fchmodat" [Int; Ptr; (Named "umode_t")];
    Proto "sys_fchownat" [Int; Ptr; (Named "uid_t"); (Named "gid_t"); Int];
    Proto "sys_fchown" [UInt; (Named "uid_t"); (Named "gid_t")];
    Proto "sys_openat" [Int; Ptr; Int; (Named "umode_t")];
    Proto "sys_openat2" [Int; Ptr; Ptr; (Named "size_t")];
    Proto "sys_close" [UInt];
    Proto "sys_close_range" [UInt; UInt; UInt];
    Proto "sys_vhangup" [];
    Proto "sys_pipe2" [Ptr; Int];
    Proto "sys_quotactl" [UInt; Ptr; (Named "qid_t"); Ptr];
    Proto "sys_quotactl_fd" [UInt; UInt; (Named "qid_t"); Ptr];
    Proto "sys_getdents64" [UInt; Ptr; UInt];
    Proto "sys_llseek" [UInt; ULong; ULong; Ptr; UInt];
    Proto "sys_lseek" [UInt; (Named "off_t"); UInt];
    Proto "sys_read" [UInt; Ptr; (Named "size_t")];
    Proto "sys_write" [UInt; Ptr; (Named "size_t")];
    Proto "sys_readv" [ULong; Ptr; ULong];
    Proto "sys_writev" [ULong; Ptr; ULong];
    Proto "sys_pread64" [UInt; Ptr; (Named "size_t"); (Named "loff_t")];
    Proto "sys_pwrite64" [UInt; Ptr; (Named "size_t"); (Named "loff_t")];
    Proto "sys_preadv" [ULong; Ptr; ULong; ULong; ULong];
    Proto "sys_pwritev" [ULong; Ptr; ULong; ULong; ULong];
    Proto "sys_sendfile64" [Int; Int; Ptr; (Named "size_t")];
    Proto "sys_pselect6" [Int; Ptr; Ptr; Ptr; Ptr; Ptr];
    Proto "sys_pselect6_time32" [Int; Ptr; Ptr; Ptr; Ptr; Ptr];
    Proto "sys_ppoll" [Ptr; UInt; Ptr; Ptr; (Named "size_t")];
    Proto "sys_ppoll_time32" [Ptr; UInt; Ptr; Ptr; (Named "size_t")];
    Proto "sys_signalfd4" [Int; Ptr; (Named "size_t"); Int];
    Proto "sys_vmsplice" [Int; Ptr; ULong; UInt];
    Proto "sys_splice" [Int; Ptr; Int; Ptr; (Named "size_t"); UInt];
    Proto "sys_tee" [Int; Int; (Named "size_t"); UInt];
    Proto "sys_readlinkat" [Int; Ptr; Ptr; Int];
    Proto "sys_newfstatat" [Int; Ptr; Ptr; Int];
    Proto "sys_newfstat" [UInt; Ptr]];
  PGroup [(P_stat64, true)] [
    Proto "sys_fstat64" [ULong; Ptr];
    Proto "sys_fstatat64" [Int; Ptr; Ptr; Int]];
  PGroup [] [
    Proto "sys_sync" [];
    Proto "sys_fsync" [UInt];
    Proto "sys_fdatasync" [UInt];
    Proto "sys_sync_file_range2" [Int; UInt; (Named "loff_t"); (Named "loff_t")];
    Proto "sys_sync_file_range" [Int; (Named "loff_t"); (Named "loff_t"); UInt];
    Proto "sys_timerfd_create" [Int; Int];
    Proto "sys_timerfd_settime" [Int; Int; Ptr; Ptr];
    Proto "sys_timerfd_gettime" [Int; Ptr];
    Proto "sys_timerfd_gettime32" [Int; Ptr];
    Proto "sys_timerfd_settime32" [Int; Int; Ptr; Ptr];
    Proto "sys_utimensat" [Int; Ptr; Ptr; Int];
    Proto "sys_utimensat_time32" [UInt; Ptr; Ptr; Int];
    Proto "sys_acct" [Ptr];
    Proto "sys_capget" [(Named "cap_user_header_t"); (Named "cap_user_data_t")];
    Proto "sys_capset" [(Named "cap_user_header_t"); (Named "cap_user_data_t")];
    Proto "sys_personality" [UInt];
    Proto "sys_exit" [Int];
    Proto "sys_exit_group" [Int]]
].

(** [syscalls.h], lines 606 to 751. *)
Definition protos_part3 : list pgroup := [
  PGroup [] [
    Proto "sys_waitid" [Int; (Named "pid_t"); Ptr; Int; Ptr];
    Proto "sys_set_tid_address" [Ptr];
    Proto "sys_unshare" [ULong];
    Proto "sys_futex" [Ptr; Int; (Named "u32"); Ptr; Ptr; (Named "u32")];
    Proto "sys_futex_time32" [Ptr; Int; (Named "u32"); Ptr; Ptr; (Named "u32")];
    Proto "sys_get_robust_list" [Int; Ptr; Ptr];
    Proto "sys_set_robust_list" [Ptr; (Named "size_t")];
    Proto "sys_nanosleep" [Ptr; Ptr];
    Proto "sys_nanosleep_time32" [Ptr; Ptr];
    Proto "sys_getitimer" [Int; Ptr];
    Proto "sys_setitimer" [Int; Ptr; Ptr];
    Proto "sys_kexec_load" [ULong; ULong; Ptr; ULong];
    Proto "sys_init_module" [Ptr; ULong; Ptr];
    Proto "sys_delete_module" [Ptr; UInt];
    Proto "sys_timer_create" [(Named "clockid_t"); Ptr; Ptr];
    Proto "sys_timer_gettime" [(Named "timer_t"); Ptr];
    Proto "sys_timer_getoverrun" [(Named "timer_t")];
    Proto "sys_timer_settime" [(Named "timer_t"); Int; Ptr; Ptr];
    Proto "sys_timer_delete" [(Named "timer_t")];
    Proto "sys_clock_settime" [(Named "clockid_t"); Ptr];
    Proto "sys_clock_gettime" [(Named "clockid_t"); Ptr];
    Proto "sys_clock_getres" [(Named "clockid_t"); Ptr];
    Proto "sys_clock_nanosleep" [(Named "clockid_t"); Int; Ptr; Ptr];
    Proto "sys_timer_gettime32" [(Named "timer_t"); Ptr];
    Proto "sys_timer_settime32" [(Named "timer_t"); Int; Ptr; Ptr];
    Proto "sys_clock_settime32" [(Named "clockid_t"); Ptr];
    Proto "sys_clock_gettime32" [(Named "clockid_t"); Ptr];
    Proto "sys_clock_getres_time32" [(Named "clockid_t"); Ptr];
    Proto "sys_clock_nanosleep_time32" [(Named "clockid_t"); Int; Ptr; Ptr];
    Proto "sys_syslog" [Int; Ptr; Int];
    Proto "sys_ptrace" [Long; Long; ULong; ULong];
    Proto "sys_sched_setparam" [(Named "pid_t"); Ptr];
    Proto "sys_sched_setscheduler" [(Named "pid_t"); Int; Ptr];
    Proto "sys_sched_getscheduler" [(Named "pid_t")];
    Proto "sys_sched_getparam" [(Named "pid_t"); Ptr];
    Proto "sys_sched_setaffinity" [(Named "pid_t"); UInt; Ptr];
    Proto "sys_sched_getaffinity" [(Named "pid_t"); UInt; Ptr];
    Proto "sys_sched_yield" [];
    Proto "sys_sched_get_priority_max" [Int];
    Proto "sys_sched_get_priority_min" [Int];
    Proto "sys_sched_rr_get_interval" [(Named "pid_t"); Ptr];
    Proto "sys_sched_rr_get_interval_time32" [(Named "pid_t"); Ptr];
    Proto "sys_restart_syscall" [];
    Proto "sys_kill" [(Named "pid_t"); Int];
    Proto "sys_tkill" [(Named "pid_t"); Int];
    Proto "sys_tgkill" [(Named "pid_t"); (Named "pid_t"); Int];
    Proto "sys_sigaltstack" [Ptr; Ptr];
    Proto "sys_rt_sigsuspend" [Ptr; (Named "size_t")]];
  PGroup [(P_odd_rt_sigaction, false)] [
    Proto "sys_rt_sigaction" [Int; Ptr; Ptr; (Named "size_t")]];
  PGroup [] [
    Proto "sys_rt_sigprocmask" [Int; Ptr; Ptr; (Named "size_t")];
    Proto "sys_rt_sigpending" [Ptr; (Named "size_t")];
    Proto "sys_rt_sigtimedwait" [Ptr; Ptr; Ptr; (Named "size_t")];
    Proto "sys_rt_sigtimedwait_time32" [Ptr; Ptr; Ptr; (Named "size_t")];
    Proto "sys_rt_sigqueueinfo" [(Named "pid_t"); Int; Ptr];
    Proto "sys_setpriority" [Int; Int; Int];
    Proto "sys_getpriority" [Int; Int];
    Proto "sys_reboot" [Int; Int; UInt; Ptr];
    Proto "sys_setregid" [(Named "gid_t"); (Named "gid_t")];
    Proto "sys_setgid" [(Named "gid_t")];
    Proto "sys_setreuid" [(Named "uid_t"); (Named "uid_t")];
    Proto "sys_setuid" [(Named "uid_t")];
    Proto "sys_setresuid" [(Named "uid_t"); (Named "uid_t"); (Named "uid_t")];
    Proto "sys_getresuid" [Ptr; Ptr; Ptr];
    Proto "sys_setresgid" [(Named "gid_t"); (Named "gid_t"); (Named "gid_t")];
    Proto "sys_getresgid" [Ptr; Ptr; Ptr]]
].

(** [syscalls.h], lines 752 to 895. *)
Definition protos_part4 : list pgroup := [
  PGroup [] [
    Proto "sys_setfsuid" [(Named "uid_t")];
    Proto "sys_setfsgid" [(Named "gid_t")];
    Proto "sys_times" [Ptr];
    Proto "sys_setpgid" [(Named "pid_t"); (Named "pid_t")];
    Proto "sys_getpgid" [(Named "pid_t")];
    Proto "sys_getsid" [(Named "pid_t")];
    Proto "sys_setsid" [];
    Proto "sys_getgroups" [Int; Ptr];
    Proto "sys_setgroups" [Int; Ptr];
    Proto "sys_newuname" [Ptr];
    Proto "sys_sethostname" [Ptr; Int];
    Proto "sys_setdomainname" [Ptr; Int];
    Proto "sys_getrlimit" [UInt; Ptr];
    Proto "sys_setrlimit" [UInt; Ptr];
    Proto "sys_getrusage" [Int; Ptr];
    Proto "sys_umask" [Int];
    Proto "sys_prctl" [Int; ULong; ULong; ULong; ULong];
    Proto "sys_getcpu" [Ptr; Ptr; Ptr];
    Proto "sys_gettimeofday" [Ptr; Ptr];
    Proto "sys_settimeofday" [Ptr; Ptr];
    Proto "sys_adjtimex" [Ptr];
    Proto "sys_adjtimex_time32" [Ptr];
    Proto "sys_getpid" [];
    Proto "sys_getppid" [];
    Proto "sys_getuid" [];
    Proto "sys_geteuid" [];
    Proto "sys_getgid" [];
    Proto "sys_getegid" [];
    Proto "sys_gettid" [];
    Proto "sys_sysinfo" [Ptr];
    Proto "sys_write_kv" [Int; Int];
    Proto "sys_read_kv" [Int];
    Proto "sys_mq_open" [Ptr; Int; (Named "umode_t"); Ptr];
    Proto "sys_mq_unlink" [Ptr];
    Proto "sys_mq_timedsend" [(Named "mqd_t"); Ptr; (Named "size_t"); UInt; Ptr];
    Proto "sys_mq_timedreceive" [(Named "mqd_t"); Ptr; (Named "size_t"); Ptr; Ptr];
    Proto "sys_mq_notify" [(Named "mqd_t"); Ptr];
    Proto "sys_mq_getsetattr" [(Named "mqd_t"); Ptr; Ptr];
    Proto "sys_mq_timedreceive_time32" [(Named "mqd_t"); Ptr; UInt; Ptr; Ptr];
    Proto "sys_mq_timedsend_time32" [(Named "mqd_t"); Ptr; UInt; UInt; Ptr];
    Proto "sys_msgget" [(Named "key_t"); Int];
    Proto "sys_old_msgctl" [Int; Int; Ptr];
    Proto "sys_msgctl" [Int; Int; Ptr];
    Proto "sys_msgrcv" [Int; Ptr; (Named "size_t"); Long; Int];
    Proto "sys_msgsnd" [Int; Ptr; (Named "size_t"); Int];
    Proto "sys_semget" [(Named "key_t"); Int; Int];
    Proto "sys_semctl" [Int; Int; Int; ULong];
    Proto "sys_old_semctl" [Int; Int; Int; ULong];
    Proto "sys_semtimedop" [Int; Ptr; UInt; Ptr];
    Proto "sys_semtimedop_time32" [Int; Ptr; UInt; Ptr];
    Proto "sys_semop" [Int; Ptr; UInt];
    Proto "sys_shmget" [(Named "key_t"); (Named "size_t"); Int];
    Proto "sys_old_shmctl" [Int; Int; Ptr];
    Proto "sys_shmctl" [Int; Int; Ptr];
    Proto "sys_shmat" [Int; Ptr; Int];
    Proto "sys_shmdt" [Ptr];
    Proto "sys_socket" [Int; Int; Int];
    Proto "sys_socketpair" [Int; Int; Int; Ptr];
    Proto "sys_bind" [Int; Ptr; Int];
    Proto "sys_listen" [Int; Int];
    Proto "sys_accept" [Int; Ptr; Ptr];
    Proto "sys_connect" [Int; Ptr; Int];
    Proto "sys_getsockname" [Int; Ptr; Ptr];
    Proto "sys_getpeername" [Int; Ptr; Ptr];
    Proto "sys_sendto" [Int; Ptr; (Named "size_t"); UInt; Ptr; Int];
    Proto "sys_recvfrom" [Int; Ptr; (Named "size_t"); UInt; Ptr; Ptr];
    Proto "sys_setsockopt" [Int; Int; Int; Ptr; Int];
    Proto "sys_getsockopt" [Int; Int; Int; Ptr; Ptr];
    Proto "sys_shutdown" [Int; Int];
    Proto "sys_sendmsg" [Int; Ptr; UInt];
    Proto "sys_recvmsg" [Int; Ptr; UInt];
    Proto "sys_readahead" [Int; (Named "loff_t"); (Named "size_t")];
    Proto "sys_brk" [ULong];
    Proto "sys_munmap" [ULong; (Named "size_t")];
    Proto "sys_mremap" [ULong; ULong; ULong; ULong; ULong];
    Proto "sys_add_key" [Ptr; Ptr; Ptr; (Named "size_t"); (Named "key_serial_t")];
    Proto "sys_request_key" [Ptr; Ptr; Ptr; (Named "key_serial_t")];
    Proto "sys_keyctl" [Int; ULong; ULong; ULong; ULong]];
  PGroup [(P_clone_backwards, true)] [
    Proto "sys_clone" [ULong; ULong; Ptr; ULong; Ptr]];
  PGroup [(P_clone_backwards, false); (P_clone_backwards3, true)] [
    Proto "sys_clone" [ULong; ULong; Int; Ptr; Ptr; ULong]];
  PGroup [(P_clone_backwards, false); (P_clone_backwards3, false)] [
    Proto "sys_clone" [ULong; ULong; Ptr; Ptr; ULong]]
].

(** [syscalls.h], lines 899 to 1044. *)
Definition protos_part5 : list pgroup := [
  PGroup [] [
    Proto "sys_clone3" [Ptr; (Named "size_t")];
    Proto "sys_execve" [Ptr; Ptr; Ptr];
    Proto "sys_fadvise64_64" [Int; (Named "loff_t"); (Named "loff_t"); Int];
    Proto "sys_swapon" [Ptr; Int];
    Proto "sys_swapoff" [Ptr];
    Proto "sys_mprotect" [ULong; (Named "size_t"); ULong];
    Proto "sys_msync" [ULong; (Named "size_t"); Int];
    Proto "sys_mlock" [ULong; (Named "size_t")];
    Proto "sys_munlock" [ULong; (Named "size_t")];
    Proto "sys_mlockall" [Int];
    Proto "sys_munlockall" [];
    Proto "sys_mincore" [ULong; (Named "size_t"); Ptr];
    Proto "sys_madvise" [ULong; (Named "size_t"); Int];
    Proto "sys_process_madvise" [Int; Ptr; (Named "size_t"); Int; UInt];
    Proto "sys_process_mrelease" [Int; UInt];
    Proto "sys_remap_file_pages" [ULong; ULong; ULong; ULong; ULong];
    Proto "sys_mbind" [ULong; ULong; ULong; Ptr; ULong; UInt];
    Proto "sys_get_mempolicy" [Ptr; Ptr; ULong; ULong; ULong];
    Proto "sys_set_mempolicy" [Int; Ptr; ULong];
    Proto "sys_migrate_pages" [(Named "pid_t"); ULong; Ptr; Ptr];
    Proto "sys_move_pages" [(Named "pid_t"); ULong; Ptr; Ptr; Ptr; Int];
    Proto "sys_rt_tgsigqueueinfo" [(Named "pid_t"); (Named "pid_t"); Int; Ptr];
    Proto "sys_perf_event_open" [Ptr; (Named "pid_t"); Int; Int; ULong];
    Proto "sys_accept4" [Int; Ptr; Ptr; Int];
    Proto "sys_recvmmsg" [Int; Ptr; UInt; UInt; Ptr];
    Proto "sys_recvmmsg_time32" [Int; Ptr; UInt; UInt; Ptr];
    Proto "sys_wait4" [(Named "pid_t"); Ptr; Int; Ptr];
    Proto "sys_prlimit64" [(Named "pid_t"); UInt; Ptr; Ptr];
    Proto "sys_fanotify_init" [UInt; UInt]];
  PGroup [(P_split_arg64, true)] [
    Proto "sys_fanotify_mark" [Int; UInt; UInt; UInt; Int; Ptr]];
  PGroup [(P_split_arg64, false)] [
    Proto "sys_fanotify_mark" [Int; UInt; (Named "u64"); Int; Ptr]];
  PGroup [] [
    Proto "sys_name_to_handle_at" [Int; Ptr; Ptr; Ptr; Int];
    Proto "sys_open_by_handle_at" [Int; Ptr; Int];
    Proto "sys_clock_adjtime" [(Named "clockid_t"); Ptr];
    Proto "sys_clock_adjtime32" [(Named "clockid_t"); Ptr];
    Proto "sys_syncfs" [Int];
    Proto "sys_setns" [Int; Int];
    Proto "sys_pidfd_open" [(Named "pid_t"); UInt];
    Proto "sys_sendmmsg" [Int; Ptr; UInt; UInt];
    Proto "sys_process_vm_readv" [(Named "pid_t"); Ptr; ULong; Ptr; ULong; ULong];
    Proto "sys_process_vm_writev" [(Named "pid_t"); Ptr; ULong; Ptr; ULong; ULong];
    Proto "sys_kcmp" [(Named "pid_t"); (Named "pid_t"); Int; ULong; ULong];
    Proto "sys_finit_module" [Int; Ptr; Int];
    Proto "sys_sched_setattr" [(Named "pid_t"); Ptr; UInt];
    Proto "sys_sched_getattr" [(Named "pid_t"); Ptr; UInt; UInt];
    Proto "sys_renameat2" [Int; Ptr; Int; Ptr; UInt];
    Proto "sys_seccomp" [UInt; UInt; Ptr];
    Proto "sys_getrandom" [Ptr; (Named "size_t"); UInt];
    Proto "sys_memfd_create" [Ptr; UInt];
    Proto "sys_bpf" [Int; Ptr; UInt];
    Proto "sys_execveat" [Int; Ptr; Ptr; Ptr; Int];
    Proto "sys_userfaultfd" [Int];
    Proto "sys_membarrier" [Int; UInt; Int];
    Proto "sys_mlock2" [ULong; (Named "size_t"); Int];
    Proto "sys_copy_file_range" [Int; Ptr; Int; Ptr; (Named "size_t"); UInt];
    Proto "sys_preadv2" [ULong; Ptr; ULong; ULong; ULong; (Named "rwf_t")];
    Proto "sys_pwritev2" [ULong; Ptr; ULong; ULong; ULong; (Named "rwf_t")];
    Proto "sys_pkey_mprotect" [ULong; (Named "size_t"); ULong; Int];
    Proto "sys_pkey_alloc" [ULong; ULong];
    Proto "sys_pkey_free" [Int];
    Proto "sys_statx" [Int; Ptr; UInt; UInt; Ptr];
    Proto "sys_rseq" [Ptr; (Named "uint32_t"); Int; (Named "uint32_t")];
    Proto "sys_open_tree" [Int; Ptr; UInt]]
].

(** [syscalls.h], lines 1045 to 1188. *)
Definition protos_part6 : list pgroup := [
  PGroup [] [
    Proto "sys_move_mount" [Int; Ptr; Int; Ptr; UInt];
    Proto "sys_mount_setattr" [Int; Ptr; UInt; Ptr; (Named "size_t")];
    Proto "sys_fsopen" [Ptr; UInt];
    Proto "sys_fsconfig" [Int; UInt; Ptr; Ptr; Int];
    Proto "sys_fsmount" [Int; UInt; UInt];
    Proto "sys_fspick" [Int; Ptr; UInt];
    Proto "sys_pidfd_send_signal" [Int; Int; Ptr; UInt];
    Proto "sys_pidfd_getfd" [Int; Int; UInt];
    Proto "sys_landlock_create_ruleset" [Ptr; (Named "size_t"); (Named "__u32")];
    Proto "sys_landlock_add_rule" [Int; Enum; Ptr; (Named "__u32")];
    Proto "sys_landlock_restrict_self" [Int; (Named "__u32")];
    Proto "sys_memfd_secret" [UInt];
    Proto "sys_ioperm" [ULong; ULong; Int];
    Proto "sys_pciconfig_read" [ULong; ULong; ULong; ULong; Ptr];
    Proto "sys_pciconfig_write" [ULong; ULong; ULong; ULong; Ptr];
    Proto "sys_pciconfig_iobase" [Long; ULong; ULong];
    Proto "sys_spu_run" [Int; Ptr; Ptr];
    Proto "sys_spu_create" [Ptr; UInt; (Named "umode_t"); Int];
    Proto "sys_open" [Ptr; Int; (Named "umode_t")];
    Proto "sys_link" [Ptr; Ptr];
    Proto "sys_unlink" [Ptr];
    Proto "sys_mknod" [Ptr; (Named "umode_t"); UInt];
    Proto "sys_chmod" [Ptr; (Named "umode_t")];
    Proto "sys_chown" [Ptr; (Named "uid_t"); (Named "gid_t")];
    Proto "sys_mkdir" [Ptr; (Named "umode_t")];
    Proto "sys_rmdir" [Ptr];
    Proto "sys_lchown" [Ptr; (Named "uid_t"); (Named "gid_t")];
    Proto "sys_access" [Ptr; Int];
    Proto "sys_rename" [Ptr; Ptr];
    Proto "sys_symlink" [Ptr; Ptr]];
  PGroup [(P_stat64, true)] [
    Proto "sys_stat64" [Ptr; Ptr];
    Proto "sys_lstat64" [Ptr; Ptr]];
  PGroup [] [
    Proto "sys_pipe" [Ptr];
    Proto "sys_dup2" [UInt; UInt];
    Proto "sys_epoll_create" [Int];
    Proto "sys_inotify_init" [];
    Proto "sys_eventfd" [UInt];
    Proto "sys_signalfd" [Int; Ptr; (Named "size_t")];
    Proto "sys_sendfile" [Int; Int; Ptr; (Named "size_t")];
    Proto "sys_newstat" [Ptr; Ptr];
    Proto "sys_newlstat" [Ptr; Ptr];
    Proto "sys_fadvise64" [Int; (Named "loff_t"); (Named "size_t"); Int];
    Proto "sys_alarm" [UInt];
    Proto "sys_getpgrp" [];
    Proto "sys_pause" [];
    Proto "sys_time" [Ptr];
    Proto "sys_time32" [Ptr]];
  PGroup [(P_sys_utime, true)] [
    Proto "sys_utime" [Ptr; Ptr];
    Proto "sys_utimes" [Ptr; Ptr];
    Proto "sys_futimesat" [Int; Ptr; Ptr]];
  PGroup [] [
    Proto "sys_futimesat_time32" [UInt; Ptr; Ptr];
    Proto "sys_utime32" [Ptr; Ptr];
    Proto "sys_utimes_time32" [Ptr; Ptr];
    Proto "sys_creat" [Ptr; (Named "umode_t")];
    Proto "sys_getdents" [UInt; Ptr; UInt];
    Proto "sys_select" [Int; Ptr; Ptr; Ptr; Ptr];
    Proto "sys_poll" [Ptr; UInt; Int];
    Proto "sys_epoll_wait" [Int; Ptr; Int; Int];
    Proto "sys_ustat" [UInt; Ptr];
    Proto "sys_vfork" [];
    Proto "sys_recv" [Int; Ptr; (Named "size_t"); UInt];
    Proto "sys_send" [Int; Ptr; (Named "size_t"); UInt];
    Proto "sys_oldumount" [Ptr];
    Proto "sys_uselib" [Ptr];
    Proto "sys_sysfs" [Int; ULong; ULong];
    Proto "sys_fork" [];
    Proto "sys_stime" [Ptr];
    Proto "sys_stime32" [Ptr];
    Proto "sys_sigpending" [Ptr];
    Proto "sys_sigprocmask" [Int; Ptr; Ptr]];
  PGroup [(P_old_sigsuspend, true)] [
    Proto "sys_sigsuspend" [(Named "old_sigset_t")]]
].

(** [syscalls.h], lines 1192 to 1284. *)
Definition protos_part7 : list pgroup := [
  PGroup [(P_old_sigsuspend3, true)] [
    Proto "sys_sigsuspend" [Int; Int; (Named "old_sigset_t")]];
  PGroup [(P_old_sigaction, true)] [
    Proto "sys_sigaction" [Int; Ptr; Ptr]];
  PGroup [] [
    Proto "sys_sgetmask" [];
    Proto "sys_ssetmask" [Int];
    Proto "sys_signal" [Int; (Named "__sighandler_t")];
    Proto "sys_nice" [Int];
    Proto "sys_kexec_file_load" [Int; Int; ULong; Ptr; ULong];
    Proto "sys_waitpid" [(Named "pid_t"); Ptr; Int]];
  PGroup [(P_have_uid16, true)] [
    Proto "sys_chown16" [Ptr; (Named "old_uid_t"); (Named "old_gid_t")];
    Proto "sys_lchown16" [Ptr; (Named "old_uid_t"); (Named "old_gid_t")];
    Proto "sys_fchown16" [UInt; (Named "old_uid_t"); (Named "old_gid_t")];
    Proto "sys_setregid16" [(Named "old_gid_t"); (Named "old_gid_t")];
    Proto "sys_setgid16" [(Named "old_gid_t")];
    Proto "sys_setreuid16" [(Named "old_uid_t"); (Named "old_uid_t")];
    Proto "sys_setuid16" [(Named "old_uid_t")];
    Proto "sys_setresuid16" [(Named "old_uid_t"); (Named "old_uid_t"); (Named "old_uid_t")];
    Proto "sys_getresuid16" [Ptr; Ptr; Ptr];
    Proto "sys_setresgid16" [(Named "old_gid_t"); (Named "old_gid_t"); (Named "old_gid_t")];
    Proto "sys_getresgid16" [Ptr; Ptr; Ptr];
    Proto "sys_setfsuid16" [(Named "old_uid_t")];
    Proto "sys_setfsgid16" [(Named "old_gid_t")];
    Proto "sys_getgroups16" [Int; Ptr];
    Proto "sys_setgroups16" [Int; Ptr];
    Proto "sys_getuid16" [];
    Proto "sys_geteuid16" [];
    Proto "sys_getgid16" [];
    Proto "sys_getegid16" []];
  PGroup [] [
    Proto "sys_socketcall" [Int; Ptr];
    Proto "sys_stat" [Ptr; Ptr];
    Proto "sys_lstat" [Ptr; Ptr];
    Proto "sys_fstat" [UInt; Ptr];
    Proto "sys_readlink" [Ptr; Ptr; Int];
    Proto "sys_old_select" [Ptr];
    Proto "sys_old_readdir" [UInt; Ptr; UInt];
    Proto "sys_gethostname" [Ptr; Int];
    Proto "sys_uname" [Ptr];
    Proto "sys_olduname" [Ptr]];
  PGroup [(P_sys_old_getrlimit, true)] [
    Proto "sys_old_getrlimit" [UInt; Ptr]];
  PGroup [] [
    Proto "sys_ipc" [UInt; Int; ULong; ULong; Ptr; Long];
    Proto "sys_mmap_pgoff" [ULong; ULong; ULong; ULong; ULong; ULong];
    Proto "sys_old_mmap" [Ptr];
    Proto "sys_ni_syscall" []]
].
Definition protos : list pgroup :=
  protos_part1 ++ protos_part2 ++ protos_part3 ++ protos_part4 ++ protos_part5 ++ protos_part6 ++ protos_part7.

(** The names declared under a setting of the macros. *)
Definition declared (m : pcond -> bool) (gs : list pgroup) : list string :=
  flat_map (fun g => if forallb (fun cb => bool_decide (m (fst cb) = snd cb)) (guards g) then pname <$> decls g else []) gs.

(** ** The argument macros *)

Close Scope string_scope.

Definition SYSCALL_DEFINE_MAXARGS : nat := 6.

(** [__MAPn]: a macro applied to [n] pairs of type and argument. *)
Fixpoint __MAP {A B} (n : nat) (m : cty -> A -> B) (args : list (cty * A)) : list B :=
  match n, args with
  | S n, (t, a) :: rest => m t a :: __MAP n m rest
  | _, _ => []
  end.

Section Arguments.
Context (lp64 : bool).                    (** a long has 64 bits *)
Context (typedef : string -> cty).        (** what other headers declare *)

Definition resolve (t : cty) : cty := match t with Named nm => typedef nm | _ => t end.

Definition long_bits : Z := if lp64 then 64 else 32.
Definition bits (t : cty) : Z :=
  match resolve t with
  | UShort => 16
  | Int | UInt | Enum => 32
  | Long | ULong | Ptr | Named _ => long_bits
  | LongLong | ULongLong => 64
  end.
Definition is_signed (t : cty) : bool :=
  match resolve t with Int | Long | LongLong => true | _ => false end.

(** Conversion to a type. *)
Definition convert (t : cty) (v : Z) : Z := if is_signed t then swrap (bits t) v else uwrap (bits t) v.
Definition in_type (t : cty) (v : Z) : Prop := if is_signed t then is_s (bits t) v else is_u (bits t) v.

Definition __TYPE_IS_LL (t : cty) : bool := match resolve t with LongLong | ULongLong => true | _ => false end.
Definition __SC_LONG (t : cty) (a : Z) : Z := swrap (if __TYPE_IS_LL t then 64 else long_bits) a.
Definition __SC_CAST (t : cty) (a : Z) : Z := convert t a.
Definition __SC_TEST (t : cty) : bool := negb (negb (__TYPE_IS_LL t) && (long_bits <? bits t)).

(** [__se_sys_name], which the table calls with registers, and the function body it
    calls. *)
Definition __se_sys {R} (x : nat) (ts : list cty) (do_sys : list Z -> R) (regs : list Z) : R :=
  do_sys (__MAP x __SC_CAST (zip ts (__MAP x __SC_LONG (zip ts regs)))).
End Arguments.

(** A 64-bit argument in two halves: what [SC_ARG64] passes in registers in this
    order and [SC_VAL64] puts together. *)
Definition SC_ARG64 (little_endian : bool) (v : Z) : Z * Z :=
  let lo := u32 v in let hi := u32 (Z.shiftr v 32) in if little_endian then (lo, hi) else (hi, lo).
Definition SC_VAL64 (typ : Z -> Z) (little_endian : bool) (a : Z * Z) : Z :=
  let '(lo, hi) := if little_endian then a else (snd a, fst a) in
  typ (Z.lor (typ (Z.shiftl (typ hi) 32)) lo).

(** ** The table is well typed *)

(** Handlers an architecture declares itself, and the one this repository adds
    without a prototype. *)
Definition elsewhere : list string :=
  ["sys_mmap"; "sys_mmap2"; "sys_rt_sigreturn"; "sys_configure_socket_fairness"]%string.

Definition is_sys (h : string) : bool := String.prefix "sys_" h.

Definition decl_under (ctx : list (pcond * bool)) (h : string) : bool :=
  existsb (fun g => forallb (fun cb => bool_decide (cb ∈ ctx)) (guards g) && existsb (fun p => String.eqb (pname p) h) (decls g)) protos.

(** Declared whatever the macros [cs] are, under the assumptions [ctx]. *)
Fixpoint covered (ctx : list (pcond * bool)) (cs : list pcond) (h : string) : bool :=
  decl_under ctx h ||
  match cs with
  | [] => false
  | c :: cs => covered ((c, true) :: ctx) cs h && covered ((c, false) :: ctx) cs h
  end.

Definition ok_handler (ctx : list (pcond * bool)) (h : string) : bool :=
  negb (is_sys h) || bool_decide (h ∈ elsewhere) ||
  covered ((P_odd_rt_sigaction, false) :: ctx) (if bool_decide (h = "sys_clone"%string) then [P_clone_backwards; P_clone_backwards3]
                                               else if bool_decide (h = "sys_fanotify_mark"%string) then [P_split_arg64] else []) h.

(** What a line may be wired to, with the assumptions that hold when it is. *)
Definition ok_macro (mac : sc_macro) : bool :=
  match mac with
  | SYSCALL s => ok_handler [] s
  | SC_COMP s c => ok_handler [] s && ok_handler [] c
  | SC_3264 s32 s64 => ok_handler [(P_stat64, true)] s32 && ok_handler [] s64
  | SC_COMP_3264 s32 s64 c => ok_handler [(P_bits32, true)] s32 && ok_handler [] s64 && ok_handler [] c
  end.

Definition line_macros (l : line) : list sc_macro := match l with Wire _ mac => [mac] | _ => [] end.
Definition item_macros (it : item) : list sc_macro :=
  match it with Plain l => line_macros l | Cond _ yes no => flat_map line_macros (yes ++ no) end.

Lemma unistd_macros_ok : forallb ok_macro (flat_map item_macros unistd) = true.
Proof. vm_compute. reflexivity. Qed.

(** The macros of the two headers describe one architecture. *)
Definition consistent (g : config) (m : pcond -> bool) : Prop :=
  m P_bits32 = bits_per_long_32 g /\ m P_odd_rt_sigaction = false /\
  (bits_per_long_32 g || syscall_compat g = true -> m P_stat64 = true).

Definition agrees (m : pcond -> bool) (ctx : list (pcond * bool)) : Prop := forall c b, (c, b) ∈ ctx -> m c = b.

Lemma decl_under_sound m ctx h : agrees m ctx -> decl_under ctx h = true -> h ∈ declared m protos.
Proof.
  intros Hm H. unfold decl_under in H. apply existsb_exists in H as (g & Hg & H). apply andb_true_iff in H as [Hc Hd].
  apply existsb_exists in Hd as (p & Hp & Hh). apply String.eqb_eq in Hh. subst h.
  apply list_elem_of_In, in_flat_map. exists g. split; [done|]. rewrite forallb_forall in Hc.
  rewrite (proj2 (forallb_forall _ _)).
  - by apply in_map.
  - intros [c b] Hcb. specialize (Hc _ Hcb). apply bool_decide_eq_true in Hc. apply bool_decide_eq_true. cbn. by apply Hm.
Qed.

Lemma agrees_cons m ctx c : agrees m ctx -> agrees m ((c, m c) :: ctx).
Proof. intros H c' b Hc. apply elem_of_cons in Hc as [[= -> ->]|Hc]; auto. Qed.

Lemma covered_sound m cs : forall ctx h, agrees m ctx -> covered ctx cs h = true -> h ∈ declared m protos.
Proof.
  induction cs as [|c cs IH]; cbn; intros ctx h Hm H; apply orb_true_iff in H as [H|H]; try done;
    [by eapply decl_under_sound..|]. apply andb_true_iff in H as [H1 H2]. pose proof (agrees_cons m ctx c Hm) as Hc.
  destruct (m c); by eapply IH.
Qed.

Lemma ok_handler_sound m ctx h :
  m P_odd_rt_sigaction = false -> agrees m ctx -> ok_handler ctx h = true -> is_sys h = true ->
  h ∈ elsewhere \/ h ∈ declared m protos.
Proof.
  intros Ho Hm H Hs. unfold ok_handler in H. rewrite Hs in H. cbn [negb orb] in H. apply orb_true_iff in H as [H|H].
  - left. by apply bool_decide_eq_true in H.
  - right. eapply covered_sound; [|exact H]. rewrite <- Ho. by apply agrees_cons.
Qed.

Lemma ok_handler_always m h :
  m P_odd_rt_sigaction = false -> ok_handler [] h = true -> is_sys h = true -> h ∈ elsewhere \/ h ∈ declared m protos.
Proof. intros Ho. apply ok_handler_sound; [done|]. by intros c b ?%not_elem_of_nil. Qed.

Lemma ok_handler_when m c h :
  m P_odd_rt_sigaction = false -> m c = true -> ok_handler [(c, true)] h = true -> is_sys h = true ->
  h ∈ elsewhere \/ h ∈ declared m protos.
Proof. intros Ho Hc. apply ok_handler_sound; [done|]. by intros c' b [= -> ->]%list_elem_of_singleton. Qed.

(** Every entry of the expanded table comes from a line of the header. *)
Lemma expand_lines_table g ls : forall e e' n h,
  expand_lines g e ls = Some e' -> (n, h) ∈ table e' ->
  (n, h) ∈ table e \/ exists mac, mac ∈ flat_map line_macros ls /\ h = wire_target g mac.
Proof.
  induction ls as [|l ls IH]; cbn; intros e e' n h He Hin; [simplify_eq; by left|].
  destruct (expand_line g e l) as [e1|] eqn:E; cbn in He; [|done].
  destruct (IH _ _ _ _ He Hin) as [H|(mac & Hm & ->)]; [|right; exists mac; set_solver].
  destruct l as [nm k|nm mac]; cbn in E; [simplify_eq; by left|].
  destruct (assoc nm (env e)); cbn in E; simplify_eq. cbn in H. apply elem_of_app in H as [H|H]; [by left|].
  apply list_elem_of_singleton in H. simplify_eq. right. exists mac. set_solver.
Qed.

Lemma expand_table g its : forall e e' n h,
  expand g e its = Some e' -> (n, h) ∈ table e' ->
  (n, h) ∈ table e \/ exists mac, mac ∈ flat_map item_macros its /\ h = wire_target g mac.
Proof.
  induction its as [|it its IH]; cbn; intros e e' n h He Hin; [simplify_eq; by left|].
  destruct (expand_item g e it) as [e1|] eqn:E; cbn in He; [|done].
  destruct (IH _ _ _ _ He Hin) as [H|(mac & Hm & ->)]; [|right; exists mac; set_solver].
  assert (expand_lines g e (match it with Plain l => [l] | Cond c yes no => if holds g c then yes else no end) = Some e1) as E2.
  { destruct it as [l|c yes no]; [|done]. cbn in *. by rewrite E. }
  destruct (expand_lines_table g _ _ _ _ _ E2 H) as [H2|(mac & Hm & ->)]; [by left|]. right. exists mac. split; [|done].
  apply elem_of_app. left. destruct it as [l|c yes no]; cbn in *; [by rewrite app_nil_r in Hm|].
  rewrite flat_map_app. destruct (holds g c); set_solver.
Qed.

Lemma protos_arity : forallb (fun g => forallb (fun p => length (params p) <=? SYSCALL_DEFINE_MAXARGS)%nat (decls g)) protos = true.
Proof. vm_compute. reflexivity. Qed.

(** ** Theorems *)

(** C36: the generic system call table is well typed.  In every configuration without
    CONFIG_ODD_RT_SIGACTION in which the macros of the two headers about word size
    and [stat64] agree, every native function ([sys_...]; the [compat_sys_...] of a
    table for 32-bit programs are not covered) that [unistd.h] puts into the table is
    declared in [syscalls.h] under that configuration, apart from three that
    architectures declare themselves and [sys_configure_socket_fairness], which has no
    prototype; and no prototype has more parameters than a call has registers. *)
Theorem table_well_typed g m e :
  consistent g m -> expand g empty_expansion unistd = Some e ->
  (forall n h, (n, h) ∈ table e -> is_sys h = true -> h ∈ elsewhere \/ h ∈ declared m protos) /\
  (forall gr p, gr ∈ protos -> p ∈ decls gr -> (length (params p) <= SYSCALL_DEFINE_MAXARGS)%nat).
Proof.
  intros (H32 & Hodd & Hst) He. split.
  - intros n h Hin Hs. destruct (expand_table g unistd _ _ n h He Hin) as [Hn|(mac & Hm & ->)]; [by apply not_elem_of_nil in Hn|].
    pose proof (proj1 (forallb_forall _ _) unistd_macros_ok mac (proj1 (list_elem_of_In _ _) Hm)) as Hok.
    destruct mac as [s|s c|s32 s64|s32 s64 c]; cbn in Hok, Hs |- *; rewrite ?andb_true_iff in Hok.
    + by apply ok_handler_always.
    + destruct Hok. destruct (syscall_compat g); by apply ok_handler_always.
    + destruct Hok. destruct (bits_per_long_32 g || syscall_compat g); [|by apply ok_handler_always].
      by apply (ok_handler_when m P_stat64); [|apply Hst|..].
    + destruct Hok as [[Ha Hb] Hc]. destruct (syscall_compat g); [by apply ok_handler_always|].
      destruct (bits_per_long_32 g) eqn:E; cbn in Hs |- *; [|by apply ok_handler_always].
      by apply (ok_handler_when m P_bits32).
  - intros gr p Hg Hp. pose proof (proj1 (forallb_forall _ _) protos_arity gr (proj1 (list_elem_of_In _ _) Hg)) as H.
    apply Nat.leb_le. by apply (proj1 (forallb_forall _ _) H p), list_elem_of_In.
Qed.

(** The repository's own prototypes are declared everywhere, the third handler never. *)
Lemma kv_prototypes m :
  "sys_write_kv"%string ∈ declared m protos /\ "sys_read_kv"%string ∈ declared m protos /\
  existsb (fun g => existsb (fun p => String.eqb (pname p) "sys_configure_socket_fairness") (decls g)) protos = false.
Proof.
  split; [|split]; [apply (decl_under_sound m []); [by intros c b ?%not_elem_of_nil|vm_compute; reflexivity]..|].
  vm_compute. reflexivity.
Qed.

(** ** Arguments *)

(** The conversions of a width agree on numbers equal modulo it. *)
Lemma wrap_congr w z z' : z mod 2 ^ w = z' mod 2 ^ w -> uwrap w z = uwrap w z' /\ swrap w z = swrap w z'.
Proof.
  intros H. unfold uwrap, swrap. split; [done|]. f_equal.
  by rewrite <- (Zplus_mod_idemp_l z), <- (Zplus_mod_idemp_l z'), H.
Qed.

Lemma swrap_mod w v z : 0 <= v <= w -> swrap w z mod 2 ^ v = z mod 2 ^ v.
Proof.
  intros Hv. unfold swrap. set (h := 2 ^ (w - 1)).
  assert (forall x, (x mod 2 ^ w) mod 2 ^ v = x mod 2 ^ v) as E.
  { intros x. replace w with (v + (w - v)) by lia. rewrite Z.pow_add_r by lia.
    rewrite Z.rem_mul_r by (try apply Z.pow_nonzero; lia). rewrite Z.mul_comm, Z.mod_add by (apply Z.pow_nonzero; lia).
    apply Z.mod_mod. apply Z.pow_nonzero; lia. }
  rewrite Zminus_mod, E, <- Zminus_mod. f_equal. lia.
Qed.

Section Sanitize.
Context (lp64 : bool) (typedef : string -> cty).

Lemma bits_pos t : 0 < bits lp64 typedef t.
Proof. unfold bits, long_bits. destruct (resolve typedef t), lp64; lia. Qed.

Lemma convert_id t v : in_type lp64 typedef t v -> convert lp64 typedef t v = v.
Proof.
  unfold in_type, convert. pose proof (bits_pos t). destruct (is_signed typedef t); [by apply swrap_small|by apply uwrap_small].
Qed.

Lemma convert_congr t v v' :
  v mod 2 ^ bits lp64 typedef t = v' mod 2 ^ bits lp64 typedef t -> convert lp64 typedef t v = convert lp64 typedef t v'.
Proof. intros H. unfold convert. destruct (wrap_congr _ _ _ H) as [-> ->]. done. Qed.

(** A register seen as a long, or a long long, keeps the bits of a type that passes
    the test made when the call is compiled. *)
Lemma sc_long_keeps t r :
  __SC_TEST lp64 typedef t = true ->
  __SC_LONG lp64 typedef t r mod 2 ^ bits lp64 typedef t = r mod 2 ^ bits lp64 typedef t.
Proof.
  intros H. unfold __SC_LONG. apply swrap_mod. pose proof (bits_pos t). split; [lia|].
  unfold __SC_TEST in H. destruct (__TYPE_IS_LL typedef t) eqn:E; cbn in H.
  - unfold bits, __TYPE_IS_LL in *. destruct (resolve typedef t); try done; unfold long_bits; destruct lp64; lia.
  - apply negb_true_iff, Z.ltb_ge in H. done.
Qed.

Lemma map_args ts regs args :
  Forall (fun t => __SC_TEST lp64 typedef t = true) ts ->
  Forall2 (in_type lp64 typedef) ts args ->
  Forall3 (fun t a r => r mod 2 ^ bits lp64 typedef t = a mod 2 ^ bits lp64 typedef t) ts args regs ->
  __MAP (length ts) (__SC_CAST lp64 typedef) (zip ts (__MAP (length ts) (__SC_LONG lp64 typedef) (zip ts regs))) = args.
Proof.
  intros Ht Hi H. induction H as [|t a r ts args regs Hr H IH]; [done|].
  apply Forall_cons in Ht as [Ht Hts]. inversion Hi as [|? ? ? ? Hi1 Hi2]. subst. cbn. rewrite IH by done. f_equal.
  unfold __SC_CAST. rewrite <- (convert_id t a) by done. apply convert_congr. by rewrite sc_long_keeps.
Qed.
End Sanitize.

(** C37: a system call receives its arguments.  For handlers of up to six parameters
    whose types pass the compile-time test, with any meaning of the typedefs and
    either size of a long: if what is passed for each parameter agrees with the
    caller's argument on the bits of its type, whatever its other bits are, the
    handler is called with exactly the caller's arguments. *)
Theorem se_sys_sanitizes {R} lp64 typedef ts (do_sys : list Z -> R) args regs :
  (length ts <= SYSCALL_DEFINE_MAXARGS)%nat ->
  Forall (fun t => __SC_TEST lp64 typedef t = true) ts ->
  Forall2 (in_type lp64 typedef) ts args ->
  Forall3 (fun t a r => r mod 2 ^ bits lp64 typedef t = a mod 2 ^ bits lp64 typedef t) ts args regs ->
  __se_sys lp64 typedef (length ts) ts do_sys regs = do_sys args.
Proof. intros _ Ht Hi H. unfold __se_sys. by rewrite (map_args lp64 typedef ts regs args). Qed.

(** The call [write_kv (3, -2)] with garbage in the upper halves of the registers. *)
Lemma se_sys_sanitizes_witness :
  __se_sys true (fun _ => Long) 2 [Int; Int] (fun l => l) [3 + 5 * 2 ^ 32; 2 ^ 32 - 2] = [3; -2].
Proof.
  apply (se_sys_sanitizes true (fun _ => Long) [Int; Int] (fun l => l) [3; -2]).
  - cbn. unfold SYSCALL_DEFINE_MAXARGS. lia.
  - repeat constructor.
  - repeat constructor; cbn; unfold is_s; lia.
  - repeat constructor.
Defined.

Lemma table_well_typed_witness :
  (forall n h, (n, h) ∈ table x86_expansion -> is_sys h = true -> h ∈ elsewhere \/ h ∈ declared (fun _ => false) protos) /\
  (forall gr p, gr ∈ protos -> p ∈ decls gr -> (length (params p) <= SYSCALL_DEFINE_MAXARGS)%nat).
Proof.
  apply (table_well_typed x86_64 (fun _ => false) x86_expansion).
  - split; [reflexivity|]. split; [reflexivity|]. discriminate.
  - vm_compute. reflexivity.
Defined.

(** A 64-bit argument survives being passed in two registers, in either order, as
    signed and as unsigned type. *)
Lemma sc_arg64_split v : v mod 2 ^ 64 = Z.lor (Z.shiftl (u32 (Z.shiftr v 32)) 32) (u32 v).
Proof.
  unfold uwrap. apply Z.bits_inj'. intros i Hi. rewrite Z.lor_spec, Z.shiftl_spec by lia.
  destruct (Z.lt_ge_cases i 32).
  - rewrite (Z.testbit_neg_r _ (i - 32)) by lia. rewrite !Z.mod_pow2_bits_low by lia. done.
  - destruct (Z.lt_ge_cases i 64).
    + rewrite Z.mod_pow2_bits_low by lia. rewrite Z.mod_pow2_bits_low by lia. rewrite Z.shiftr_spec by lia.
      rewrite (Z.mod_pow2_bits_high v 32) by lia. rewrite orb_false_r. f_equal. lia.
    + rewrite Z.mod_pow2_bits_high by lia. rewrite !(Z.mod_pow2_bits_high _ 32) by lia. done.
Qed.

Lemma shiftl_s64_lor hi lo : is_u 32 hi -> is_u 32 lo -> s64 (Z.lor (s64 (Z.shiftl (s64 hi) 32)) lo) = s64 (Z.lor (Z.shiftl hi 32) lo).
Proof.
  intros Hh Hl. unfold is_u in *. rewrite (swrap_small 64 hi) by (unfold is_s; lia). apply wrap_congr.
  rewrite <- !Z.land_ones by lia. rewrite !Z.land_lor_distr_l. f_equal. rewrite !Z.land_ones by lia.
  by rewrite swrap_mod by lia.
Qed.

Theorem sc_arg64_roundtrip le v :
  (is_s 64 v -> SC_VAL64 s64 le (SC_ARG64 le v) = v) /\ (is_u 64 v -> SC_VAL64 u64 le (SC_ARG64 le v) = v).
Proof.
  assert (is_u 32 (u32 (Z.shiftr v 32))) as Hh by by apply uwrap_range.
  assert (is_u 32 (u32 v)) as Hl by by apply uwrap_range.
  split; intros Hv.
  - replace (SC_VAL64 s64 le (SC_ARG64 le v)) with (s64 (Z.lor (s64 (Z.shiftl (s64 (u32 (Z.shiftr v 32))) 32)) (u32 v)))
      by (by destruct le). rewrite shiftl_s64_lor by done. rewrite <- sc_arg64_split. by apply (swrap_uwrap 64).
  - replace (SC_VAL64 u64 le (SC_ARG64 le v)) with (u64 (Z.lor (u64 (Z.shiftl (u64 (u32 (Z.shiftr v 32))) 32)) (u32 v)))
      by (by destruct le). unfold is_u in Hh. rewrite (uwrap_small 64 (u32 (Z.shiftr v 32))) by (unfold is_u; lia).
    rewrite (uwrap_small 64 (Z.shiftl _ _)).
    + rewrite <- sc_arg64_split. rewrite (uwrap_small 64) by by apply uwrap_range. by apply uwrap_small.
    + rewrite Z.shiftl_mul_pow2 by lia. unfold is_u. lia.
Qed.
