(* ===== verification/Tcpdump.v ===== *)
(** * Tcpdump: packet capture into a flat buffer

    Models [network/tcpdump/custom_tcpdump.c] (the capture) and
    [network/tcpdump/main.c] (the reader of the captured buffer).  libpcap is
    not part of this repository: what its calls return is a parameter
    ([pcap_env]), and the object representation of [struct pcap_pkthdr] is the
    interface [PkthdrRep].  The main theorem is the round trip: what [main]
    prints is exactly what the capture accepted. *)

From Stdlib Require Import ZArith Lia String.
From stdpp Require Import base list.
From S2P Require Import Prelude Bytes.

(** ** libpcap's packet header *)

Record pcap_pkthdr := Pkthdr { tv_sec : Z; tv_usec : Z; caplen : Z; len : Z }.

Definition hdr_ok (h : pcap_pkthdr) : Prop :=
  is_s 64 (tv_sec h) /\ is_s 64 (tv_usec h) /\ is_u 32 (caplen h) /\ is_u 32 (len h).

(** How the compiler lays a header out in memory. *)
Class PkthdrRep := {
  sizeof_pkthdr : Z;
  hdr_bytes : pcap_pkthdr -> list Z;
  hdr_of : list Z -> pcap_pkthdr;
  sizeof_pkthdr_range : 0 < sizeof_pkthdr < 65536;
  hdr_bytes_length h : Z.of_nat (List.length (hdr_bytes h)) = sizeof_pkthdr;
  hdr_of_bytes h : hdr_ok h -> hdr_of (hdr_bytes h) = h
}.

Definition packet : Type := pcap_pkthdr * list Z.

(** libpcap hands the callback a header and at least [caplen] bytes. *)
Definition packet_ok (p : packet) : Prop :=
  hdr_ok (fst p) /\ caplen (fst p) <= Z.of_nat (List.length (snd p)).

(** ** custom_tcpdump.c *)

Record capture_ctx_t := Ctx {
  buffer : list Z;
  buffer_size : Z;
  offset : Z;
  max_packets : Z;
  packet_count : Z
}.

(** What libpcap's calls return, by call: a message for a failure, and for
    [pcap_loop] the packets it hands to the callback, its result and the text
    of [pcap_geterr]. *)
Record pcap_env := PcapEnv {
  pcap_lookupnet : option (list Z);
  pcap_open_live : option (list Z);
  pcap_compile : option (list Z);
  pcap_setfilter : option (list Z);
  pcap_loop : Z -> list packet * Z * list Z
}.

(** The calls that acquire and release libpcap's resources. *)
Inductive pcap_event := EvOpen | EvCompile | EvSetfilter | EvFreecode | EvLoop (cnt : Z) | EvClose.

#[global] Instance pcap_event_eq_dec : EqDecision pcap_event.
Proof. solve_decision. Defined.

Record capture_result := CaptureResult {
  ret : Z;
  error_buffer : list Z;
  captured : list Z;
  events : list pcap_event
}.

Definition ERROR_BUFFER_SIZE : Z := 256.

Definition set_error (text : list Z) : list Z := fst (snprintf ERROR_BUFFER_SIZE text).

Section Tcpdump.
Context `{R : PkthdrRep}.

Definition packet_handler (ctx : capture_ctx_t) (p : packet) : res capture_ctx_t :=
  let (pkthdr, bytes) := p in
  if (0 <? max_packets ctx) && (max_packets ctx <=? packet_count ctx) then Ok ctx
  else if buffer_size ctx <? u64 (offset ctx + sizeof_pkthdr + caplen pkthdr) then Ok ctx
  else
    b1 ← res_of_opt OutOfBounds (memcpy (buffer ctx) (offset ctx) (hdr_bytes pkthdr));
    let off1 := u64 (offset ctx + sizeof_pkthdr) in
    src ← (if Z.of_nat (List.length bytes) <? caplen pkthdr then Fault OutOfBounds
           else Ok (take (Z.to_nat (caplen pkthdr)) bytes));
    b2 ← res_of_opt OutOfBounds (memcpy b1 off1 src);
    Ok (Ctx b2 (buffer_size ctx) (u64 (off1 + caplen pkthdr)) (max_packets ctx)
            (s32 (packet_count ctx + 1))).

(** [pcap_loop] calling the handler for each packet it reads. *)
Fixpoint deliver (ctx : capture_ctx_t) (ps : list packet) : res capture_ctx_t :=
  match ps with
  | [] => Ok ctx
  | p :: ps' => ctx' ← packet_handler ctx p; deliver ctx' ps'
  end.

Definition capture_count (max : Z) : Z := if 0 <? max then max else -1.

Definition custom_tcpdump_capture (E : pcap_env) (iface custom_filter : option (list Z))
    (buf : option (list Z)) (size timeout_ms max : Z) : res capture_result :=
  match iface, buf with
  | Some ifc, Some b =>
    if size =? 0 then Ok (CaptureResult (-1) (set_error (bytes_of "Invalid parameters")) b [])
    else
      let ctx := Ctx b size 0 max 0 in
      let err0 := match pcap_lookupnet E with
                  | Some msg => set_error (bytes_of "Warning: " ++ msg)
                  | None => [] end in
      match pcap_open_live E with
      | Some msg => Ok (CaptureResult (-2)
          (set_error (bytes_of "Couldn't open device " ++ ifc ++ bytes_of ": " ++ msg)) b [])
      | None =>
        let filter := match custom_filter with
                      | Some f => if 0 <? Z.of_nat (List.length f) then Some f else None
                      | None => None end in
        let run ev :=
          let '(ps, r, msg) := pcap_loop E (capture_count max) in
          ctx' ← deliver ctx ps;
          let ev' := ev ++ [EvLoop (capture_count max); EvClose] in
          if r =? -1 then
            Ok (CaptureResult (-5) (set_error (bytes_of "Error in pcap_loop: " ++ msg))
                  (buffer ctx') ev')
          else
            let err1 := if r =? -2 then set_error (bytes_of "Capture interrupted") else err0 in
            Ok (CaptureResult (packet_count ctx') err1 (buffer ctx') ev') in
        match filter with
        | None => run [EvOpen]
        | Some f =>
          match pcap_compile E with
          | Some msg => Ok (CaptureResult (-3)
              (set_error (bytes_of "Couldn't parse filter '" ++ f ++ bytes_of "': " ++ msg))
              b [EvOpen; EvClose])
          | None =>
            match pcap_setfilter E with
            | Some msg => Ok (CaptureResult (-4)
                (set_error (bytes_of "Couldn't install filter '" ++ f ++ bytes_of "': " ++ msg))
                b [EvOpen; EvCompile; EvFreecode; EvClose])
            | None => run [EvOpen; EvCompile; EvSetfilter; EvFreecode]
            end
          end
        end
      end
  | _, b => Ok (CaptureResult (-1) (set_error (bytes_of "Invalid parameters")) (default [] b) [])
  end.

Definition custom_tcpdump_get_error (r : capture_result) : list Z := error_buffer r.

(** ** main.c *)

(** What is printed for one packet: its number, time stamp, the two lengths
    (with [%d]) and up to 16 data bytes. *)
Record printed := Printed {
  pr_no : Z; pr_sec : Z; pr_usec : Z; pr_caplen : Z; pr_len : Z; pr_data : list Z
}.

(** The loop of [print_captured_packets] from packet number [i] and position
    [p], for [n] more packets. *)
Fixpoint print_loop (buf : list Z) (n : nat) (i p : Z) : res (list printed) :=
  match n with
  | O => Ok []
  | S n' =>
      header ← (if p + sizeof_pkthdr <=? Z.of_nat (List.length buf)
                then Ok (hdr_of (slice buf p sizeof_pkthdr)) else Fault OutOfBounds);
      let p1 := p + sizeof_pkthdr in
      let shown := Z.min 16 (caplen header) in
      data ← (if p1 + shown <=? Z.of_nat (List.length buf)
              then Ok (slice buf p1 shown) else Fault OutOfBounds);
      rest ← print_loop buf n' (i + 1) (p1 + caplen header);
      Ok (Printed (i + 1) (tv_sec header) (tv_usec header) (s32 (caplen header))
                  (s32 (len header)) data :: rest)
  end.

Definition print_captured_packets (buf : list Z) (count : Z) : res (list printed) :=
  print_loop buf (Z.to_nat count) 0 0.

Definition BUFFER_SIZE : Z := 1024 * 1024.

(** What [main] prints on the error stream. *)
Inductive diagnostic := NoDiagnostic | AllocationFailed | CaptureFailed (msg : list Z).

Record main_result := MainResult {
  exit_status : Z; printed_packets : list printed; diag : diagnostic; frees : nat
}.

(** [main]: [malloc] gives [None] or a buffer. *)
Definition main (E : pcap_env) (argv : list (list Z)) (malloc : option (list Z))
    : res main_result :=
  match malloc with
  | None => Ok (MainResult 1 [] AllocationFailed 0)
  | Some b =>
      let interface := default (bytes_of "eth0") (argv !! 1%nat) in
      let filter := default (bytes_of "tcp") (argv !! 2%nat) in
      r ← custom_tcpdump_capture E (Some interface) (Some filter) (Some b) BUFFER_SIZE 1000 10;
      if ret r <? 0 then Ok (MainResult 1 [] (CaptureFailed (custom_tcpdump_get_error r)) 1)
      else
        out ← print_captured_packets (captured r) (ret r);
        Ok (MainResult 0 out NoDiagnostic 1)
  end.

(** ** The specification: which packets are kept, and how they are laid out *)

Fixpoint accepted (size max off cnt : Z) (ps : list packet) : list packet :=
  match ps with
  | [] => []
  | p :: ps' =>
      if (0 <? max) && (max <=? cnt) then []
      else if size <? off + sizeof_pkthdr + caplen (fst p) then accepted size max off cnt ps'
      else p :: accepted size max (off + sizeof_pkthdr + caplen (fst p)) (cnt + 1) ps'
  end.

Definition payload (p : packet) : list Z := take (Z.to_nat (caplen (fst p))) (snd p).

Definition layout (ps : list packet) : list Z :=
  concat (map (fun p => hdr_bytes (fst p) ++ payload p) ps).

Definition summary (i : Z) (p : packet) : printed :=
  Printed (i + 1) (tv_sec (fst p)) (tv_usec (fst p)) (s32 (caplen (fst p))) (s32 (len (fst p)))
          (take 16 (payload p)).

Fixpoint summaries (i : Z) (ps : list packet) : list printed :=
  match ps with [] => [] | p :: ps' => summary i p :: summaries (i + 1) ps' end.

(** A context between two callbacks. *)
Record ctx_ok (c : capture_ctx_t) : Prop := {
  ok_len : Z.of_nat (List.length (buffer c)) = buffer_size c;
  ok_off : 0 <= offset c <= buffer_size c;
  ok_cnt : 0 <= packet_count c /\ packet_count c * sizeof_pkthdr <= offset c;
  ok_size : buffer_size c < sizeof_pkthdr * (2 ^ 31 - 1)
}.

Lemma payload_length p :
  packet_ok p -> Z.of_nat (List.length (payload p)) = caplen (fst p).
Proof.
  intros [(_ & _ & [H _] & _) Hl]. unfold payload. rewrite length_take. lia.
Qed.

(** What one callback does: drop the packet, or append its record. *)
Lemma packet_handler_spec c p :
  ctx_ok c -> packet_ok p ->
  packet_handler c p = Ok
    (if ((0 <? max_packets c) && (max_packets c <=? packet_count c)) ||
        (buffer_size c <? offset c + sizeof_pkthdr + caplen (fst p)) then c
     else Ctx (take (Z.to_nat (offset c)) (buffer c) ++ hdr_bytes (fst p) ++ payload p ++
               drop (Z.to_nat (offset c + sizeof_pkthdr + caplen (fst p))) (buffer c))
              (buffer_size c) (offset c + sizeof_pkthdr + caplen (fst p)) (max_packets c)
              (packet_count c + 1)).
Proof.
  intros [Hl Ho [Hc1 Hc2] Hs] Hp. pose proof (payload_length p Hp) as Hpl.
  destruct p as [h d]. destruct Hp as [(_ & _ & Hcap & _) Hd]; cbn [fst snd] in *.
  pose proof sizeof_pkthdr_range as Hsz. unfold is_u in Hcap. cbn in Hcap.
  unfold packet_handler; cbn [fst].
  destruct ((0 <? max_packets c) && (max_packets c <=? packet_count c)); [done|]. cbn [orb].
  assert (u64 (offset c + sizeof_pkthdr) = offset c + sizeof_pkthdr) as E1
    by (apply uwrap_small; unfold is_u; lia).
  assert (u64 (offset c + sizeof_pkthdr + caplen h) = offset c + sizeof_pkthdr + caplen h) as E2
    by (apply uwrap_small; unfold is_u; lia).
  cbv zeta. rewrite E1, !E2.
  destruct (Z.ltb_spec (buffer_size c) (offset c + sizeof_pkthdr + caplen h)); [done|].
  pose proof (hdr_bytes_length h) as Hh.
  rewrite memcpy_some by lia. cbn.
  destruct (Z.ltb_spec (Z.of_nat (List.length d)) (caplen h)); [lia|]. cbn.
  change (take (Z.to_nat (caplen h)) d) with (payload (h, d)).
  rewrite memcpy_some; [|lia|rewrite !length_app, length_take, length_drop; lia]. cbn.
  do 2 f_equal.
  - rewrite (app_assoc (take (Z.to_nat (offset c)) (buffer c))).
    rewrite take_app_length' by (rewrite length_app, length_take; lia).
    rewrite <- app_assoc. do 3 f_equal.
    rewrite drop_app_ge by (rewrite length_app, length_take; lia).
    rewrite length_app, length_take, drop_drop. f_equal. lia.
  - rewrite swrap_small; [done|lia|]. unfold is_s. cbn. nia.
Qed.

Lemma record_length p :
  packet_ok p ->
  Z.of_nat (List.length (hdr_bytes (fst p) ++ payload p)) = sizeof_pkthdr + caplen (fst p).
Proof.
  intros H. rewrite length_app, Nat2Z.inj_add, hdr_bytes_length, payload_length by done. done.
Qed.

Lemma packet_ok_caplen p : packet_ok p -> 0 <= caplen (fst p).
Proof. intros [(_ & _ & [? _] & _) _]. done. Qed.

(** The handler preserves the context's invariant. *)
Lemma ctx_ok_append c p :
  ctx_ok c -> packet_ok p -> offset c + sizeof_pkthdr + caplen (fst p) <= buffer_size c ->
  ctx_ok (Ctx (take (Z.to_nat (offset c)) (buffer c) ++ hdr_bytes (fst p) ++ payload p ++
               drop (Z.to_nat (offset c + sizeof_pkthdr + caplen (fst p))) (buffer c))
              (buffer_size c) (offset c + sizeof_pkthdr + caplen (fst p)) (max_packets c)
              (packet_count c + 1)).
Proof.
  intros [Hl Ho [Hc1 Hc2] Hs] Hp Hfit. pose proof (record_length p Hp) as Hr.
  pose proof (packet_ok_caplen p Hp). pose proof sizeof_pkthdr_range.
  constructor; cbn; [|lia|nia|done].
  rewrite (app_assoc (hdr_bytes _)), !length_app, length_take, length_drop.
  rewrite length_app in Hr. lia.
Qed.

(** The whole capture: the accepted packets are laid out one after another
    from the old offset; the bytes after them are not touched. *)
Lemma deliver_spec ps : forall c,
  ctx_ok c -> Forall packet_ok ps ->
  let acc := accepted (buffer_size c) (max_packets c) (offset c) (packet_count c) ps in
  exists c', deliver c ps = Ok c' /\ ctx_ok c' /\ buffer_size c' = buffer_size c /\
    packet_count c' = packet_count c + Z.of_nat (List.length acc) /\
    offset c' = offset c + Z.of_nat (List.length (layout acc)) /\
    buffer c' = take (Z.to_nat (offset c)) (buffer c) ++ layout acc ++
                drop (Z.to_nat (offset c')) (buffer c).
Proof.
  induction ps as [|p ps IH]; intros c Hc Hps; cbn [accepted deliver]; cbv zeta.
  - exists c. cbn. rewrite !Z.add_0_r, take_drop. done.
  - inversion Hps as [|? ? Hp Hps']; subst. rewrite packet_handler_spec by done. cbn [mbind res_bind].
    destruct ((0 <? max_packets c) && (max_packets c <=? packet_count c)) eqn:Em; cbn [orb].
    + destruct (IH c Hc Hps') as (c' & -> & Hok & Hsz & Hn & Hoff & Hb).
      assert (accepted (buffer_size c) (max_packets c) (offset c) (packet_count c) ps = []) as Ea
        by (destruct ps; cbn; [done|by rewrite Em]).
      rewrite Ea in *. eauto 10.
    + destruct (Z.ltb_spec (buffer_size c) (offset c + sizeof_pkthdr + caplen (fst p))); [by apply IH|].
      match goal with |- context [deliver ?d ps] => set (c1 := d) end.
      destruct (IH c1 (ctx_ok_append c p Hc Hp ltac:(lia)) Hps') as (c' & -> & Hok & Hsz & Hn & Hoff & Hb).
      pose proof (record_length p Hp) as Hr. pose proof (packet_ok_caplen p Hp).
      pose proof sizeof_pkthdr_range. destruct Hc as [Hl Ho _ _].
      exists c'. cbn in Hsz, Hn, Hoff, Hb |- *. unfold layout in *. cbn [map concat].
      split_and!; [done|done|done|lia|rewrite length_app; lia|].
      rewrite Hb, !(app_assoc (hdr_bytes (fst p))).
      set (rec := hdr_bytes (fst p) ++ payload p) in *.
      rewrite !(app_assoc (take (Z.to_nat (offset c)) (buffer c)) rec).
      rewrite take_app_length' by (rewrite length_app, length_take; lia).
      rewrite drop_app_ge by (rewrite length_app, length_take; lia).
      rewrite drop_drop, length_app, length_take, <- !app_assoc. do 4 f_equal. lia.
Qed.

Lemma accepted_incl size mx ps : forall off cnt,
  Forall packet_ok ps -> Forall packet_ok (accepted size mx off cnt ps).
Proof.
  induction ps as [|p ps IH]; intros off cnt H; cbn; [done|].
  inversion H; subst. destruct (_ && _); [done|]. destruct (_ <? _); auto.
Qed.

(** At most [max] packets are kept when a limit is given. *)
Lemma accepted_max size mx ps : forall off cnt,
  0 < mx -> cnt <= mx -> cnt + Z.of_nat (List.length (accepted size mx off cnt ps)) <= mx.
Proof.
  induction ps as [|p ps IH]; intros off cnt H Hc; cbn; [lia|].
  destruct (Z.ltb_spec 0 mx), (Z.leb_spec mx cnt); cbn; [lia| |lia..].
  destruct (_ <? _); cbn [List.length]; [by apply IH|].
  specialize (IH (off + sizeof_pkthdr + caplen p.1) (cnt + 1) H ltac:(lia)). lia.
Qed.

(** ** Reading the buffer back *)

Lemma print_loop_spec ps : forall pre post i,
  Forall packet_ok ps ->
  print_loop (pre ++ layout ps ++ post) (List.length ps) i (Z.of_nat (List.length pre))
  = Ok (summaries i ps).
Proof.
  induction ps as [|p ps IH]; intros pre post i H; cbn [print_loop List.length summaries]; [done|].
  inversion H as [|? ? Hp Hps]; subst. pose proof (payload_length p Hp) as Hpl.
  pose proof (hdr_bytes_length (fst p)) as Hh. pose proof (packet_ok_caplen p Hp).
  pose proof sizeof_pkthdr_range.
  assert (layout (p :: ps) = hdr_bytes (fst p) ++ payload p ++ layout ps) as El
    by (unfold layout; cbn; by rewrite <- app_assoc).
  rewrite El. set (buf := pre ++ _ ++ post).
  assert (buf = pre ++ hdr_bytes (fst p) ++ payload p ++ layout ps ++ post) as Eb
    by (unfold buf; by rewrite <- !app_assoc).
  assert (Z.of_nat (List.length buf) >= Z.of_nat (List.length pre) + sizeof_pkthdr + caplen (fst p))
    as Hlen by (rewrite Eb, !length_app; lia).
  destruct (Z.leb_spec (Z.of_nat (List.length pre) + sizeof_pkthdr) (Z.of_nat (List.length buf))); [|lia].
  cbn [mbind res_bind].
  assert (slice buf (Z.of_nat (List.length pre)) sizeof_pkthdr = hdr_bytes (fst p)) as Es.
  { unfold slice. rewrite Eb, drop_app_length' by lia. by rewrite take_app_length' by lia. }
  rewrite Es, hdr_of_bytes by apply Hp.
  destruct (Z.leb_spec (Z.of_nat (List.length pre) + sizeof_pkthdr + 16 `min` caplen (fst p))
    (Z.of_nat (List.length buf))); [|lia]. cbn [mbind res_bind].
  replace (Z.of_nat (List.length pre) + sizeof_pkthdr + caplen (fst p)) with
    (Z.of_nat (List.length (pre ++ hdr_bytes (fst p) ++ payload p)))
    by (rewrite !length_app; lia).
  assert (buf = (pre ++ hdr_bytes (fst p) ++ payload p) ++ layout ps ++ post) as Eb2
    by (rewrite Eb, <- !app_assoc; done).
  assert (slice buf (Z.of_nat (List.length pre) + sizeof_pkthdr) (16 `min` caplen (fst p))
          = take 16 (payload p)) as ->.
  { unfold slice. rewrite Eb, app_assoc, drop_app_length' by (rewrite length_app; lia).
    rewrite take_app_le by lia. destruct (Z.le_gt_cases 16 (caplen (fst p))).
    - by rewrite Z.min_l by lia.
    - rewrite Z.min_r, !take_ge by lia. done. }
  rewrite Eb2, IH by done. done.
Qed.

(** What libpcap promises: every packet handed over is well formed. *)
Definition env_ok (E : pcap_env) : Prop := forall cnt, Forall packet_ok (fst (fst (pcap_loop E cnt))).

(** The filter step succeeds (or there is no filter). *)
Definition filter_ok (E : pcap_env) (f : option (list Z)) : Prop :=
  default [] f = [] \/ (pcap_compile E = None /\ pcap_setfilter E = None).

(** The buffer is a real one, of a size whose packets an [int] can count. *)
Definition buffer_ok (b : list Z) (size : Z) : Prop :=
  Z.of_nat (List.length b) = size /\ 0 < size < sizeof_pkthdr * (2 ^ 31 - 1).

Lemma ctx_ok_initial b size mx : buffer_ok b size -> ctx_ok (Ctx b size 0 mx 0).
Proof. intros [? ?]. pose proof sizeof_pkthdr_range. constructor; cbn; lia. Qed.

Lemma set_error_length t : Z.of_nat (List.length (set_error t)) < ERROR_BUFFER_SIZE.
Proof. unfold set_error, snprintf, ERROR_BUFFER_SIZE. cbn. rewrite length_take. lia. Qed.

(** What the packet loop leaves for the reader of the buffer. *)
Lemma deliver_initial b size mx ps :
  buffer_ok b size -> Forall packet_ok ps ->
  let acc := accepted size mx 0 0 ps in
  exists c', deliver (Ctx b size 0 mx 0) ps = Ok c' /\
    packet_count c' = Z.of_nat (List.length acc) /\
    buffer c' = layout acc ++ drop (List.length (layout acc)) b.
Proof.
  intros Hb Hps.
  destruct (deliver_spec ps _ (ctx_ok_initial b size mx Hb) Hps)
    as (c' & Hd & _ & _ & Hn & Hoff & Hbuf). cbn in *.
  exists c'. split_and!; [done|lia|]. rewrite Hbuf, Hoff, Z.add_0_l, Nat2Z.id. done.
Qed.

Lemma print_of_layout ps post :
  Forall packet_ok ps ->
  print_captured_packets (layout ps ++ post) (Z.of_nat (List.length ps)) = Ok (summaries 0 ps).
Proof.
  intros H. unfold print_captured_packets. rewrite Nat2Z.id.
  exact (print_loop_spec ps [] post 0 H).
Qed.

(** C38: a capture whose libpcap calls succeed returns the number of packets it
    accepted, leaves in the buffer exactly their records (the bytes after them
    as they were), and [print_captured_packets] reads every accepted packet
    back, in order, with its time stamp, lengths and first 16 bytes. *)
Theorem capture_print_roundtrip E ifc f b size timeout mx ps r msg :
  buffer_ok b size -> env_ok E ->
  pcap_open_live E = None -> filter_ok E f ->
  pcap_loop E (capture_count mx) = (ps, r, msg) -> r <> -1 ->
  let acc := accepted size mx 0 0 ps in
  exists cr, custom_tcpdump_capture E (Some ifc) f (Some b) size timeout mx = Ok cr /\
    ret cr = Z.of_nat (List.length acc) /\
    captured cr = layout acc ++ drop (List.length (layout acc)) b /\
    print_captured_packets (captured cr) (ret cr) = Ok (summaries 0 acc).
Proof.
  intros Hb HE Ho Hf Hl Hr acc. pose proof (HE (capture_count mx)) as Hps. rewrite Hl in Hps.
  destruct (deliver_initial b size mx ps Hb Hps) as (c' & Hd & Hn & Hbuf).
  assert (print_captured_packets (buffer c') (packet_count c') = Ok (summaries 0 acc)) as Hp.
  { rewrite Hbuf, Hn. apply print_of_layout. by apply accepted_incl. }
  unfold custom_tcpdump_capture. destruct Hb as [_ Hs].
  destruct (Z.eqb_spec size 0); [lia|]. rewrite Ho, Hl.
  destruct (Z.eqb_spec r (-1)); [done|]. rewrite Hd. cbn [mbind res_bind].
  destruct f as [f|]; [|eauto 10].
  destruct Hf as [Hf|[-> ->]]; [cbn in Hf; subst f; cbn; eauto 10|].
  destruct (0 <? _); eauto 10.
Qed.

Definition count (e : pcap_event) (l : list pcap_event) : nat :=
  List.length (filter (fun x => x = e) l).

(** Whatever libpcap does and however the call is made, a capture returns;
    the handle it opened is closed exactly once and a compiled filter freed
    exactly once, on success and on each of the error paths; the result is a
    non-negative count or one of the codes [-1] to [-5], and the error text
    fits its 256-byte buffer. *)
Theorem capture_releases_resources E ifc f buf size timeout mx :
  env_ok E -> (forall b, buf = Some b -> size <> 0 -> buffer_ok b size) ->
  exists cr, custom_tcpdump_capture E ifc f buf size timeout mx = Ok cr /\
    count EvClose (events cr) = count EvOpen (events cr) /\
    count EvFreecode (events cr) = count EvCompile (events cr) /\
    -5 <= ret cr /\
    Z.of_nat (List.length (error_buffer cr)) < ERROR_BUFFER_SIZE /\
    (ret cr < 0 -> error_buffer cr <> []).
Proof.
  intros HE Hb. pose proof set_error_length as Hse. unfold custom_tcpdump_capture.
  destruct ifc as [ifc|]; [|eexists; split; [done|]; cbn; repeat split; try lia; done].
  destruct buf as [b|]; [|eexists; split; [done|]; cbn; repeat split; try lia; done].
  destruct (Z.eqb_spec size 0); [eexists; split; [done|]; cbn; repeat split; try lia; done|].
  specialize (Hb b eq_refl n).
  destruct (pcap_open_live E);
    [eexists; split; [done|]; repeat split; [cbn; lia|apply Hse|done]|].
  destruct (pcap_loop E (capture_count mx)) as [[ps r] msg] eqn:Hl.
  pose proof (HE (capture_count mx)) as Hps. rewrite Hl in Hps.
  destruct (deliver_initial b size mx ps Hb Hps) as (c' & -> & Hn & _). cbn [mbind res_bind].
  set (err0 := match pcap_lookupnet E with Some m => _ | None => _ end).
  assert (Z.of_nat (List.length err0) < ERROR_BUFFER_SIZE) as He0
    by (unfold err0; destruct (pcap_lookupnet E); [apply Hse|done]).
  destruct f as [f|]; [destruct (0 <? _)|];
    [destruct (pcap_compile E); [|destruct (pcap_setfilter E)]| |];
    try (eexists; split; [done|]; repeat split; [cbn; lia|apply Hse|done]);
    destruct (r =? -1);
    (eexists; split; [done|]; repeat split; cbn [ret error_buffer];
     [lia|first [apply Hse|destruct (r =? -2); [apply Hse|done]]|first [done|lia]]).
Qed.

Lemma length_summaries ps : forall i, List.length (summaries i ps) = List.length ps.
Proof. induction ps; intros i; cbn; auto. Qed.

(** A capture either reports an error or holds the accepted packets. *)
Lemma capture_outcome E ifc f b size timeout mx :
  env_ok E -> buffer_ok b size ->
  let acc := accepted size mx 0 0 (fst (fst (pcap_loop E (capture_count mx)))) in
  exists cr, custom_tcpdump_capture E (Some ifc) f (Some b) size timeout mx = Ok cr /\
    (ret cr < 0 \/ (ret cr = Z.of_nat (List.length acc) /\
                    captured cr = layout acc ++ drop (List.length (layout acc)) b)).
Proof.
  intros HE Hb acc. unfold custom_tcpdump_capture.
  destruct (Z.eqb_spec size 0); [eexists; split; [done|]; cbn; lia|].
  destruct (pcap_open_live E); [eexists; split; [done|]; cbn; lia|].
  pose proof (HE (capture_count mx)) as Hps. unfold acc; clear acc.
  destruct (pcap_loop E (capture_count mx)) as [[ps r] msg]. cbn [fst] in *.
  destruct (deliver_initial b size mx ps Hb Hps) as (c' & -> & Hn & Hbuf). cbn [mbind res_bind].
  destruct f as [f|]; [destruct (0 <? _)|];
    [destruct (pcap_compile E); [|destruct (pcap_setfilter E)]| |];
    try destruct (r =? -1); (eexists; split; [done|]; cbn [ret captured]; first [left; lia|by right]).
Qed.

(** [main] returns on every run.  It frees the buffer exactly once when it
    got one; it exits with 0 exactly when the capture succeeded, then having
    printed the accepted packets, ten at most; otherwise it prints no packet. *)
Theorem main_prints_accepted E argv malloc :
  env_ok E -> (forall b, malloc = Some b -> Z.of_nat (List.length b) = BUFFER_SIZE) ->
  exists mr, main E argv malloc = Ok mr /\
    (malloc = None -> mr = MainResult 1 [] AllocationFailed 0) /\
    (malloc <> None -> frees mr = 1%nat) /\
    (exit_status mr = 0 ->
       printed_packets mr =
         summaries 0 (accepted BUFFER_SIZE 10 0 0 (fst (fst (pcap_loop E 10))))) /\
    (exit_status mr <> 0 -> exit_status mr = 1 /\ printed_packets mr = []) /\
    (List.length (printed_packets mr) <= 10)%nat.
Proof.
  intros HE Hm. unfold main. destruct malloc as [b|];
    [|eexists; split; [done|]; repeat split; cbn; first [done|lia]].
  assert (buffer_ok b BUFFER_SIZE) as Hb.
  { pose proof sizeof_pkthdr_range. split; [by apply Hm|]. unfold BUFFER_SIZE. lia. }
  destruct (capture_outcome E (default (bytes_of "eth0") (argv !! 1%nat))
    (Some (default (bytes_of "tcp") (argv !! 2%nat))) b BUFFER_SIZE 1000 10 HE Hb)
    as (cr & -> & Hcr). cbn [mbind res_bind].
  change (capture_count 10) with 10 in Hcr. cbv zeta in Hcr.
  set (acc := accepted BUFFER_SIZE 10 0 0 _) in *.
  destruct Hcr as [Hneg|[Hn Hc]].
  - destruct (Z.ltb_spec (ret cr) 0); [|lia].
    eexists; split; [done|]; repeat split; cbn; first [done|lia].
  - destruct (Z.ltb_spec (ret cr) 0); [lia|].
    rewrite Hc, Hn, print_of_layout by (apply accepted_incl, HE). cbn [mbind res_bind].
    eexists; split; [done|]; repeat split; cbn; try done.
    pose proof (accepted_max BUFFER_SIZE 10 (fst (fst (pcap_loop E 10))) 0 0).
    rewrite length_summaries. fold acc in H0. lia.
Qed.

End Tcpdump.

(** ** The x86-64 representation of the header

    Two 8-byte signed fields and two 4-byte unsigned ones, little-endian and
    without padding. *)

Definition hdr_bytes64 (h : pcap_pkthdr) : list Z :=
  le_bytes 8 (u64 (tv_sec h)) ++ le_bytes 8 (u64 (tv_usec h)) ++
  le_bytes 4 (caplen h) ++ le_bytes 4 (len h).

Definition hdr_of64 (bs : list Z) : pcap_pkthdr :=
  Pkthdr (s64 (le_val (slice bs 0 8))) (s64 (le_val (slice bs 8 8)))
         (le_val (slice bs 16 4)) (le_val (slice bs 20 4)).

Lemma hdr_of_bytes64 h : hdr_ok h -> hdr_of64 (hdr_bytes64 h) = h.
Proof.
  destruct h as [a b c d]. intros (Ha & Hb & Hc & Hd); cbn in Ha, Hb, Hc, Hd.
  change (hdr_of64 _) with (Pkthdr (s64 (le_val (le_bytes 8 (u64 a))))
    (s64 (le_val (le_bytes 8 (u64 b)))) (le_val (le_bytes 4 c)) (le_val (le_bytes 4 d))).
  rewrite !le_val_bytes by (first [done|apply uwrap_range; lia]).
  by rewrite !swrap_uwrap by (first [lia|done]).
Qed.

#[global] Instance pkthdr_x86_64 : PkthdrRep := {|
  sizeof_pkthdr := 24; hdr_bytes := hdr_bytes64; hdr_of := hdr_of64;
  sizeof_pkthdr_range := ltac:(lia);
  hdr_bytes_length h := ltac:(reflexivity);
  hdr_of_bytes := hdr_of_bytes64
|}.

(** ** A concrete run *)

Definition pkt1 : packet := (Pkthdr 1 500 4 60, [1; 2; 3; 4; 99]).
Definition pkt2 : packet := (Pkthdr 2 (-1) 200 1500, replicate 200 7).
Definition pkt3 : packet := (Pkthdr 3 0 2 2, [8; 9]).

Definition env3 : pcap_env := PcapEnv None None None None (fun _ => ([pkt1; pkt2; pkt3], 0, [])).

Ltac packets_ok := repeat constructor; cbn; unfold is_s, is_u; lia.

Lemma env3_ok : env_ok env3.
Proof. intros cnt. packets_ok. Qed.

(** The second packet does not fit 100 bytes and is dropped; the third is kept. *)
Lemma capture_print_roundtrip_witness :
  exists cr, custom_tcpdump_capture env3 (Some (bytes_of "eth0")) (Some (bytes_of "tcp"))
      (Some (replicate 100 0)) 100 1000 10 = Ok cr /\
    ret cr = 2 /\
    print_captured_packets (captured cr) (ret cr) =
      Ok [Printed 1 1 500 4 60 [1; 2; 3; 4]; Printed 2 3 0 2 2 [8; 9]].
Proof.
  destruct (capture_print_roundtrip env3 (bytes_of "eth0") (Some (bytes_of "tcp"))
    (replicate 100 0) 100 1000 10 [pkt1; pkt2; pkt3] 0 [])
    as (cr & H1 & H2 & _ & H4); try reflexivity; [split; [reflexivity|cbn; lia]|apply env3_ok|
    right; split; reflexivity|discriminate|].
  exists cr. split; [exact H1|]. split; [exact H2|exact H4].
Defined.

Lemma capture_releases_resources_witness :
  exists cr, custom_tcpdump_capture
      (PcapEnv None None None (Some (bytes_of "denied")) (fun _ => ([], 0, [])))
      (Some (bytes_of "eth0")) (Some (bytes_of "tcp")) (Some (replicate 100 0)) 100 1000 10 = Ok cr /\
    count EvClose (events cr) = count EvOpen (events cr) /\
    count EvFreecode (events cr) = count EvCompile (events cr).
Proof.
  destruct (capture_releases_resources
    (PcapEnv None None None (Some (bytes_of "denied")) (fun _ => ([], 0, [])))
    (Some (bytes_of "eth0")) (Some (bytes_of "tcp")) (Some (replicate 100 0)) 100 1000 10)
    as (cr & H1 & H2 & H3 & _); [intros cnt; constructor|intros b [= <-] _; split; [reflexivity|cbn; lia]|].
  exists cr. split; [exact H1|]. split; [exact H2|exact H3].
Defined.

Lemma some_replicate n (x : Z) b : Some (replicate n x) = Some b -> List.length b = n.
Proof. intros [= <-]. apply length_replicate. Qed.

Lemma main_prints_accepted_witness :
  exists mr, main env3 [] (Some (replicate (Z.to_nat BUFFER_SIZE) 0)) = Ok mr /\
    frees mr = 1%nat /\ (List.length (printed_packets mr) <= 10)%nat.
Proof.
  destruct (main_prints_accepted env3 [] (Some (replicate (Z.to_nat BUFFER_SIZE) 0)))
    as (mr & H1 & _ & H2 & _ & _ & H3); [apply env3_ok| |].
  - intros b Hb. rewrite (some_replicate _ _ _ Hb). apply Z2Nat.id. unfold BUFFER_SIZE. lia.
  - exists mr. split; [exact H1|]. split; [apply H2; discriminate|exact H3].
Defined.
