(* ===== verification/TcpBench.v ===== *)
(** * TcpBench: collective operations over TCP

    Models [network/nccl/tcp_ip_test.cpp]: [tcp_send] and [tcp_recv] with partial
    transfers, [tcp_broadcast], [tcp_allreduce] and the communication of
    [tcp_test_main] (barriers, warm-up rounds, timings, verification).  Each rank is
    a process that runs its part of the program; a connection is a bounded byte
    queue in each direction.  A step of a rank moves any number of bytes its call
    happens to transfer, so that every interleaving and every splitting of the
    streams is covered.

    The sum of two floats, their comparison with a tolerance and the maximum of two
    times are parameters: the theorems hold for any. *)

From Stdlib Require Import ZArith Lia.
From stdpp Require Import base list gmap relations.
From S2P Require Import Prelude Bytes.

(** ** Normal forms of relations with the strong diamond property *)

Section Diamond.
Context {A : Type} (R : relation A).
Hypothesis diamond_1 : forall x y z, R x y -> R x z -> y = z \/ exists w, R y w /\ R z w.

Definition normal (x : A) : Prop := forall y, ~ R x y.

Lemma diamond_step n x f y : nsteps R n x f -> normal f -> R x y -> exists m, n = S m /\ nsteps R m y f.
Proof.
  intros H Hf. revert y. induction H as [x|n x x1 f Hx H IH]; intros y Hy; [by destruct (Hf y)|].
  exists n. split; [done|]. destruct (diamond_1 x x1 y Hx Hy) as [->|(w & Hw1 & Hw2)]; [done|].
  destruct (IH Hf w Hw1) as (m & -> & Hm). by eapply nsteps_l.
Qed.

(** If one run ends in a normal form, all do, in that one, after as many steps. *)
Lemma diamond_run n m x f y :
  nsteps R n x f -> normal f -> nsteps R m x y -> (m <= n)%nat /\ nsteps R (n - m) y f.
Proof.
  intros H Hf Hm. revert n f H Hf. induction Hm as [x|m x x1 y Hx _ IH]; intros n f H Hf.
  - rewrite Nat.sub_0_r. split; [lia|done].
  - destruct (diamond_step n x f x1 H Hf Hx) as (k & -> & Hk). destruct (IH k f Hk Hf) as [Hle Hr].
    split; [lia|]. by replace (S k - S m)%nat with (k - m)%nat by lia.
Qed.
End Diamond.

(** ** Processes *)

Inductive buf := SendBuf | RecvBuf | TempBuf | Signal | Elapsed | Remote.

#[global] Instance buf_eq_dec : EqDecision buf.
Proof. solve_decision. Defined.

(** The variables of [tcp_test_main]: buffers as bytes, the largest time so far, and
    what the rank found out, in order. *)
Record mem := Mem {
  sendbuf : list Z; recvbuf : list Z; temp_buf : list Z;
  signal : list Z; elapsed : list Z; remote_elapsed : list Z;
  max_elapsed : list Z; verdicts : list bool
}.

Definition rd (b : buf) (m : mem) : list Z :=
  match b with
  | SendBuf => sendbuf m | RecvBuf => recvbuf m | TempBuf => temp_buf m
  | Signal => signal m | Elapsed => elapsed m | Remote => remote_elapsed m
  end.

Definition wr (b : buf) (v : list Z) (m : mem) : mem :=
  match m with Mem s r t g e o x l =>
    match b with
    | SendBuf => Mem v r t g e o x l | RecvBuf => Mem s v t g e o x l | TempBuf => Mem s r v g e o x l
    | Signal => Mem s r t v e o x l | Elapsed => Mem s r t g v o x l | Remote => Mem s r t g e v x l
    end
  end.

(** What a rank does: a call of [tcp_send] or [tcp_recv] on the socket of another
    rank with one of its buffers, or work of its own. *)
Inductive act := Send (to : nat) (b : buf) | Recv (from : nat) (b : buf) | Local (f : mem -> mem).

(** [progress] is [total_sent] or [total_received] of the call under way. *)
Record proc := Proc { todo : list act; progress : nat; pmem : mem }.

(** The queue from rank to rank; an entry only where bytes are in flight. *)
Abbreviation chans := (gmap (nat * nat) (list Z)).
Definition chan (c : chans) (k : nat * nat) : list Z := default [] (c !! k).
Definition set_chan (k : nat * nat) (q : list Z) (c : chans) : chans :=
  partial_alter (fun _ => match q with [] => None | _ => Some q end) k c.
#[global] Arguments chan : simpl never.
#[global] Arguments set_chan : simpl never.

Record sys := Sys { procs : list proc; net : chans }.

Definition set_proc (i : nat) (p : proc) (s : sys) : sys := Sys (<[i := p]> (procs s)) (net s).
Definition set_net (k : nat * nat) (q : list Z) (s : sys) : sys := Sys (procs s) (set_chan k q (net s)).

Section Network.
Context (cap : nat).

(** One turn of [tcp_send]'s loop: the call takes [k] bytes, at least one and no
    more than there is room for; with everything sent the call returns. *)
Definition tcp_send (i j : nat) (b : buf) (t : list act) (k : nat) (p : proc) (s : sys) : option sys :=
  let data := rd b (pmem p) in
  let q := chan (net s) (i, j) in
  if (progress p <? length data)%nat then
    if ((1 <=? k) && (k <=? length data - progress p) && (length q + k <=? cap))%nat then
      Some (set_proc i (Proc (todo p) (progress p + k) (pmem p))
             (set_net (i, j) (q ++ take k (drop (progress p) data)) s))
    else None
  else Some (set_proc i (Proc t 0 (pmem p)) s).

(** One turn of [tcp_recv]'s loop: the call returns [k] bytes, at least one and no
    more than are in flight, stored after what was received before. *)
Definition tcp_recv (i j : nat) (b : buf) (t : list act) (k : nat) (p : proc) (s : sys) : option sys :=
  let data := rd b (pmem p) in
  let q := chan (net s) (j, i) in
  if (progress p <? length data)%nat then
    if ((1 <=? k) && (k <=? length data - progress p) && (k <=? length q))%nat then
      Some (set_proc i (Proc (todo p) (progress p + k)
                          (wr b (list_inserts (progress p) (take k q) data) (pmem p)))
             (set_net (j, i) (drop k q) s))
    else None
  else Some (set_proc i (Proc t 0 (pmem p)) s).

(** One step of rank [i]. *)
Definition do_step (i k : nat) (s : sys) : option sys :=
  match procs s !! i with
  | None => None
  | Some p =>
      match todo p with
      | [] => None
      | Send j b :: t => tcp_send i j b t k p s
      | Recv j b :: t => tcp_recv i j b t k p s
      | Local f :: t => Some (set_proc i (Proc t 0 (f (pmem p))) s)
      end
  end.

Definition net_step (s s' : sys) : Prop := exists i k, do_step i k s = Some s'.

(** ** Byte by byte *)

(** What a process asks of the network next. *)
Inductive req :=
  | RLocal (p : proc)
  | RPush (k : nat * nat) (x : Z) (p : proc)
  | RPop (k : nat * nat) (f : Z -> proc).

Definition request (i : nat) (p : proc) : option req :=
  match todo p with
  | [] => None
  | Local f :: t => Some (RLocal (Proc t 0 (f (pmem p))))
  | Send j b :: t =>
      Some (match rd b (pmem p) !! progress p with
            | Some x => RPush (i, j) x (Proc (todo p) (S (progress p)) (pmem p))
            | None => RLocal (Proc t 0 (pmem p))
            end)
  | Recv j b :: t =>
      Some (if (progress p <? length (rd b (pmem p)))%nat then
              RPop (j, i) (fun x => Proc (todo p) (S (progress p))
                                      (wr b (<[progress p := x]> (rd b (pmem p))) (pmem p)))
            else RLocal (Proc t 0 (pmem p)))
  end.

(** The network's answer: the process goes on and the queue has changed. *)
Definition grant (r : req) (c : chans) : option (proc * chans) :=
  match r with
  | RLocal p => Some (p, c)
  | RPush k x p =>
      let q := chan c k in
      if (length q <? cap)%nat then Some (p, set_chan k (q ++ [x]) c) else None
  | RPop k f => match chan c k with [] => None | x :: q => Some (f x, set_chan k q c) end
  end.

Definition serve (i : nat) (r : req) (s : sys) : option sys :=
  match grant r (net s) with
  | Some (p, c) => Some (Sys (<[i := p]> (procs s)) c)
  | None => None
  end.

Definition byte_step (s s' : sys) : Prop :=
  exists i p r, procs s !! i = Some p /\ request i p = Some r /\ serve i r s = Some s'.
End Network.

Lemma rd_wr b v m : rd b (wr b v m) = v.
Proof. by destruct m, b. Qed.

Lemma rd_wr_ne b b' v m : b <> b' -> rd b' (wr b v m) = rd b' m.
Proof. destruct m, b, b'; done. Qed.

Lemma wr_wr b v v' m : wr b v (wr b v' m) = wr b v m.
Proof. by destruct m, b. Qed.

Lemma wr_rd b m : wr b (rd b m) m = m.
Proof. by destruct m, b. Qed.

(** ** Queues *)

Lemma chan_set_eq k q c : chan (set_chan k q c) k = q.
Proof. unfold chan, set_chan. rewrite lookup_partial_alter_eq. by destruct q. Qed.

Lemma chan_set_ne k k' q c : k <> k' -> chan (set_chan k q c) k' = chan c k'.
Proof. intros H. unfold chan, set_chan. by rewrite lookup_partial_alter_ne. Qed.

Lemma set_chan_twice k q q' c : set_chan k q (set_chan k q' c) = set_chan k q c.
Proof. unfold set_chan. by rewrite partial_alter_partial_alter_eq. Qed.

Lemma set_chan_comm k k' q q' c : k <> k' -> set_chan k q (set_chan k' q' c) = set_chan k' q' (set_chan k q c).
Proof. intros H. unfold set_chan. by apply partial_alter_partial_alter_ne. Qed.

Lemma set_chan_none k c : c !! k = None -> set_chan k [] c = c.
Proof. intros H. unfold set_chan. by apply partial_alter_id. Qed.

(** ** Determinism *)

(** Processes own the ends of their queues. *)
Lemma request_push i p k x p' : request i p = Some (RPush k x p') -> k.1 = i.
Proof. unfold request. intros H. repeat case_match; naive_solver. Qed.

Lemma request_pop i p k f : request i p = Some (RPop k f) -> k.2 = i.
Proof. unfold request. intros H. repeat case_match; naive_solver. Qed.

(** Requests that do not compete for the same end. *)
Definition apart (r r' : req) : Prop :=
  match r, r' with
  | RPush k _ _, RPush k' _ _ => k <> k'
  | RPop k _, RPop k' _ => k <> k'
  | _, _ => True
  end.

Lemma apart_sym r r' : apart r r' -> apart r' r.
Proof. destruct r, r'; cbn; auto. Qed.

Section Determinism.
Context (cap : nat).

(** Sending at one end and receiving at the other commute. *)
Lemma push_pop k x p k' f c r r' c1 c2 :
  grant cap (RPush k x p) c = Some (r, c1) -> grant cap (RPop k' f) c = Some (r', c2) ->
  exists c3, grant cap (RPop k' f) c1 = Some (r', c3) /\ grant cap (RPush k x p) c2 = Some (r, c3).
Proof.
  intros H1 H2. cbn -[Nat.ltb] in *. destruct (length (chan c k) <? cap)%nat eqn:Hc; [|done]. simplify_eq.
  destruct (chan c k') as [|x' q'] eqn:Hq; [done|]. simplify_eq.
  destruct (decide (k = k')) as [->|Hk].
  - rewrite !chan_set_eq, Hq. cbn -[Nat.ltb]. rewrite Hq in Hc. apply Nat.ltb_lt in Hc. cbn in Hc.
    rewrite (proj2 (Nat.ltb_lt (length q') cap)) by lia. eexists. by rewrite !set_chan_twice.
  - rewrite !chan_set_ne, Hq, Hc by done. eexists. by rewrite set_chan_comm.
Qed.

Lemma grant_commute q q' c r r' c1 c2 :
  apart q q' -> grant cap q c = Some (r, c1) -> grant cap q' c = Some (r', c2) ->
  exists c3, grant cap q' c1 = Some (r', c3) /\ grant cap q c2 = Some (r, c3).
Proof.
  intros Ha H1 H2. destruct q as [p|k x p|k f], q' as [p'|k' x' p'|k' f'].
  6: by eapply push_pop.
  7: edestruct push_pop as (c3 & ? & ?); by eauto.
  1-4, 6: cbn in H1, H2; simplify_eq; eauto.
  - cbn -[Nat.ltb] in *. destruct (_ <? cap)%nat eqn:E1 in H1; [|done].
    destruct (_ <? cap)%nat eqn:E2 in H2; [|done]. simplify_eq.
    rewrite !chan_set_ne, E1, E2 by done. eexists. by rewrite set_chan_comm.
  - cbn in *. destruct (chan c k) eqn:E1; [done|]. destruct (chan c k') eqn:E2; [done|]. simplify_eq.
    rewrite !chan_set_ne, E1, E2 by done. eexists. by rewrite set_chan_comm.
Qed.

Lemma serve_commute i j r r' s y z :
  i <> j -> apart r r' -> serve cap i r s = Some y -> serve cap j r' s = Some z ->
  exists w, serve cap j r' y = Some w /\ serve cap i r z = Some w.
Proof.
  unfold serve. intros Hij Ha H1 H2.
  destruct (grant cap r (net s)) as [[p c1]|] eqn:G1; [|done].
  destruct (grant cap r' (net s)) as [[p' c2]|] eqn:G2; [|done]. simplify_eq. cbn.
  destruct (grant_commute r r' _ _ _ _ _ Ha G1 G2) as (c3 & -> & ->).
  eexists. by rewrite list_insert_insert_ne.
Qed.

Lemma serve_procs i r s y : serve cap i r s = Some y -> exists p, procs y = <[i := p]> (procs s).
Proof. unfold serve. destruct (grant cap r (net s)) as [[p c]|]; intros H; simplify_eq/=; eauto. Qed.

Lemma byte_diamond x y z : byte_step cap x y -> byte_step cap x z -> y = z \/ exists w, byte_step cap y w /\ byte_step cap z w.
Proof.
  intros (i & p & r & Hp & Hr & H1) (j & p' & r' & Hp' & Hr' & H2).
  destruct (decide (i = j)) as [->|Hij]; [left; congruence|]. right.
  assert (apart r r') as Ha.
  { destruct r, r'; cbn; auto; intros ->.
    - apply request_push in Hr, Hr'. congruence.
    - apply request_pop in Hr, Hr'. congruence. }
  destruct (serve_commute i j r r' x y z Hij Ha H1 H2) as (w & Hy & Hz).
  exists w. split; [exists j, p', r'|exists i, p, r]; (split; [|done]).
  - destruct (serve_procs i r x y H1) as [p1 ->]. by rewrite list_lookup_insert_ne.
  - destruct (serve_procs j r' x z H2) as [p1 ->]. by rewrite list_lookup_insert_ne.
Qed.

(** ** Calls that move several bytes *)

Lemma byte_is_step s s' : byte_step cap s s' -> net_step cap s s'.
Proof.
  intros (i & p & r & Hp & Hr & H). exists i, 1%nat. unfold do_step. rewrite Hp.
  unfold request in Hr. destruct (todo p) as [|[j b|j b|f] t] eqn:Ht; simplify_eq; [| |done].
  - unfold serve in H. destruct (rd b (pmem p) !! progress p) as [x|] eqn:Hx; cbn -[Nat.ltb] in H.
    + unfold tcp_send. rewrite (proj2 (Nat.ltb_lt _ _) (lookup_lt_Some _ _ _ Hx)).
      apply lookup_lt_Some in Hx as Hl. destruct (_ <? cap)%nat eqn:Hc; [|done]. apply Nat.ltb_lt in Hc. simplify_eq.
      rewrite !(proj2 (Nat.leb_le _ _)) by lia. cbn [andb].
      by rewrite (drop_S _ x) by done; cbn; rewrite Nat.add_1_r, Ht.
    + simplify_eq. unfold tcp_send. apply lookup_ge_None in Hx. by rewrite (proj2 (Nat.ltb_ge _ _)) by lia.
  - unfold serve in H. unfold tcp_recv. destruct (_ <? _)%nat eqn:Hl in H; rewrite Hl; cbn in H; [|by simplify_eq].
    apply Nat.ltb_lt in Hl. destruct (chan (net s) (j, i)) as [|x q]; [done|]. simplify_eq.
    rewrite !(proj2 (Nat.leb_le _ _)) by (cbn; lia). cbn [andb]. cbn. by rewrite drop_0, Nat.add_1_r, Ht.
Qed.

(** A call that moves [k + 1] bytes moves one byte and then [k]. *)
Lemma send_first i k p j b t s s' :
  procs s !! i = Some p -> todo p = Send j b :: t -> (progress p < length (rd b (pmem p)))%nat ->
  do_step cap i (S k) s = Some s' ->
  exists s1, byte_step cap s s1 /\ (k = 0%nat /\ s1 = s' \/ do_step cap i k s1 = Some s').
Proof.
  intros Hp Ht Hl H. unfold do_step in H. rewrite Hp, Ht in H. unfold tcp_send in H.
  rewrite Ht, (proj2 (Nat.ltb_lt _ _) Hl) in H.
  destruct (_ && _) eqn:E in H; [|done]. simplify_eq. apply andb_true_iff in E as [E E3]. apply andb_true_iff in E as [_ E2].
  apply Nat.leb_le in E2, E3. destruct (lookup_lt_is_Some_2 _ _ Hl) as [x Hx].
  exists (Sys (<[i := Proc (Send j b :: t) (S (progress p)) (pmem p)]> (procs s)) (set_chan (i, j) (chan (net s) (i, j) ++ [x]) (net s))).
  split.
  - exists i, p. eexists. split; [done|]. split; [unfold request; rewrite Ht, Hx; reflexivity|].
    unfold serve. cbn -[Nat.ltb]. by rewrite (proj2 (Nat.ltb_lt _ _)) by lia.
  - rewrite (drop_S _ x) by done. destruct k as [|k].
    + left. split; [done|]. unfold set_proc, set_net. cbn. by rewrite Nat.add_1_r.
    + right. unfold do_step. cbn -[tcp_send]. rewrite list_lookup_insert_eq by (by eapply lookup_lt_Some).
      cbn -[tcp_send]. unfold tcp_send. cbn -[Nat.ltb Nat.leb drop take].
      rewrite (proj2 (Nat.ltb_lt _ _)) by lia. rewrite chan_set_eq, length_app. cbn [length].
      rewrite !(proj2 (Nat.leb_le _ _)) by lia. cbn [andb]. unfold set_proc, set_net. cbn -[drop take].
      rewrite list_insert_insert_eq, set_chan_twice, <- app_assoc. do 3 f_equal. f_equal. lia.
Qed.

Lemma recv_first i k p j b t s s' :
  procs s !! i = Some p -> todo p = Recv j b :: t -> (progress p < length (rd b (pmem p)))%nat ->
  do_step cap i (S k) s = Some s' ->
  exists s1, byte_step cap s s1 /\ (k = 0%nat /\ s1 = s' \/ do_step cap i k s1 = Some s').
Proof.
  intros Hp Ht Hl H. unfold do_step in H. rewrite Hp, Ht in H. unfold tcp_recv in H.
  rewrite Ht, (proj2 (Nat.ltb_lt _ _) Hl) in H.
  destruct (_ && _) eqn:E in H; [|done]. simplify_eq. apply andb_true_iff in E as [E E3]. apply andb_true_iff in E as [_ E2].
  apply Nat.leb_le in E2, E3. destruct (chan (net s) (j, i)) as [|x q] eqn:Hq; [cbn in E3; lia|].
  exists (Sys (<[i := Proc (Recv j b :: t) (S (progress p)) (wr b (<[progress p := x]> (rd b (pmem p))) (pmem p))]> (procs s))
              (set_chan (j, i) q (net s))).
  split.
  - exists i, p. eexists. split; [done|]. split; [unfold request; rewrite Ht, (proj2 (Nat.ltb_lt _ _) Hl); reflexivity|].
    unfold serve. cbn -[Nat.ltb]. by rewrite Hq.
  - destruct k as [|k].
    + left. split; [done|]. unfold set_proc, set_net. cbn. by rewrite drop_0, Nat.add_1_r.
    + right. unfold do_step. cbn -[tcp_recv]. rewrite list_lookup_insert_eq by (by eapply lookup_lt_Some).
      cbn -[tcp_recv]. unfold tcp_recv. cbn -[Nat.ltb Nat.leb drop take].
      rewrite rd_wr, length_insert, chan_set_eq. cbn in E3.
      rewrite (proj2 (Nat.ltb_lt _ _)) by lia.
      rewrite !(proj2 (Nat.leb_le _ _)) by lia. cbn [andb]. unfold set_proc, set_net. cbn -[list_inserts].
      rewrite list_insert_insert_eq, set_chan_twice, wr_wr. cbn.
      rewrite <- list_insert_inserts_lt by lia. do 3 f_equal. f_equal. lia.
Qed.

(** Every step is one or more steps of single bytes. *)
Lemma step_is_bytes s s' : net_step cap s s' -> exists n, (1 <= n)%nat /\ nsteps (byte_step cap) n s s'.
Proof.
  intros (i & k & H). revert s H. induction k as [|k IH]; intros s H.
  all: unfold do_step in H; destruct (procs s !! i) as [p|] eqn:Hp; [|done]; destruct (todo p) as [|[j b|j b|f] t] eqn:Ht; [done| | |].
  3, 6: simplify_eq; exists 1%nat; split; [done|]; apply nsteps_once; exists i, p; eexists; (split; [done|]);
    unfold request; rewrite Ht; done.
  - unfold tcp_send in H. destruct (_ <? _)%nat eqn:Hl; [done|]. simplify_eq. exists 1%nat. split; [done|].
    apply nsteps_once. exists i, p. eexists. split; [done|]. unfold request. rewrite Ht.
    apply Nat.ltb_ge in Hl. by rewrite (lookup_ge_None_2 _ _ Hl).
  - unfold tcp_recv in H. destruct (_ <? _)%nat eqn:Hl; [done|]. simplify_eq. exists 1%nat. split; [done|].
    apply nsteps_once. exists i, p. eexists. split; [done|]. unfold request. rewrite Ht, Hl. done.
  - destruct (progress p <? length (rd b (pmem p)))%nat eqn:Hl.
    + apply Nat.ltb_lt in Hl. destruct (send_first i k p j b t s s' Hp Ht Hl) as (s1 & H1 & H2);
        [unfold do_step; by rewrite Hp, Ht|].
      destruct H2 as [[-> ->]|H2]; [exists 1%nat; split; [done|]; by apply nsteps_once|].
      destruct (IH s1 H2) as (n & Hn & Hs). exists (S n). split; [lia|]. by eapply nsteps_l.
    + unfold tcp_send in H. rewrite Hl in H. simplify_eq. exists 1%nat. split; [done|].
      apply nsteps_once. exists i, p. eexists. split; [done|]. unfold request. rewrite Ht.
      apply Nat.ltb_ge in Hl. by rewrite (lookup_ge_None_2 _ _ Hl).
  - destruct (progress p <? length (rd b (pmem p)))%nat eqn:Hl.
    + apply Nat.ltb_lt in Hl. destruct (recv_first i k p j b t s s' Hp Ht Hl) as (s1 & H1 & H2);
        [unfold do_step; by rewrite Hp, Ht|].
      destruct H2 as [[-> ->]|H2]; [exists 1%nat; split; [done|]; by apply nsteps_once|].
      destruct (IH s1 H2) as (n & Hn & Hs). exists (S n). split; [lia|]. by eapply nsteps_l.
    + unfold tcp_recv in H. rewrite Hl in H. simplify_eq. exists 1%nat. split; [done|].
      apply nsteps_once. exists i, p. eexists. split; [done|]. unfold request. rewrite Ht, Hl. done.
Qed.
End Determinism.

(** ** The program *)

(** [count] floats as bytes; the arithmetic works on their 32-bit patterns. *)
Fixpoint to_words (l : list Z) : list Z :=
  match l with
  | a :: b :: c :: d :: l => le_val [a; b; c; d] :: to_words l
  | _ => []
  end.
Definition of_words (ws : list Z) : list Z := ws ≫= le_bytes 4.

Section Program.
Context (fadd : Z -> Z -> Z).            (** sum of two floats *)
Context (far : Z -> Z -> bool).          (** fabs (x - y) > 1e-5 *)
Context (dgt : list Z -> list Z -> bool).    (** comparison of two times *)

Definition copy_send : mem -> mem := fun m => wr RecvBuf (sendbuf m) m.
Definition malloc_temp : mem -> mem := fun m => wr TempBuf (replicate (length (sendbuf m)) 0) m.
Definition free_temp : mem -> mem := fun m => wr TempBuf [] m.
Definition accumulate : mem -> mem := fun m =>
  wr RecvBuf (of_words (zip_with fadd (to_words (recvbuf m)) (to_words (temp_buf m)))) m.

Definition tcp_broadcast (b : buf) (root my_rank : nat) (sockets : list Z) : list act :=
  if (my_rank =? root)%nat then
    flat_map (fun i => if negb (i =? root)%nat && (0 <=? nth i sockets (-1)) then [Send i b] else [])
      (seq 0 (length sockets))
  else [Recv root b].

Definition tcp_allreduce (my_rank : nat) (sockets : list Z) : list act :=
  [Local copy_send] ++
  (if (my_rank =? 0)%nat then
     [Local malloc_temp] ++
     flat_map (fun i => [Recv i TempBuf; Local accumulate]) (seq 1 (length sockets - 1)) ++
     [Local free_temp]
   else [Send 0 RecvBuf]) ++
  tcp_broadcast RecvBuf 0 my_rank sockets.

(** The synchronisation that occurs three times in [tcp_test_main]. *)
Definition signal_1 : mem -> mem := wr Signal (le_bytes 4 1).
Definition barrier (my_rank world_size : nat) : list act :=
  if (my_rank =? 0)%nat then
    flat_map (fun i => [Recv i Signal]) (seq 1 (world_size - 1)) ++ [Local signal_1] ++
    flat_map (fun i => [Send i Signal]) (seq 1 (world_size - 1))
  else [Local signal_1; Send 0 Signal; Recv 0 Signal].

(** Collecting the times at rank 0. *)
Definition set_max (v : list Z) (m : mem) : mem :=
  match m with Mem s r t g e o x l => Mem s r t g e o v l end.
Definition start_max : mem -> mem := fun m => set_max (elapsed m) m.
Definition update_max : mem -> mem := fun m =>
  if dgt (remote_elapsed m) (max_elapsed m) then set_max (remote_elapsed m) m else m.
Definition gather_times (my_rank world_size : nat) : list act :=
  if (my_rank =? 0)%nat then
    [Local start_max] ++ flat_map (fun i => [Recv i Remote; Local update_max]) (seq 1 (world_size - 1))
  else [Send 0 Elapsed].

(** The check of the result: every element is near the sum computed directly. *)
Definition expected_sum (frac : nat -> Z) (world_size : nat) : Z :=
  fold_left (fun acc i => fadd acc (frac i)) (seq 0 world_size) 0.
Definition allreduce_correct (expected : Z) (ws : list Z) : bool := forallb (fun w => negb (far w expected)) ws.
Definition add_verdict (v : bool) (m : mem) : mem :=
  match m with Mem s r t g e o x l => Mem s r t g e o x (l ++ [v]) end.

(** The inputs of one round: the number of floats, the random data of rank 0, the
    value every rank contributes and the times measured. *)
Record round := Round { count : nat; rand : list Z; frac : nat -> Z; time1 : nat -> list Z; time2 : nat -> list Z }.

Definition alloc_buffers (rd0 : round) (my_rank : nat) : mem -> mem := fun m =>
  wr RecvBuf (replicate (4 * count rd0) 0)
    (wr SendBuf (if (my_rank =? 0)%nat then of_words (rand rd0) else replicate (4 * count rd0) 0) m).
Definition fill_send (rd0 : round) (my_rank : nat) : mem -> mem :=
  wr SendBuf (of_words (replicate (count rd0) (frac rd0 my_rank))).
Definition verify (rd0 : round) (world_size : nat) : mem -> mem := fun m =>
  add_verdict (allreduce_correct (expected_sum (frac rd0) world_size) (to_words (recvbuf m))) m.
Definition free_buffers : mem -> mem := fun m => wr RecvBuf [] (wr SendBuf [] m).

(** One size: broadcast and all-reduce, each four times, with their timing. *)
Definition test_size (rd0 : round) (my_rank world_size : nat) (sockets : list Z) : list act :=
  [Local (alloc_buffers rd0 my_rank)] ++
  barrier my_rank world_size ++
  flat_map (fun _ => tcp_broadcast SendBuf 0 my_rank sockets) (seq 0 3) ++
  tcp_broadcast SendBuf 0 my_rank sockets ++
  [Local (wr Elapsed (time1 rd0 my_rank))] ++ gather_times my_rank world_size ++
  barrier my_rank world_size ++
  [Local (fill_send rd0 my_rank)] ++
  flat_map (fun _ => tcp_allreduce my_rank sockets) (seq 0 3) ++
  tcp_allreduce my_rank sockets ++
  [Local (wr Elapsed (time2 rd0 my_rank)); Local (verify rd0 world_size)] ++ gather_times my_rank world_size ++
  [Local free_buffers].

(** [tcp_test_main] once the connections are there. *)
Definition tcp_test_main (rounds : list round) (my_rank world_size : nat) (sockets : list Z) : list act :=
  barrier my_rank world_size ++ flat_map (fun rd0 => test_size rd0 my_rank world_size sockets) rounds.
End Program.

(** Pieces that concern one rank each. *)
Lemma flat_map_pick {B} (h : nat -> list B) r a k :
  flat_map (fun x => if (r =? x)%nat then h x else []) (seq a k) = if decide (a <= r < a + k)%nat then h r else [].
Proof.
  revert a. induction k as [|k IH]; intros a; cbn; [by destruct decide; [lia|]|].
  rewrite IH. destruct (Nat.eqb_spec r a) as [->|]; repeat destruct decide; try lia; by rewrite ?app_nil_r.
Qed.

(** Updates of one rank each that look at most at rank 0, which they leave alone. *)
Lemma fold_each (g : nat -> mem -> mem -> mem) a k (M : nat -> mem) r :
  fold_left (fun N x r => if (r =? x)%nat then g x (N 0%nat) (N r) else N r) (seq (S a) k) M r =
  if decide (S a <= r < S a + k)%nat then g r (M 0%nat) (M r) else M r.
Proof.
  revert a M. induction k as [|k IH]; intros a M; cbn [seq fold_left]; [by destruct decide; [lia|]|].
  rewrite IH. cbn. destruct (Nat.eqb_spec r (S a)) as [->|]; repeat destruct decide; try lia; done.
Qed.

(** ** Phases

    A phase is a piece of program for every rank that, whatever follows, can be run
    to its end in some order with nothing left in flight. *)

Section Phases.
Context (cap n : nat).
Hypothesis cap_pos : (1 <= cap)%nat.

Definition at_phase (p : nat -> list act) (M : nat -> mem) : sys :=
  Sys ((fun r => Proc (p r) 0 (M r)) <$> seq 0 n) ∅.

Definition phase (p : nat -> list act) (M M' : nat -> mem) : Prop :=
  forall t, rtc (byte_step cap) (at_phase (fun r => p r ++ t r) M) (at_phase t M').

Lemma seq_lookup {A} (f : nat -> A) i : (i < n)%nat -> (f <$> seq 0 n) !! i = Some (f i).
Proof. intros H. rewrite list_lookup_fmap, lookup_seq_lt by done. done. Qed.

Lemma seq_ext {A} (f g : nat -> A) : (forall r, (r < n)%nat -> f r = g r) -> f <$> seq 0 n = g <$> seq 0 n.
Proof. intros H. apply list_fmap_ext. intros i x Hx. apply lookup_seq in Hx as [-> Hi]. by apply H. Qed.

Lemma seq_insert {A} (f : nat -> A) i x :
  <[i := x]> (f <$> seq 0 n) = (fun r => if (r =? i)%nat then x else f r) <$> seq 0 n.
Proof.
  apply list_eq. intros r. destruct (decide (r < n)%nat) as [Hr|Hr].
  - rewrite (seq_lookup (fun r => if (r =? i)%nat then x else f r)) by done.
    destruct (Nat.eqb_spec r i) as [->|Hri].
    + apply list_lookup_insert_eq. by rewrite length_fmap, length_seq.
    + rewrite list_lookup_insert_ne by done. by apply seq_lookup.
  - rewrite !lookup_ge_None_2; [done|rewrite length_fmap, length_seq; lia|].
    rewrite length_insert, length_fmap, length_seq; lia.
Qed.

Lemma at_phase_ext p q M N :
  (forall r, (r < n)%nat -> p r = q r) -> (forall r, (r < n)%nat -> M r = N r) -> at_phase p M = at_phase q N.
Proof. intros Hp HM. unfold at_phase. f_equal. apply seq_ext. intros r Hr. by rewrite Hp, HM. Qed.

Lemma phase_ext p q M N M' N' :
  (forall r, (r < n)%nat -> p r = q r) -> (forall r, (r < n)%nat -> M r = N r) ->
  (forall r, (r < n)%nat -> M' r = N' r) -> phase p M M' -> phase q N N'.
Proof.
  intros Hp HM HM' H t. specialize (H t).
  rewrite (at_phase_ext _ (fun r => q r ++ t r) M N) in H; [|intros r Hr; by rewrite Hp|done].
  by rewrite (at_phase_ext t t M' N') in H.
Qed.

Lemma phase_nil M : phase (fun _ => []) M M.
Proof. intros t. apply rtc_refl. Qed.

Lemma phase_seq p q M M1 M2 : phase p M M1 -> phase q M1 M2 -> phase (fun r => p r ++ q r) M M2.
Proof.
  intros Hp Hq t. etrans; [|apply Hq].
  rewrite (at_phase_ext _ (fun r => p r ++ (q r ++ t r)) M M); [apply Hp|intros r _; by rewrite app_assoc|done].
Qed.

(** Phases one after the other, for a list of things to do. *)
Lemma phase_flat {B} (Inv : (nat -> mem) -> Prop) (piece : B -> nat -> list act) (F : B -> (nat -> mem) -> nat -> mem) l M :
  (forall x M, x ∈ l -> Inv M -> phase (piece x) M (F x M) /\ Inv (F x M)) -> Inv M ->
  phase (fun r => flat_map (fun x => piece x r) l) M (fold_left (fun M x => F x M) l M) /\
  Inv (fold_left (fun M x => F x M) l M).
Proof.
  revert M. induction l as [|x l IH]; intros M H I; [split; [apply phase_nil|done]|]. cbn.
  destruct (H x M) as [Hp I1]; [by left|done|].
  destruct (IH (F x M)) as [Hq I2]; [intros y N Hy; apply H; by right|done|].
  split; [|done]. by eapply phase_seq.
Qed.

Lemma phase_local_one i f M : (i < n)%nat ->
  phase (fun r => if (r =? i)%nat then [Local f] else []) M (fun r => if (r =? i)%nat then f (M r) else M r).
Proof.
  intros Hi t. apply rtc_once. exists i. eexists. eexists. unfold at_phase. cbn [procs net].
  split; [by apply seq_lookup|]. rewrite Nat.eqb_refl. cbn. split; [reflexivity|]. unfold serve. cbn.
  f_equal. f_equal. rewrite seq_insert. apply seq_ext. intros r _. by destruct (Nat.eqb_spec r i) as [->|].
Qed.

(** Work of some ranks' own. *)
Lemma phase_local (d : nat -> bool) (f : nat -> mem -> mem) M :
  phase (fun r => if d r then [Local (f r)] else []) M (fun r => if d r then f r (M r) else M r).
Proof.
  set (F := fun i (N : nat -> mem) r => if (r =? i)%nat then if d i then f i (N r) else N r else N r).
  destruct (phase_flat (fun _ => True)
    (fun i r => if (r =? i)%nat then if d i then [Local (f i)] else [] else []) F (seq 0 n) M) as [H _].
  { intros i N Hi _. split; [|done]. apply elem_of_seq in Hi. unfold F. destruct (d i).
    - apply phase_local_one. lia.
    - eapply phase_ext; [| | |apply (phase_nil N)]; intros r Hr; by destruct (r =? i)%nat. }
  { done. }
  revert H. apply phase_ext; [|done|].
  - intros r Hr. rewrite flat_map_pick. by destruct decide; [|lia].
  - intros r Hr. assert (forall a k N, fold_left (fun M x => F x M) (seq a k) N r =
      if decide (a <= r < a + k)%nat then if d r then f r (N r) else N r else N r) as E.
    { intros a k. revert a. induction k as [|k IH]; intros a N; cbn; [by destruct decide; [lia|]|].
      rewrite IH. unfold F. destruct (Nat.eqb_spec r a) as [->|]; repeat destruct decide; try lia; done. }
    rewrite E. by destruct decide; [|lia].
Qed.

(** A send and the matching receive. *)
Lemma transfer_bytes ps i j b b' ti tj mi k d mj :
  i <> j -> (k + d = length (rd b mi))%nat -> length (rd b' mj) = length (rd b mi) ->
  take k (rd b' mj) = take k (rd b mi) ->
  ps !! i = Some (Proc (Send j b :: ti) k mi) -> ps !! j = Some (Proc (Recv i b' :: tj) k mj) ->
  rtc (byte_step cap) (Sys ps ∅) (Sys (<[j := Proc tj 0 (wr b' (rd b mi) mj)]> (<[i := Proc ti 0 mi]> ps)) ∅).
Proof.
  intros Hij. revert ps k mj. induction d as [|d IH]; intros ps k mj Hd Hl Ht Hi Hj.
  - eapply rtc_l.
    { exists i. eexists. eexists. split; [exact Hi|]. split; [reflexivity|]. unfold request, serve. cbn.
      rewrite lookup_ge_None_2 by lia. reflexivity. }
    apply rtc_once. exists j. eexists. eexists. cbn. split; [by rewrite list_lookup_insert_ne|].
    split; [reflexivity|]. unfold serve. cbn -[Nat.ltb]. rewrite (proj2 (Nat.ltb_ge _ _)) by lia. cbn.
    assert (rd b' mj = rd b mi) as <- by (rewrite !take_ge in Ht by lia; done). by rewrite wr_rd.
  - destruct (lookup_lt_is_Some_2 (rd b mi) k) as [x Hx]; [lia|].
    eapply rtc_l.
    { exists i. eexists. eexists. split; [exact Hi|]. split; [reflexivity|]. unfold serve. cbn -[Nat.ltb]. rewrite Hx.
      cbn -[Nat.ltb]. unfold chan at 1. rewrite lookup_empty. cbn -[Nat.ltb]. rewrite (proj2 (Nat.ltb_lt _ _)) by lia. reflexivity. }
    eapply rtc_l.
    { exists j. eexists. eexists. cbn. split; [by rewrite list_lookup_insert_ne|]. split; [reflexivity|].
      unfold serve. cbn -[Nat.ltb]. rewrite (proj2 (Nat.ltb_lt _ _)) by lia. cbn.
      rewrite chan_set_eq. unfold chan. rewrite lookup_empty. cbn. rewrite set_chan_twice, set_chan_none by done. reflexivity. }
    cbn. match goal with |- rtc _ _ ?s => replace s with
      (Sys (<[j := Proc tj 0 (wr b' (rd b mi) (wr b' (<[k := x]> (rd b' mj)) mj))]> (<[i := Proc ti 0 mi]>
        (<[j := Proc (Recv i b' :: tj) (S k) (wr b' (<[k := x]> (rd b' mj)) mj)]> (<[i := Proc (Send j b :: ti) (S k) mi]> ps)))) ∅) end.
    + apply (IH _ (S k)); rewrite ?rd_wr, ?length_insert; [lia|done| | |].
      * rewrite (take_S_r _ _ x) by (apply list_lookup_insert_eq; lia). rewrite (take_S_r _ _ x) by done.
        by rewrite take_insert_ge, Ht.
      * rewrite list_lookup_insert_ne by done. apply list_lookup_insert_eq. by eapply lookup_lt_Some.
      * apply list_lookup_insert_eq. rewrite length_insert. by eapply lookup_lt_Some.
    + rewrite wr_wr. rewrite (list_insert_insert_ne _ i j) by done. rewrite !list_insert_insert_eq. done.
Qed.

Lemma phase_transfer i j b b' M :
  (i < n)%nat -> (j < n)%nat -> i <> j -> length (rd b (M i)) = length (rd b' (M j)) ->
  phase (fun r => if (r =? i)%nat then [Send j b] else if (r =? j)%nat then [Recv i b'] else []) M
        (fun r => if (r =? j)%nat then wr b' (rd b (M i)) (M j) else M r).
Proof.
  intros Hi Hj Hij Hl t. unfold at_phase. etrans.
  { eapply (transfer_bytes _ i j b b' (t i) (t j) (M i) 0 _ (M j)); [done|reflexivity|done|done| |].
    - rewrite seq_lookup by done. by rewrite Nat.eqb_refl.
    - rewrite seq_lookup by done. rewrite (proj2 (Nat.eqb_neq j i)) by done. by rewrite Nat.eqb_refl. }
  rewrite !seq_insert. match goal with |- rtc _ ?x ?y => assert (x = y) as ->; [|apply rtc_refl] end. f_equal. apply seq_ext. intros r _.
  destruct (Nat.eqb_spec r j) as [->|]; [done|]. destruct (Nat.eqb_spec r i) as [->|]; done.
Qed.

(** What a phase says about every run of the whole program: no run is longer than
    the one found, from every state that one's end can still be reached, and a run
    that stops has reached it. *)
Definition every_run (s f : sys) : Prop :=
  exists N, forall k s', nsteps (net_step cap) k s s' ->
    (k <= N)%nat /\ rtc (net_step cap) s' f /\ (normal (net_step cap) s' -> s' = f).

Definition idle (M : nat -> mem) : sys := at_phase (fun _ => []) M.

Lemma idle_normal M : normal (byte_step cap) (idle M).
Proof.
  intros s (i & p & r & Hp & Hr & _). unfold idle, at_phase in Hp. cbn in Hp.
  apply list_lookup_fmap_Some in Hp as (x & -> & _). done.
Qed.

Lemma steps_are_bytes k s s' : nsteps (net_step cap) k s s' -> exists m, (k <= m)%nat /\ nsteps (byte_step cap) m s s'.
Proof.
  induction 1 as [s|k s s1 s2 H _ (m & Hm & IH)]; [exists 0%nat; split; [done|constructor]|].
  apply step_is_bytes in H as (j & Hj & H). exists (j + m)%nat. split; [lia|]. by eapply nsteps_trans.
Qed.

Lemma phase_every_run p M M' : phase p M M' -> every_run (at_phase p M) (idle M').
Proof.
  intros H. specialize (H (fun _ => [])).
  rewrite (at_phase_ext _ p M M) in H by (intros; rewrite ?app_nil_r; done).
  apply rtc_nsteps in H as [N H]. exists N. intros k s' Hk.
  apply steps_are_bytes in Hk as (m & Hm & Hk).
  destruct (diamond_run _ (byte_diamond cap) N m _ _ _ H (idle_normal M') Hk) as [Hle Hr].
  split; [lia|]. split.
  - apply rtc_nsteps_2 in Hr. revert Hr. apply rtc_subrel. intros x y. apply byte_is_step.
  - intros Hs. destruct (N - m)%nat as [|j] eqn:E; [by inversion Hr|].
    inversion Hr as [|? ? s1 ? H1 _]. subst. destruct (Hs s1). by apply byte_is_step.
Qed.
End Phases.

(** ** Words *)

Lemma of_words_cons w ws : of_words (w :: ws) = le_bytes 4 w ++ of_words ws.
Proof. done. Qed.

Lemma length_of_words ws : length (of_words ws) = (4 * length ws)%nat.
Proof. induction ws as [|w ws IH]; [done|]. rewrite of_words_cons, length_app, IH, length_le_bytes. cbn. lia. Qed.

Lemma to_of_words ws : Forall (is_u 32) ws -> to_words (of_words ws) = ws.
Proof.
  induction 1 as [|w ws Hw _ IH]; [done|]. rewrite of_words_cons.
  rewrite <- (le_val_bytes 4 w Hw) at 2. cbn [le_bytes app to_words]. by rewrite IH.
Qed.

(** ** The collectives *)

(** The sockets of every rank after the connections are established: one for each
    other rank. *)
Definition full_mesh (n : nat) (sockets : nat -> list Z) : Prop :=
  forall r, (r < n)%nat -> length (sockets r) = n /\
    forall i, (i < n)%nat -> i <> r -> 0 <= nth i (sockets r) (-1).

Section Collectives.
Context (cap n : nat) (fadd : Z -> Z -> Z) (far : Z -> Z -> bool) (dgt : list Z -> list Z -> bool).
Hypothesis cap_pos : (1 <= cap)%nat.
Hypothesis n_pos : (1 <= n)%nat.
Hypothesis fadd_range : forall x y, is_u 32 (fadd x y).

Context (sockets : nat -> list Z).
Hypothesis mesh : full_mesh n sockets.

Abbreviation phase := (phase cap n).

(** The ranks other than 0. *)
Lemma elem_of_others i : i ∈ seq 1 (n - 1) <-> (1 <= i < n)%nat.
Proof. rewrite elem_of_seq. lia. Qed.

(** Rank 0 sends its buffer to each of the others. *)
Lemma scatter b M :
  (forall r, (r < n)%nat -> length (rd b (M r)) = length (rd b (M 0%nat))) ->
  phase (fun r => if (r =? 0)%nat then flat_map (fun i => [Send i b]) (seq 1 (n - 1)) else [Recv 0 b]) M
        (fun r => if (r =? 0)%nat then M r else wr b (rd b (M 0%nat)) (M r)).
Proof.
  intros Hl.
  set (F := fun i (N : nat -> mem) r => if (r =? i)%nat then wr b (rd b (N 0%nat)) (N r) else N r).
  destruct (phase_flat cap n (fun N => forall r, (r < n)%nat -> length (rd b (N r)) = length (rd b (N 0%nat)))
    (fun i r => if (r =? 0)%nat then [Send i b] else if (r =? i)%nat then [Recv 0 b] else []) F (seq 1 (n - 1)) M) as [H _].
  - intros i N Hi I. apply elem_of_others in Hi. split.
    + eapply phase_ext; [| | |apply (phase_transfer cap n cap_pos 0 i b b N)]; try done; try lia; [|symmetry; apply I; lia].
      intros r Hr. unfold F. destruct (Nat.eqb_spec r i) as [->|]; done.
    + intros r Hr. unfold F. rewrite (proj2 (Nat.eqb_neq 0 i)) by lia.
      destruct (r =? i)%nat; [by rewrite rd_wr|by apply I].
  - done.
  - revert H. apply phase_ext; [|done|].
    + intros r Hr. destruct (Nat.eqb_spec r 0) as [->|]; [done|]. rewrite (flat_map_pick (fun _ => [Recv 0 b])).
      by destruct decide; [|lia].
    + intros r Hr. unfold F. rewrite (fold_each (fun _ m0 m => wr b (rd b m0) m) 0 (n - 1) M r).
      destruct (Nat.eqb_spec r 0) as [->|]; destruct decide; try lia; done.
Qed.

Lemma broadcast_phase b M :
  (forall r, (r < n)%nat -> length (rd b (M r)) = length (rd b (M 0%nat))) ->
  phase (fun r => tcp_broadcast b 0 r (sockets r)) M (fun r => if (r =? 0)%nat then M r else wr b (rd b (M 0%nat)) (M r)).
Proof.
  intros Hl. eapply phase_ext; [| | |apply (scatter b M Hl)]; [|done..].
  intros r Hr. unfold tcp_broadcast. destruct (Nat.eqb_spec r 0) as [->|]; [|done].
  destruct (mesh 0%nat Hr) as [Hlen Hs]. rewrite Hlen. destruct n as [|k]; [lia|]. cbn [Nat.sub]. rewrite Nat.sub_0_r.
  rewrite <- (cons_seq k 0). cbn [flat_map]. rewrite Nat.eqb_refl. cbn [negb andb app].
  rewrite !flat_map_concat_map. f_equal. apply map_ext_in. intros i Hi. apply in_seq in Hi.
  rewrite (proj2 (Nat.eqb_neq i 0)) by lia. by rewrite (proj2 (Z.leb_le _ _)) by (apply Hs; lia).
Qed.

(** Every other rank sends a buffer to rank 0, which receives them in order and does
    something with each. *)
Definition step0 (b' : buf) (g : option (mem -> mem)) (v : list Z) (m : mem) : mem :=
  default id g (wr b' v m).

Lemma fold_rank0 (h : nat -> mem -> mem) l (M : nat -> mem) r :
  fold_left (fun N x r => if (r =? 0)%nat then h x (N 0%nat) else N r) l M r =
  if (r =? 0)%nat then fold_left (fun m x => h x m) l (M 0%nat) else M r.
Proof.
  revert M. induction l as [|x l IH]; intros M; cbn; [by destruct (Nat.eqb_spec r 0) as [->|]|].
  rewrite IH. by destruct (r =? 0)%nat.
Qed.

Lemma gather b b' g (P : mem -> Prop) M L :
  (forall m, P m -> length (rd b' m) = L) ->
  (forall m v, P m -> length v = L -> P (step0 b' g v m)) ->
  (forall r, (1 <= r < n)%nat -> length (rd b (M r)) = L) -> P (M 0%nat) ->
  phase (fun r => if (r =? 0)%nat then flat_map (fun i => Recv i b' :: match g with Some f => [Local f] | None => [] end)
                                         (seq 1 (n - 1)) else [Send 0 b]) M
        (fun r => if (r =? 0)%nat then fold_left (fun m i => step0 b' g (rd b (M i)) m) (seq 1 (n - 1)) (M 0%nat) else M r)
  /\ P (fold_left (fun m i => step0 b' g (rd b (M i)) m) (seq 1 (n - 1)) (M 0%nat)).
Proof.
  intros HL HP Hb H0.
  set (F := fun i (N : nat -> mem) r => if (r =? 0)%nat then step0 b' g (rd b (M i)) (N 0%nat) else N r).
  destruct (phase_flat cap n (fun N => P (N 0%nat) /\ forall r, (1 <= r < n)%nat -> N r = M r)
    (fun i r => if (r =? 0)%nat then Recv i b' :: match g with Some f => [Local f] | None => [] end
                else if (r =? i)%nat then [Send 0 b] else []) F (seq 1 (n - 1)) M) as [H [I _]].
  - intros i N Hi [I0 I]. apply elem_of_others in Hi. split; [|split].
    + assert (phase (fun r => if (r =? i)%nat then [Send 0 b] else if (r =? 0)%nat then [Recv i b'] else []) N
                (fun r => if (r =? 0)%nat then wr b' (rd b (M i)) (N 0%nat) else N r)) as T.
      { rewrite <- (I i) by lia. apply phase_transfer; [done|lia..|]. rewrite (I i), Hb, HL by (done || lia). done. }
      pose proof (phase_local cap n cap_pos (fun r => match g with Some _ => (r =? 0)%nat | None => false end)
        (fun _ => default id g) (fun r => if (r =? 0)%nat then wr b' (rd b (M i)) (N 0%nat) else N r)) as Q.
      pose proof (phase_seq cap n _ _ _ _ _ T Q) as TQ. revert TQ. apply phase_ext; [|done|].
      * intros r Hr. destruct (Nat.eqb_spec r 0) as [->|].
        -- rewrite (proj2 (Nat.eqb_neq 0 i)) by lia. by destruct g.
        -- destruct (r =? i)%nat, g; done.
      * intros r Hr. unfold F, step0. by destruct (r =? 0)%nat, g.
    + unfold F. cbn. apply HP; [done|]. apply Hb. lia.
    + intros r Hr. unfold F. rewrite (proj2 (Nat.eqb_neq r 0)) by lia. apply I. lia.
  - done.
  - unfold F in H, I. rewrite (fold_rank0 (fun i m => step0 b' g (rd b (M i)) m)) in I. cbn in I. split; [|done].
    revert H. apply phase_ext; [|done|].
    + intros r Hr. destruct (Nat.eqb_spec r 0) as [->|]; [done|]. rewrite (flat_map_pick (fun _ => [Send 0 b])).
      by destruct decide; [|lia].
    + intros r Hr. by rewrite (fold_rank0 (fun i m => step0 b' g (rd b (M i)) m)).
Qed.

Lemma barrier_phase M :
  (forall r, (r < n)%nat -> length (signal (M r)) = 4%nat) ->
  exists M', phase (fun r => barrier r n) M M' /\
    forall r, (r < n)%nat -> exists v, length v = 4%nat /\ M' r = wr Signal v (M r).
Proof.
  intros Hl.
  set (M1 := fun r => if negb (r =? 0)%nat then signal_1 (M r) else M r).
  pose proof (phase_local cap n cap_pos (fun r => negb (r =? 0)%nat) (fun _ => signal_1) M) as A.
  destruct (gather Signal Signal None (fun m => exists v, length v = 4%nat /\ m = wr Signal v (M 0%nat)) M1 4) as [B HB].
  { intros m (v & Hv & ->). by rewrite rd_wr. }
  { intros m v (w & Hw & ->) Hv. exists v. split; [done|]. unfold step0. cbn. by rewrite wr_wr. }
  { intros r Hr. unfold M1. rewrite (proj2 (Nat.eqb_neq r 0)) by lia. cbn [negb]. unfold signal_1. by rewrite rd_wr. }
  { exists (signal (M 0%nat)). split; [apply Hl; lia|]. symmetry. apply (wr_rd Signal). }
  cbn in B. set (m2 := fold_left _ _ _) in B, HB.
  set (M2 := fun r => if (r =? 0)%nat then m2 else M1 r) in B.
  pose proof (phase_local cap n cap_pos (fun r => (r =? 0)%nat) (fun _ => signal_1) M2) as C.
  set (M3 := fun r => if (r =? 0)%nat then signal_1 (M2 r) else M2 r) in C.
  assert (forall r, (r < n)%nat -> M3 r = wr Signal (le_bytes 4 1) (M r)) as E3.
  { intros r Hr. unfold M3, M2, M1. destruct (Nat.eqb_spec r 0) as [->|]; [|done]. destruct HB as (v & _ & ->).
    unfold signal_1. by rewrite wr_wr. }
  assert (forall r, (r < n)%nat -> length (rd Signal (M3 r)) = length (rd Signal (M3 0%nat))) as H3.
  { intros r Hr. rewrite !E3, !rd_wr by lia. done. }
  pose proof (scatter Signal M3 H3) as D.
  eexists. split.
  - eapply phase_ext; [| | |apply (phase_seq cap n _ _ _ _ _ A (phase_seq cap n _ _ _ _ _ B (phase_seq cap n _ _ _ _ _ C D)))].
    + intros r Hr. unfold barrier. by destruct (r =? 0)%nat.
    + done.
    + done.
  - intros r Hr. exists (le_bytes 4 1). split; [done|]. cbv beta.
    destruct (r =? 0)%nat; rewrite !E3 by lia; [done|]. by rewrite rd_wr, wr_wr.
Qed.

Lemma rd_set_max b x m : rd b (set_max x m) = rd b m.
Proof. by destruct m, b. Qed.
Lemma wr_set_max b v x m : wr b v (set_max x m) = set_max x (wr b v m).
Proof. by destruct m, b. Qed.
Lemma set_max_twice x y m : set_max x (set_max y m) = set_max x m.
Proof. by destruct m. Qed.
Lemma set_max_id m : set_max (max_elapsed m) m = m.
Proof. by destruct m. Qed.

Lemma gather_times_phase M :
  (forall r, (r < n)%nat -> length (elapsed (M r)) = 8%nat /\ length (remote_elapsed (M r)) = 8%nat) ->
  exists M', phase (fun r => gather_times dgt r n) M M' /\
    forall r, (r < n)%nat -> exists v x, length v = 8%nat /\ M' r = set_max x (wr Remote v (M r)).
Proof.
  intros Hl.
  pose proof (phase_local cap n cap_pos (fun r => (r =? 0)%nat) (fun _ => start_max) M) as A.
  set (M1 := fun r => if (r =? 0)%nat then start_max (M r) else M r) in A.
  destruct (gather Elapsed Remote (Some (update_max dgt))
    (fun m => exists v x, length v = 8%nat /\ m = set_max x (wr Remote v (M 0%nat))) M1 8) as [B HB].
  { intros m (v & x & Hv & ->). by rewrite rd_set_max, rd_wr. }
  { intros m v (w & x & Hw & ->) Hv. unfold step0. cbn. rewrite wr_set_max, wr_wr. unfold update_max.
    destruct (dgt _ _); rewrite ?set_max_twice; eauto. }
  { intros r Hr. unfold M1. rewrite (proj2 (Nat.eqb_neq r 0)) by lia. apply Hl. lia. }
  { exists (remote_elapsed (M 0%nat)), (elapsed (M 0%nat)). split; [apply Hl; lia|].
    change (remote_elapsed (M 0%nat)) with (rd Remote (M 0%nat)). by rewrite wr_rd. }
  cbn [default] in B. eexists. split.
  - eapply phase_ext; [| | |apply (phase_seq cap n _ _ _ _ _ A B)]; [|done..].
    intros r Hr. unfold gather_times. by destruct (r =? 0)%nat.
  - intros r Hr. cbn. unfold M1. destruct (Nat.eqb_spec r 0) as [->|]; [done|].
    exists (remote_elapsed (M r)), (max_elapsed (M r)). split; [by apply Hl|].
    change (remote_elapsed (M r)) with (rd Remote (M r)). by rewrite wr_rd, set_max_id.
Qed.

(** The sums in rank order. *)
Definition reduce_sum (W : nat -> list Z) (l : list nat) (acc : list Z) : list Z :=
  fold_left (fun acc i => zip_with fadd acc (W i)) l acc.

Lemma zip_range a b : Forall (is_u 32) (zip_with fadd a b).
Proof. revert b. induction a as [|x a IH]; intros [|y b]; cbn; constructor; auto. Qed.

Lemma accumulate_words v acc w m :
  Forall (is_u 32) acc -> Forall (is_u 32) w ->
  step0 TempBuf (Some (accumulate fadd)) (of_words w) (wr TempBuf v (wr RecvBuf (of_words acc) m)) =
  wr TempBuf (of_words w) (wr RecvBuf (of_words (zip_with fadd acc w)) m).
Proof.
  intros Ha Hw. unfold step0, accumulate. cbn. destruct m. cbn. by rewrite !to_of_words.
Qed.

(** What rank 0 has after receiving from the ranks of a list. *)
Lemma reduce_fold W l acc v m :
  Forall (is_u 32) acc -> (forall i, i ∈ l -> Forall (is_u 32) (W i)) ->
  exists v', fold_left (fun m i => step0 TempBuf (Some (accumulate fadd)) (of_words (W i)) m) l
               (wr TempBuf v (wr RecvBuf (of_words acc) m)) =
             wr TempBuf v' (wr RecvBuf (of_words (reduce_sum W l acc)) m).
Proof.
  revert acc v. induction l as [|i l IH]; intros acc v Ha HW; cbn [fold_left reduce_sum]; [by exists v|].
  rewrite accumulate_words by (done || (apply HW; by left)).
  apply IH; [apply zip_range|]. intros j Hj. apply HW. by right.
Qed.

Lemma fold_left_ext_in {A B} (f g : A -> B -> A) l a :
  (forall a x, x ∈ l -> f a x = g a x) -> fold_left f l a = fold_left g l a.
Proof.
  revert a. induction l as [|x l IH]; intros a H; [done|]. cbn. rewrite H by by left.
  apply IH. intros b y Hy. apply H. by right.
Qed.

Lemma reduce_sum_length W l acc c :
  length acc = c -> (forall i, i ∈ l -> length (W i) = c) -> length (reduce_sum W l acc) = c.
Proof.
  revert acc. induction l as [|i l IH]; intros acc Ha Hi; [done|]. cbn. apply IH; [|intros j Hj; apply Hi; by right].
  rewrite length_zip_with, Ha, Hi by by left. lia.
Qed.

(** The contributions of the ranks. *)
Definition contributes (W : nat -> list Z) (c : nat) (M : nat -> mem) : Prop :=
  forall r, (r < n)%nat -> length (W r) = c /\ Forall (is_u 32) (W r) /\ sendbuf (M r) = of_words (W r).

Definition total (W : nat -> list Z) : list Z := reduce_sum W (seq 1 (n - 1)) (W 0%nat).

Lemma total_length W c M : contributes W c M -> length (total W) = c.
Proof.
  intros HW. apply reduce_sum_length; [apply HW; lia|]. intros i Hi. apply elem_of_others in Hi. apply HW. lia.
Qed.

(** The copies and the receive buffer of rank 0. *)
Lemma prepare_phase W c M :
  contributes W c M ->
  exists M', phase (fun r => [Local copy_send] ++ (if (r =? 0)%nat then [Local malloc_temp] else [])) M M' /\
    M' 0%nat = wr TempBuf (replicate (4 * c) 0) (wr RecvBuf (of_words (W 0%nat)) (M 0%nat)) /\
    forall r, (1 <= r < n)%nat -> M' r = wr RecvBuf (of_words (W r)) (M r).
Proof.
  intros HW.
  pose proof (phase_local cap n cap_pos (fun _ => true) (fun _ => copy_send) M) as A.
  set (M1 := fun r => copy_send (M r)) in A.
  pose proof (phase_local cap n cap_pos (fun r => (r =? 0)%nat) (fun _ => malloc_temp) M1) as B.
  assert (forall r, (r < n)%nat -> M1 r = wr RecvBuf (of_words (W r)) (M r)) as E1.
  { intros r Hr. unfold M1, copy_send. by destruct (HW r Hr) as (_ & _ & ->). }
  eexists. split; [exact (phase_seq cap n _ _ _ _ _ A B)|]. split.
  - unfold malloc_temp. cbn [Nat.eqb]. rewrite E1 by lia.
    destruct (HW 0%nat) as (<- & _ & H); [lia|]. rewrite <- length_of_words, <- H. by destruct (M 0%nat).
  - intros r Hr. cbv beta. rewrite (proj2 (Nat.eqb_neq r 0)) by lia. apply E1. lia.
Qed.

(** The sum at rank 0. *)
Lemma reduce_phase W c M M2 :
  contributes W c M ->
  M2 0%nat = wr TempBuf (replicate (4 * c) 0) (wr RecvBuf (of_words (W 0%nat)) (M 0%nat)) ->
  (forall r, (1 <= r < n)%nat -> M2 r = wr RecvBuf (of_words (W r)) (M r)) ->
  exists M', phase (fun r => if (r =? 0)%nat then
        flat_map (fun i => [Recv i TempBuf; Local (accumulate fadd)]) (seq 1 (n - 1)) ++ [Local free_temp]
      else [Send 0 RecvBuf]) M2 M' /\
    M' 0%nat = wr TempBuf [] (wr RecvBuf (of_words (total W)) (M 0%nat)) /\
    forall r, (1 <= r < n)%nat -> M' r = wr RecvBuf (of_words (W r)) (M r).
Proof.
  intros HW E20 E2.
  assert (forall r, (1 <= r < n)%nat -> rd RecvBuf (M2 r) = of_words (W r)) as R2.
  { intros r Hr. rewrite E2 by done. by rewrite rd_wr. }
  destruct (gather RecvBuf TempBuf (Some (accumulate fadd)) (fun m => length (rd TempBuf m) = (4 * c)%nat) M2 (4 * c)) as [C _].
  { done. }
  { intros m v _ Hv. unfold step0, accumulate. cbn. destruct m; cbn. done. }
  { intros r Hr. rewrite R2, length_of_words by done. by destruct (HW r) as (-> & _); [lia|]. }
  { rewrite E20, rd_wr. apply length_replicate. }
  set (m3 := fold_left _ _ _) in C.
  assert (exists v, m3 = wr TempBuf v (wr RecvBuf (of_words (total W)) (M 0%nat))) as [v Hm3].
  { unfold m3. rewrite (fold_left_ext_in _ (fun m i => step0 TempBuf (Some (accumulate fadd)) (of_words (W i)) m)).
    - rewrite E20. apply reduce_fold; [apply HW; lia|]. intros i Hi. apply elem_of_others in Hi. apply HW. lia.
    - intros m i Hi. apply elem_of_others in Hi. by rewrite R2. }
  set (M3 := fun r => if (r =? 0)%nat then m3 else M2 r) in C.
  pose proof (phase_local cap n cap_pos (fun r => (r =? 0)%nat) (fun _ => free_temp) M3) as D.
  eexists. split; [|split].
  - eapply phase_ext; [| | |apply (phase_seq cap n _ _ _ _ _ C D)]; [|done..].
    intros r Hr. cbv beta. by destruct (r =? 0)%nat.
  - unfold M3, free_temp. cbn [Nat.eqb]. rewrite Hm3. by rewrite wr_wr.
  - intros r Hr. unfold M3. cbv beta. rewrite (proj2 (Nat.eqb_neq r 0)) by lia. by apply E2.
Qed.

Lemma allreduce_phase W c M :
  contributes W c M ->
  exists M', phase (fun r => tcp_allreduce fadd r (sockets r)) M M' /\
    forall r, (r < n)%nat -> exists t, M' r = wr TempBuf t (wr RecvBuf (of_words (total W)) (M r)).
Proof.
  intros HW. destruct (prepare_phase W c M HW) as (M2 & A & E20 & E2).
  destruct (reduce_phase W c M M2 HW E20 E2) as (M4 & C & E40 & E4).
  assert (forall r, (r < n)%nat -> length (rd RecvBuf (M4 r)) = length (rd RecvBuf (M4 0%nat))) as HL.
  { intros r Hr. rewrite E40. rewrite rd_wr_ne, rd_wr, length_of_words, (total_length W c M HW) by done.
    destruct (decide (r = 0%nat)) as [->|]; [by rewrite E40, rd_wr_ne, rd_wr, length_of_words, (total_length W c M HW)|].
    rewrite E4, rd_wr, length_of_words by lia. by destruct (HW r Hr) as (-> & _). }
  eexists. split.
  - eapply phase_ext; [| | |apply (phase_seq cap n _ _ _ _ _ A (phase_seq cap n _ _ _ _ _ C (broadcast_phase RecvBuf M4 HL)))]; [|done..].
    intros r Hr. unfold tcp_allreduce. destruct (mesh r Hr) as [-> _]. cbn [app].
    destruct (r =? 0)%nat; cbn [app]; [by rewrite <- app_assoc|done].
  - intros r Hr. cbv beta. destruct (Nat.eqb_spec r 0) as [->|]; [by eexists|].
    rewrite E40, E4 by lia. rewrite rd_wr_ne, rd_wr, wr_wr by done.
    exists (temp_buf (M r)). symmetry. by destruct (M r).
Qed.

(** *** One round *)

(** The ranks can run a piece of program to its end with this outcome. *)
Definition can (p : nat -> list act) (M : nat -> mem) (Q : (nat -> mem) -> Prop) : Prop :=
  exists M', phase p M M' /\ Q M'.

Lemma can_seq p q M Q : can p M (fun M1 => can q M1 Q) -> can (fun r => p r ++ q r) M Q.
Proof. intros (M1 & Hp & M2 & Hq & HQ). exists M2. split; [by eapply phase_seq|done]. Qed.

Lemma can_mono p M (Q Q' : (nat -> mem) -> Prop) : can p M Q -> (forall M', Q M' -> Q' M') -> can p M Q'.
Proof. intros (M' & H & HQ) HI. exists M'. auto. Qed.

Lemma can_local f M (Q : (nat -> mem) -> Prop) : Q (fun r => f r (M r)) -> can (fun r => [Local (f r)]) M Q.
Proof. intros HQ. eexists. split; [|exact HQ]. exact (phase_local cap n cap_pos (fun _ => true) f M). Qed.

Lemma can_list {B} (p : B -> nat -> list act) l (I : nat -> (nat -> mem) -> Prop) k M :
  (forall x k M, x ∈ l -> I k M -> can (p x) M (I (S k))) -> I k M ->
  can (fun r => flat_map (fun x => p x r) l) M (I (k + length l)%nat).
Proof.
  revert k M. induction l as [|x l IH]; intros k M H HI.
  - exists M. split; [apply phase_nil|]. cbn. by rewrite Nat.add_0_r.
  - cbn [flat_map length]. apply can_seq. eapply can_mono; [apply H; [by left|done]|].
    intros M1 H1. rewrite Nat.add_succ_r. apply (IH (S k)); [|done]. intros y j N Hy. apply H. by right.
Qed.

(** What holds throughout a round: the sizes of the variables, the verdicts so far,
    and a property of the send buffers. *)
Definition in_round (c : nat) (vs : nat -> list bool) (S : nat -> list Z -> Prop) (M : nat -> mem) : Prop :=
  forall r, (r < n)%nat ->
    length (signal (M r)) = 4%nat /\ length (elapsed (M r)) = 8%nat /\ length (remote_elapsed (M r)) = 8%nat /\
    verdicts (M r) = vs r /\ length (recvbuf (M r)) = (4 * c)%nat /\ S r (sendbuf (M r)).

Lemma can_barrier c vs S M : in_round c vs S M -> can (fun r => barrier r n) M (in_round c vs S).
Proof.
  intros I. destruct (barrier_phase M) as (M' & H & E); [intros r Hr; by apply I|]. exists M'. split; [done|].
  intros r Hr. destruct (E r Hr) as (v & Hv & ->). specialize (I r Hr). destruct (M r). cbn in *. naive_solver.
Qed.

Lemma can_times c vs S M : in_round c vs S M -> can (fun r => gather_times dgt r n) M (in_round c vs S).
Proof.
  intros I. destruct (gather_times_phase M) as (M' & H & E); [intros r Hr; by destruct (I r Hr) as (_ & ? & ? & _)|].
  exists M'. split; [done|]. intros r Hr. destruct (E r Hr) as (v & x & Hv & ->). specialize (I r Hr).
  destruct (M r). cbn in *. naive_solver.
Qed.

Definition of_size (c : nat) : nat -> list Z -> Prop := fun _ l => length l = (4 * c)%nat.
Definition holds_words (W : nat -> list Z) : nat -> list Z -> Prop := fun r l => l = of_words (W r).

Lemma can_broadcast c vs M :
  in_round c vs (of_size c) M -> can (fun r => tcp_broadcast SendBuf 0 r (sockets r)) M (in_round c vs (of_size c)).
Proof.
  intros I. assert (forall r, (r < n)%nat -> length (rd SendBuf (M r)) = (4 * c)%nat) as L by (intros r Hr; by apply I).
  eexists. split; [apply broadcast_phase; intros r Hr; by rewrite !L by lia|].
  intros r Hr. cbv beta. destruct (r =? 0)%nat; [by apply I|]. specialize (I r Hr).
  assert (length (sendbuf (M 0%nat)) = (4 * c)%nat) as L0 by (apply (L 0%nat); lia).
  destruct (M r). cbn in *. unfold of_size in *. naive_solver.
Qed.

Definition summed (W : nat -> list Z) (M : nat -> mem) : Prop :=
  forall r, (r < n)%nat -> recvbuf (M r) = of_words (total W).

Lemma can_allreduce c vs W M :
  (forall r, (r < n)%nat -> length (W r) = c /\ Forall (is_u 32) (W r)) ->
  in_round c vs (holds_words W) M ->
  can (fun r => tcp_allreduce fadd r (sockets r)) M (fun M' => in_round c vs (holds_words W) M' /\ summed W M').
Proof.
  intros HW I. assert (contributes W c M) as HC.
  { intros r Hr. destruct (HW r Hr). repeat split; [done..|]. by apply I. }
  destruct (allreduce_phase W c M HC) as (M' & H & E). exists M'. split; [done|]. split.
  - intros r Hr. destruct (E r Hr) as (t & ->). specialize (I r Hr).
    pose proof (length_of_words (total W)) as HL. rewrite (total_length W c M HC) in HL.
    destruct (M r). cbn in *. naive_solver.
  - intros r Hr. destruct (E r Hr) as (t & ->). by destruct (M r).
Qed.

Lemma zip_replicate c x y : zip_with fadd (replicate c x) (replicate c y) = replicate c (fadd x y).
Proof. induction c as [|c IH]; [done|]. cbn. by rewrite IH. Qed.

Lemma reduce_replicate f l c a :
  reduce_sum (fun i => replicate c (f i)) l (replicate c a) = replicate c (fold_left (fun acc i => fadd acc (f i)) l a).
Proof.
  revert a. induction l as [|i l IH]; intros a; [done|]. cbn [reduce_sum fold_left]. rewrite zip_replicate. apply IH.
Qed.

(** The inputs of a round are as the program makes them: zero added to the first
    contribution gives it back, and the sum is near itself. *)
Definition round_ok (d : round) : Prop :=
  length (rand d) = count d /\ (forall r, (r < n)%nat -> is_u 32 (frac d r)) /\
  (forall r, (r < n)%nat -> length (time1 d r) = 8%nat /\ length (time2 d r) = 8%nat) /\
  fadd 0 (frac d 0%nat) = frac d 0%nat /\
  far (expected_sum fadd (frac d) n) (expected_sum fadd (frac d) n) = false.

Definition give (d : round) : nat -> list Z := fun r => replicate (count d) (frac d r).

Lemma total_expected d : round_ok d -> total (give d) = replicate (count d) (expected_sum fadd (frac d) n).
Proof.
  intros (_ & _ & _ & H0 & _). unfold total, give. rewrite reduce_replicate. unfold expected_sum.
  destruct n as [|k]; [lia|]. cbn [Nat.sub seq fold_left]. by rewrite Nat.sub_0_r, H0.
Qed.

Lemma give_words d r : round_ok d -> (r < n)%nat -> length (give d r) = count d /\ Forall (is_u 32) (give d r).
Proof. intros (_ & Hf & _) Hr. split; [apply length_replicate|]. apply Forall_replicate. by apply Hf. Qed.

Lemma expected_range f : is_u 32 (expected_sum fadd f n).
Proof.
  unfold expected_sum. destruct n as [|k]; [lia|]. rewrite seq_S, fold_left_app. apply fadd_range.
Qed.

(** The check accepts the sum. *)
Lemma verdict_true d m :
  round_ok d -> recvbuf m = of_words (total (give d)) ->
  allreduce_correct far (expected_sum fadd (frac d) n) (to_words (recvbuf m)) = true.
Proof.
  intros Hd ->. rewrite total_expected by done. rewrite to_of_words by (apply Forall_replicate, expected_range).
  destruct Hd as (_ & _ & _ & _ & Hf). unfold allreduce_correct.
  induction (count d) as [|c IH]; [done|]. cbn. by rewrite Hf, IH.
Qed.

(** Between rounds. *)
Definition between (k : nat) (M : nat -> mem) : Prop :=
  forall r, (r < n)%nat ->
    length (signal (M r)) = 4%nat /\ length (elapsed (M r)) = 8%nat /\ length (remote_elapsed (M r)) = 8%nat /\
    verdicts (M r) = replicate k true.

(** The broadcasts and their timing leave the round as it was. *)
Lemma can_broadcasts d vs M :
  round_ok d -> in_round (count d) vs (of_size (count d)) M ->
  can (fun r => flat_map (fun _ => tcp_broadcast SendBuf 0 r (sockets r)) (seq 0 3) ++
                tcp_broadcast SendBuf 0 r (sockets r) ++
                [Local (wr Elapsed (time1 d r))] ++ gather_times dgt r n ++ barrier r n) M
      (in_round (count d) vs (of_size (count d))).
Proof.
  intros Hd I. apply can_seq.
  eapply can_mono; [apply (can_list (fun _ r => tcp_broadcast SendBuf 0 r (sockets r)) (seq 0 3)
    (fun _ => in_round (count d) vs (of_size (count d))) 0); [intros; by apply can_broadcast|done]|].
  clear M I. intros M I. apply can_seq. eapply can_mono; [by apply can_broadcast|]. clear M I. intros M I.
  apply can_seq, can_local, can_seq. eapply can_mono; [apply (can_times (count d) vs (of_size (count d)))|].
  - intros r Hr. specialize (I r Hr). destruct Hd as (_ & _ & Ht & _). specialize (Ht r Hr).
    destruct (M r). cbn in *. naive_solver.
  - clear M I. intros M I. by apply can_barrier.
Qed.

(** The all-reduces leave the sum with every rank. *)
Lemma can_allreduces d vs M :
  round_ok d -> in_round (count d) vs (holds_words (give d)) M ->
  can (fun r => flat_map (fun _ => tcp_allreduce fadd r (sockets r)) (seq 0 3) ++ tcp_allreduce fadd r (sockets r)) M
      (fun M' => in_round (count d) vs (holds_words (give d)) M' /\ summed (give d) M').
Proof.
  intros Hd I.
  assert (forall r, (r < n)%nat -> length (give d r) = count d /\ Forall (is_u 32) (give d r)) as HW
    by (intros r Hr; by apply give_words).
  apply can_seq.
  eapply can_mono; [apply (can_list (fun _ r => tcp_allreduce fadd r (sockets r)) (seq 0 3)
    (fun _ => in_round (count d) vs (holds_words (give d))) 0); [|done]|].
  - intros _ _ N _ HN. eapply can_mono; [by apply can_allreduce|]. by intros M' [? _].
  - intros N HN. by apply can_allreduce.
Qed.

Lemma can_test_size d k M :
  round_ok d -> between k M -> can (fun r => test_size fadd far dgt d r n (sockets r)) M (between (S k)).
Proof.
  intros Hd I. set (vs := fun _ : nat => replicate k true).
  apply can_seq, can_local, can_seq. eapply can_mono; [apply (can_barrier (count d) vs (of_size (count d)))|].
  { intros r Hr. specialize (I r Hr). unfold alloc_buffers. destruct (M r). cbn in *. destruct I as (? & ? & ? & ?).
    repeat split; [done..|by rewrite length_replicate|]. unfold of_size. destruct (r =? 0)%nat; cbn;
      rewrite ?length_replicate, ?length_of_words; [|done]. destruct Hd as (-> & _). done. }
  clear M I. intros M I. destruct (can_broadcasts d vs M Hd I) as (M1 & H1 & I1). clear I.
  assert (can (fun r => [Local (fill_send d r)] ++
    (flat_map (fun _ => tcp_allreduce fadd r (sockets r)) (seq 0 3) ++ tcp_allreduce fadd r (sockets r)) ++
    [Local (wr Elapsed (time2 d r))] ++ [Local (verify fadd far d n)] ++ gather_times dgt r n ++ [Local free_buffers]) M1
    (between (S k))) as (M2 & H2 & I2).
  2: { exists M2. split; [|done]. eapply phase_ext; [| | |apply (phase_seq cap n _ _ _ _ _ H1 H2)]; [|done..].
       intros r Hr. cbv beta. by rewrite <- !app_assoc. }
  apply can_seq, can_local, can_seq.
  eapply can_mono; [apply (can_allreduces d vs); [done|]|].
  { intros r Hr. specialize (I1 r Hr). unfold fill_send. destruct (M1 r). cbn in *. naive_solver. }
  clear M M1 H1 I1. intros M [I HS].
  apply can_seq, can_local, can_seq, can_local, can_seq.
  eapply can_mono; [apply (can_times (count d) (fun _ => replicate (S k) true) (holds_words (give d)))|].
  - intros r Hr. specialize (I r Hr). specialize (HS r Hr). pose proof Hd as (_ & _ & Ht & _). specialize (Ht r Hr).
    unfold verify. rewrite (verdict_true d); [|done|by destruct (M r)]. destruct (M r). cbn in *.
    destruct I as (? & ? & ? & -> & ? & ?). repeat split; try done; [apply Ht|]. unfold vs.
    by rewrite <- replicate_S_end.
  - clear M I HS. intros M I. apply can_local. intros r Hr. specialize (I r Hr). unfold free_buffers.
    destruct (M r). cbn in *. naive_solver.
Qed.

Lemma can_main ds M :
  Forall round_ok ds -> between 0 M ->
  can (fun r => tcp_test_main fadd far dgt ds r n (sockets r)) M (between (length ds)).
Proof.
  intros Hds I. apply can_seq. destruct (barrier_phase M) as (M' & H & E); [intros r Hr; by apply I|].
  exists M'. split; [done|]. apply (can_list (fun d r => test_size fadd far dgt d r n (sockets r)) ds between 0).
  - intros d k N Hd HN. apply can_test_size; [|done]. by eapply Forall_forall.
  - intros r Hr. destruct (E r Hr) as (v & Hv & ->). specialize (I r Hr). destruct (M r). cbn in *. naive_solver.
Qed.
End Collectives.

(** *** Theorems *)

(** C17: [tcp_allreduce] computes the sum at every rank.  For any number of ranks, any
    data and any room in the connections, and however the ranks are interleaved and
    their streams are split by [send] and [recv]: every run ends after a bounded
    number of steps, it cannot get stuck before, and then every rank has the element
    sums of all contributions, added in rank order, its own data unchanged and no
    byte left in a connection. *)
Theorem tcp_allreduce_correct cap n fadd sockets W c M :
  (1 <= cap)%nat -> (1 <= n)%nat -> (forall x y, is_u 32 (fadd x y)) -> full_mesh n sockets ->
  contributes n W c M ->
  exists M', every_run cap (at_phase n (fun r => tcp_allreduce fadd r (sockets r)) M) (idle n M') /\
    forall r, (r < n)%nat -> recvbuf (M' r) = of_words (total n fadd W) /\ sendbuf (M' r) = sendbuf (M r).
Proof.
  intros Hc Hn Hf Hs HW. destruct (allreduce_phase cap n fadd Hc Hn Hf sockets Hs W c M HW) as (M' & H & E).
  exists M'. split; [by apply phase_every_run|]. intros r Hr. destruct (E r Hr) as (t & ->). by destruct (M r).
Qed.

(** The benchmark once the connections are there: whatever the interleaving, all
    ranks come to the end of [tcp_test_main] after a bounded number of steps, without
    a deadlock between its barriers, broadcasts, all-reduces and the collection of
    times, with nothing left in a connection, and every rank's check of every round
    has succeeded. *)
Theorem tcp_test_main_on_mesh cap n fadd far dgt sockets ds M :
  (1 <= cap)%nat -> (1 <= n)%nat -> (forall x y, is_u 32 (fadd x y)) -> full_mesh n sockets ->
  Forall (round_ok n fadd far) ds -> between n 0 M ->
  exists M', every_run cap (at_phase n (fun r => tcp_test_main fadd far dgt ds r n (sockets r)) M) (idle n M') /\
    forall r, (r < n)%nat -> verdicts (M' r) = replicate (length ds) true.
Proof.
  intros Hc Hn Hf Hs Hds HM. destruct (can_main cap n fadd far dgt Hc Hn Hf sockets Hs ds M Hds HM) as (M' & H & E).
  exists M'. split; [by apply phase_every_run|]. intros r Hr. by apply E.
Qed.

(** *** Witnesses *)

Definition add32 (x y : Z) : Z := u32 (x + y).
Definition near (x y : Z) : bool := negb (x =? y).
Definition later (x y : list Z) : bool := le_val y <? le_val x.
Definition socks3 (r : nat) : list Z := (fun i => if (i =? r)%nat then -1 else 3 + Z.of_nat i) <$> seq 0 3.
Definition mem3 (r : nat) : mem :=
  Mem (of_words [Z.of_nat r; 7]) [] [] (le_bytes 4 0) (le_bytes 8 0) (le_bytes 8 0) (le_bytes 8 0) [].
Definition round3 : round :=
  Round 2 [5; 6] (fun r => Z.of_nat r + 1) (fun r => le_bytes 8 (Z.of_nat r)) (fun r => le_bytes 8 9).

Lemma add32_range x y : is_u 32 (add32 x y).
Proof. by apply uwrap_range. Qed.

Lemma socks3_mesh : full_mesh 3 socks3.
Proof.
  intros r Hr. split; [done|]. intros i Hi Hne. destruct r as [|[|[|r]]]; try lia;
    destruct i as [|[|[|i]]]; try lia; cbn; lia.
Qed.

Lemma tcp_allreduce_correct_witness :
  exists M', every_run 1 (at_phase 3 (fun r => tcp_allreduce add32 r (socks3 r)) mem3) (idle 3 M') /\
    forall r, (r < 3)%nat -> recvbuf (M' r) = of_words [3; 21] /\ sendbuf (M' r) = sendbuf (mem3 r).
Proof.
  apply (tcp_allreduce_correct 1 3 add32 socks3 (fun r => [Z.of_nat r; 7]) 2 mem3);
    [lia|lia|exact add32_range|exact socks3_mesh|].
  intros r Hr. split; [done|]. split; [|done]. repeat constructor; unfold is_u; lia.
Defined.
