(* ===== verification/TcpConnect.v ===== *)
(** * TcpConnect: setting up the connections of the TCP benchmark

    Models [establish_connections] of [network/nccl/tcp_ip_test.cpp]: every rank
    first accepts one connection from each higher rank, on a listening socket that it
    opens and closes for each, and then connects to each lower rank, trying again
    when nobody listens.  The ranks run in any order.  Of TCP the model has what the
    code depends on: a connection request waits in the backlog of a listening
    socket, connecting fails when there is none, and closing a listening socket
    resets the connections that still wait in its backlog. *)

From Stdlib Require Import ZArith Lia.
From stdpp Require Import base list relations.
From S2P Require Import Prelude Bytes TcpBench.

(** Where a rank is: [i] is the loop variable. *)
Inductive epc :=
  | EListen (i : nat)              (** socket, setsockopt, bind, listen *)
  | EAccept (i : nat)              (** accept *)
  | ERank (i c : nat)              (** tcp_recv of the rank on the connection of [c]; close *)
  | EConnect (i retry : nat)       (** connect, in the loop of attempts *)
  | ESend (i : nat)                (** tcp_send of the own rank *)
  | EDone
  | EExit.                         (** exit (EXIT_FAILURE) *)

Record est := Est {
  pcs : list epc;
  backlog : list (option (list nat));      (** requests waiting at each rank's listening socket *)
  announced : list (nat * nat);            (** client and server of the ranks sent *)
  lost : list (nat * nat);                 (** client and server of the connections reset *)
  socks : list (list (option nat))         (** [sockets] of every rank: the peer of each entry *)
}.

Section Establish.
Context (n : nat).

Definition client_next (r i : nat) : epc := if (i <? r)%nat then EConnect i 0 else EDone.
Definition server_next (r i : nat) : epc := if (i <? n)%nat then EListen i else client_next r 0.

Definition goto (r : nat) (p : epc) (s : est) : est :=
  Est (<[r := p]> (pcs s)) (backlog s) (announced s) (lost s) (socks s).
Definition set_backlog (r : nat) (q : option (list nat)) (s : est) : est :=
  Est (pcs s) (<[r := q]> (backlog s)) (announced s) (lost s) (socks s).
Definition set_sock (r k c : nat) (s : est) : est :=
  Est (pcs s) (backlog s) (announced s) (lost s) (alter (fun v => <[k := Some c]> v) r (socks s)).
Definition announce (c r : nat) (s : est) : est :=
  Est (pcs s) (backlog s) ((c, r) :: announced s) (lost s) (socks s).
Definition lose (r : nat) (cs : list nat) (s : est) : est :=
  Est (pcs s) (backlog s) (announced s) (((fun c => (c, r)) <$> cs) ++ lost s) (socks s).

Definition waiting (r : nat) (s : est) : option (list nat) := default None (backlog s !! r).

(** [close] of the listening socket. *)
Definition close_server (r : nat) (s : est) : est :=
  set_backlog r None (lose r (default [] (waiting r s)) s).

(** One step of [establish_connections] at rank [r]; [None] when it has to wait. *)
Definition est_step (r : nat) (s : est) : option est :=
  match pcs s !! r with
  | Some (EListen i) => Some (goto r (EAccept i) (set_backlog r (Some []) s))
  | Some (EAccept i) =>
      match waiting r s with
      | Some (c :: q) => Some (goto r (ERank i c) (set_backlog r (Some q) s))
      | _ => None
      end
  | Some (ERank i c) =>
      if decide ((c, r) ∈ announced s) then
        Some (goto r (server_next r (S i)) (close_server r (set_sock r c c s)))
      else None
  | Some (EConnect i retry) =>
      match waiting i s with
      | Some q => Some (goto r (ESend i) (set_backlog i (Some (q ++ [r])) s))
      | None => Some (goto r (if (10 <? retry)%nat then EExit else EConnect i (S retry)) s)
      end
  | Some (ESend i) =>
      if decide ((r, i) ∈ lost s) then Some (goto r EExit s)
      else Some (goto r (client_next r (S i)) (set_sock r i i (announce r i s)))
  | _ => None
  end.

Definition est_run (s s' : est) : Prop := exists r, est_step r s = Some s'.

Definition est_init : est :=
  Est ((fun r => server_next r (S r)) <$> seq 0 n) (replicate n None) [] [] (replicate n (replicate n None)).

Fixpoint est_moves (rs : list nat) (s : est) : option est :=
  match rs with [] => Some s | r :: rs => est_step r s ≫= est_moves rs end.
End Establish.

(** ** When the set-up ends, the connections are complete *)

Section Complete.
Context (n : nat).

(** The peer of entry [c] of the vector of rank [r]. *)
Definition entry (s : est) (r c : nat) : option nat := default None (default [] (socks s !! r) !! c).

(** Client [c] may have asked server [r] for a connection. *)
Definition asked (p : epc) (r : nat) : Prop :=
  match p with EConnect i _ => (r < i)%nat | ESend i => (r <= i)%nat | EDone | EExit => True | _ => False end.

(** The higher ranks that server [r] has a connection of. *)
Definition served (s : est) (r : nat) : list nat :=
  filter (fun c => is_Some (entry s r c)) (seq (S r) (n - S r)).

(** What holds of rank [r] at its program counter. *)
Definition rank_ok (s : est) (r : nat) (p : epc) : Prop :=
  match p with
  | EListen i | EAccept i => (r < i < n)%nat /\ length (served s r) = (i - S r)%nat
  | ERank i c => (r < i < n)%nat /\ length (served s r) = (i - S r)%nat /\ (r < c < n)%nat /\ entry s r c = None /\
                 c ∉ default [] (waiting r s) /\ exists q, pcs s !! c = Some q /\ asked q r
  | EConnect i _ | ESend i => (i < r)%nat /\ length (served s r) = (n - S r)%nat /\ forall j, (j < i)%nat -> is_Some (entry s r j)
  | EDone => length (served s r) = (n - S r)%nat /\ forall j, (j < r)%nat -> is_Some (entry s r j)
  | EExit => True
  end.

Record est_ok (s : est) : Prop := {
  eo_pcs : length (pcs s) = n;
  eo_backlog : length (backlog s) = n;
  eo_socks : length (socks s) = n;
  eo_rows r v : socks s !! r = Some v -> length v = n;
  eo_rank r p : pcs s !! r = Some p -> rank_ok s r p;
  eo_nodup r : NoDup (default [] (waiting r s));
  eo_wait r c : c ∈ default [] (waiting r s) ->
    (r < c < n)%nat /\ entry s r c = None /\ exists q, pcs s !! c = Some q /\ asked q r;
  eo_asked r c x : (r < c)%nat -> entry s r c = Some x -> exists q, pcs s !! c = Some q /\ asked q r
}.

Lemma entry_set s r k c r' k' :
  (r < length (socks s))%nat -> (k < length (default [] (socks s !! r)))%nat ->
  entry (set_sock r k c s) r' k' = if decide (r' = r /\ k' = k) then Some c else entry s r' k'.
Proof.
  intros Hr Hk. unfold entry, set_sock. cbn. destruct (decide (r' = r)) as [->|Hne].
  - rewrite list_lookup_alter_eq. destruct (lookup_lt_is_Some_2 _ _ Hr) as [v Hv]. rewrite Hv in *. cbn in *.
    destruct (decide (k' = k)) as [->|Hk'].
    + by rewrite list_lookup_insert_eq, decide_True.
    + rewrite list_lookup_insert_ne by done. rewrite decide_False by naive_solver. done.
  - rewrite list_lookup_alter_ne by done. by rewrite decide_False by naive_solver.
Qed.

Lemma served_ext s s' r : (forall c, entry s' r c = entry s r c) -> served s' r = served s r.
Proof. intros H. unfold served. apply list_filter_iff. intros c. by rewrite H. Qed.

(** Rank [r] moves from [p] to [p']; the entries and queues of the others are as
    before, or get a request of [r]. *)
Lemma ok_move s s' r p p' :
  est_ok s -> pcs s !! r = Some p -> pcs s' = <[r := p']> (pcs s) ->
  length (backlog s') = n -> length (socks s') = n -> (forall k v, socks s' !! k = Some v -> length v = n) ->
  (forall k, asked p k -> asked p' k) ->
  (forall r' c, r' <> r -> entry s' r' c = entry s r' c) ->
  (forall r', r' <> r -> waiting r' s' = waiting r' s \/
     exists q, waiting r' s = Some q /\ waiting r' s' = Some (q ++ [r]) /\ (r' < r)%nat /\ ~ asked p r' /\ asked p' r') ->
  rank_ok s' r p' ->
  NoDup (default [] (waiting r s')) ->
  (forall c, c ∈ default [] (waiting r s') -> c ∈ default [] (waiting r s) /\ entry s' r c = None) ->
  (forall c x, (r < c)%nat -> entry s' r c = Some x -> entry s r c = Some x \/ exists q, pcs s !! c = Some q /\ asked q r) ->
  est_ok s'.
Proof.
  intros I Hp Hpcs Hlb Hls Hrows Hmono Hent Hwait Hrank Hnd Hself Hsock.
  assert (r < n)%nat as Hr by (rewrite <- (eo_pcs _ I); by eapply lookup_lt_Some).
  assert (forall c k, (exists q, pcs s !! c = Some q /\ asked q k) -> exists q, pcs s' !! c = Some q /\ asked q k) as Hask.
  { intros c k (q & Hq & Ha). rewrite Hpcs. destruct (decide (c = r)) as [->|Hne].
    - rewrite list_lookup_insert_eq by (rewrite (eo_pcs _ I); done). exists p'. split; [done|].
      apply Hmono. by replace p with q by congruence.
    - rewrite list_lookup_insert_ne by done. eauto. }
  assert (forall r', r' <> r -> (r' < r)%nat -> ~ asked p r' -> r ∉ default [] (waiting r' s) /\ entry s r' r = None) as Hnew.
  { intros r' Hne Hlt Hna. split.
    - intros Hin. destruct (eo_wait _ I r' r Hin) as (_ & _ & q & Hq & Ha). apply Hna. by replace p with q by congruence.
    - destruct (entry s r' r) as [x|] eqn:E; [|done]. destruct (eo_asked _ I r' r x Hlt E) as (q & Hq & Ha).
      destruct Hna. by replace p with q by congruence. }
  split; [rewrite Hpcs, length_insert; apply I|done|done|done|..].
  - intros r' p''. rewrite Hpcs. destruct (decide (r' = r)) as [->|Hne].
    { rewrite list_lookup_insert_eq by (rewrite (eo_pcs _ I); done). by intros [= <-]. }
    rewrite list_lookup_insert_ne by done. intros Hp''. pose proof (eo_rank _ I r' p'' Hp'') as Hok.
    pose proof (served_ext s s' r' (fun c => Hent r' c Hne)) as Hsv.
    destruct p''; cbn in Hok |- *; rewrite ?Hsv; try done.
    + destruct Hok as (H1 & H2 & H3 & H4 & H5 & H6). rewrite Hent by done. split_and!; try done; try lia; [|by apply Hask].
      destruct (Hwait r' Hne) as [->|(q & Hq & -> & Hlt & Hna & _)]; [done|]. rewrite Hq in H5. cbn in *.
      rewrite not_elem_of_app, list_elem_of_singleton. split; [done|]. intros ->.
      destruct H6 as (q' & Hq' & Ha). apply Hna. by replace p with q' by congruence.
    + destruct Hok as (H1 & H2 & H3). split_and!; try done. intros j Hj. rewrite Hent by done. by apply H3.
    + destruct Hok as (H1 & H2 & H3). split_and!; try done. intros j Hj. rewrite Hent by done. by apply H3.
    + destruct Hok as (H2 & H3). split_and!; try done. intros j Hj. rewrite Hent by done. by apply H3.
  - intros r'. destruct (decide (r' = r)) as [->|Hne]; [done|]. pose proof (eo_nodup _ I r') as Hd.
    destruct (Hwait r' Hne) as [->|(q & Hq & -> & Hlt & Hna & _)]; [done|]. rewrite Hq in Hd. cbn in *.
    apply NoDup_app. split_and!; [done| |apply NoDup_singleton]. intros x Hx Hx1. apply list_elem_of_singleton in Hx1 as ->.
    destruct (Hnew r' Hne Hlt Hna) as [H _]. rewrite Hq in H. done.
  - intros r' c Hin. destruct (decide (r' = r)) as [->|Hne].
    { destruct (Hself c Hin) as [Hin' He]. destruct (eo_wait _ I r c Hin') as (H1 & _ & H3). split_and!; [lia|lia|done|by apply Hask]. }
    rewrite Hent by done. destruct (Hwait r' Hne) as [Hw|(q & Hq & Hw & Hlt & Hna & Ha)]; rewrite Hw in Hin.
    { destruct (eo_wait _ I r' c Hin) as (H1 & H2 & H3). split_and!; [lia|lia|done|by apply Hask]. }
    cbn in Hin. apply elem_of_app in Hin as [Hin|Hin]; [|apply list_elem_of_singleton in Hin as ->].
    + destruct (eo_wait _ I r' c) as (H1 & H2 & H3); [by rewrite Hq|]. split_and!; [lia|lia|done|by apply Hask].
    + destruct (Hnew r' Hne Hlt Hna) as [_ He]. split_and!; [lia|lia|done|]. exists p'. split; [|done].
      rewrite Hpcs. apply list_lookup_insert_eq. rewrite (eo_pcs _ I). done.
  - intros r' c x Hlt E. destruct (decide (r' = r)) as [->|Hne].
    + destruct (Hsock c x Hlt E) as [E'|H]; [apply Hask; by eapply (eo_asked _ I)|by apply Hask].
    + rewrite Hent in E by done. apply Hask. by eapply (eo_asked _ I).
Qed.

Lemma filter_ext_in {A} (P Q : A -> Prop) `{!forall x, Decision (P x), !forall x, Decision (Q x)} (l : list A) :
  (forall x, x ∈ l -> P x <-> Q x) -> filter P l = filter Q l.
Proof.
  induction l as [|x l IH]; intros Hl; [done|]. rewrite !filter_cons, IH by (intros y Hy; apply Hl; by right).
  pose proof (Hl x ltac:(left)). destruct (decide (P x)), (decide (Q x)); naive_solver.
Qed.

(** One more connection of a higher rank. *)
Lemma served_more s s' r c :
  (r < c < n)%nat -> entry s r c = None ->
  (forall k, entry s' r k = if decide (k = c) then Some c else entry s r k) ->
  length (served s' r) = S (length (served s r)).
Proof.
  intros Hc E H. unfold served.
  assert (seq (S r) (n - S r) = seq (S r) (c - S r) ++ c :: seq (S c) (n - S c)) as ->.
  { replace (n - S r)%nat with ((c - S r) + S (n - S c))%nat by lia. rewrite seq_app. cbn. do 2 f_equal; [lia|].
    f_equal. lia. }
  rewrite !filter_app, !filter_cons, (decide_True (P := is_Some (entry s' r c))), (decide_False (P := is_Some (entry s r c)));
    [|rewrite E; by intros [? ?]|rewrite H, decide_True by done; by eexists].
  rewrite !length_app. cbn. rewrite Nat.add_succ_r. do 2 f_equal; [f_equal|f_equal];
    apply filter_ext_in; intros k Hk%elem_of_seq; rewrite H, decide_False by lia; done.
Qed.

Lemma served_client s s' r j c :
  (j < r)%nat -> (forall k, entry s' r k = if decide (k = j) then Some c else entry s r k) -> served s' r = served s r.
Proof.
  intros Hj H. unfold served. apply filter_ext_in. intros k Hk%elem_of_seq. by rewrite H, decide_False by lia.
Qed.

(** Where a rank goes after the server's part. *)
Lemma after_server s r :
  (r < n)%nat -> length (served s r) = (n - S r)%nat -> rank_ok s r (client_next r 0).
Proof. intros Hr Hs. unfold client_next. destruct (Nat.ltb_spec 0 r); cbn; (split_and!; [done..|]); intros; lia. Qed.

Lemma after_accept s r i :
  (r < i <= n)%nat -> length (served s r) = (i - S r)%nat -> rank_ok s r (server_next n r i).
Proof.
  intros Hi Hs. unfold server_next. destruct (Nat.ltb_spec i n); cbn; [split; [lia|done]|].
  apply after_server; [lia|]. rewrite Hs. lia.
Qed.

Lemma waiting_set s r q r' : (r < length (backlog s))%nat ->
  waiting r' (set_backlog r q s) = if decide (r' = r) then q else waiting r' s.
Proof.
  intros Hr. unfold waiting, set_backlog. cbn. destruct (decide (r' = r)) as [->|Hne].
  - by rewrite list_lookup_insert_eq.
  - by rewrite list_lookup_insert_ne.
Qed.

Lemma est_init_ok : est_ok (est_init n).
Proof.
  assert (forall r c, entry (est_init n) r c = None) as He.
  { intros r c. unfold entry. cbn. destruct (replicate n (replicate n None) !! r) as [v|] eqn:E; [|done].
    apply lookup_replicate_1 in E as [-> _]. cbn. destruct (replicate n None !! c) as [x|] eqn:E; [|done].
    by apply lookup_replicate_1 in E as [-> _]. }
  assert (forall r, waiting r (est_init n) = None) as Hw.
  { intros r. unfold waiting. cbn. destruct (replicate n None !! r) as [x|] eqn:E; [|done].
    by apply lookup_replicate_1 in E as [-> _]. }
  split; cbn; rewrite ?length_fmap, ?length_seq, ?length_replicate; try done.
  - intros r v E. apply lookup_replicate_1 in E as [-> _]. apply length_replicate.
  - intros r p E. rewrite list_lookup_fmap in E. destruct (seq 0 n !! r) as [x|] eqn:Ex; [|done].
    apply lookup_seq in Ex as [-> Hlt]. cbn in E. injection E as <-. apply after_accept; [lia|].
    unfold served. rewrite Nat.sub_diag. rewrite (filter_ext_in _ (fun _ => False)) by (intros; rewrite He; split; [by intros [? ?]|done]).
    induction (seq (S r) (n - S r)) as [|x l IH]; [done|]. rewrite filter_cons, decide_False by tauto. exact IH.
  - intros r. rewrite Hw. constructor.
  - intros r c. rewrite Hw. intros H. by apply not_elem_of_nil in H.
  - intros r c x _. by rewrite He.
Qed.

Lemma est_step_ok s s' r : est_ok s -> est_step n r s = Some s' -> est_ok s'.
Proof.
  intros I Hs. unfold est_step in Hs. destruct (pcs s !! r) as [p|] eqn:Hp; [|done].
  assert (r < n)%nat as Hr by (rewrite <- (eo_pcs _ I); by eapply lookup_lt_Some).
  pose proof (eo_rank _ I r p Hp) as Hok. pose proof (eo_backlog _ I) as Hlb. pose proof (eo_socks _ I) as Hls.
  pose proof (eo_rows _ I) as Hrows.
  assert (length (default [] (socks s !! r)) = n) as Hrow.
  { destruct (lookup_lt_is_Some_2 (socks s) r) as [v Hv]; [lia|]. rewrite Hv. by eapply Hrows. }
  destruct p as [i|i|i c|i retry|i| |]; try done.
  - injection Hs as <-. eapply (ok_move s _ r); [done|exact Hp|reflexivity|cbn; by rewrite length_insert|done|done|done|done| | | | |].
    + intros r' Hne. left. change (waiting r' (goto r _ ?x)) with (waiting r' x). by rewrite waiting_set, decide_False by (done || lia).
    + done.
    + change (waiting r (goto r _ ?x)) with (waiting r x). rewrite waiting_set, decide_True by (done || lia). constructor.
    + intros c. change (waiting r (goto r _ ?x)) with (waiting r x). rewrite waiting_set, decide_True by (done || lia).
      intros Hin. by apply not_elem_of_nil in Hin.
    + intros c x Hc E. by left.
  - destruct (waiting r s) as [[|c q]|] eqn:Hw; [done| |done]. injection Hs as <-.
    destruct (eo_wait _ I r c) as (Hc & He & Ha); [rewrite Hw; left|].
    pose proof (eo_nodup _ I r) as Hd. rewrite Hw in Hd. cbn in Hd. apply NoDup_cons in Hd as [Hcq Hd].
    eapply (ok_move s _ r); [done|exact Hp|reflexivity|cbn; by rewrite length_insert|done|done|done|done| | | | |].
    + intros r' Hne. left. change (waiting r' (goto r _ ?x)) with (waiting r' x). rewrite waiting_set, decide_False by (done || lia). done.
    + cbn. destruct Hok as [H1 H2]. change (waiting r (goto r _ ?x)) with (waiting r x).
      rewrite waiting_set, decide_True by (done || lia). split_and!; try done; try lia.
      destruct Ha as (q0 & Hq0 & Ha). exists q0. split; [|done]. rewrite list_lookup_insert_ne by lia. done.
    + change (waiting r (goto r _ ?x)) with (waiting r x). by rewrite waiting_set, decide_True by (done || lia).
    + intros k. change (waiting r (goto r _ ?x)) with (waiting r x). rewrite waiting_set, decide_True by (done || lia).
      cbn. intros Hk. rewrite Hw. split; [cbn; by right|]. destruct (eo_wait _ I r k) as (_ & ? & _); [rewrite Hw; cbn; by right|done].
    + intros k x Hk E. by left.
  - destruct (decide _); [|done]. injection Hs as <-. destruct Hok as (H1 & H2 & H3 & H4 & H5 & H6).
    assert (forall k, entry (set_sock r c c s) r k = if decide (k = c) then Some c else entry s r k) as He.
    { intros k. rewrite entry_set by lia. by destruct (decide (k = c)); [rewrite decide_True|rewrite decide_False by naive_solver]. }
    assert (waiting r (close_server r (set_sock r c c s)) = None) as Hw.
    { unfold close_server. rewrite waiting_set by (cbn; lia). by rewrite decide_True. }
    eapply (ok_move s _ r); [done|exact Hp|reflexivity|cbn; by rewrite length_insert|cbn; by rewrite length_alter| |done| | | | | |].
    + intros k v Hv. cbn in Hv. destruct (decide (k = r)) as [->|Hne].
      * rewrite list_lookup_alter_eq in Hv. destruct (socks s !! r) as [v0|] eqn:Ev; [|done]. cbn in Hv. injection Hv as <-.
        rewrite length_insert. by eapply Hrows.
      * rewrite list_lookup_alter_ne in Hv by done. by eapply Hrows.
    + intros r' k Hne. change (entry (goto _ _ _) r' k) with (entry (set_sock r c c s) r' k). rewrite entry_set by lia.
      by rewrite decide_False by naive_solver.
    + intros r' Hne. left. change (waiting r' (goto r _ ?x)) with (waiting r' x). unfold close_server.
      rewrite waiting_set by (cbn; lia). by rewrite decide_False.
    + change (rank_ok ?x r) with (rank_ok (Est (pcs x) (backlog x) (announced x) (lost x) (socks x)) r).
      apply after_accept; [lia|]. rewrite (served_more s _ r c); [lia|lia|done|]. intros k. apply He.
    + change (waiting r (goto r _ ?x)) with (waiting r x). rewrite Hw. constructor.
    + intros k. change (waiting r (goto r _ ?x)) with (waiting r x). rewrite Hw. intros Hin. by apply not_elem_of_nil in Hin.
    + intros k x Hk E. change (entry _ r k) with (entry (set_sock r c c s) r k) in E. rewrite He in E.
      destruct (decide (k = c)) as [->|]; [right; done|by left].
  - destruct Hok as (H1 & H2 & H3). destruct (waiting i s) as [q|] eqn:Hw; injection Hs as <-.
    + eapply (ok_move s _ r); [done|exact Hp|reflexivity|cbn; by rewrite length_insert|done|done|cbn; lia|done| | | | |].
      * intros r' Hne. change (waiting r' (goto r _ ?x)) with (waiting r' x). rewrite waiting_set by lia.
        destruct (decide (r' = i)) as [->|]; [right|by left]. exists q. cbn. split_and!; [done|done|lia|lia|lia].
      * done.
      * change (waiting r (goto r _ ?x)) with (waiting r x). rewrite waiting_set, decide_False by lia. apply (eo_nodup _ I).
      * intros c. change (waiting r (goto r _ ?x)) with (waiting r x). rewrite waiting_set, decide_False by lia.
        intros Hin. split; [done|]. by destruct (eo_wait _ I r c Hin) as (_ & ? & _).
      * intros c x Hc E. by left.
    + eapply (ok_move s _ r); [done|exact Hp|reflexivity|done|done|done| |done| | | | |].
      * intros k Hk. by destruct (10 <? retry)%nat.
      * by left.
      * by destruct (10 <? retry)%nat.
      * apply (eo_nodup _ I).
      * intros c Hin. split; [done|]. by destruct (eo_wait _ I r c Hin) as (_ & ? & _).
      * intros c x Hc E. by left.
  - destruct Hok as (H1 & H2 & H3). destruct (decide _); injection Hs as <-.
    + eapply (ok_move s _ r); [done|exact Hp|reflexivity|done|done|done|done|done| | | | |]; [by left|done|apply (eo_nodup _ I)| |by left].
      intros c Hin. split; [done|]. by destruct (eo_wait _ I r c Hin) as (_ & ? & _).
    + set (s1 := set_sock r i i (announce r i s)).
      assert (forall k, entry s1 r k = if decide (k = i) then Some i else entry s r k) as He.
      { intros k. unfold s1. rewrite entry_set by (cbn; lia). by destruct (decide (k = i)); [rewrite decide_True|rewrite decide_False by naive_solver]. }
      eapply (ok_move s _ r); [done|exact Hp|reflexivity|done|cbn; by rewrite length_alter| | | | | | | |].
      * intros k v Hv. cbn in Hv. destruct (decide (k = r)) as [->|Hne].
        -- rewrite list_lookup_alter_eq in Hv. destruct (socks s !! r) as [v0|] eqn:Ev; [|done]. cbn in Hv. injection Hv as <-.
           rewrite length_insert. by eapply Hrows.
        -- rewrite list_lookup_alter_ne in Hv by done. by eapply Hrows.
      * intros k Hk. cbn in Hk. unfold client_next. destruct (Nat.ltb_spec (S i) r); cbn; [lia|done].
      * intros r' k Hne. change (entry (goto r _ s1) r' k) with (entry s1 r' k). unfold s1. rewrite entry_set by (cbn; lia).
        by rewrite decide_False by naive_solver.
      * by left.
      * assert (served s1 r = served s r) as Hsv by (by eapply served_client).
        assert (forall j, (j < S i)%nat -> is_Some (entry s1 r j)) as Hj.
        { intros j Hj. rewrite He. destruct (decide (j = i)); [by eexists|]. apply H3. lia. }
        unfold client_next. destruct (Nat.ltb_spec (S i) r); cbn;
          change (served (goto r _ s1) r) with (served s1 r); rewrite Hsv; (split_and!; try done); try lia.
        intros j Hjr. apply Hj. lia.
      * apply (eo_nodup _ I).
      * intros c Hin. split; [done|]. destruct (eo_wait _ I r c Hin) as (? & ? & _).
        change (entry (goto r _ s1) r c) with (entry s1 r c). rewrite He, decide_False by lia. done.
      * intros c x Hc E. change (entry (goto r _ s1) r c) with (entry s1 r c) in E. rewrite He, decide_False in E by lia. by left.
Qed.

Lemma est_reachable_ok s : rtc (est_run n) (est_init n) s -> est_ok s.
Proof.
  intros H. pose proof est_init_ok as I. revert I. induction H as [|s s1 s2 [r Hs] _ IH]; [done|].
  intros I. apply IH. by eapply est_step_ok.
Qed.

Lemma filter_all {A} (P : A -> Prop) `{!forall x, Decision (P x)} (l : list A) :
  length (filter P l) = length l -> Forall P l.
Proof.
  induction l as [|x l IH]; [constructor|]. rewrite filter_cons. pose proof (length_filter P l) as Hle.
  destruct (decide (P x)); cbn; intros E; [constructor; [done|apply IH; lia]|lia].
Qed.

(** The socket vector with [fd] for the entries that have a connection. *)
Definition fds (fd : nat -> Z) (v : list (option nat)) : list Z := (fun o => match o with Some c => fd c | None => -1 end) <$> v.

(** When every rank has returned from [establish_connections], each has a socket for
    each other rank. *)
Lemma est_complete s (fd : nat -> nat -> Z) :
  est_ok s -> (forall r, (r < n)%nat -> pcs s !! r = Some EDone) -> (forall r c, 0 <= fd r c) ->
  full_mesh n (fun r => fds (fd r) (nth r (socks s) [])).
Proof.
  intros I Hd Hfd r Hr. pose proof (eo_rank _ I r EDone (Hd r Hr)) as [Hs Hc].
  destruct (lookup_lt_is_Some_2 (socks s) r) as [v Hv]; [rewrite (eo_socks _ I); done|].
  rewrite (nth_lookup_Some _ _ _ _ Hv). pose proof (eo_rows _ I r v Hv) as Hlen. split; [unfold fds; by rewrite length_fmap|].
  intros i Hi Hne. assert (is_Some (entry s r i)) as [x Hx].
  { destruct (decide (i < r)%nat); [by apply Hc|].
    pose proof (filter_all (fun c => is_Some (entry s r c)) (seq (S r) (n - S r))) as Hall.
    rewrite length_seq in Hall. specialize (Hall Hs). rewrite Forall_forall in Hall. apply Hall, elem_of_seq. lia. }
  unfold entry in Hx. rewrite Hv in Hx. cbn in Hx. destruct (v !! i) as [o|] eqn:Eo; [|done]. cbn in Hx. subst o.
  unfold fds. erewrite nth_lookup_Some; [|rewrite list_lookup_fmap, Eo; reflexivity]. apply Hfd.
Qed.

End Complete.

(** C24: the whole benchmark.  When all ranks have returned from
    [establish_connections], each has a socket for each other rank; and then, for any
    number of ranks, however they are interleaved and their streams are split by
    [send] and [recv], all ranks come to the end of [tcp_test_main] after a bounded
    number of steps, without a deadlock between its barriers, broadcasts, all-reduces
    and the collection of times, with nothing left in a connection.  If adding the
    first contribution to zero gives it back and the expected sum is not far from
    itself (it is a number), every rank's check of every round succeeds.  That all
    ranks return from [establish_connections] is not certain: a client may give up,
    and with three ranks a connection can be lost ([establish_three_loses]). *)
Theorem tcp_test_main_ends cap n fadd far dgt s fd ds M :
  (1 <= cap)%nat -> (1 <= n)%nat -> (forall x y, is_u 32 (fadd x y)) ->
  rtc (est_run n) (est_init n) s -> (forall r, (r < n)%nat -> pcs s !! r = Some EDone) -> (forall r c, 0 <= fd r c) ->
  Forall (round_ok n fadd far) ds -> between n 0 M ->
  let sockets r := fds (fd r) (nth r (socks s) []) in
  full_mesh n sockets /\
  exists M', every_run cap (at_phase n (fun r => tcp_test_main fadd far dgt ds r n (sockets r)) M) (idle n M') /\
    forall r, (r < n)%nat -> verdicts (M' r) = replicate (length ds) true.
Proof.
  intros Hc Hn Hf Hr Hd Hfd Hds HM sockets.
  pose proof (est_complete n s fd (est_reachable_ok n s Hr) Hd Hfd) as Hmesh.
  split; [done|]. by apply tcp_test_main_on_mesh.
Qed.

Lemma est_moves_run n rs s s' : est_moves n rs s = Some s' -> rtc (est_run n) s s'.
Proof.
  revert s. induction rs as [|r rs IH]; intros s; cbn; [by intros [= <-]|].
  destruct (est_step n r s) as [s1|] eqn:E; [|done]. intros H. eapply rtc_l; [by exists r|by apply IH].
Qed.

(** Three ranks that connect one after the other. *)
Definition orderly : list nat := [0; 2; 2; 0; 0; 1; 2; 2; 1; 1; 0; 1; 1; 0; 0]%nat.
Definition set_up3 : est := default (est_init 3) (est_moves 3 orderly (est_init 3)).

Lemma tcp_test_main_ends_witness :
  let sockets r := fds (fun c => 3 + Z.of_nat c) (nth r (socks set_up3) []) in
  full_mesh 3 sockets /\
  exists M', every_run 1 (at_phase 3 (fun r => tcp_test_main add32 near later [round3] r 3 (sockets r)) mem3) (idle 3 M') /\
    forall r, (r < 3)%nat -> verdicts (M' r) = replicate (length [round3]) true.
Proof.
  apply (tcp_test_main_ends 1 3 add32 near later set_up3 (fun _ c => 3 + Z.of_nat c) [round3] mem3).
  - lia.
  - lia.
  - exact add32_range.
  - apply (est_moves_run 3 orderly). vm_compute. reflexivity.
  - intros r Hr. destruct r as [|[|[|r]]]; [vm_compute; reflexivity..|lia].
  - intros r c. lia.
  - repeat constructor; cbn; try done; unfold is_u; lia.
  - intros r Hr. done.
Defined.

(** ** Two ranks *)

(** The states two ranks go through. *)
Inductive two : est -> Prop :=
  | two_start k : (k <= 11)%nat -> two (Est [EListen 1; EConnect 0 k] [None; None] [] [] [[None; None]; [None; None]])
  | two_listening k : (k <= 11)%nat -> two (Est [EAccept 1; EConnect 0 k] [Some []; None] [] [] [[None; None]; [None; None]])
  | two_requested : two (Est [EAccept 1; ESend 0] [Some [1%nat]; None] [] [] [[None; None]; [None; None]])
  | two_announced : two (Est [EAccept 1; EDone] [Some [1%nat]; None] [(1, 0)%nat] [] [[None; None]; [Some 0%nat; None]])
  | two_accepted : two (Est [ERank 1 1; ESend 0] [Some []; None] [] [] [[None; None]; [None; None]])
  | two_both : two (Est [ERank 1 1; EDone] [Some []; None] [(1, 0)%nat] [] [[None; None]; [Some 0%nat; None]])
  | two_done : two (Est [EDone; EDone] [None; None] [(1, 0)%nat] [] [[None; Some 1%nat]; [Some 0%nat; None]])
  | two_late : two (Est [EListen 1; EExit] [None; None] [] [] [[None; None]; [None; None]])
  | two_alone : two (Est [EAccept 1; EExit] [Some []; None] [] [] [[None; None]; [None; None]]).

Lemma two_step s s' : two s -> est_run 2 s s' -> two s'.
Proof.
  intros H [r Hr]. destruct r as [|[|r]]; destruct H; cbn -[Nat.ltb] in Hr; simplify_eq; try done; try (by constructor);
    try (vm_compute in Hr; simplify_eq; by constructor).
  destruct (Nat.ltb_spec 10 k); simplify_eq; constructor. lia.
Qed.

Lemma two_reachable s : rtc (est_run 2) (est_init 2) s -> two s.
Proof.
  intros H. assert (two (est_init 2)) as I by (apply (two_start 0); lia). revert I.
  induction H as [|s s1 s2 Hs _ IH]; [done|]. intros I. apply IH. by eapply two_step.
Qed.

(** With two ranks the set-up works: no connection is lost, and when neither rank can
    go on the client has given up after twelve attempts or both have the socket of
    the other, which is what the collective operations need. *)
Theorem establish_two s :
  rtc (est_run 2) (est_init 2) s ->
  lost s = [] /\
  ((forall s', ~ est_run 2 s s') ->
   pcs s !! 1%nat = Some EExit \/
   (pcs s = [EDone; EDone] /\
    forall fd : nat -> Z, (forall c, 0 <= fd c) -> full_mesh 2 (fun r => fds fd (nth r (socks s) [])))).
Proof.
  intros H. apply two_reachable in H. split; [by destruct H|]. intros Hn.
  destruct H; try (by left); try (exfalso; eapply Hn; exists 0%nat; reflexivity);
    try (exfalso; eapply Hn; exists 1%nat; reflexivity).
  right. split; [done|]. intros fd Hfd r Hr. destruct r as [|[|r]]; [..|lia]; (split; [done|]);
    intros i Hi Hir; destruct i as [|[|i]]; try lia; apply Hfd.
Qed.

Lemma establish_two_witness :
  lost (Est [EDone; EDone] [None; None] [(1, 0)%nat] [] [[None; Some 1%nat]; [Some 0%nat; None]]) = [] /\
  est_moves 2 [0; 1; 1; 0; 0]%nat (est_init 2) =
    Some (Est [EDone; EDone] [None; None] [(1, 0)%nat] [] [[None; Some 1%nat]; [Some 0%nat; None]]).
Proof. split; [|reflexivity]. apply establish_two. do 5 (eapply rtc_l; [by first [exists 0%nat; reflexivity|exists 1%nat; reflexivity]|]). apply rtc_refl. Defined.

(** ** Three ranks *)

(** With three ranks a connection can be lost.  Rank 2 connects to 0 and to 1; rank 1
    accepts it and connects to 0 while the request of 2 still waits in the same
    backlog; rank 0 accepts 2 and closes the listening socket, which resets the
    connection of 1.  Rank 1 has gone on as if connected; rank 0 listens again and
    waits for ever, since nobody will connect. *)
Definition lossy : list nat := [0; 1; 2; 2; 2; 2; 1; 1; 1; 1; 0; 0; 0]%nat.

Theorem establish_three_loses :
  exists s, est_moves 3 lossy (est_init 3) = Some s /\
    pcs s = [EAccept 2; EDone; EDone] /\ lost s = [(1, 0)%nat] /\
    nth 1 (socks s) [] !! 0%nat = Some (Some 0%nat) /\ nth 0 (socks s) [] !! 1%nat = Some None /\
    forall r, est_step 3 r s = None.
Proof.
  eexists. split; [vm_compute; reflexivity|]. repeat split. intros r. by destruct r as [|[|[|r]]].
Qed.
