(* ===== verification/NcclBench.v ===== *)
(** * NcclBench: the benchmark on graphics processors

    Models [network/nccl/nccl_multi_node.cu], one process per device.  CUDA, NCCL and
    MPI are not in the repository.  Of their collective calls the model has
    what their documentation promises: the k-th call of a participant belongs to the
    k-th call of each other one; a call returns at the earliest when the data its
    result depends on has been contributed, and nothing more is said about waiting
    (the root of a broadcast, say, need not wait for the receivers); a sum is added
    in some order and grouping, which may differ from call to call, rank to rank and
    element to element (class [NcclSum]).  An operation of NCCL is launched on a
    stream and awaited at once, which is one call here.

    Participants run interleaved, and any call that is checked may fail, which ends
    that process; the reference is the execution of the program in lockstep. *)

From Stdlib Require Import ZArith Lia.
From stdpp Require Import base list relations.
From S2P Require Import Prelude Bytes TcpBench.

(** ** Participants *)

(** The variables of a process.  Buffers are lists of floats,
    absent when not allocated; [verdict] is what the checks found, in order. *)
Record gmem := Gmem {
  nccl_id : option Z; comm : option Z;
  dsend : option (list Z); drecv : option (list Z); hsend : option (list Z); hrecv : option (list Z);
  stream : bool; t_elapsed : list Z; t_max : list Z; verdict : list bool
}.

Inductive coll := MPI_Bcast_id | ncclCommInitRank | MPI_Barrier | ncclBroadcast | ncclAllReduce | MPI_Reduce_max.

#[global] Instance coll_eq_dec : EqDecision coll.
Proof. solve_decision. Defined.

(** What every participant does at one place of the program: work of its own, with
    calls whose failure is [checked] in it or not, where [None] is an access to
    something that is not there; or a collective call, whose failure is checked. *)
Inductive instr := Own (checked : bool) (f : nat -> gmem -> option gmem) | Coll (c : coll).

Definition checked (i : instr) : bool := match i with Own b _ => b | Coll _ => true end.

(** Sums added in some order and grouping. *)
Inductive sum_of (fadd : Z -> Z -> Z) : list Z -> Z -> Prop :=
  | sum_one x : sum_of fadd [x] x
  | sum_add l l1 l2 x y : l ≡ₚ l1 ++ l2 -> sum_of fadd l1 x -> sum_of fadd l2 y -> sum_of fadd l (fadd x y).

Class NcclSum (fadd : Z -> Z -> Z) := {
  nccl_sum : nat -> nat -> nat -> list Z -> Z;         (** call, rank, element *)
  nccl_sum_ok o r j l : l <> [] -> sum_of fadd l (nccl_sum o r j l)
}.

Definition set_id x (m : gmem) := Gmem x (comm m) (dsend m) (drecv m) (hsend m) (hrecv m) (stream m) (t_elapsed m) (t_max m) (verdict m).
Definition set_comm x (m : gmem) := Gmem (nccl_id m) x (dsend m) (drecv m) (hsend m) (hrecv m) (stream m) (t_elapsed m) (t_max m) (verdict m).
Definition set_dsend x (m : gmem) := Gmem (nccl_id m) (comm m) x (drecv m) (hsend m) (hrecv m) (stream m) (t_elapsed m) (t_max m) (verdict m).
Definition set_drecv x (m : gmem) := Gmem (nccl_id m) (comm m) (dsend m) x (hsend m) (hrecv m) (stream m) (t_elapsed m) (t_max m) (verdict m).
Definition set_hsend x (m : gmem) := Gmem (nccl_id m) (comm m) (dsend m) (drecv m) x (hrecv m) (stream m) (t_elapsed m) (t_max m) (verdict m).
Definition set_hrecv x (m : gmem) := Gmem (nccl_id m) (comm m) (dsend m) (drecv m) (hsend m) x (stream m) (t_elapsed m) (t_max m) (verdict m).
Definition set_stream x (m : gmem) := Gmem (nccl_id m) (comm m) (dsend m) (drecv m) (hsend m) (hrecv m) x (t_elapsed m) (t_max m) (verdict m).
Definition set_elapsed x (m : gmem) := Gmem (nccl_id m) (comm m) (dsend m) (drecv m) (hsend m) (hrecv m) (stream m) x (t_max m) (verdict m).
Definition set_tmax x (m : gmem) := Gmem (nccl_id m) (comm m) (dsend m) (drecv m) (hsend m) (hrecv m) (stream m) (t_elapsed m) x (verdict m).
Definition add_verdict x (m : gmem) := Gmem (nccl_id m) (comm m) (dsend m) (drecv m) (hsend m) (hrecv m) (stream m) (t_elapsed m) (t_max m) (verdict m ++ [x]).

Section Team.
Context (fadd : Z -> Z -> Z) `{NcclSum fadd} (dmax : list Z -> list Z -> list Z) (n : nat).

(** ** Collective calls *)

(** The ranks whose contributions the result at a rank depends on. *)
Definition needs (c : coll) (rank : nat) : list nat :=
  match c with
  | MPI_Barrier | ncclCommInitRank | ncclAllReduce => seq 0 n
  | MPI_Bcast_id | ncclBroadcast => [0%nat]
  | MPI_Reduce_max => if (rank =? 0)%nat then seq 0 n else []
  end.

Definition joined (m0 m : gmem) : bool := stream m && bool_decide (is_Some (comm m)) && bool_decide (comm m = comm m0).
Definition column (bs : list (list Z)) (j : nat) : list Z := (fun b => nth j b 0) <$> bs.
Definition reduced (o rank : nat) (bs : list (list Z)) : list Z :=
  (fun j => nccl_sum o rank j (column bs j)) <$> seq 0 (length (hd [] bs)).

(** The result at [rank] of the call with number [o], from the contributions [cs] of
    the ranks it needs; [None] when the arguments do not fit each other. *)
Definition outcome (c : coll) (o rank : nat) (cs : list gmem) (m : gmem) : option gmem :=
  match c with
  | MPI_Barrier => Some m
  | MPI_Bcast_id => m0 ← head cs; Some (set_id (nccl_id m0) m)
  | ncclCommInitRank =>
      id ← nccl_id m;
      if forallb (fun m' => bool_decide (nccl_id m' = Some id)) cs then Some (set_comm (Some id) m) else None
  | MPI_Reduce_max =>
      match cs with
      | m0 :: cs' => Some (set_tmax (foldl dmax (t_elapsed m0) (t_elapsed <$> cs')) m)
      | [] => Some m
      end
  | ncclBroadcast =>
      m0 ← head cs; b0 ← dsend m0; b ← dsend m;
      if joined m0 m && (length b =? length b0)%nat then Some (set_dsend (Some b0) m) else None
  | ncclAllReduce =>
      b ← dsend m; d ← drecv m; bs ← mapM dsend cs;
      if forallb (joined m) cs && forallb (fun b' => (length b' =? length b)%nat) (d :: bs)
      then Some (set_drecv (Some (reduced o rank bs)) m) else None
  end.

(** What [i] does at [rank], with the contributions of the ranks at hand. *)
Definition result (i : instr) (o rank : nat) (get : nat -> option gmem) (m : gmem) : option gmem :=
  match i with
  | Own _ f => f rank m
  | Coll c => cs ← mapM get (needs c rank); outcome c o rank cs m
  end.

(** ** Interleaved *)

Inductive status := Running | Exited | Crashed.
#[global] Instance status_eq_dec : EqDecision status.
Proof. solve_decision. Defined.

(** A participant: its place in the program, whether it is inside the collective call
    there, its variables and what it contributed to each call so far. *)
Record part := Part { pos : nat; inside : bool; gm : gmem; posts : list (coll * gmem); status_of : status }.

Definition next (m : gmem) (p : part) : part := Part (S (pos p)) false m (posts p) Running.
Definition stop (x : status) (p : part) : part := Part (pos p) (inside p) (gm p) (posts p) x.
Definition enter (c : coll) (p : part) : part := Part (pos p) true (gm p) (posts p ++ [(c, gm p)]) Running.
Definition finish (r : option gmem) (p : part) : part := match r with Some m => next m p | None => stop Crashed p end.

(** The contribution of [j] to call [o], if it is a call of [c]. *)
Definition posted (s : list part) (c : coll) (o j : nat) : option gmem :=
  q ← s !! j; x ← posts q !! o; if bool_decide (fst x = c) then Some (snd x) else None.

Inductive move := Go (i : nat) | Fail (i : nat).

Definition team_do (pr : list instr) (mv : move) (s : list part) : option (list part) :=
  match mv with
  | Go i =>
      p ← s !! i;
      if bool_decide (status_of p = Running) then
        ins ← pr !! pos p;
        match ins with
        | Own _ f => Some (<[i := finish (f i (gm p)) p]> s)
        | Coll c =>
            if inside p then
              let o := pred (length (posts p)) in
              cs ← mapM (posted s c o) (needs c i); Some (<[i := finish (outcome c o i cs (gm p)) p]> s)
            else Some (<[i := enter c p]> s)
        end
      else None
  | Fail i =>
      p ← s !! i;
      if bool_decide (status_of p = Running) then
        ins ← pr !! pos p; if checked ins then Some (<[i := stop Exited p]> s) else None
      else None
  end.

Definition team_step (pr : list instr) (s s' : list part) : Prop := exists mv, team_do pr mv s = Some s'.
Definition started (ms : list gmem) : list part := (fun m => Part 0 false m [] Running) <$> ms.

(** ** In lockstep *)

Definition is_coll (i : instr) : nat := match i with Own _ _ => 0 | Coll _ => 1 end.

Definition exec_instr (o : nat) (i : instr) (ms : list gmem) : option (list gmem) :=
  mapM (fun r => m ← ms !! r; result i o r (fun j => ms !! j) m) (seq 0 n).

Fixpoint exec (o : nat) (pr : list instr) (ms : list gmem) : option (list gmem) :=
  match pr with [] => Some ms | i :: pr => ms' ← exec_instr o i ms; exec (o + is_coll i) pr ms' end.

Definition ncoll (pr : list instr) : nat := sum_list_with is_coll pr.

Lemma exec_app o p q ms : exec o (p ++ q) ms = exec o p ms ≫= exec (o + ncoll p) q.
Proof.
  revert o ms. induction p as [|i p IH]; intros o ms; cbn; [by rewrite Nat.add_0_r|].
  destruct (exec_instr o i ms) as [ms'|]; [|done]. cbn. by rewrite IH, Nat.add_assoc.
Qed.

Lemma exec_instr_spec o i ms ms' :
  exec_instr o i ms = Some ms' ->
  length ms' = n /\ forall r m, (r < n)%nat -> ms !! r = Some m -> result i o r (fun j => ms !! j) m = ms' !! r.
Proof.
  intros E. unfold exec_instr in E. split.
  - apply length_mapM in E. by rewrite length_seq in E.
  - intros r m Hr Hm. apply mapM_Some in E. rewrite Forall2_lookup in E. specialize (E r).
    rewrite lookup_seq_lt in E by done. inversion E as [x y E1 Ex Ey|]. cbn in E1. rewrite Hm in E1. done.
Qed.

(** *** Every run follows the lockstep execution *)

Context (pr : list instr) (ms0 ms1 : list gmem) (ms0_len : length ms0 = n) (whole : exec 0 pr ms0 = Some ms1).

(** The participants before instruction [k]. *)
Definition ref (k : nat) : option (list gmem) := exec 0 (take k pr) ms0.

Lemma ref_step k i : pr !! k = Some i ->
  exists ms ms', ref k = Some ms /\ ref (S k) = Some ms' /\ exec_instr (ncoll (take k pr)) i ms = Some ms'.
Proof.
  intros Hk. unfold ref. rewrite (take_S_r _ _ _ Hk), exec_app. pose proof whole as E.
  rewrite <- (take_drop_middle pr k i Hk), exec_app in E. destruct (exec 0 (take k pr) ms0) as [ms|]; [|done].
  cbn in E |- *. destruct (exec_instr _ i ms) as [ms'|] eqn:Ei; [|done]. cbn. by exists ms, ms'.
Qed.

Lemma ref_length k ms : ref k = Some ms -> length ms = n.
Proof.
  revert ms. induction k as [|k IH]; intros ms E; [unfold ref in E; rewrite take_0 in E; injection E as <-; exact ms0_len|].
  destruct (pr !! k) as [i|] eqn:Hk.
  - destruct (ref_step k i Hk) as (m1 & m2 & _ & E2 & E3). rewrite E in E2. injection E2 as ->.
    by apply exec_instr_spec in E3 as [? _].
  - apply IH. unfold ref in *. apply lookup_ge_None in Hk. by rewrite !take_ge in * by lia.
Qed.

(** What [r] has contributed when it comes to instruction [k]. *)
Fixpoint history (r k : nat) : list (coll * gmem) :=
  match k with
  | O => []
  | S k => history r k ++
      match pr !! k, ref k ≫= lookup r with Some (Coll c), Some m => [(c, m)] | _, _ => [] end
  end.

Lemma history_S r k c : (r < n)%nat -> pr !! k = Some (Coll c) ->
  exists ms m, ref k = Some ms /\ ms !! r = Some m /\ history r (S k) = history r k ++ [(c, m)].
Proof.
  intros Hr Hk. destruct (ref_step k _ Hk) as (ms & _ & E & _). pose proof (ref_length k ms E) as Hl.
  destruct (lookup_lt_is_Some_2 ms r ltac:(lia)) as [m Hm]. exists ms, m. cbn. rewrite Hk, E. cbn. by rewrite Hm.
Qed.

Lemma history_length r k : (r < n)%nat -> length (history r k) = ncoll (take k pr).
Proof.
  intros Hr. induction k as [|k IH]; [done|]. destruct (pr !! k) as [[b f|c]|] eqn:Hk.
  - cbn. rewrite Hk, app_nil_r, (take_S_r _ _ _ Hk). unfold ncoll in *. rewrite sum_list_with_app. cbn. lia.
  - destruct (history_S r k c Hr Hk) as (ms & m & _ & _ & ->). rewrite length_app, (take_S_r _ _ _ Hk).
    unfold ncoll in *. rewrite sum_list_with_app. cbn. lia.
  - cbn. rewrite Hk, app_nil_r. apply lookup_ge_None in Hk. by rewrite IH, !take_ge by lia.
Qed.

Lemma history_mono r k k' : (k <= k')%nat -> history r k `prefix_of` history r k'.
Proof. induction 1 as [|k' _ IH]; [done|]. etransitivity; [exact IH|]. by apply prefix_app_r. Qed.

(** The contribution to a call is there exactly if the call was entered. *)
Lemma history_lookup r k k' c : (r < n)%nat -> pr !! k = Some (Coll c) ->
  history r k' !! ncoll (take k pr) =
    if (k <? k')%nat then (fun m => (c, m)) <$> (ref k ≫= lookup r) else None.
Proof.
  intros Hr Hk. destruct (Nat.ltb_spec k k') as [Hlt|Hge].
  - destruct (history_S r k c Hr Hk) as (ms & m & -> & Hm & Hh). cbn. rewrite Hm. cbn.
    eapply prefix_lookup_Some; [|apply (history_mono r (S k)); lia]. rewrite Hh, <- (history_length r k Hr).
    by rewrite lookup_app_r, Nat.sub_diag by lia.
  - apply lookup_ge_None. rewrite <- (history_length r k Hr). apply prefix_length. by apply history_mono.
Qed.

Record part_ok (r : nat) (p : part) : Prop := MkPartOk {
  ok_gm : ref (pos p) ≫= lookup r = Some (gm p);
  ok_status : status_of p <> Crashed;
  ok_inside : inside p = true -> exists c, pr !! pos p = Some (Coll c);
  ok_posts : posts p = history r (if inside p then S (pos p) else pos p)
}.

Definition team_ok (s : list part) : Prop := length s = n /\ forall r p, s !! r = Some p -> part_ok r p.

Lemma started_ok : team_ok (started ms0).
Proof.
  unfold started. split; [by rewrite length_fmap|]. intros r p. rewrite list_lookup_fmap.
  destruct (ms0 !! r) as [m|] eqn:Hm; [|done]. intros [= <-]. by constructor.
Qed.

Lemma team_ok_insert s i p : team_ok s -> part_ok i p -> team_ok (<[i := p]> s).
Proof.
  intros [Hl Hs] Hp. split; [by rewrite length_insert|]. intros r q Hq.
  apply list_lookup_insert_Some in Hq as [(-> & <- & _)|[_ Hq]]; [done|by apply Hs].
Qed.

(** Contributions found are those of the lockstep execution. *)
Lemma posted_ok s c k ms j m :
  team_ok s -> pr !! k = Some (Coll c) -> ref k = Some ms ->
  posted s c (ncoll (take k pr)) j = Some m -> ms !! j = Some m.
Proof.
  intros [Hl Hs] Hk Href Hp. unfold posted in Hp. destruct (s !! j) as [q|] eqn:Hq; [|done]. cbn in Hp.
  assert (j < n)%nat as Hj by (rewrite <- Hl; by eapply lookup_lt_Some).
  rewrite (ok_posts j q (Hs j q Hq)), (history_lookup j k _ c Hj Hk), Href in Hp.
  destruct (k <? _)%nat; [|done]. cbn in Hp. destruct (ms !! j) as [m'|]; [|done]. cbn in Hp.
  rewrite bool_decide_eq_true_2 in Hp by done. done.
Qed.

Lemma finish_ok s r p ins :
  team_ok s -> s !! r = Some p -> pr !! pos p = Some ins -> posts p = history r (S (pos p)) ->
  forall ms, ref (pos p) = Some ms ->
  team_ok (<[r := finish (result ins (ncoll (take (pos p) pr)) r (fun j => ms !! j) (gm p)) p]> s).
Proof.
  intros HI Hp Hins Hpo ms Href. apply team_ok_insert; [done|]. destruct HI as [Hl Hs]. pose proof (Hs r p Hp) as Hok.
  assert (r < n)%nat as Hr by (rewrite <- Hl; by eapply lookup_lt_Some).
  destruct (ref_step (pos p) ins Hins) as (ms' & ms2 & E1 & E2 & E3). rewrite Href in E1. injection E1 as <-.
  destruct (exec_instr_spec _ _ _ _ E3) as [Hl2 Hres]. pose proof (ok_gm r p Hok) as Hg. rewrite Href in Hg. cbn in Hg.
  rewrite (Hres r (gm p) Hr Hg). destruct (lookup_lt_is_Some_2 ms2 r ltac:(lia)) as [m2 Hm2]. rewrite Hm2. cbn.
  constructor; cbn [pos inside gm posts status_of next]; [rewrite E2; exact Hm2|done|done|done].
Qed.

Lemma own_history r k b f : pr !! k = Some (Own b f) -> history r (S k) = history r k.
Proof. intros Hk. cbn. by rewrite Hk, app_nil_r. Qed.

Lemma team_step_ok s s' : team_ok s -> team_step pr s s' -> team_ok s'.
Proof.
  intros HI [mv Hd]. destruct mv as [i|i]; cbn in Hd; (destruct (s !! i) as [p|] eqn:Hp; [|done]); cbn in Hd;
    (destruct (bool_decide (status_of p = Running)); [|done]);
    (destruct (pr !! pos p) as [ins|] eqn:Hins; [|done]); cbn in Hd; pose proof (proj2 HI i p Hp) as Hok.
  - assert (i < n)%nat as Hi by (rewrite <- (proj1 HI); by eapply lookup_lt_Some).
    destruct (ref_step (pos p) ins Hins) as (ms & _ & Href & _).
    destruct ins as [b f|c].
    + injection Hd as <-. destruct (inside p) eqn:Hin; [destruct (ok_inside i p Hok Hin); congruence|].
      refine (finish_ok s i p (Own b f) HI Hp Hins _ ms Href). by rewrite (own_history _ _ _ _ Hins), (ok_posts i p Hok), Hin.
    + destruct (inside p) eqn:Hin; cbn in Hd.
      * assert (posts p = history i (S (pos p))) as Hpo by (by rewrite (ok_posts i p Hok), Hin).
        assert (pred (length (posts p)) = ncoll (take (pos p) pr)) as Ho.
        { destruct (history_S i (pos p) c Hi Hins) as (? & ? & _ & _ & Hh).
          rewrite Hpo, Hh, length_app, (history_length i _ Hi). cbn. lia. }
        rewrite Ho in Hd. destruct (mapM (posted s c _) (needs c i)) as [cs|] eqn:Hcs; [|done]. injection Hd as <-.
        assert (mapM (fun j => ms !! j) (needs c i) = Some cs) as Hcs'.
        { apply mapM_Some in Hcs. apply mapM_Some. eapply Forall2_impl; [exact Hcs|]. intros j m. by apply posted_ok. }
        pose proof (finish_ok s i p (Coll c) HI Hp Hins Hpo ms Href) as Hf. cbn in Hf. by rewrite Hcs' in Hf.
      * injection Hd as <-. apply team_ok_insert; [done|]. constructor; cbn [pos inside gm posts status_of enter]; [apply (ok_gm i p Hok)|done|by eauto|].
        destruct (history_S i (pos p) c Hi Hins) as (ms' & m & E & Hm & Hh). rewrite Hh, (ok_posts i p Hok), Hin.
        pose proof (ok_gm i p Hok) as Hg. rewrite E in Hg. cbn in Hg. rewrite Hm in Hg. congruence.
  - destruct (checked ins); [|done]. injection Hd as <-. apply team_ok_insert; [done|].
    destruct Hok as [H1 H2 H3 H4]. by constructor.
Qed.
(** *** Every run ends *)

Definition weight (p : part) : nat :=
  if bool_decide (status_of p = Running) then (2 * (length pr - pos p) + if inside p then 0 else 1)%nat else 0%nat.

Lemma weight_done i p ins r : pr !! pos p = Some ins -> status_of p = Running -> i = finish r p -> (weight i < weight p)%nat.
Proof.
  intros Hp Hs ->. pose proof (lookup_lt_Some _ _ _ Hp) as Hlt. unfold weight. rewrite (bool_decide_eq_true_2 (status_of p = _)) by done.
  destruct r; cbn [finish next stop status_of pos inside];
    [rewrite bool_decide_eq_true_2 by done|rewrite bool_decide_eq_false_2 by done]; destruct (inside p); lia.
Qed.

Lemma team_step_weight s s' : team_step pr s s' -> (sum_list_with weight s' < sum_list_with weight s)%nat.
Proof.
  intros [mv Hd]. destruct mv as [i|i]; cbn in Hd; (destruct (s !! i) as [p|] eqn:Hp; [|done]); cbn in Hd;
    (destruct (bool_decide_reflect (status_of p = Running)) as [Hst|]; [|done]);
    (destruct (pr !! pos p) as [ins|] eqn:Hins; [|done]); cbn in Hd.
  - assert (exists q, s' = <[i := q]> s /\ (weight q < weight p)%nat) as (q & -> & Hw).
    { destruct ins as [b f|c]; [injection Hd as <-; eexists; split; [done|]; by eapply weight_done|].
      destruct (inside p) eqn:Hin; cbn in Hd.
      - destruct (mapM _ _); [|done]. injection Hd as <-. eexists. split; [done|]. by eapply weight_done.
      - injection Hd as <-. eexists. split; [done|]. unfold weight. cbn [enter status_of pos inside].
        rewrite (bool_decide_eq_true_2 (status_of p = _)), bool_decide_eq_true_2, Hin by done. lia. }
    pose proof (sum_insert weight s i p q Hp). lia.
  - destruct (checked ins); [|done]. injection Hd as <-. pose proof (sum_insert weight s i p (stop Exited p) Hp) as Hs.
    assert (weight (stop Exited p) = 0%nat) as E by done. assert (0 < weight p)%nat; [|lia].
    apply lookup_lt_Some in Hins. unfold weight. rewrite bool_decide_eq_true_2 by done. lia.
Qed.

Lemma team_bounded k s : nsteps (team_step pr) k (started ms0) s -> (k <= n * (2 * length pr + 1))%nat.
Proof.
  intros Hk. assert (k + sum_list_with weight s <= sum_list_with weight (started ms0))%nat as Hb.
  { induction Hk as [|k x y z Hxy _ IH]; [lia|]. apply team_step_weight in Hxy. lia. }
  assert (sum_list_with weight (started ms0) = n * (2 * length pr + 1))%nat; [|lia].
  rewrite <- ms0_len. unfold started. clear. induction ms0 as [|m ms IH]; [done|]. rewrite fmap_cons. cbn [sum_list_with length].
  rewrite IH. unfold weight. rewrite bool_decide_eq_true_2 by done. cbn [pos inside]. lia.
Qed.

Lemma least {A} (f : A -> nat) (l : list A) : l <> [] -> exists i x, l !! i = Some x /\ forall j y, l !! j = Some y -> (f x <= f y)%nat.
Proof.
  induction l as [|x l IH]; [done|]. intros _. destruct l as [|x' l].
  - exists 0%nat, x. split; [done|]. intros [|j] y Hy; [by injection Hy as <-|done].
  - destruct (IH ltac:(done)) as (i & z & Hi & Hz). destruct (Nat.le_gt_cases (f x) (f z)) as [Hle|Hgt].
    + exists 0%nat, x. split; [done|]. intros [|j] y Hy; [by injection Hy as <-|]. specialize (Hz j y Hy). lia.
    + exists (S i), z. split; [done|]. intros [|j] y Hy; [injection Hy as <-; lia|by apply (Hz j y)].
Qed.

(** Participants that have come far enough have contributed. *)
Lemma posted_there s c k j q ms :
  team_ok s -> pr !! k = Some (Coll c) -> ref k = Some ms -> s !! j = Some q ->
  (k <= pos q)%nat -> (pos q = k -> inside q = true) -> is_Some (posted s c (ncoll (take k pr)) j).
Proof.
  intros [Hl Hs] Hk Href Hq Hle Hin. assert (j < n)%nat as Hj by (rewrite <- Hl; by eapply lookup_lt_Some).
  unfold posted. rewrite Hq. cbn. rewrite (ok_posts j q (Hs j q Hq)), (history_lookup j k _ c Hj Hk), Href.
  rewrite (proj2 (Nat.ltb_lt k _)) by (destruct (inside q); [lia|]; destruct (decide (pos q = k)); [by specialize (Hin e)|lia]).
  cbn. destruct (lookup_lt_is_Some_2 ms j) as [m ->]; [by rewrite (ref_length k ms Href)|]. cbn.
  by rewrite bool_decide_eq_true_2.
Qed.

(** While nobody fails, some participant can go on until all are at the end. *)
Lemma team_progress s :
  (1 <= n)%nat -> team_ok s -> (forall r p, s !! r = Some p -> status_of p = Running) ->
  (forall r p, s !! r = Some p -> (length pr <= pos p)%nat) \/ exists i s', team_do pr (Go i) s = Some s'.
Proof.
  intros Hn HI Hrun. destruct (least pos s) as (i & p & Hp & Hmin); [intros ->; destruct HI as [Hl _]; cbn in Hl; lia|].
  destruct (pr !! pos p) as [ins|] eqn:Hins.
  2: { left. intros r q Hq. apply lookup_ge_None in Hins. specialize (Hmin r q Hq). lia. }
  right. assert (forall j q, s !! j = Some q -> pos q = pos p -> inside q = false \/ (exists b f, ins = Own b f) ->
    exists j s', team_do pr (Go j) s = Some s') as Hgo.
  { intros j q Hq Epos Hc. exists j. cbn. rewrite Hq. cbn. rewrite (bool_decide_eq_true_2 _ (Hrun j q Hq)), Epos, Hins. cbn.
    destruct ins as [b f|c]; [eauto|]. destruct Hc as [->|(? & ? & ?)]; [eauto|done]. }
  destruct ins as [b f|c]; [by apply (Hgo i p); eauto|]. destruct (inside p) eqn:Hin; [|by apply (Hgo i p); eauto].
  destruct (decide (Exists (fun q => pos q = pos p /\ inside q = false) s)) as [Hex|Hall].
  { apply Exists_exists in Hex as (q & (j & Hq)%list_elem_of_lookup & Epos & Hout). by apply (Hgo j q); auto. }
  assert (forall j q, s !! j = Some q -> pos q = pos p -> inside q = true) as Hcame.
  { intros j q Hq Epos. destruct (inside q) eqn:Hout; [done|]. destruct Hall. apply Exists_exists. exists q.
    split; [by eapply list_elem_of_lookup_2|done]. }
  assert (i < n)%nat as Hi by (rewrite <- (proj1 HI); by eapply lookup_lt_Some).
  destruct (ref_step (pos p) _ Hins) as (ms & _ & Href & _). pose proof (proj2 HI i p Hp) as Hok.
  assert (pred (length (posts p)) = ncoll (take (pos p) pr)) as Ho.
  { destruct (history_S i (pos p) c Hi Hins) as (? & ? & _ & _ & Hh).
    rewrite (ok_posts i p Hok), Hin, Hh, length_app, (history_length i _ Hi). cbn. lia. }
  assert (is_Some (mapM (posted s c (ncoll (take (pos p) pr))) (needs c i))) as [cs Hcs].
  { apply mapM_is_Some, Forall_forall. intros j Hj. assert (j < n)%nat as Hjn.
    { unfold needs in Hj. destruct c; repeat case_match; rewrite ?elem_of_seq in Hj; try set_solver; lia. }
    destruct (lookup_lt_is_Some_2 s j) as [q Hq]; [by rewrite (proj1 HI)|].
    apply (posted_there s c (pos p) j q ms HI Hins Href Hq (Hmin j q Hq)). by apply (Hcame j). }
  exists i. cbn. rewrite Hp. cbn. rewrite (bool_decide_eq_true_2 _ (Hrun i p Hp)), Hins. cbn. rewrite Hin, Ho, Hcs. cbn. eauto.
Qed.

(** What a program that can be executed in lockstep does in every interleaving, with
    any participants failing at any checked call. *)
Definition runs_safely (done : nat -> gmem -> Prop) : Prop :=
  (forall k s, nsteps (team_step pr) k (started ms0) s -> (k <= n * (2 * length pr + 1))%nat) /\
  forall s, rtc (team_step pr) (started ms0) s ->
    (forall r p, s !! r = Some p -> status_of p <> Crashed /\ ((length pr <= pos p)%nat -> done r (gm p))) /\
    ((forall r p, s !! r = Some p -> status_of p = Running) ->
     (forall r p, s !! r = Some p -> (length pr <= pos p)%nat) \/ exists i s', team_do pr (Go i) s = Some s').

Lemma team_correct (done : nat -> gmem -> Prop) :
  (1 <= n)%nat -> (forall r m, ms1 !! r = Some m -> done r m) -> runs_safely done.
Proof.
  intros Hn Hd. split; [exact team_bounded|]. intros s Hr. assert (team_ok s) as HI.
  { pose proof started_ok as H0. induction Hr as [s|s s1 s2 H1 _ IH]; [done|]. apply IH. by eapply team_step_ok. }
  split; [|by apply team_progress]. intros r p Hp. destruct (proj2 HI r p Hp) as [Hg Hst _ _]. split; [done|].
  intros Hend. apply Hd. unfold ref in Hg. rewrite take_ge in Hg by done. by rewrite whole in Hg.
Qed.
End Team.

(** ** nccl_multi_node.cu *)

Section Program.
Context (fadd : Z -> Z -> Z) (far : Z -> Z -> bool).

(** [cudaMemcpy] between two allocated buffers of a participant. *)
Definition h2d (m : gmem) : option gmem := h ← hsend m; _ ← dsend m; Some (set_dsend (Some h) m).
Definition fill_host (h : list Z) (m : gmem) : option gmem := _ ← hsend m; Some (set_hsend (Some h) m).
Definition clear_recv (c : nat) (m : gmem) : option gmem := _ ← drecv m; Some (set_drecv (Some (replicate c 0)) m).

Definition get_unique_id (uid : Z) : instr :=
  Own true (fun rank m => Some (if (rank =? 0)%nat then set_id (Some uid) m else m)).

(** [heap] says which of the two calls of [malloc] succeed at a rank: they are not
    checked, while [cudaMalloc] is.  Allocated memory has some contents; none is read
    before it is written. *)
Definition allocate (rd : round) (heap : nat -> bool * bool) : instr := Own true (fun rank m =>
  let b := Some (replicate (count rd) 0) in
  let host (ok : bool) := if ok then b else None in
  Some (set_hrecv (host (snd (heap rank))) (set_hsend (host (fst (heap rank))) (set_drecv b (set_dsend b m))))).
Definition init_data (rd : round) : instr := Own true (fun rank m =>
  m ← fill_host (if (rank =? 0)%nat then rand rd else replicate (count rd) 0) m; m ← h2d m; clear_recv (count rd) m).
Definition stream_create : instr := Own true (fun _ m => Some (set_stream true m)).
Definition take_time (t : nat -> list Z) : instr := Own false (fun rank m => Some (set_elapsed (t rank) m)).
Definition copy_back (f : gmem -> option (list Z)) : instr := Own true (fun _ m =>
  b ← f m; _ ← hrecv m; Some (set_hrecv (Some b) m)).
Definition refill (rd : round) : instr := Own true (fun rank m =>
  m ← fill_host (replicate (count rd) (frac rd rank)) m; m ← h2d m; clear_recv (count rd) m).
Definition verify_sum (rd : round) (world_size : nat) : instr := Own false (fun _ m =>
  b ← hrecv m; Some (add_verdict (allreduce_correct far (expected_sum fadd (frac rd) world_size) b) m)).
Definition free_all : instr := Own true (fun _ m =>
  _ ← dsend m; _ ← drecv m; _ ← hsend m; _ ← hrecv m;
  if stream m then Some (set_stream false (set_hrecv None (set_hsend None (set_drecv None (set_dsend None m))))) else None).

Definition multi_node_size (world_size : nat) (x : round * (nat -> bool * bool)) : list instr :=
  let '(rd, heap) := x in
  [allocate rd heap; init_data rd; stream_create; Coll MPI_Barrier] ++
  flat_map (fun _ => [Coll ncclBroadcast]) (seq 0 3) ++
  [Coll MPI_Barrier; Coll ncclBroadcast; take_time (time1 rd); Coll MPI_Reduce_max; copy_back dsend;
   Coll MPI_Barrier; refill rd] ++
  flat_map (fun _ => [Coll ncclAllReduce]) (seq 0 3) ++
  [Coll MPI_Barrier; Coll ncclAllReduce; take_time (time2 rd); Coll MPI_Reduce_max; copy_back drecv;
   verify_sum rd world_size; free_all].

Definition comm_destroy : instr := Own false (fun _ m => _ ← comm m; Some (set_comm None m)).

(** [None] is [MPI_Abort]: more processes than devices. *)
Definition multi_node_main (uid : Z) (world_size deviceCount : nat) (rounds : list (round * (nat -> bool * bool))) : option (list instr) :=
  if (deviceCount <? world_size)%nat then None
  else Some ([get_unique_id uid; Coll MPI_Bcast_id; Coll ncclCommInitRank; Coll MPI_Barrier] ++
             flat_map (multi_node_size world_size) rounds ++ [comm_destroy]).
End Program.

(** ** Reasoning in lockstep *)

Section Reasoning.
Context (fadd : Z -> Z -> Z) `{NcclSum fadd} (far : Z -> Z -> bool) (dmax : list Z -> list Z -> list Z).
Context (n : nat) (n_pos : (1 <= n)%nat).

Definition mk (F : nat -> gmem) : list gmem := F <$> seq 0 n.

(** From participants that satisfy [P] the program can be executed, to [Q]. *)
Definition triple (P : nat -> gmem -> Prop) (pr : list instr) (Q : nat -> gmem -> Prop) : Prop :=
  forall o F, (forall r, (r < n)%nat -> P r (F r)) ->
    exists F', exec fadd dmax n o pr (mk F) = Some (mk F') /\ forall r, (r < n)%nat -> Q r (F' r).

Lemma triple_seq P Q R p q : triple P p Q -> triple Q q R -> triple P (p ++ q) R.
Proof.
  intros Hp Hq o F HF. destruct (Hp o F HF) as (F1 & E1 & H1).
  destruct (Hq (o + ncoll p)%nat F1 H1) as (F2 & E2 & H2). exists F2. by rewrite exec_app, E1.
Qed.

Lemma triple_cons P Q R i q : triple P [i] Q -> triple Q q R -> triple P (i :: q) R.
Proof. apply (triple_seq P Q R [i] q). Qed.

Lemma triple_skip P Q : (forall r m, P r m -> Q r m) -> triple P [] Q.
Proof. intros Hi o F HF. exists F. split; [done|]. auto. Qed.

Lemma mk_lookup F r : (r < n)%nat -> mk F !! r = Some (F r).
Proof. intros Hr. unfold mk. rewrite list_lookup_fmap, lookup_seq_lt by done. done. Qed.

Lemma mk_length F : length (mk F) = n.
Proof. unfold mk. by rewrite length_fmap, length_seq. Qed.

Lemma triple_instr P Q i :
  (forall o F r, (forall r, (r < n)%nat -> P r (F r)) -> (r < n)%nat ->
     exists m, result fadd dmax n i o r (fun j => mk F !! j) (F r) = Some m /\ Q r m) ->
  triple P [i] Q.
Proof.
  intros Hi o F HF. pose (g := fun r => default (F r) (result fadd dmax n i o r (fun j => mk F !! j) (F r))).
  exists g. split; [|intros r Hr; unfold g; by destruct (Hi o F r HF Hr) as (m & -> & Hq)].
  cbn. assert (exec_instr fadd dmax n o i (mk F) = Some (mk g)) as ->; [|done]. unfold exec_instr, mk at 3.
  apply mapM_Some, Forall2_fmap_r, Forall_Forall2_diag, Forall_forall. intros r Hr%elem_of_seq.
  rewrite mk_lookup by lia. cbn. unfold g. destruct (Hi o F r HF ltac:(lia)) as (m & -> & _). done.
Qed.

Lemma triple_own P Q b f : (forall r m, (r < n)%nat -> P r m -> exists m', f r m = Some m' /\ Q r m') -> triple P [Own b f] Q.
Proof. intros Hf. apply triple_instr. intros o F r HF Hr. by apply Hf, HF. Qed.

Lemma triple_coll P Q c :
  (forall o F r, (forall r, (r < n)%nat -> P r (F r)) -> (r < n)%nat ->
     exists m, outcome fadd dmax c o r (F <$> needs n c r) (F r) = Some m /\ Q r m) ->
  triple P [Coll c] Q.
Proof.
  intros Hc. apply triple_instr. intros o F r HF Hr. destruct (Hc o F r HF Hr) as (m & E & Hq). exists m. split; [|done].
  cbn [result]. assert (mapM (fun j => mk F !! j) (needs n c r) = Some (F <$> needs n c r)) as ->; [|done].
  apply mapM_Some, Forall2_fmap_r, Forall_Forall2_diag, Forall_forall. intros j Hj. apply mk_lookup.
  unfold needs in Hj. destruct c; repeat case_match; rewrite ?elem_of_seq in Hj; try set_solver; lia.
Qed.

(** What is known of a participant inside a round. *)
Definition st (k : Z) (b : nat -> list Z) (D : list Z -> Prop) (h : nat -> list Z) (G : list Z -> Prop) (on : bool)
    (V : list bool -> Prop) (r : nat) (m : gmem) : Prop :=
  comm m = Some k /\ dsend m = Some (b r) /\ (exists d, drecv m = Some d /\ D d) /\ hsend m = Some (h r) /\
  (exists g, hrecv m = Some g /\ G g) /\ stream m = on /\ V (verdict m).

Definition of_len (c : nat) (l : list Z) : Prop := length l = c.

(** The sum of what the participants contribute, added in some order at each element. *)
Definition sums (rd : round) (l : list Z) : Prop :=
  length l = count rd /\ Forall (sum_of fadd (frac rd <$> seq 0 n)) l.

Definition honest_verdict (rd : round) (v : bool) : Prop :=
  exists l, sums rd l /\ v = allreduce_correct far (expected_sum fadd (frac rd) n) l.

Lemma triple_barrier P : triple P [Coll MPI_Barrier] P.
Proof. apply triple_coll. intros o F r HF Hr. exists (F r). split; [done|by apply HF]. Qed.

Lemma triple_reduce_max k b D h G on V : triple (st k b D h G on V) [Coll MPI_Reduce_max] (st k b D h G on V).
Proof.
  apply triple_coll. intros o F r HF Hr. cbn. specialize (HF r Hr).
  destruct (F <$> _) as [|m0 cs]; eexists; (split; [done|]); [done|]. by destruct (F r).
Qed.

Lemma head_seq {A} (B : nat -> A) : head (B <$> seq 0 n) = Some (B 0%nat).
Proof. by destruct n; [lia|]. Qed.

Lemma joined_ok k b D h G V r F : st k b D h G true V r (F r) -> forall r', st k b D h G true V r' (F r') -> joined (F r') (F r) = true.
Proof.
  intros (E & _ & _ & _ & _ & S & _) r' (E' & _). unfold joined. rewrite E, E', S. by rewrite !bool_decide_eq_true_2.
Qed.

Lemma triple_broadcast k b c D h G V :
  (forall r, length (b r) = c) ->
  triple (st k b D h G true V) [Coll ncclBroadcast] (st k (fun _ => b 0%nat) D h G true V).
Proof.
  intros Hb. apply triple_coll. intros o F r HF Hr. cbn.
  pose proof (joined_ok k b D h G V r F (HF r Hr) 0%nat (HF 0%nat ltac:(lia))) as Hj.
  destruct (HF 0%nat ltac:(lia)) as (_ & -> & _), (HF r Hr) as (? & E & ? & ? & ? & ? & ?). cbn. rewrite E. cbn.
  rewrite Hj, !Hb, Nat.eqb_refl. cbn. eexists. by split_and!.
Qed.

Lemma column_const rd j : (j < count rd)%nat ->
  column ((fun r => replicate (count rd) (frac rd r)) <$> seq 0 n) j = frac rd <$> seq 0 n.
Proof.
  intros Hj. unfold column. rewrite <- list_fmap_compose. apply list_fmap_ext. intros i r Hr. cbn.
  apply nth_lookup_Some with (d := 0). by apply lookup_replicate.
Qed.

Lemma reduced_sums o rank rd :
  sums rd (reduced fadd o rank ((fun r => replicate (count rd) (frac rd r)) <$> seq 0 n)).
Proof.
  unfold reduced. assert (length (hd [] ((fun r => replicate (count rd) (frac rd r)) <$> seq 0 n)) = count rd) as ->
    by (destruct n; [lia|]; apply length_replicate).
  split; [by rewrite length_fmap, length_seq|]. apply Forall_fmap, Forall_forall. intros j Hj%elem_of_seq. cbn.
  rewrite column_const by lia. apply nccl_sum_ok. by destruct n; [lia|].
Qed.

Lemma triple_allreduce k rd h G V :
  let f := fun r => replicate (count rd) (frac rd r) in
  triple (st k f (of_len (count rd)) h G true V) [Coll ncclAllReduce] (st k f (sums rd) h G true V).
Proof.
  intros f. apply triple_coll. intros o F r HF Hr. cbn.
  assert (mapM dsend (F <$> seq 0 n) = Some (f <$> seq 0 n)) as Hbs.
  { apply mapM_Some, Forall2_fmap, Forall_Forall2_diag, Forall_forall. intros j Hj%elem_of_seq. by apply (HF j); lia. }
  assert (forallb (joined (F r)) (F <$> seq 0 n) = true) as Hj.
  { apply forallb_forall. intros m Hm. apply list_elem_of_In, list_elem_of_fmap in Hm as (j & -> & Hj%elem_of_seq).
    eapply joined_ok; apply HF; lia. }
  destruct (HF r Hr) as (? & E & (d & Ed & Hd) & ? & ? & ? & ?). rewrite E, Ed. cbn [mbind option_bind]. rewrite Hbs. cbn [mbind option_bind].
  assert (forallb (fun b' => (length b' =? length (f r))%nat) (f <$> seq 0 n) = true) as Hl.
  { apply forallb_forall. intros l Hl. apply list_elem_of_In, list_elem_of_fmap in Hl as (j & -> & _).
    unfold f. by rewrite !length_replicate, Nat.eqb_refl. }
  assert ((length d =? length (f r))%nat = true) as Hdl by (unfold f; by rewrite length_replicate, Hd, Nat.eqb_refl).
  rewrite Hj, Hl, Hdl. cbn. eexists. split; [done|]. split_and!; try done. eexists. split; [done|]. apply reduced_sums.
Qed.

(** One own instruction, with everything known about the participant at hand. *)
Ltac own_step_tac :=
  let r := fresh "r" in let m := fresh "m" in let Hr := fresh "Hr" in let Hm := fresh "Hm" in
  apply triple_own; intros r m Hr Hm; destruct m; unfold st in Hm |- *; cbn in Hm |- *;
  repeat match goal with H : _ /\ _ |- _ => destruct H | H : exists _, _ |- _ => destruct H end; subst; cbn;
  eexists; split; [reflexivity|]; cbn; split_and!; try done; try (eexists; split; [done|]; done).

(** Between rounds. *)
Definition resting (k : option Z) (V : list bool -> Prop) (_ : nat) (m : gmem) : Prop :=
  comm m = k /\ dsend m = None /\ drecv m = None /\ hsend m = None /\ hrecv m = None /\ stream m = false /\ V (verdict m).

Definition round_fits (x : round * (nat -> bool * bool)) : Prop :=
  length (rand (fst x)) = count (fst x) /\ forall r, (r < n)%nat -> snd x r = (true, true).

Lemma round_triple k V rd heap :
  round_fits (rd, heap) ->
  triple (resting (Some k) V) (multi_node_size fadd far n (rd, heap))
    (resting (Some k) (fun vs => exists v0 v, vs = v0 ++ [v] /\ V v0 /\ honest_verdict rd v)).
Proof.
  intros [Hr Hh]. cbn in Hr, Hh. set (c := count rd). set (zs := fun _ : nat => replicate c 0).
  set (b0 := fun r : nat => if (r =? 0)%nat then rand rd else replicate c 0).
  assert (forall r, length (b0 r) = c) as Hl by (intros r; unfold b0; destruct (r =? 0)%nat; [done|apply length_replicate]).
  assert (length (replicate c 0) = c) as Hz by apply length_replicate.
  set (root := fun _ : nat => b0 0%nat). set (f1 := fun r => replicate c (frac rd r)). set (any := of_len c).
  unfold multi_node_size. cbn [seq flat_map app].
  eapply triple_cons; [instantiate (1 := st k zs any zs any false V)|].
  { apply triple_own. intros r m Hlt (? & ? & ? & ? & ? & ? & ?). rewrite (Hh r Hlt). cbn. eexists. split; [reflexivity|].
    split_and!; try done; eexists; (split; [done|]); apply length_replicate. }
  eapply triple_cons; [instantiate (1 := st k b0 any b0 any false V); own_step_tac|].
  eapply triple_cons; [instantiate (1 := st k b0 any b0 any true V); own_step_tac|].
  eapply triple_cons; [apply triple_barrier|]. eapply triple_cons; [by apply (triple_broadcast k b0 c)|].
  do 2 (eapply triple_cons; [by apply (triple_broadcast k root c)|]).
  eapply triple_cons; [apply triple_barrier|]. eapply triple_cons; [by apply (triple_broadcast k root c)|].
  eapply triple_cons; [instantiate (1 := st k root any b0 any true V); own_step_tac|].
  eapply triple_cons; [apply triple_reduce_max|].
  eapply triple_cons; [instantiate (1 := st k root any b0 any true V); own_step_tac|].
  eapply triple_cons; [apply triple_barrier|].
  eapply triple_cons; [instantiate (1 := st k f1 any f1 any true V); own_step_tac|].
  assert (triple (st k f1 any f1 any true V) [Coll ncclAllReduce] (st k f1 any f1 any true V)) as Hany.
  { intros o F HF. destruct (triple_allreduce k rd f1 any V o F HF) as (F' & E & HF'). exists F'. split; [done|].
    intros r Hlt. destruct (HF' r Hlt) as (? & ? & (d & Ed & Hd & _) & ?). split_and!; [done|done|by exists d|naive_solver..]. }
  do 3 (eapply triple_cons; [exact Hany|]). eapply triple_cons; [apply triple_barrier|].
  eapply triple_cons; [apply (triple_allreduce k rd f1 any V)|].
  eapply triple_cons; [instantiate (1 := st k f1 (sums rd) f1 any true V); own_step_tac|].
  eapply triple_cons; [apply triple_reduce_max|].
  eapply triple_cons; [instantiate (1 := st k f1 (sums rd) f1 (sums rd) true V); own_step_tac|].
  eapply triple_cons; [instantiate (1 := st k f1 (sums rd) f1 (sums rd) true (fun vs => exists v0 v, vs = v0 ++ [v] /\ V v0 /\ honest_verdict rd v)); own_step_tac|].
  { eexists _, _. split_and!; [done|done|]. by eexists. }
  own_step_tac. by eexists _, _.
Qed.

Lemma setup_triple uid :
  triple (resting None (eq [])) [get_unique_id uid; Coll MPI_Bcast_id; Coll ncclCommInitRank; Coll MPI_Barrier]
    (resting (Some uid) (eq [])).
Proof.
  eapply triple_cons; [instantiate (1 := fun r m => resting None (eq []) r m /\ (r = 0%nat -> nccl_id m = Some uid))|].
  { apply triple_own. intros r m Hr Hm. eexists. split; [reflexivity|]. split; [by destruct (r =? 0)%nat|]. by intros ->. }
  eapply triple_cons; [instantiate (1 := fun r m => resting None (eq []) r m /\ nccl_id m = Some uid)|].
  { apply triple_coll. intros o F r HF Hr. cbn. destruct (HF 0%nat ltac:(lia)) as [_ ->]; [|done]. eexists. split; [done|].
    by destruct (HF r Hr) as [(? & ? & ? & ? & ? & ? & ?) _]. }
  eapply triple_cons; [|apply triple_barrier]. apply triple_coll. intros o F r HF Hr. cbn.
  destruct (HF r Hr) as [(? & ? & ? & ? & ? & ? & ?) ->]. cbn. rewrite (proj2 (forallb_forall _ _)); [eexists; by split_and!|].
  intros m Hm. apply list_elem_of_In, list_elem_of_fmap in Hm as (j & -> & Hj%elem_of_seq).
  destruct (HF j ltac:(lia)) as [_ ->]. by rewrite bool_decide_eq_true_2.
Qed.

Lemma rounds_triple k rounds V :
  Forall round_fits rounds ->
  triple (resting (Some k) V) (flat_map (multi_node_size fadd far n) rounds)
    (resting (Some k) (fun vs => exists v0 v1, vs = v0 ++ v1 /\ V v0 /\ Forall2 (fun x => honest_verdict (fst x)) rounds v1)).
Proof.
  revert V. induction rounds as [|[rd heap] rounds IH]; intros V Hf.
  - apply triple_skip. intros r m (? & ? & ? & ? & ? & ? & Hv). split_and!; try done.
    exists (verdict m), []. by rewrite app_nil_r.
  - apply Forall_cons in Hf as [Hr Hf]. cbn [flat_map]. eapply triple_seq; [by apply round_triple|].
    intros o F HF. destruct (IH _ Hf o F HF) as (F' & E & HF'). exists F'. split; [done|]. intros r Hlt.
    destruct (HF' r Hlt) as (? & ? & ? & ? & ? & ? & v01 & v1 & Hv & (v0 & v & -> & Hv0 & Hh) & Hvs).
    split_and!; try done. exists v0, (v :: v1). rewrite Hv, <- app_assoc. split_and!; [done|done|by constructor].
Qed.

(** At the end of [main]: nothing is held, and there is an honest verdict for every
    size. *)
Definition at_end (rounds : list (round * (nat -> bool * bool))) : nat -> gmem -> Prop :=
  resting None (Forall2 (fun x => honest_verdict (fst x)) rounds).

Lemma main_triple uid dc rounds pr :
  Forall round_fits rounds -> multi_node_main fadd far uid n dc rounds = Some pr ->
  triple (resting None (eq [])) pr (at_end rounds).
Proof.
  intros Hf Hm. unfold multi_node_main in Hm. destruct (dc <? n)%nat; [done|]. injection Hm as <-.
  eapply (triple_seq _ _ _ [_; _; _; _]); [apply setup_triple|]. eapply triple_seq; [by apply rounds_triple|].
  apply triple_own. intros r m Hr (E & ? & ? & ? & ? & ? & v0 & v1 & Hv & <- & Hvs). rewrite E. cbn. eexists. split; [done|].
  split_and!; try done. cbn. by rewrite Hv.
Qed.
End Reasoning.

(** C34: [nccl_multi_node], in every interleaving of its processes and with any of them
    ended at any checked call that fails: if there are at least as many devices as
    processes and the host memory, whose allocation is not checked, can be allocated,
    no process accesses memory, a stream or a communicator that is not there or makes
    collective calls whose arguments do not fit; a process that comes to the end of
    [main] has given back everything, and its verdict for every size is that of the
    check on exact contributions of all processes, added in some order; runs have a
    bounded length, and while no call fails, some process can go on until all are at
    the end. *)
Theorem multi_node_correct fadd `{NcclSum fadd} far dmax n uid dc rounds F :
  (1 <= n <= dc)%nat -> (forall r, (r < n)%nat -> resting None (eq []) r (F r)) -> Forall (round_fits n) rounds ->
  exists pr, multi_node_main fadd far uid n dc rounds = Some pr /\
    runs_safely fadd dmax n pr (mk n F) (at_end fadd far n rounds).
Proof.
  intros Hn HF Hf. destruct (multi_node_main fadd far uid n dc rounds) as [pr|] eqn:Hm.
  2: { unfold multi_node_main in Hm. destruct (Nat.ltb_spec dc n); [lia|done]. }
  destruct (main_triple fadd far dmax n ltac:(lia) uid dc rounds pr Hf Hm 0%nat F HF) as (F' & E & HF').
  exists pr. split; [done|]. eapply team_correct; [apply mk_length|exact E|lia|].
  intros r m Hr. unfold mk in Hr. rewrite list_lookup_fmap in Hr. destruct (seq 0 n !! r) as [r'|] eqn:Hs; [|done].
  apply lookup_seq in Hs as [-> Hlt]. injection Hr as <-. by apply HF'.
Qed.

(** ** Witness, and a failed allocation *)

Definition sum32 (_ _ _ : nat) (l : list Z) : Z := match l with [] => 0 | x :: l => fold_left add32 l x end.

Lemma sum32_ok o r j l : l <> [] -> sum_of add32 l (sum32 o r j l).
Proof.
  destruct l as [|x l]; [done|]. intros _. cbn. induction l as [|y l IH] using rev_ind; [constructor|]. rewrite fold_left_app. cbn.
  by apply (sum_add _ _ (x :: l) [y]); [|done|constructor].
Qed.

#[export] Instance exact_sum : NcclSum add32 := {| nccl_sum := sum32; nccl_sum_ok := sum32_ok |}.

Definition nothing : gmem := Gmem None None None None None None false [] [] [].
Definition round2 : round := Round 2 [5; 6] (fun r => Z.of_nat r + 1) (fun r => le_bytes 8 (Z.of_nat r)) (fun r => le_bytes 8 9).

Lemma multi_node_correct_witness :
  exists pr, multi_node_main add32 near 7 2 4 [(round2, fun _ => (true, true))] = Some pr /\
    runs_safely add32 (fun x _ => x) 2 pr (mk 2 (fun _ => nothing)) (at_end add32 near 2 [(round2, fun _ => (true, true))]).
Proof.
  apply (multi_node_correct add32 near (fun x _ => x) 2 7 4 [(round2, fun _ => (true, true))] (fun _ => nothing)); [lia|done|].
  constructor; [|constructor]. by split.
Defined.

(** One process whose [malloc] returns NULL: it writes through the null pointer. *)
Example null_buffer_written :
  exists pr, multi_node_main add32 near 7 1 1 [(round2, fun _ => (false, true))] = Some pr /\
    (fun s => status_of <$> s) <$> foldl (fun s i => s ≫= team_do add32 (fun x _ => x) 1 pr (Go i)) (Some (started [nothing])) (replicate 9 0%nat)
    = Some [Crashed].
Proof. eexists. split; [reflexivity|]. vm_compute. reflexivity. Qed.
