(* ===== verification/Acpi.v ===== *)
(** * Acpi: the custom MYTB table, from the firmware to sysfs

    Three programs share one byte format.  [edk2/MyAddAcpiPkg/MyAddAcpi.c]
    builds the table and installs it (module [AddAcpi]);
    [drivers/acpi/mytb_reader.c] finds it in the kernel and shows its fields in
    sysfs (module [Reader]); [edk2/MyAcpiViewPkg/MyAcpiView.c], which walks and
    patches the tables of the running firmware, is in [AcpiView.v].  The field
    offsets are those of the ACPI specification's table header.  The firmware's
    services and the kernel's table lookup are parameters. *)

From Stdlib Require Import ZArith Lia String.
From stdpp Require Import base list.
From S2P Require Import Prelude Bytes.

(** ** The table format *)

Definition off_Signature := 0.
Definition off_Length := 4.
Definition off_Revision := 8.
Definition off_Checksum := 9.
Definition off_OemId := 10.
Definition off_OemTableId := 16.
Definition off_OemRevision := 24.
Definition off_CreatorId := 28.
Definition off_CreatorRevision := 32.
Definition sizeof_header := 36.

(** [MY_CUSTOM_ACPI_TABLE] and [struct mytb_table], both packed. *)
Definition off_Data1 := sizeof_header.
Definition off_Data2 := off_Data1 + 4.
Definition off_Message := off_Data2 + 8.
Definition sizeof_mytb := off_Message + 32.

Definition SIGNATURE_32 (a b c d : Z) : Z :=
  Z.lor (Z.lor a (Z.shiftl b 8)) (Z.shiftl (Z.lor c (Z.shiftl d 8)) 16).

(** A field of [n] bytes read as an integer. *)
Definition field (t : list Z) (off n : Z) : Z := le_val (slice t off n).

Fixpoint sum_bytes (bs : list Z) : Z := match bs with [] => 0 | b :: bs' => b + sum_bytes bs' end.

Lemma sum_bytes_app a b : sum_bytes (a ++ b) = sum_bytes a + sum_bytes b.
Proof. induction a; cbn; lia. Qed.

(** The ACPI rule: the bytes of a table add up to zero modulo 256. *)
Definition checksum_valid (t : list Z) : bool := sum_bytes t mod 256 =? 0.

(** UEFI status codes. *)
Definition EFI_SUCCESS : Z := 0.
Definition EFI_OUT_OF_RESOURCES : Z := 2 ^ 63 + 9.
Definition EFI_ERROR (s : Z) : bool := s64 s <? 0.

(** ** Building and installing the table *)

Module AddAcpi.

Definition MY_CUSTOM_ACPI_TABLE_SIGNATURE : Z := SIGNATURE_32 77 89 84 66.

(** The running sum of a [UINT8] over [Buffer[0..Size-1]]. *)
Fixpoint checksum_loop (Sum : Z) (Buffer : list Z) (n : nat) : res Z :=
  match n, Buffer with
  | O, _ => Ok Sum
  | S n', b :: Buffer' => checksum_loop (u8 (Sum + b)) Buffer' n'
  | S _, [] => Fault OutOfBounds
  end.

Definition CalculateChecksum (Buffer : list Z) (Size : Z) : res Z :=
  Sum ← checksum_loop 0 Buffer (Z.to_nat Size);
  Ok (u8 (256 - Sum)).

(** A store of [src] at [off]; outside the object it is a fault. *)
Definition store (off : Z) (src : list Z) (t : list Z) : res (list Z) :=
  res_of_opt OutOfBounds (memcpy t off src).

(** [AsciiStrCpyS (Destination, DestMax, Source)]: nothing is copied when the
    text and its terminator do not fit [DestMax]. *)
Definition AsciiStrCpyS (off DestMax : Z) (src : list Z) (t : list Z) : res (list Z) :=
  if DestMax <=? Z.of_nat (List.length src) then Ok t else store off (src ++ [0]) t.

Definition CreateCustomAcpiTable (AllocateZeroPool : bool) : res (Z * option (list Z)) :=
  if negb AllocateZeroPool then Ok (EFI_OUT_OF_RESOURCES, None)
  else
    let t := replicate (Z.to_nat sizeof_mytb) 0 in
    t ← store off_Signature (le_bytes 4 MY_CUSTOM_ACPI_TABLE_SIGNATURE) t;
    t ← store off_Length (le_bytes 4 sizeof_mytb) t;
    t ← store off_Revision (le_bytes 1 1) t;
    t ← store off_OemRevision (le_bytes 4 1) t;
    t ← store off_OemId (take 6 (bytes_of "MYOEMD")) t;
    t ← AsciiStrCpyS off_OemTableId 9 (bytes_of "MYCUSTOM") t;
    t ← store off_CreatorId (le_bytes 4 0x12345678) t;
    t ← store off_CreatorRevision (le_bytes 4 0x00000001) t;
    t ← store off_Data1 (le_bytes 4 0xDEADBEEF) t;
    t ← store off_Data2 (le_bytes 8 0x0123456789ABCDEF) t;
    t ← store off_Message (take 28 (bytes_of "Hello from custom ACPI table!")) t;
    t ← store off_Checksum [0] t;
    c ← CalculateChecksum t (field t off_Length 4);
    t ← store off_Checksum [c] t;
    Ok (EFI_SUCCESS, Some t).

(** What the boot services answer; [InstallAcpiTable] gets the bytes it is to
    copy and gives a status and a key. *)
Record services := Services {
  AllocateZeroPool : bool;
  LocateProtocol : Z;
  InstallAcpiTable : list Z -> Z * Z
}.

(** The firmware's table list and the application's pool use. *)
Record boot_state := BootState { installed : list (list Z); frees : Z; TableKey : Z }.

Definition InstallCustomAcpiTable (B : services) (Table : list Z) (s : boot_state) : Z * boot_state :=
  if EFI_ERROR (LocateProtocol B) then (LocateProtocol B, s)
  else
    let bytes := take (Z.to_nat (field Table off_Length 4)) Table in
    let (Status, key) := InstallAcpiTable B bytes in
    if EFI_ERROR Status then (Status, s)
    else (EFI_SUCCESS, BootState (installed s ++ [bytes]) (frees s) key).

Definition UefiMain (B : services) (s : boot_state) : res (Z * boot_state) :=
  let s := BootState (installed s) (frees s) 0 in
  r ← CreateCustomAcpiTable (AllocateZeroPool B);
  match r with
  | (Status, None) => Ok (Status, s)
  | (Status, Some MyCustomTable) =>
      if EFI_ERROR Status then Ok (Status, s)
      else
        let (Status, s) := InstallCustomAcpiTable B MyCustomTable s in
        if EFI_ERROR Status then Ok (Status, BootState (installed s) (frees s + 1) (TableKey s))
        else Ok (EFI_SUCCESS, BootState (installed s) (frees s + 1) (TableKey s))
  end.

Lemma checksum_loop_spec bs : forall Sum n,
  (n <= List.length bs)%nat -> is_u 8 Sum ->
  checksum_loop Sum bs n = Ok (u8 (Sum + sum_bytes (take n bs))).
Proof.
  induction bs as [|b bs IH]; intros Sum [|n] Hn HS; cbn in *; try lia.
  - rewrite Z.add_0_r. by rewrite uwrap_small.
  - rewrite Z.add_0_r. by rewrite uwrap_small.
  - rewrite IH by (try lia; apply uwrap_range; lia).
    unfold uwrap. rewrite Zplus_mod_idemp_l. do 2 f_equal. lia.
Qed.

(** [CalculateChecksum] gives the byte that makes a table valid: stored over
    a zero checksum byte at any position of the table it brings the sum of all
    bytes to zero modulo 256. *)
Theorem checksum_makes_valid t off t0 :
  store off [0] t = Ok t0 ->
  exists c t1, CalculateChecksum t0 (Z.of_nat (List.length t0)) = Ok c /\ is_byte c /\
    store off [c] t0 = Ok t1 /\ checksum_valid t1 = true.
Proof.
  intros H0. unfold store in *.
  destruct (memcpy t off [0]) as [x|] eqn:E; cbn in H0; [|done]. injection H0 as ->.
  pose proof (memcpy_length _ _ _ _ E) as El. unfold memcpy in E. cbn [List.length] in E.
  destruct (Z.leb_spec 0 off), (Z.leb_spec (off + Z.of_nat 1) (Z.of_nat (List.length t)));
    cbn [andb] in E; try discriminate. injection E as <-.
  set (a := take (Z.to_nat off) t) in *. set (b := drop (Z.to_nat off + 1) t) in *.
  assert (List.length a = Z.to_nat off) as Ha by (unfold a; rewrite length_take; lia).
  unfold CalculateChecksum. rewrite checksum_loop_spec by (unfold is_u; lia). cbn [mbind res_bind].
  eexists _, _. split; [done|]. split; [apply uwrap_range; lia|].
  rewrite memcpy_some by (try lia; cbn [List.length]; lia). split; [done|].
  rewrite take_app_length' by lia. cbn [List.length].
  rewrite Nat2Z.id, take_ge by lia.
  change (a ++ 0 :: b) with (a ++ [0] ++ b).
  rewrite (app_assoc a [0] b), drop_app_length' by (rewrite length_app; cbn; lia).
  unfold checksum_valid.
  rewrite !sum_bytes_app. cbn. unfold uwrap. rewrite !Z.add_0_r, !Z.add_0_l.
  set (x := sum_bytes a). set (y := sum_bytes b). change (2 ^ 8) with 256.
  apply Z.eqb_eq. replace (x + (_ + y)) with ((256 - (x + y) mod 256) mod 256 + (x + y)) by lia.
  rewrite Zplus_mod_idemp_l. rewrite <- Zplus_mod_idemp_r.
  replace (256 - _ + _) with 256 by lia. done.
Qed.

(** The table [CreateCustomAcpiTable] builds. *)
Definition built : list Z :=
  match CreateCustomAcpiTable true with Ok (_, Some t) => t | _ => [] end.

Lemma built_ok : CreateCustomAcpiTable true = Ok (EFI_SUCCESS, Some built).
Proof. reflexivity. Qed.

(** The table that is built is well formed: 80 bytes, of which the length
    field speaks, signed MYTB, with a valid checksum and the data words the
    reader expects. *)
Theorem built_table_well_formed :
  exists t, CreateCustomAcpiTable true = Ok (EFI_SUCCESS, Some t) /\
    Z.of_nat (List.length t) = sizeof_mytb /\ field t off_Length 4 = sizeof_mytb /\
    slice t off_Signature 4 = bytes_of "MYTB" /\ checksum_valid t = true /\
    field t off_Data1 4 = 0xDEADBEEF /\ field t off_Data2 8 = 0x0123456789ABCDEF /\
    slice t off_OemId 6 = bytes_of "MYOEMD" /\ slice t off_OemTableId 8 = bytes_of "MYCUSTOM".
Proof. exists built. split_and!; reflexivity. Qed.

(** The terminator that [AsciiStrCpyS] writes after the eight characters of
    the table id falls on the low byte of [OemRevision]: the revision 1 stored
    before is lost and the installed table says 0. *)
Theorem oem_revision_lost :
  exists t, CreateCustomAcpiTable true = Ok (EFI_SUCCESS, Some t) /\ field t off_OemRevision 4 = 0.
Proof. exists built. split; reflexivity. Qed.

(** What a run of the application leaves behind. *)
Lemma uefi_main_cases B s :
  exists st s', UefiMain B s = Ok (st, s') /\
    frees s' = frees s + (if AllocateZeroPool B then 1 else 0) /\
    ((EFI_ERROR st = false /\ installed s' = installed s ++ [built]) \/
     (EFI_ERROR st = true /\ installed s' = installed s)).
Proof.
  unfold UefiMain. destruct (AllocateZeroPool B).
  - rewrite built_ok. cbn [mbind res_bind]. change (EFI_ERROR EFI_SUCCESS) with false. cbn iota.
    unfold InstallCustomAcpiTable.
    change (take _ built) with built.
    destruct (EFI_ERROR (LocateProtocol B)) eqn:E1; [rewrite E1; eauto 10|].
    destruct (InstallAcpiTable B built) as [Status key].
    destruct (EFI_ERROR Status) eqn:E2; [rewrite E2; eauto 10|].
    change (EFI_ERROR EFI_SUCCESS) with false. cbn. eauto 10.
  - cbn. eexists _, _. split; [done|]. cbn. split; [lia|]. right. done.
Qed.

(** The application always ends; it frees the table it allocated exactly
    once whether or not the installation works; it installs either the built
    table, exactly when it reports success, or nothing. *)
Theorem uefi_main_installs B s :
  exists st s', UefiMain B s = Ok (st, s') /\
    frees s' = frees s + (if AllocateZeroPool B then 1 else 0) /\
    ((EFI_ERROR st = false /\ installed s' = installed s ++ [built]) \/
     (EFI_ERROR st = true /\ installed s' = installed s)) /\
    checksum_valid built = true.
Proof.
  destruct (uefi_main_cases B s) as (st & s' & H1 & H2 & H3).
  exists st, s'. by split_and!.
Qed.

Lemma checksum_makes_valid_witness :
  exists c t1, CalculateChecksum [1; 2; 0; 250; 7] 5 = Ok c /\ is_byte c /\
    store 2 [c] [1; 2; 0; 250; 7] = Ok t1 /\ checksum_valid t1 = true.
Proof. apply (checksum_makes_valid [1; 2; 9; 250; 7] 2 [1; 2; 0; 250; 7]). reflexivity. Defined.

End AddAcpi.

(** ** The kernel's reader *)

Module Reader.

(** The kernel's table lookup: status code or the table found. *)
Class AcpiTables := {
  acpi_get_table : list (list Z) -> list Z -> Z -> Z + list Z;
  (** the first table with the signature is instance 0 *)
  acpi_get_table_first pre t post sig :
    slice t off_Signature 4 = sig -> Forall (fun u => slice u off_Signature 4 <> sig) pre ->
    acpi_get_table (pre ++ t :: post) sig 0 = inr t;
  acpi_get_table_none ts sig :
    Forall (fun u => slice u off_Signature 4 <> sig) ts ->
    exists e, acpi_get_table ts sig 0 = inl e
}.

(** The file's two static pointers, and what sysfs holds of the module. *)
Record reader := Rd {
  mytb : option (list Z);
  mytb_kobj : bool;
  kobj_refs : Z;
  group_created : bool
}.

Definition reader0 : reader := Rd None false 0 false.

(** [%s] from offset [off] of the table: up to the first NUL, which must come
    before the end of the table. *)
Definition read_str (t : list Z) (off : Z) : res (list Z) :=
  let rest := drop (Z.to_nat off) t in
  if terminated rest then Ok (cstr rest) else Fault OutOfBounds.

Definition hex_digit (d : Z) : Z := if d <? 10 then 48 + d else 55 + d.

(** The digits of [%X], without leading zeros; [fuel] digits at most. *)
Fixpoint hex_digits (fuel : nat) (z : Z) : list Z :=
  match fuel with
  | O => []
  | S f => (if z / 16 =? 0 then [] else hex_digits f (z / 16)) ++ [hex_digit (z mod 16)]
  end.

(** [%0<w>X] of an unsigned value of at most 64 bits. *)
Definition fmt_0X (w : nat) (z : Z) : list Z :=
  let d := hex_digits 16 z in replicate (w - List.length d) 48 ++ d.

(** [sprintf]: the text and its length. *)
Definition sprintf (text : list Z) : Z * list Z := (Z.of_nat (List.length text), text).

Definition message_show (s : reader) : res (Z * list Z) :=
  match mytb s with
  | None => Ok (- Errno.EINVAL, [])
  | Some t => m ← read_str t off_Message; Ok (sprintf (m ++ [10]))
  end.

Definition data1_show (s : reader) : res (Z * list Z) :=
  match mytb s with
  | None => Ok (- Errno.EINVAL, [])
  | Some t => Ok (sprintf (bytes_of "0x" ++ fmt_0X 8 (field t off_Data1 4) ++ [10]))
  end.

Definition data2_show (s : reader) : res (Z * list Z) :=
  match mytb s with
  | None => Ok (- Errno.EINVAL, [])
  | Some t => Ok (sprintf (bytes_of "0x" ++ fmt_0X 16 (field t off_Data2 8) ++ [10]))
  end.

Definition signature_show (s : reader) : res (Z * list Z) :=
  match mytb s with
  | None => Ok (- Errno.EINVAL, [])
  | Some t => Ok (sprintf (cstr (slice t off_Signature 4) ++ [10]))
  end.

(** [mytb_attrs]: the files of the group, all with mode 0444. *)
Definition mytb_attrs : list (list Z * (reader -> res (Z * list Z))) :=
  [(bytes_of "message", message_show); (bytes_of "data1", data1_show);
   (bytes_of "data2", data2_show); (bytes_of "signature", signature_show)].

Section Reader.
Context `{AcpiTables}.

Definition acpi_find_mytb_table (tables : list (list Z)) : M reader Z := fun s =>
  match acpi_get_table tables (bytes_of "MYTB") 0 with
  | inl _ => Ok (- Errno.ENODEV, s)
  | inr table =>
      if field table off_Length 4 <? sizeof_mytb then Ok (- Errno.EINVAL, s)
      else
        let s := Rd (Some table) (mytb_kobj s) (kobj_refs s) (group_created s) in
        _ ← read_str table off_Message;   (* the pr_info of the message *)
        Ok (0, s)
  end.

Definition mytb_reader_init (tables : list (list Z)) (kobject_create_and_add : bool)
    (sysfs_create_group : Z) : M reader Z :=
  ret ← acpi_find_mytb_table tables;
  if negb (ret =? 0) then mret ret
  else if negb kobject_create_and_add then
    _ ← modify (fun s => Rd (mytb s) false (kobj_refs s) (group_created s));
    mret (- Errno.ENOMEM)
  else
    _ ← modify (fun s => Rd (mytb s) true (kobj_refs s + 1) (group_created s));
    if negb (sysfs_create_group =? 0) then
      _ ← modify (fun s => Rd (mytb s) (mytb_kobj s) (kobj_refs s - 1) (group_created s));
      mret sysfs_create_group
    else
      _ ← modify (fun s => Rd (mytb s) (mytb_kobj s) (kobj_refs s) true);
      mret 0.

Definition mytb_reader_exit : M reader unit := fun s =>
  if mytb_kobj s then Ok (tt, Rd (mytb s) (mytb_kobj s) (kobj_refs s - 1) false) else Ok (tt, s).

(** *** Reading the printed digits back *)

Definition digit_val (c : Z) : Z := if c <? 58 then c - 48 else c - 55.

Definition parse_hex (cs : list Z) : Z := fold_left (fun acc c => 16 * acc + digit_val c) cs 0.

Lemma parse_hex_app a c : parse_hex (a ++ [c]) = 16 * parse_hex a + digit_val c.
Proof. unfold parse_hex. by rewrite fold_left_app. Qed.

Lemma digit_val_hex d : 0 <= d < 16 -> digit_val (hex_digit d) = d.
Proof. intros. unfold digit_val, hex_digit. bsplit; lia. Qed.

Lemma parse_hex_digits f : forall z, 0 <= z < 16 ^ Z.of_nat f ->
  parse_hex (hex_digits f z) = z.
Proof.
  induction f as [|f IH]; intros z Hz; [change (16 ^ Z.of_nat 0) with 1 in Hz; cbn; lia|].
  cbn [hex_digits]. rewrite parse_hex_app.
  rewrite digit_val_hex by (apply Z.mod_pos_bound; lia).
  pose proof (Z.div_mod z 16).
  destruct (Z.eqb_spec (z / 16) 0) as [E|]; [cbn; lia|].
  rewrite IH; [lia|].
  rewrite Nat2Z.inj_succ, Z.pow_succ_r in Hz by lia.
  split; [apply Z.div_pos; lia|apply Z.div_lt_upper_bound; lia].
Qed.

Lemma parse_hex_zeros n cs : parse_hex (replicate n 48 ++ cs) = parse_hex cs.
Proof. unfold parse_hex. rewrite fold_left_app. f_equal. induction n; cbn; [done|exact IHn]. Qed.

Lemma length_hex_digits f : forall z n, 0 <= z < 16 ^ Z.of_nat (S n) ->
  (List.length (hex_digits f z) <= S n)%nat.
Proof.
  induction f as [|f IH]; intros z n Hz; cbn; [lia|]. rewrite length_app. cbn.
  destruct (Z.eqb_spec (z / 16) 0) as [|Hne]; cbn; [lia|].
  rewrite Nat2Z.inj_succ, Z.pow_succ_r in Hz by lia.
  assert (0 <= z / 16 < 16 ^ Z.of_nat n)
    by (split; [apply Z.div_pos; lia|apply Z.div_lt_upper_bound; lia]).
  destruct n as [|n]; [change (16 ^ Z.of_nat 0) with 1 in *; lia|].
  specialize (IH (z / 16) n ltac:(done)). lia.
Qed.

(** A field printed at its full width has exactly that many digits and reads
    back as the field. *)
Lemma fmt_0X_roundtrip n z : (n < 16)%nat -> 0 <= z < 16 ^ Z.of_nat (S n) ->
  List.length (fmt_0X (S n) z) = S n /\ parse_hex (fmt_0X (S n) z) = z.
Proof.
  intros Hn Hz. unfold fmt_0X. rewrite parse_hex_zeros. split.
  - pose proof (length_hex_digits 16 z n Hz). rewrite length_app, length_replicate. lia.
  - apply parse_hex_digits. split; [lia|].
    apply Z.lt_le_trans with (1 := proj2 Hz). apply Z.pow_le_mono_r; lia.
Qed.

Lemma field_range t off n :
  Forall is_byte t -> 0 <= n -> 0 <= field t off n < 16 ^ (2 * n).
Proof.
  intros Ht Hn. unfold field.
  assert (Forall is_byte (slice t off n)) as Hs by (apply Forall_take, Forall_drop; done).
  pose proof (le_val_range _ Hs) as [H0 H1]. split; [done|].
  apply Z.lt_le_trans with (1 := H1). change 16 with (2 ^ 4). rewrite <- Z.pow_mul_r by lia.
  apply Z.pow_le_mono_r; [lia|]. unfold slice. rewrite length_take. lia.
Qed.

(** A table the reader accepts. *)
Definition mytb_ok (t : list Z) : Prop :=
  Forall is_byte t /\ slice t off_Signature 4 = bytes_of "MYTB" /\
  sizeof_mytb <= field t off_Length 4 /\
  terminated (drop (Z.to_nat off_Message) t) = true.

Lemma find_mytb pre t post s :
  mytb_ok t -> Forall (fun u => slice u off_Signature 4 <> bytes_of "MYTB") pre ->
  acpi_find_mytb_table (pre ++ t :: post) s
  = Ok (0, Rd (Some t) (mytb_kobj s) (kobj_refs s) (group_created s)).
Proof.
  intros (_ & Hsig & Hlen & Hterm) Hpre. unfold acpi_find_mytb_table.
  rewrite acpi_get_table_first by done.
  destruct (Z.ltb_spec (field t off_Length 4) sizeof_mytb); [lia|].
  unfold read_str. rewrite Hterm. done.
Qed.

(** The reader shows what the table holds: when the first table signed MYTB
    is long enough, initialisation succeeds and the files of the group then
    read as the signature, the message, and the two data words printed with 8
    and 16 hexadecimal digits that parse back to the fields. *)
Theorem reader_shows_table pre t post :
  mytb_ok t -> Forall (fun u => slice u off_Signature 4 <> bytes_of "MYTB") pre ->
  exists s, mytb_reader_init (pre ++ t :: post) true 0 reader0 = Ok (0, s) /\
    group_created s = true /\
    signature_show s = Ok (5, bytes_of "MYTB" ++ [10]) /\
    message_show s = Ok (sprintf (cstr (drop (Z.to_nat off_Message) t) ++ [10])) /\
    (exists d, data1_show s = Ok (11, bytes_of "0x" ++ d ++ [10]) /\
       parse_hex d = field t off_Data1 4) /\
    (exists d, data2_show s = Ok (19, bytes_of "0x" ++ d ++ [10]) /\
       parse_hex d = field t off_Data2 8).
Proof.
  intros Hok Hpre. eexists. split.
  { unfold mytb_reader_init, mbind, M_bind. rewrite find_mytb by done. reflexivity. }
  destruct Hok as (Hb & Hsig & _ & Hterm).
  split; [done|]. unfold signature_show, message_show, data1_show, data2_show; cbn [mytb].
  rewrite Hsig. unfold read_str. rewrite Hterm.
  pose proof (field_range t off_Data1 4 Hb ltac:(lia)) as H1.
  pose proof (field_range t off_Data2 8 Hb ltac:(lia)) as H2.
  destruct (fmt_0X_roundtrip 7 _ ltac:(lia) H1) as [L1 P1].
  destruct (fmt_0X_roundtrip 15 _ ltac:(lia) H2) as [L2 P2].
  split; [done|]. split; [done|]. split.
  - eexists. split; [|exact P1]. unfold sprintf. rewrite !length_app, L1. done.
  - eexists. split; [|exact P2]. unfold sprintf. rewrite !length_app, L2. done.
Qed.

(** The module takes at most one reference to its sysfs object and gives it
    back: none is left after an initialisation that fails, whatever failed, nor
    after a successful one followed by the exit; and every file answers
    [-EINVAL] while no table was found. *)
Theorem reader_init_exit_balanced tables kobj grp :
  (forall t, acpi_get_table tables (bytes_of "MYTB") 0 = inr t ->
     terminated (drop (Z.to_nat off_Message) t) = true) ->
  exists r s, mytb_reader_init tables kobj grp reader0 = Ok (r, s) /\
    (r <> 0 -> kobj_refs s = 0 /\ group_created s = false) /\
    (r = 0 -> exists s', mytb_reader_exit s = Ok (tt, s') /\
       kobj_refs s' = 0 /\ group_created s' = false) /\
    (mytb s = None -> Forall (fun a => snd a s = Ok (- Errno.EINVAL, [])) mytb_attrs).
Proof.
  intros Hterm. unfold mytb_reader_init, acpi_find_mytb_table, mbind, M_bind, res_bind, read_str.
  destruct (acpi_get_table tables (bytes_of "MYTB") 0) as [e|t].
  { eexists _, _. split; [done|]. split_and!; [done|done|]. intros _. repeat constructor. }
  rewrite (Hterm t eq_refl).
  destruct (_ <? _); [eexists _, _; split; [done|]; split_and!; [done|done|]; intros _; repeat constructor|].
  destruct kobj; [|by eexists _, _; split; [done|]; split_and!].
  cbn. destruct (Z.eqb_spec grp 0) as [->|Hg]; cbn.
  - eexists _, _; split; [done|]. split_and!; [done|by eexists|done].
  - eexists _, _; split; [done|]. by split_and!.
Qed.

End Reader.

Lemma built_mytb_ok : mytb_ok AddAcpi.built.
Proof.
  split; [|split; [done|split; [change (80 <= 80); lia|done]]].
  by apply bytesb_ok.
Qed.

(** C35: the two programs agree on the format: after [UefiMain] reports success,
    on a machine whose other tables are not signed MYTB, the kernel module
    initialises and sysfs reads MYTB, 0xDEADBEEF, 0x0123456789ABCDEF and the
    message without its last character, which the 28-byte copy leaves out. *)
Theorem mytb_end_to_end `{AcpiTables} B s st s' :
  AddAcpi.UefiMain B s = Ok (st, s') -> EFI_ERROR st = false ->
  Forall (fun u => slice u off_Signature 4 <> bytes_of "MYTB") (AddAcpi.installed s) ->
  exists r, mytb_reader_init (AddAcpi.installed s') true 0 reader0 = Ok (0, r) /\
    map (fun a => snd a r) mytb_attrs =
    [Ok (29, bytes_of "Hello from custom ACPI table" ++ [10]);
     Ok (11, bytes_of "0xDEADBEEF" ++ [10]);
     Ok (19, bytes_of "0x0123456789ABCDEF" ++ [10]);
     Ok (5, bytes_of "MYTB" ++ [10])].
Proof.
  intros Hm He Hpre.
  destruct (AddAcpi.uefi_main_cases B s) as (st1 & s1 & E & _ & [[_ Hi]|[Hi _]]);
    rewrite Hm in E; injection E as <- <-; [|congruence].
  rewrite Hi. eexists. split.
  - unfold mytb_reader_init, mbind, M_bind.
    rewrite find_mytb; [reflexivity| |done]. apply built_mytb_ok.
  - reflexivity.
Qed.

(** ** A concrete machine *)

Lemma filter_none {A} (P : A -> Prop) `{!forall x, Decision (P x)} l :
  Forall (fun x => ~ P x) l -> filter P l = [].
Proof. induction 1; [done|]. by rewrite filter_cons_False. Qed.

Definition tables_get (ts : list (list Z)) (sig : list Z) (i : Z) : Z + list Z :=
  match filter (fun t => slice t off_Signature 4 = sig) ts !! Z.to_nat i with
  | Some t => inr t
  | None => inl 5
  end.

#[global] Instance tables_simple : AcpiTables.
Proof.
  refine {| acpi_get_table := tables_get |}; unfold tables_get.
  - intros pre t post sig Ht Hpre. rewrite filter_app, filter_cons_True by done.
    by rewrite filter_none.
  - intros ts sig H. exists 5. by rewrite filter_none.
Defined.

Definition other_table : list Z := bytes_of "DSDT" ++ replicate 32 0.

Lemma reader_shows_table_witness :
  exists s, mytb_reader_init [other_table; AddAcpi.built] true 0 reader0 = Ok (0, s) /\
    group_created s = true.
Proof.
  destruct (reader_shows_table [other_table] AddAcpi.built []) as (s & H1 & H2 & _);
    [apply built_mytb_ok|constructor; [discriminate|constructor]|].
  exists s. split; [exact H1|exact H2].
Defined.

Lemma reader_init_exit_balanced_witness :
  exists r s, mytb_reader_init [AddAcpi.built] true (-12) reader0 = Ok (r, s) /\
    (r <> 0 -> kobj_refs s = 0 /\ group_created s = false).
Proof.
  destruct (reader_init_exit_balanced [AddAcpi.built] true (-12)) as (r & s & H1 & H2 & _).
  - intros t Ht. cbn in Ht. injection Ht as <-. reflexivity.
  - exists r, s. split; [exact H1|exact H2].
Defined.

Definition good_services : AddAcpi.services := AddAcpi.Services true 0 (fun _ => (0, 7)).

Lemma mytb_end_to_end_witness :
  exists r, mytb_reader_init [other_table; AddAcpi.built] true 0 reader0 = Ok (0, r) /\
    map (fun a => snd a r) mytb_attrs =
    [Ok (29, bytes_of "Hello from custom ACPI table" ++ [10]);
     Ok (11, bytes_of "0xDEADBEEF" ++ [10]);
     Ok (19, bytes_of "0x0123456789ABCDEF" ++ [10]);
     Ok (5, bytes_of "MYTB" ++ [10])].
Proof.
  apply (mytb_end_to_end good_services (AddAcpi.BootState [other_table] 0 0) 0
    (AddAcpi.BootState [other_table; AddAcpi.built] 1 7));
    [reflexivity|reflexivity|constructor; [discriminate|constructor]].
Defined.

End Reader.
