(* ===== verification/AcpiView.v ===== *)
(** * AcpiView: walking and patching the firmware's tables

    Models [edk2/MyAcpiViewPkg/MyAcpiView.c]: the listing of the tables the
    XSDT names and [ChangeACPITable].  Memory is flat; the field offsets are
    those of the ACPI specification. *)

From Stdlib Require Import ZArith Lia String.
From stdpp Require Import base list.
From S2P Require Import Prelude Bytes Acpi.

(** ** Memory and the configuration table *)


(** UEFI runs on flat, identity-mapped memory. *)
Definition mem : Type := Z -> Z.

(** The little-endian integer of [n] bytes at [a]. *)
Fixpoint rd (m : mem) (a : Z) (n : nat) : Z :=
  match n with O => 0 | S n' => m a + 256 * rd m (a + 1) n' end.

Definition rd_bytes (m : mem) (a n : Z) : list Z :=
  map (fun i => m (a + Z.of_nat i)) (seq 0 (Z.to_nat n)).

(** [CopyMem (dst, src, n)]; the ranges may overlap. *)
Definition CopyMem (m : mem) (dst src n : Z) : mem := fun a =>
  if (dst <=? a) && (a <? dst + n) then m (src + (a - dst)) else m a.

(** Fields of the root pointer and of the fixed table used by the program. *)
Definition off_RsdpChecksum := 8.
Definition off_RsdpOemId := 9.
Definition off_RsdpLength := 20.
Definition off_XsdtAddress := 24.
Definition off_FirmwareCtrl := 36.
Definition off_XDsdt := 140.

Inductive guid := gEfiAcpiTableGuid | gEfiAcpi20TableGuid | OtherGuid (g : Z).

#[global] Instance guid_eq_dec : EqDecision guid.
Proof. solve_decision. Defined.

Record EFI_CONFIGURATION_TABLE := ConfTable { VendorGuid : guid; VendorTable : Z }.

Definition is_acpi (c : EFI_CONFIGURATION_TABLE) : bool :=
  bool_decide (VendorGuid c = gEfiAcpiTableGuid) || bool_decide (VendorGuid c = gEfiAcpi20TableGuid).

(** One call or group of calls of [Print], with the values it is given. *)
Inductive out :=
  | Hello
  | AcpiFound
  | RootTable (Address Length : Z) (OemId : list Z) (Checksum : Z)
  | HeaderTable (Signature : list Z) (Address Length : Z) (OemId : list Z) (Checksum : Z)
  | TableModified (TableIndex : Z)
  | ModifiedAddress (a : Z)
  | ModifiedLength (n : Z)
  | ChecksumValid
  | ChecksumInvalid (v : Z)
  | AllCompleted.

Definition PrintTable_Root (m : mem) (Root : Z) : list out :=
  [RootTable Root (rd m (Root + off_RsdpLength) 4) (rd_bytes m (Root + off_RsdpOemId) 6)
     (m (Root + off_RsdpChecksum))].

Definition PrintTable_Header (m : mem) (Header : Z) : list out :=
  let Signature := rd m (Header + off_Signature) 4 in
  [HeaderTable (map (fun j => Z.land (Z.shiftr Signature (j * 8)) 0xff) [0; 1; 2; 3])
     Header (rd m (Header + off_Length) 4) (rd_bytes m (Header + off_OemId) 6)
     (m (Header + off_Checksum))].

(** The loop over the entries of the XSDT, [n] of them left. *)
Fixpoint entry_loop (m : mem) (FACS DSDT : Z) (n : nat) (j EntryPtr : Z) : list out :=
  match n with
  | O => []
  | S n' =>
      let Entry := rd m EntryPtr 8 in
      (if Entry =? 0 then []
       else PrintTable_Header m Entry ++
            (if j =? 0 then PrintTable_Header m FACS ++ PrintTable_Header m DSDT else [])) ++
      entry_loop m FACS DSDT n' (j + 1) (EntryPtr + 8)
  end.

Definition EntryCount (m : mem) (XSDT : Z) : Z :=
  u64 (rd m (XSDT + off_Length) 4 - sizeof_header) / 8.

Definition show_root (m : mem) (Root : Z) : list out :=
  let XSDT := rd m (Root + off_XsdtAddress) 8 in
  let EntryPtr := XSDT + sizeof_header in
  let FADT := rd m EntryPtr 8 in
  let FACS := rd m (FADT + off_FirmwareCtrl) 4 in
  let DSDT := rd m (FADT + off_XDsdt) 8 in
  AcpiFound :: PrintTable_Root m Root ++ PrintTable_Header m XSDT ++
  entry_loop m FACS DSDT (Z.to_nat (EntryCount m XSDT)) 0 EntryPtr.

(** The first loop of [UefiMain]: the first ACPI entry is shown. *)
Fixpoint find_root (m : mem) (configTab : list EFI_CONFIGURATION_TABLE) : list out :=
  match configTab with
  | [] => []
  | c :: rest => if is_acpi c then show_root m (VendorTable c) else find_root m rest
  end.

(** The selection loop of [ChangeACPITable]: the table found (0 when there is
    none) and what is left of the counter. *)
Fixpoint select_table (configTab : list EFI_CONFIGURATION_TABLE) (TableIndex : Z) : Z * Z :=
  match configTab with
  | [] => (0, TableIndex)
  | c :: rest =>
      if is_acpi c then
        if TableIndex =? 0 then (VendorTable c, TableIndex)
        else select_table rest (TableIndex - 1)
      else select_table rest TableIndex
  end.

Fixpoint patched_sum (m : mem) (a : Z) (n : nat) (Checksum : Z) : Z :=
  match n with
  | O => Checksum
  | S n' => patched_sum m (a + 1) n' (u8 (Checksum + m a))
  end.

Definition ChangeACPITable (m : mem) (configTab : list EFI_CONFIGURATION_TABLE)
    (TableIndex NewTable : Z) : mem * list out :=
  let (CurrentTable, TableIndex) := select_table configTab TableIndex in
  if CurrentTable =? 0 then (m, [])
  else
    let '(m, o1) :=
      if negb (NewTable =? 0) then
        (CopyMem m CurrentTable NewTable (rd m (NewTable + off_Length) 4), [TableModified TableIndex])
      else (m, []) in
    let Length := rd m (CurrentTable + off_Length) 4 in
    let Checksum := patched_sum m CurrentTable (Z.to_nat Length) 0 in
    (m, o1 ++ [ModifiedAddress CurrentTable; ModifiedLength Length] ++
        (if Checksum =? 0 then [ChecksumValid] else [ChecksumInvalid Checksum])).

(** [UefiMain]; [emptyTable] is the address of the zeroed header on its stack. *)
Definition UefiMain (m : mem) (configTab : list EFI_CONFIGURATION_TABLE) (emptyTable : Z)
    : mem * list out :=
  let o0 := Hello :: find_root m configTab in
  let m := fun a => if (emptyTable <=? a) && (a <? emptyTable + sizeof_header) then 0 else m a in
  let (m, o1) := ChangeACPITable m configTab 1 emptyTable in
  let (m, o2) := ChangeACPITable m configTab 2 emptyTable in
  (m, o0 ++ o1 ++ o2 ++ [AllCompleted]).

(** ** Specification *)

Definition mem_ok (m : mem) : Prop := forall a, is_byte (m a).

(** The line of a table: its first four bytes, address, length, OEM id and
    checksum. *)
Definition header_of (m : mem) (h : Z) : out :=
  HeaderTable (rd_bytes m h 4) h (rd m (h + 4) 4) (rd_bytes m (h + 10) 6) (m (h + 9)).

(** The [n] addresses stored from [p] on. *)
Fixpoint entries (m : mem) (p : Z) (n : nat) : list Z :=
  match n with O => [] | S n' => rd m p 8 :: entries m (p + 8) n' end.

Lemma rd_range m a n : mem_ok m -> is_u (8 * Z.of_nat n) (rd m a n).
Proof.
  intros Hm. revert a. unfold is_u. induction n as [|n IH]; intros a; cbn [rd]; [cbn; lia|].
  specialize (Hm a). specialize (IH (a + 1)). unfold is_u in Hm. change (2 ^ 8) with 256 in Hm.
  replace (8 * Z.of_nat (S n)) with (8 + 8 * Z.of_nat n) by lia.
  rewrite Z.pow_add_r by lia. change (2 ^ 8) with 256. lia.
Qed.

(** Shifting the signature out byte by byte prints the bytes in memory order. *)
Lemma PrintTable_Header_spec m h : mem_ok m -> PrintTable_Header m h = [header_of m h].
Proof.
  intros Hm. unfold PrintTable_Header, header_of, off_Signature, off_Length, off_OemId, off_Checksum.
  rewrite Z.add_0_r. do 2 f_equal. cbn [rd map].
  change 255 with (Z.ones 8).
  pose proof (Hm h) as H0. pose proof (Hm (h + 1)) as H1.
  pose proof (Hm (h + 1 + 1)) as H2. pose proof (Hm (h + 1 + 1 + 1)) as H3.
  unfold is_u in *. change (2 ^ 8) with 256 in *.
  rewrite !Z.land_ones by lia. rewrite !Z.shiftr_div_pow2 by lia.
  change (rd_bytes m h 4) with [m (h + 0); m (h + 1); m (h + 2); m (h + 3)].
  change (2 ^ (0 * 8)) with 1. change (2 ^ (1 * 8)) with 256. change (2 ^ (2 * 8)) with 65536.
  change (2 ^ (3 * 8)) with 16777216. change (2 ^ 8) with 256.
  replace (h + 2) with (h + 1 + 1) by lia. replace (h + 3) with (h + 1 + 1 + 1) by lia.
  rewrite !Z.add_0_r. repeat (f_equal; [Z.to_euclidean_division_equations; lia|]).
  f_equal. Z.to_euclidean_division_equations. lia.
Qed.

Lemma entry_loop_later m F D n : mem_ok m -> forall j p, 0 < j ->
  entry_loop m F D n j p = map (header_of m) (filter (fun e => e <> 0) (entries m p n)).
Proof.
  intros Hm. induction n as [|n IH]; intros j p Hj; [done|].
  cbn [entry_loop entries]. rewrite IH by lia. rewrite PrintTable_Header_spec by done.
  destruct (Z.eqb_spec (rd m p 8) 0).
  - by rewrite filter_cons_False by auto.
  - rewrite filter_cons_True by done. destruct (Z.eqb_spec j 0); [lia|done].
Qed.

(** The listing is complete: for the first ACPI entry of the configuration
    table the program prints the root pointer, the XSDT, and then the header of
    every non-null table the XSDT lists, in order, those of the FACS and DSDT
    that the first of them points to coming right after it. *)
Theorem view_lists_all_tables m pre c post e0 es :
  mem_ok m -> Forall (fun x => is_acpi x = false) pre -> is_acpi c = true ->
  let Root := VendorTable c in
  let XSDT := rd m (Root + 24) 8 in
  entries m (XSDT + 36) (Z.to_nat ((rd m (XSDT + 4) 4 - 36) / 8)) = e0 :: es -> e0 <> 0 ->
  36 <= rd m (XSDT + 4) 4 ->
  find_root m (pre ++ c :: post) =
    AcpiFound :: RootTable Root (rd m (Root + 20) 4) (rd_bytes m (Root + 9) 6) (m (Root + 8)) ::
    header_of m XSDT :: header_of m e0 ::
    header_of m (rd m (e0 + 36) 4) :: header_of m (rd m (e0 + 140) 8) ::
    map (header_of m) (filter (fun e => e <> 0) es).
Proof.
  intros Hm Hpre Hc Root XSDT He Hne Hlen.
  assert (find_root m (pre ++ c :: post) = show_root m Root) as ->.
  { induction Hpre as [|x l Hx _ IH]; cbn; [by rewrite Hc|by rewrite Hx]. }
  unfold show_root. fold (rd m (Root + off_XsdtAddress) 8).
  change (rd m (Root + off_XsdtAddress) 8) with XSDT.
  unfold EntryCount, off_Length, sizeof_header. pose proof (rd_range m (XSDT + 4) 4 Hm) as Hr.
  rewrite uwrap_small by (unfold is_u in *; change (8 * Z.of_nat 4) with 32 in Hr; lia).
  destruct (Z.to_nat ((rd m (XSDT + 4) 4 - 36) / 8)) as [|n]; [done|].
  cbn [entries] in He.
  pose proof (f_equal (hd 0) He) as E0. apply (f_equal tl) in He. cbn [hd tl] in E0, He.
  cbn [entry_loop]. rewrite E0. destruct (Z.eqb_spec e0 0); [done|].
  rewrite entry_loop_later, !PrintTable_Header_spec, He by (done || lia). done.
Qed.

(** ** Patching *)

Lemma select_table_spec configTab : forall k,
  0 <= k ->
  fst (select_table configTab k) =
    default 0 (VendorTable <$> filter (fun c => is_acpi c = true) configTab !! Z.to_nat k).
Proof.
  induction configTab as [|c rest IH]; intros k Hk; cbn [select_table].
  - rewrite filter_nil. done.
  - destruct (is_acpi c) eqn:Ec.
    + rewrite filter_cons_True by done. destruct (Z.eqb_spec k 0) as [->|]; [done|].
      rewrite IH by lia. replace (Z.to_nat k) with (S (Z.to_nat (k - 1))) by lia. done.
    + rewrite filter_cons_False by congruence. by apply IH.
Qed.

Lemma patched_sum_spec m n : forall a C,
  is_byte C ->
  patched_sum m a n C = u8 (C + sum_bytes (map (fun i => m (a + Z.of_nat i)) (seq 0 n))).
Proof.
  induction n as [|n IH]; intros a C HC; cbn [patched_sum seq map sum_bytes].
  - rewrite Z.add_0_r. by rewrite uwrap_small.
  - rewrite IH by (apply uwrap_range; lia). rewrite <- seq_shift, map_map.
    unfold uwrap. rewrite Zplus_mod_idemp_l, Z.add_0_r, <- Z.add_assoc.
    do 4 f_equal. apply map_ext. intros i. f_equal. lia.
Qed.

(** The verdict printed is about the bytes of the table as it now is. *)
Lemma checksum_verdict m a n :
  (patched_sum m a (Z.to_nat n) 0 =? 0) = checksum_valid (rd_bytes m a n).
Proof. rewrite patched_sum_spec by (unfold is_u; lia). done. Qed.

(** [ChangeACPITable] patches the [k]-th ACPI entry of the configuration
    table and nothing else: the new table's length in bytes is copied over it,
    every other byte keeps its value, and the verdict it prints is whether the
    bytes of the table then add up to zero. *)
Theorem change_table_effect m configTab k new cur :
  0 <= k -> filter (fun c => is_acpi c = true) configTab !! Z.to_nat k = Some cur ->
  VendorTable cur <> 0 -> new <> 0 ->
  let t := VendorTable cur in
  let n := rd m (new + 4) 4 in
  exists m' o, ChangeACPITable m configTab k new = (m', o) /\
    (forall a, t <= a < t + n -> m' a = m (new + (a - t))) /\
    (forall a, ~ t <= a < t + n -> m' a = m a) /\
    (ChecksumValid ∈ o <-> checksum_valid (rd_bytes m' t (rd m' (t + 4) 4)) = true).
Proof.
  intros Hk Hsel Ht Hnew t n. unfold ChangeACPITable.
  pose proof (select_table_spec configTab k Hk) as Hs. rewrite Hsel in Hs. cbn in Hs.
  destruct (select_table configTab k) as [cur' idx]. cbn in Hs. subst cur'. fold t.
  destruct (Z.eqb_spec t 0); [done|]. destruct (Z.eqb_spec new 0); [done|]. cbn [negb].
  unfold off_Length. fold n. set (m' := CopyMem m t new n). eexists _, _. split; [reflexivity|].
  split_and!.
  - intros a Ha. unfold m', CopyMem. bsplit; [done|lia..].
  - intros a Ha. unfold m', CopyMem. bsplit; [lia|done..].
  - rewrite checksum_verdict. destruct (checksum_valid _);
      rewrite !list_elem_of_In; cbn; intuition congruence.
Qed.

Lemma rd_zero m a n : (forall i, (i < n)%nat -> m (a + Z.of_nat i) = 0) -> rd m a n = 0.
Proof.
  revert a. induction n as [|n IH]; intros a H; [done|]. cbn [rd].
  rewrite IH; [|intros i Hi; specialize (H (S i) ltac:(lia)); rewrite <- H; f_equal; lia].
  specialize (H 0%nat ltac:(lia)). rewrite Z.add_0_r in H. lia.
Qed.

Lemma change_by_empty m configTab k e :
  (forall i, (i < 36)%nat -> m (e + Z.of_nat i) = 0) ->
  forall a, fst (ChangeACPITable m configTab k e) a = m a.
Proof.
  intros Hz a. unfold ChangeACPITable. destruct (select_table configTab k) as [cur idx].
  destruct (cur =? 0); [done|]. destruct (negb (e =? 0)); [|done]. cbn [fst].
  rewrite rd_zero; [|intros i Hi; specialize (Hz (4 + i)%nat ltac:(lia)); rewrite <- Hz;
    unfold off_Length; f_equal; lia].
  unfold CopyMem. bsplit; done || lia.
Qed.

Lemma change_reports m configTab k e :
  fst (select_table configTab k) <> 0 -> e <> 0 ->
  exists i, TableModified i ∈ snd (ChangeACPITable m configTab k e).
Proof.
  intros Hc He. unfold ChangeACPITable. destruct (select_table configTab k) as [cur idx].
  cbn [fst] in Hc. destruct (Z.eqb_spec cur 0); [done|]. destruct (Z.eqb_spec e 0); [done|].
  exists idx. cbn [negb snd]. apply elem_of_app. left. by apply list_elem_of_singleton.
Qed.

(** The two modifications [UefiMain] asks for do not change any table: the
    empty table it passes has a zero length field, so nothing is copied, although
    each call reports a modified table. *)
Theorem view_main_modifies_nothing m configTab e :
  let m0 := fun a => if (e <=? a) && (a <? e + sizeof_header) then 0 else m a in
  (forall a, fst (UefiMain m configTab e) a = m0 a) /\
  (forall c0 c1 rest, filter (fun c => is_acpi c = true) configTab = c0 :: c1 :: rest ->
     VendorTable c1 <> 0 -> e <> 0 ->
     exists k, TableModified k ∈ snd (UefiMain m configTab e)).
Proof.
  intros m0. assert (forall i, (i < 36)%nat -> m0 (e + Z.of_nat i) = 0) as Hz.
  { intros i Hi. unfold m0, sizeof_header. bsplit; [done|lia..]. }
  split.
  - intros a. unfold UefiMain. fold m0.
    destruct (ChangeACPITable m0 configTab 1 e) as [m1 o1] eqn:E1.
    assert (forall a, m1 a = m0 a) as H1.
    { intros x. rewrite <- (change_by_empty m0 configTab 1 e Hz x), E1. done. }
    destruct (ChangeACPITable m1 configTab 2 e) as [m2 o2] eqn:E2. cbn [fst].
    rewrite <- (H1 a), <- (change_by_empty m1 configTab 2 e), E2; [done|].
    intros i Hi. rewrite H1. by apply Hz.
  - intros c0 c1 rest Hf Hv He. unfold UefiMain. fold m0.
    pose proof (select_table_spec configTab 1 ltac:(lia)) as Hs. rewrite Hf in Hs.
    pose proof (change_reports m0 configTab 1 e) as Hr. rewrite Hs in Hr.
    specialize (Hr Hv He) as [k Hk]. exists k.
    destruct (ChangeACPITable m0 configTab 1 e) as [m1 o1].
    destruct (ChangeACPITable m1 configTab 2 e) as [m2 o2]. cbn [snd] in *.
    rewrite !elem_of_app. tauto.
Qed.

(** ** A small machine *)

(** A memory given by the little-endian words stored at some addresses. *)
Fixpoint mem_of (ws : list (Z * list Z)) : mem :=
  match ws with
  | [] => fun _ => 0
  | (a, bs) :: ws' => fun x =>
      if (a <=? x) && (x <? a + Z.of_nat (List.length bs)) then nth (Z.to_nat (x - a)) bs 0
      else mem_of ws' x
  end.

Lemma mem_of_ok ws : Forall (fun w => Forall is_byte (snd w)) ws -> mem_ok (mem_of ws).
Proof.
  intros H a. induction H as [|[b bs] ws Hb _ IH]; cbn [mem_of]; [unfold is_u; lia|].
  destruct (_ && _); [|exact IH]. cbn [snd] in Hb.
  destruct (nth_in_or_default (Z.to_nat (a - b)) bs 0) as [Hi|Hi]; [|rewrite Hi; unfold is_u; lia].
  rewrite List.Forall_forall in Hb. by apply Hb.
Qed.

(** A root pointer at 1000, an XSDT with three entries at 2000 (the second is
    null), a fixed table at 3000 and another table at 4000. *)
Definition demo : mem := mem_of
  [(1024, le_bytes 8 2000); (2004, le_bytes 4 60); (2036, le_bytes 8 3000);
   (2052, le_bytes 8 4000); (3000, bytes_of "FACP"); (3036, le_bytes 4 5000);
   (3140, le_bytes 8 6000); (4000, bytes_of "MYTB"); (4004, le_bytes 4 80);
   (7004, le_bytes 4 8)].

Lemma demo_ok : mem_ok demo.
Proof. apply mem_of_ok. repeat (apply List.Forall_cons; [apply bytesb_ok; reflexivity|]). constructor. Qed.

Definition demo_conf : list EFI_CONFIGURATION_TABLE :=
  [ConfTable (OtherGuid 1) 10; ConfTable gEfiAcpi20TableGuid 1000; ConfTable gEfiAcpiTableGuid 4000].

Lemma view_lists_all_tables_witness :
  find_root demo demo_conf =
    AcpiFound :: RootTable 1000 (rd demo 1020 4) (rd_bytes demo 1009 6) (demo 1008) ::
    map (header_of demo) [2000; 3000; 5000; 6000; 4000].
Proof.
  apply (view_lists_all_tables demo [ConfTable (OtherGuid 1) 10]
    (ConfTable gEfiAcpi20TableGuid 1000) [ConfTable gEfiAcpiTableGuid 4000] 3000 [0; 4000]);
    [apply demo_ok|constructor; [reflexivity|constructor]|reflexivity|reflexivity|discriminate|].
  vm_compute. discriminate.
Defined.

Lemma change_table_effect_witness :
  exists m' o, ChangeACPITable demo demo_conf 1 7000 = (m', o) /\
    (forall a, ~ 4000 <= a < 4008 -> m' a = demo a).
Proof.
  destruct (change_table_effect demo demo_conf 1 7000 (ConfTable gEfiAcpiTableGuid 4000))
    as (m' & o & H1 & _ & H2 & _); [lia|reflexivity|discriminate|discriminate|].
  exists m', o. split; [exact H1|exact H2].
Defined.

Lemma view_main_modifies_nothing_witness :
  (forall a, fst (UefiMain demo demo_conf 9000) a =
     if (9000 <=? a) && (a <? 9000 + sizeof_header) then 0 else demo a) /\
  exists k, TableModified k ∈ snd (UefiMain demo demo_conf 9000).
Proof.
  destruct (view_main_modifies_nothing demo demo_conf 9000) as [H1 H2].
  split; [exact H1|].
  apply (H2 (ConfTable gEfiAcpi20TableGuid 1000) (ConfTable gEfiAcpiTableGuid 4000) []);
    [reflexivity|discriminate|discriminate].
Defined.
