(* ===== verification/Ramfs.v ===== *)
(** * Ramfs: persistence of the RAM file system

    Models the part of [fs/ramfs/inode.c] (and [ramfs_fsync] of
    [fs/ramfs/file-mmu.c]) that binds a ramfs to a directory and copies files
    there: the [/proc/fs/ramfs] interface, [parse_mount_path], [ramfs_bind] and
    [ramfs_file_flush].  The virtual file system is not part of this repository:
    what its calls answer is the parameter [vfs_env]; the contents of the files
    they act on are part of the state.  The inode operations of the same file
    are in [RamfsInode.v]. *)

From Stdlib Require Import ZArith Lia String.
From stdpp Require Import base list gmap.
From S2P Require Import Prelude Bytes.

Abbreviation path := (list Z) (only parsing).

Definition PATH_MAX : Z := 4096.
Definition PAGE_SIZE : Z := 4096.
Definition RAMFS_MAX_PATH : Z := 256.

(** ** State and environment *)

(** Files by path, the global [ramfs_sync_dir] with its mutex, and the
    resources a call may hold: kernel allocations, open files, path
    references, the lock of the target directory's inode. *)
Record world := World {
  files : gmap path (list Z);
  ramfs_sync_dir : option path;
  ramfs_sync_mutex : bool;
  allocs : Z;
  handles : Z;
  path_refs : Z;
  dir_locked : bool
}.

(** The sites that allocate. *)
Inductive site := KTempPath | KFilepath | KBuf | KTmpPath | KKbuf | KRamfsPath | KSyncPath | KNewDir.

(** An open file: the name of its dentry, its path and whether its superblock
    is a ramfs. *)
Record rfile := RFile { d_name : list Z; f_path : path; is_ramfs : bool }.

(** What the rest of the kernel answers.  Errors are negative codes. *)
Record vfs_env := VfsEnv {
  kmalloc_ok : site -> bool;
  on_ramfs : path -> bool;
  filp_open : path -> option Z;
  d_path : path -> option Z;
  kernel_read : path -> Z -> Z -> Z;
  kernel_write : path -> Z -> Z -> Z;
  fsync_backing : path -> Z;
  kern_path : path -> Z + Z;
  lookup_one_len : path -> option Z;
  vfs_rename : path -> path -> Z;
  dentry_open : path -> Z + rfile
}.

Definition set_files (f : gmap path (list Z) -> gmap path (list Z)) (w : world) : world :=
  World (f (files w)) (ramfs_sync_dir w) (ramfs_sync_mutex w) (allocs w) (handles w)
        (path_refs w) (dir_locked w).
Definition set_sync_dir (d : option path) (w : world) : world :=
  World (files w) d (ramfs_sync_mutex w) (allocs w) (handles w) (path_refs w) (dir_locked w).
Definition set_mutex (b : bool) (w : world) : world :=
  World (files w) (ramfs_sync_dir w) b (allocs w) (handles w) (path_refs w) (dir_locked w).
Definition add_allocs (n : Z) (w : world) : world :=
  World (files w) (ramfs_sync_dir w) (ramfs_sync_mutex w) (allocs w + n) (handles w)
        (path_refs w) (dir_locked w).
Definition add_handles (n : Z) (w : world) : world :=
  World (files w) (ramfs_sync_dir w) (ramfs_sync_mutex w) (allocs w) (handles w + n)
        (path_refs w) (dir_locked w).
Definition add_path_refs (n : Z) (w : world) : world :=
  World (files w) (ramfs_sync_dir w) (ramfs_sync_mutex w) (allocs w) (handles w)
        (path_refs w + n) (dir_locked w).
Definition set_dir_locked (b : bool) (w : world) : world :=
  World (files w) (ramfs_sync_dir w) (ramfs_sync_mutex w) (allocs w) (handles w)
        (path_refs w) b.

Definition mutex_lock : M world unit :=
  w ← get; if ramfs_sync_mutex w then abort Deadlock else modify (set_mutex true).
Definition mutex_unlock : M world unit := modify (set_mutex false).
Definition inode_lock : M world unit :=
  w ← get; if dir_locked w then abort Deadlock else modify (set_dir_locked true).
Definition inode_unlock : M world unit := modify (set_dir_locked false).
Definition kfree : M world unit := modify (add_allocs (-1)).
Definition filp_close : M world unit := modify (add_handles (-1)).
Definition path_put : M world unit := modify (add_path_refs (-1)).

Section Ramfs.
Context (E : vfs_env).

(** [kmalloc]/[kstrdup] at a site: whether it gave memory. *)
Definition kmalloc (s : site) : M world bool :=
  if kmalloc_ok E s then _ ← modify (add_allocs 1); mret true else mret false.

(** ** parse_mount_path *)

(** The two output arrays are [RAMFS_MAX_PATH] bytes long. *)
Definition store_char (arr : list Z) (j c : Z) : res (list Z) :=
  if (0 <=? j) && (j <? Z.of_nat (List.length arr)) then Ok (<[Z.to_nat j := c]> arr)
  else Fault OutOfBounds.

Definition blank (c : Z) : bool := (c =? 32) || (c =? 9).
Definition word_char (c : Z) : bool :=
  negb (c =? 0) && negb (c =? 32) && negb (c =? 9) && negb (c =? 10).

(** Reading the input past its end is a fault. *)
Fixpoint skip_blanks (buffer : list Z) : res (list Z) :=
  match buffer with
  | [] => Fault OutOfBounds
  | c :: rest => if blank c then skip_blanks rest else Ok buffer
  end.

(** One copying loop: a return code for the early return, or the rest of the
    input, the array and the number of characters copied. *)
Fixpoint copy_word (buffer : list Z) (arr : list Z) (j : Z) : res (Z + list Z * list Z * Z) :=
  match buffer with
  | [] => Fault OutOfBounds
  | c :: rest =>
      if word_char c then
        if RAMFS_MAX_PATH - 1 <=? j then Ok (inl (- Errno.ENAMETOOLONG))
        else arr' ← store_char arr j c; copy_word rest arr' (j + 1)
      else
        arr' ← store_char arr j 0;
        Ok (inr (buffer, arr', j))
  end.

Definition parse_mount_path (buffer ramfs_path sync_path : list Z) : res (Z * list Z * list Z) :=
  b1 ← skip_blanks buffer;
  r1 ← copy_word b1 ramfs_path 0;
  match r1 with
  | inl e => Ok (e, ramfs_path, sync_path)
  | inr (b2, ramfs_path, j) =>
      if j =? 0 then Ok (- Errno.EINVAL, ramfs_path, sync_path)
      else
        b3 ← skip_blanks b2;
        r2 ← copy_word b3 sync_path 0;
        match r2 with
        | inl e => Ok (e, ramfs_path, sync_path)
        | inr (_, sync_path, j) =>
            if j =? 0 then Ok (- Errno.EINVAL, ramfs_path, sync_path)
            else Ok (0, ramfs_path, sync_path)
        end
  end.

(** ** ramfs_bind *)

Definition S_IFMT : Z := 0xF000.
Definition S_IFDIR : Z := 0x4000.
Definition S_IWUSR : Z := 0x80.
Definition S_ISDIR (mode : Z) : bool := Z.land mode S_IFMT =? S_IFDIR.

Definition ramfs_bind (sync_dir : option path) : M world Z :=
  match sync_dir with
  | None => mret (- Errno.EINVAL)
  | Some d =>
      match kern_path E d with
      | inl ret => mret ret
      | inr i_mode =>
          _ ← modify (add_path_refs 1);
          ret ←
            (if negb (S_ISDIR i_mode) then mret (- Errno.ENOTDIR)
             else if negb (hasb i_mode S_IWUSR) then mret (- Errno.EACCES)
             else
               _ ← mutex_lock;
               ok ← kmalloc KNewDir;
               if negb ok then
                 _ ← mutex_unlock;
                 mret (- Errno.ENOMEM)
               else
                 w ← get;
                 _ ← (match ramfs_sync_dir w with Some _ => kfree | None => mret tt end);
                 _ ← modify (set_sync_dir (Some d));
                 _ ← mutex_unlock;
                 mret 0);
          _ ← path_put;
          mret ret
      end
  end.

(** ** ramfs_file_flush *)

Definition tmp_path (dir name : list Z) : path :=
  fst (snprintf PATH_MAX (dir ++ bytes_of "/." ++ name ++ bytes_of ".tmp")).

(** The entry [lookup_one_len] finds for a name in a directory. *)
Definition dir_entry (dir name : list Z) : path := dir ++ bytes_of "/" ++ name.

Definition write_at (old : list Z) (pos : Z) (bs : list Z) : list Z :=
  take (Z.to_nat pos) old ++ bs ++ drop (Z.to_nat pos + List.length bs) old.

(** The loop that copies the source to the temporary file block by block; the
    result is [ret], zero when the loop ends normally. *)
Fixpoint copy_loop (fuel : nat) (src tmp : path) (size pos : Z) : M world Z :=
  match fuel with
  | O => abort OutOfFuel
  | S fuel' =>
      if pos <? size then
        let bytes_to_read := Z.min PAGE_SIZE (size - pos) in
        let bytes_read := kernel_read E src pos bytes_to_read in
        if bytes_read <? 0 then mret bytes_read
        else if bytes_read =? 0 then mret 0
        else
          w ← get;
          let buf := slice (default [] (files w !! src)) pos bytes_read in
          let bytes_written := kernel_write E tmp pos bytes_read in
          if bytes_written <? 0 then mret bytes_written
          else
            _ ← modify (set_files (fun fs =>
                  <[tmp := write_at (default [] (fs !! tmp)) pos (take (Z.to_nat bytes_written) buf)]> fs));
            copy_loop fuel' src tmp size (pos + bytes_written)
      else mret 0
  end.

(** The labels at the end of the function; the flags say whether the file
    pointers are still open. *)
Definition out_free_path (ret : Z) : M world Z := _ ← kfree; _ ← kfree; mret ret.
Definition out_close_file (sync_file : bool) (ret : Z) : M world Z :=
  _ ← (if sync_file then filp_close else mret tt); out_free_path ret.
Definition out_close_read_file (read_file sync_file : bool) (ret : Z) : M world Z :=
  _ ← (if read_file then filp_close else mret tt); out_close_file sync_file ret.
Definition out_free_buf (read_file sync_file : bool) (ret : Z) : M world Z :=
  _ ← kfree; out_close_read_file read_file sync_file ret.

(** The block that renames the temporary file to its final name. *)
Definition rename_block (dir name : list Z) : M world Z :=
  ok ← kmalloc KTmpPath;
  if negb ok then out_free_buf false false (- Errno.ENOMEM)
  else
    let tmp := tmp_path dir name in
    match kern_path E tmp with
    | inl ret => _ ← kfree; out_free_buf false false ret
    | inr _ =>
        _ ← modify (add_path_refs 1);
        match kern_path E dir with
        | inl ret => _ ← path_put; _ ← kfree; out_free_buf false false ret
        | inr _ =>
            _ ← modify (add_path_refs 1);
            _ ← inode_lock;
            match lookup_one_len E (dir_entry dir name) with
            | Some ret =>
                _ ← inode_unlock; _ ← path_put; _ ← path_put; _ ← kfree;
                out_free_buf false false ret
            | None =>
                _ ← modify (add_path_refs 1);
                let ret := vfs_rename E tmp (dir_entry dir name) in
                _ ← (if ret =? 0 then
                       modify (set_files (fun fs => match fs !! tmp with
                         | Some c => <[dir_entry dir name := c]> (delete tmp fs)
                         | None => fs end))
                     else mret tt);
                _ ← path_put;
                _ ← inode_unlock; _ ← path_put; _ ← path_put; _ ← kfree;
                _ ← kfree; _ ← kfree; _ ← kfree;
                mret ret
            end
        end
    end.

(** [ramfs_file_flush]; [depth] bounds the nesting of calls ([vfs_fsync] on a
    file that is itself on a ramfs calls back into this function), [fuel] the
    iterations of the copying loop. *)
Fixpoint ramfs_file_flush (depth fuel : nat) (file : option rfile) : M world Z :=
  match depth with
  | O => abort OutOfFuel
  | S depth' =>
      match file with
      | None => abort NullDeref    (* file->f_path is read before the check *)
      | Some file =>
          let filename := d_name file in
          if negb (is_ramfs file) then mret 0
          else
            _ ← mutex_lock;
            w ← get;
            match ramfs_sync_dir w with
            | None => _ ← mutex_unlock; mret 0
            | Some dir =>
                ok ← kmalloc KTempPath;
                _ ← mutex_unlock;
                if negb ok then mret (- Errno.ENOMEM)
                else
                  ok ← kmalloc KFilepath;
                  if negb ok then _ ← kfree; mret (- Errno.ENOMEM)
                  else
                    let filepath := tmp_path dir filename in
                    match filp_open E filepath with
                    | Some ret => out_free_path ret
                    | None =>
                        _ ← modify (add_handles 1);
                        _ ← modify (set_files (fun fs => <[filepath := []]> fs));
                        match d_path E (f_path file) with
                        | Some ret => out_close_file true ret
                        | None =>
                            match filp_open E (f_path file) with
                            | Some ret => out_close_file true ret
                            | None =>
                                _ ← modify (add_handles 1);
                                w ← get;
                                let size := Z.of_nat (List.length (default [] (files w !! f_path file))) in
                                ok ← kmalloc KBuf;
                                if negb ok then out_close_read_file true true (- Errno.ENOMEM)
                                else
                                  ret ← copy_loop fuel (f_path file) filepath size 0;
                                  if ret <? 0 then out_free_buf true true ret
                                  else
                                    ret ← (if on_ramfs E filepath
                                           then ramfs_file_flush depth' fuel
                                                  (Some (RFile (bytes_of "." ++ filename ++ bytes_of ".tmp")
                                                               filepath true))
                                           else mret (fsync_backing E filepath));
                                    if negb (ret =? 0) then out_free_buf true true ret
                                    else
                                      _ ← filp_close;
                                      _ ← filp_close;
                                      rename_block dir filename
                            end
                        end
                    end
            end
      end
  end.

(** [ramfs_fsync] of [file-mmu.c]. *)
Definition ramfs_fsync (depth fuel : nat) (file : option rfile) : M world Z :=
  ramfs_file_flush depth fuel file.

(** ** The files of /proc/fs/ramfs *)

(** [ramfs_proc_bind_read]: the result, the bytes given to the user and the
    new file position; [copied] says whether [copy_to_user] succeeds. *)
Definition ramfs_proc_bind_read (count ppos : Z) (copied : bool) : M world (Z * list Z * Z) :=
  _ ← mutex_lock;
  w ← get;
  let text := match ramfs_sync_dir w with
              | None => bytes_of "No sync directory bound" ++ [10]
              | Some d => d ++ [10] end in
  _ ← mutex_unlock;
  let (temp, n) := snprintf PATH_MAX text in
  let len := s32 n in
  if len <=? ppos then mret (0, [], ppos)
  else
    let count := if u64 (len - ppos) <? count then u64 (len - ppos) else count in
    if (ppos <? 0) || (Z.of_nat (List.length temp) <? ppos + count) then abort OutOfBounds
    else if negb copied then mret (- Errno.EFAULT, [], ppos)
    else mret (count, slice temp ppos count, ppos + count).

(** [ramfs_proc_bind_write]; [uninit] is what [kmalloc] left in the arrays. *)
Definition ramfs_proc_bind_write (uninit buf : list Z) (copied : bool) : M world Z :=
  let count := Z.of_nat (List.length buf) in
  if PATH_MAX <=? count then mret (- Errno.EINVAL)
  else
    ok ← kmalloc KKbuf;
    if negb ok then mret (- Errno.ENOMEM)
    else
      ok ← kmalloc KRamfsPath;
      if negb ok then _ ← kfree; mret (- Errno.ENOMEM)
      else
        ok ← kmalloc KSyncPath;
        if negb ok then _ ← kfree; _ ← kfree; mret (- Errno.ENOMEM)
        else
          ret ←
            (if negb copied then mret (- Errno.EFAULT)
             else
               r ← lift (parse_mount_path (buf ++ [0]) uninit uninit);
               let '(ret, _, sync_path) := r in
               if negb (ret =? 0) then mret ret
               else
                 ret ← ramfs_bind (Some (cstr sync_path));
                 mret (if ret =? 0 then count else ret));
          _ ← kfree; _ ← kfree; _ ← kfree;
          mret ret.

Definition ramfs_proc_sync_write (depth fuel : nat) (buf : list Z) (copied : bool) : M world Z :=
  let count := Z.of_nat (List.length buf) in
  if PATH_MAX <=? count then mret (- Errno.EINVAL)
  else
    ok ← kmalloc KKbuf;
    if negb ok then mret (- Errno.ENOMEM)
    else if negb copied then _ ← kfree; mret (- Errno.EFAULT)
    else
      let kbuf := if (0 <? count) && (nth (Z.to_nat (count - 1)) buf 0 =? 10)
                  then take (Z.to_nat (count - 1)) buf ++ [0; 0] else buf ++ [0] in
      match kern_path E (cstr kbuf) with
      | inl ret => _ ← kfree; mret ret
      | inr _ =>
          _ ← modify (add_path_refs 1);
          let target_file := dentry_open E (cstr kbuf) in
          _ ← path_put;
          match target_file with
          | inl ret => _ ← kfree; mret ret
          | inr f =>
              _ ← modify (add_handles 1);
              ret ← ramfs_file_flush depth fuel (Some f);
              _ ← filp_close;
              _ ← kfree;
              mret (if ret =? 0 then count else ret)
          end
      end.

End Ramfs.

(** ** Module initialisation *)

(** Which of the three proc entries exist, and whether the type is known. *)
Record module_state := ModState {
  proc_dir : bool; proc_bind : bool; proc_sync : bool; registered : bool
}.

Definition ramfs_init_proc (mkdir_ok bind_ok sync_ok : bool) (s : module_state) : Z * module_state :=
  if negb mkdir_ok then (- Errno.ENOMEM, s)
  else
    let s := ModState true (proc_bind s) (proc_sync s) (registered s) in
    let remove_dir s := (- Errno.ENOMEM, ModState false (proc_bind s) (proc_sync s) (registered s)) in
    if negb bind_ok then remove_dir s
    else
      let s := ModState (proc_dir s) true (proc_sync s) (registered s) in
      if negb sync_ok then
        remove_dir (ModState (proc_dir s) false (proc_sync s) (registered s))
      else (0, ModState (proc_dir s) (proc_bind s) true (registered s)).

Definition ramfs_exit_proc (s : module_state) : module_state :=
  let s := ModState (proc_dir s) (proc_bind s) false (registered s) in
  let s := ModState (proc_dir s) false (proc_sync s) (registered s) in
  ModState false (proc_bind s) (proc_sync s) (registered s).

Definition init_ramfs_fs (mkdir_ok bind_ok sync_ok : bool) (register_filesystem : Z)
    (s : module_state) : Z * module_state :=
  let (_, s) := ramfs_init_proc mkdir_ok bind_ok sync_ok s in
  (register_filesystem,
   ModState (proc_dir s) (proc_bind s) (proc_sync s) (register_filesystem =? 0)).

Definition exit_ramfs_fs (s : module_state) (w : world) : module_state * world :=
  let s := ramfs_exit_proc s in
  (ModState (proc_dir s) (proc_bind s) (proc_sync s) false,
   match ramfs_sync_dir w with Some _ => add_allocs (-1) w | None => w end).

(** ** What a line written to the bind file means *)

Fixpoint drop_blanks (l : list Z) : list Z :=
  match l with c :: l' => if blank c then drop_blanks l' else l | [] => [] end.

Fixpoint word_of (l : list Z) : list Z :=
  match l with c :: l' => if word_char c then c :: word_of l' else [] | [] => [] end.

Definition first_word (l : list Z) : list Z := word_of (drop_blanks l).
Definition after_word (l : list Z) : list Z :=
  drop (List.length (first_word l)) (drop_blanks l).
Definition second_word (l : list Z) : list Z := first_word (after_word l).

(** The return code: each word must have 1 to 255 characters. *)
Definition word_code (w : list Z) : Z :=
  if 255 <? Z.of_nat (List.length w) then - Errno.ENAMETOOLONG
  else if bool_decide (w = []) then - Errno.EINVAL else 0.

Definition line_code (l : list Z) : Z :=
  if word_code (first_word l) =? 0 then word_code (second_word l) else word_code (first_word l).

Lemma skip_blanks_spec l : 0 ∈ l -> skip_blanks l = Ok (drop_blanks l) /\ 0 ∈ drop_blanks l.
Proof.
  induction l as [|c l IH]; [by intros ?%not_elem_of_nil|].
  intros H. cbn. destruct (blank c) eqn:Eb; [|done].
  apply IH. apply elem_of_cons in H as [<-|H]; [done|done].
Qed.

Lemma word_of_split l : 0 ∈ l ->
  exists c r, l = word_of l ++ c :: r /\ word_char c = false /\ 0 ∈ c :: r.
Proof.
  induction l as [|c l IH]; [by intros ?%not_elem_of_nil|].
  intros H. cbn. destruct (word_char c) eqn:Ec; [|by exists c, l].
  apply elem_of_cons in H as [<-|H]; [done|].
  destruct (IH H) as (c' & r & E & Hc & H0). exists c', r. cbn. by rewrite <- E.
Qed.

Lemma word_of_chars l : Forall (fun c => word_char c = true) (word_of l).
Proof. induction l as [|c l IH]; cbn; [done|]. destruct (word_char c) eqn:E; by constructor. Qed.

Lemma word_chars_nonul w : Forall (fun c => word_char c = true) w -> nonul w.
Proof. intros H. eapply Forall_impl; [exact H|]. intros c Hc ->. done. Qed.

Lemma length_zero_eqb {A} `{EqDecision A} (l : list A) :
  (Z.of_nat (List.length l) =? 0) = bool_decide (l = []).
Proof. destruct l; [done|]. cbn [List.length]. by rewrite bool_decide_eq_false_2. Qed.

Lemma store_char_ok arr j c :
  List.length arr = 256%nat -> 0 <= j <= 255 ->
  store_char arr j c = Ok (take (Z.to_nat j) arr ++ c :: drop (S (Z.to_nat j)) arr).
Proof.
  intros Ha Hj. unfold store_char. rewrite Ha.
  destruct (Z.leb_spec 0 j), (Z.ltb_spec j (Z.of_nat 256)); cbn [andb]; try lia.
  by rewrite insert_take_drop by lia.
Qed.

(** One copying loop: the word is stored, with its terminator, or is too long. *)
Lemma copy_word_spec w c r : Forall (fun x => word_char x = true) w -> word_char c = false ->
  forall arr j, List.length arr = Z.to_nat RAMFS_MAX_PATH -> 0 <= j <= 255 ->
  copy_word (w ++ c :: r) arr j =
    Ok (if 255 <? j + Z.of_nat (List.length w) then inl (- Errno.ENAMETOOLONG)
        else inr (c :: r, take (Z.to_nat j) arr ++ w ++ 0 ::
                          drop (Z.to_nat j + List.length w + 1) arr,
                  j + Z.of_nat (List.length w))).
Proof.
  intros Hw Hc. change (Z.to_nat RAMFS_MAX_PATH) with 256%nat.
  induction Hw as [|x w Hx Hw IH]; intros arr j Ha Hj; cbn [copy_word app].
  - rewrite Hc, store_char_ok by done. cbn [mbind res_bind List.length].
    destruct (Z.ltb_spec 255 (j + Z.of_nat 0)); [lia|].
    cbn [app]. do 5 f_equal; [do 2 f_equal; lia|lia].
  - rewrite Hx. unfold RAMFS_MAX_PATH. cbn [List.length].
    destruct (Z.leb_spec (256 - 1) j);
      [destruct (Z.ltb_spec 255 (j + Z.of_nat (S (List.length w)))); [done|lia]|].
    rewrite store_char_ok by lia. cbn [mbind res_bind].
    rewrite IH by (rewrite ?length_app, ?length_take; cbn [List.length]; rewrite ?length_drop; lia).
    replace (j + 1 + Z.of_nat (List.length w)) with (j + Z.of_nat (S (List.length w))) by lia.
    destruct (Z.ltb_spec 255 (j + Z.of_nat (S (List.length w)))); [done|].
    do 4 f_equal.
    rewrite (app_assoc _ [x] (drop _ _) : _ ++ x :: _ = _).
    rewrite take_app_length' by (rewrite length_app, length_take; cbn [List.length]; lia).
    rewrite drop_app_ge by (rewrite length_app, length_take; cbn [List.length]; lia).
    rewrite drop_drop, length_app, length_take, <- app_assoc. cbn [app List.length].
    do 5 f_equal. lia.
Qed.

(** Skipping blanks and copying a word, as one step. *)
Lemma skip_copy_spec l arr :
  0 ∈ l -> List.length arr = Z.to_nat RAMFS_MAX_PATH ->
  exists arr', 0 ∈ after_word l /\
    (b ← skip_blanks l; copy_word b arr 0) =
    Ok (if 255 <? Z.of_nat (List.length (first_word l)) then inl (- Errno.ENAMETOOLONG)
        else inr (after_word l, arr', Z.of_nat (List.length (first_word l)))) /\
    cstr arr' = first_word l.
Proof.
  intros H Ha. destruct (skip_blanks_spec l H) as [-> H0]. cbn [mbind res_bind].
  destruct (word_of_split _ H0) as (c & r & E & Hc & Hr).
  assert (after_word l = c :: r) as Eaw.
  { unfold after_word. rewrite E at 1. unfold first_word. by rewrite drop_app_length. }
  rewrite Eaw. pose proof (word_of_chars (drop_blanks l)) as Hw. fold (first_word l) in *.
  exists (first_word l ++ 0 :: drop (List.length (first_word l) + 1) arr).
  split; [done|]. split; [|by apply cstr_app_nul, word_chars_nonul].
  rewrite E, copy_word_spec by done. done.
Qed.

Lemma parse_mount_path_cases l a0 b0 :
  0 ∈ l -> List.length a0 = Z.to_nat RAMFS_MAX_PATH -> List.length b0 = Z.to_nat RAMFS_MAX_PATH ->
  exists a b, parse_mount_path l a0 b0 = Ok (line_code l, a, b) /\
    (line_code l = 0 -> cstr a = first_word l /\ cstr b = second_word l).
Proof.
  intros H Ha Hb.
  destruct (skip_copy_spec l a0 H Ha) as (a & H1 & E1 & Ca).
  destruct (skip_copy_spec (after_word l) b0 H1 Hb) as (b & _ & E2 & Cb).
  unfold parse_mount_path, line_code, word_code, second_word in *.
  change (- Errno.ENAMETOOLONG) with (-36) in *. change (- Errno.EINVAL) with (-22) in *.
  destruct (skip_blanks l) as [b1|] eqn:S1; [|discriminate]. cbn [mbind res_bind] in E1 |- *.
  rewrite E1. cbn [mbind res_bind].
  destruct (Z.ltb_spec 255 (Z.of_nat (List.length (first_word l)))); [by eexists _, _|].
  rewrite length_zero_eqb. case_bool_decide; [by eexists _, _|].
  destruct (skip_blanks (after_word l)) as [b2|] eqn:S2; [|discriminate]. cbn [mbind res_bind] in E2 |- *.
  rewrite E2. cbn [mbind res_bind].
  destruct (Z.ltb_spec 255 (Z.of_nat (List.length (first_word (after_word l))))); [by eexists _, _|].
  rewrite length_zero_eqb. case_bool_decide; by eexists _, _.
Qed.

(** C23: [parse_mount_path] never reads past the terminated input nor writes
    outside its two 256-byte arrays.  It returns 0 exactly when the line starts
    with two words of 1 to 255 characters, which are then the strings in the
    arrays; otherwise it returns the code of the first word that is missing or
    too long. *)
Theorem parse_mount_path_spec l a0 b0 :
  0 ∈ l -> List.length a0 = Z.to_nat RAMFS_MAX_PATH -> List.length b0 = Z.to_nat RAMFS_MAX_PATH ->
  exists a b, parse_mount_path l a0 b0 = Ok (line_code l, a, b) /\
    (line_code l = 0 -> cstr a = first_word l /\ cstr b = second_word l).
Proof.
  intros H Ha Hb. destruct (parse_mount_path_cases l a0 b0 H Ha Hb) as (a & b & H1 & H2).
  by exists a, b.
Qed.

(** ** Binding *)

(** What the kernel promises of its answers: errors are negative, transfers do
    not exceed the request. *)
Record env_ok (E : vfs_env) : Prop := {
  kern_path_err p e : kern_path E p = inl e -> e < 0;
  filp_open_err p e : filp_open E p = Some e -> e < 0;
  d_path_err p e : d_path E p = Some e -> e < 0;
  lookup_err p e : lookup_one_len E p = Some e -> e < 0;
  dentry_open_err p e : dentry_open E p = inl e -> e < 0;
  rename_err p q : vfs_rename E p q <= 0;
  fsync_err p : fsync_backing E p <= 0;
  kernel_read_le p pos n : 0 <= n -> kernel_read E p pos n <= n;
  kernel_write_le p pos n : 0 <= n -> kernel_write E p pos n <= n
}.

(** The world after a successful binding. *)
Definition bound (d : path) (w : world) : world :=
  add_allocs (match ramfs_sync_dir w with Some _ => 0 | None => 1 end) (set_sync_dir (Some d) w).

Lemma world_eq f1 d1 m1 a1 h1 p1 l1 a2 h2 p2 :
  a1 = a2 -> h1 = h2 -> p1 = p2 ->
  World f1 d1 m1 a1 h1 p1 l1 = World f1 d1 m1 a2 h2 p2 l1.
Proof. congruence. Qed.

(** Two worlds that differ in their counters only. *)
Ltac same_world := unfold bound, add_allocs, add_handles, add_path_refs, set_mutex, set_sync_dir,
  set_files, set_dir_locked; cbn; apply world_eq; lia.

(** Run the monadic code over a world given by its fields. *)
Ltac wrun := cbv beta iota zeta delta [mbind M_bind mret M_ret modify get abort lift
  kfree filp_close path_put mutex_lock mutex_unlock inode_lock inode_unlock negb
  set_files set_sync_dir set_mutex add_allocs add_handles add_path_refs set_dir_locked
  files ramfs_sync_dir ramfs_sync_mutex allocs handles path_refs dir_locked fst snd].

Lemma ramfs_bind_spec E d w :
  env_ok E -> ramfs_sync_mutex w = false ->
  exists ret w', ramfs_bind E (Some d) w = Ok (ret, w') /\ ret <= 0 /\
    (ret = 0 -> w' = bound d w) /\ (ret <> 0 -> w' = w).
Proof.
  intros HE Hm. destruct w as [fs sd mu al ha pr dl]. cbn in Hm. subst mu. unfold ramfs_bind.
  destruct (kern_path E d) as [e|i_mode] eqn:Ek.
  { pose proof (kern_path_err E HE _ _ Ek). eexists _, _. split; [done|]. split_and!; [lia|lia|done]. }
  unfold kmalloc.
  destruct (S_ISDIR i_mode), (hasb i_mode S_IWUSR), (kmalloc_ok E KNewDir), sd; wrun;
    (eexists _, _; split; [done|]; split_and!;
       [done|first [done|intros _; same_world]|first [done|intros _; same_world]]).
Qed.

Lemma word_code_zero w : word_code w = 0 -> Z.of_nat (List.length w) <= 255.
Proof. unfold word_code. destruct (Z.ltb_spec 255 (Z.of_nat (List.length w))); done. Qed.

Lemma line_code_zero l : line_code l = 0 -> word_code (second_word l) = 0.
Proof. unfold line_code. destruct (Z.eqb_spec (word_code (first_word l)) 0); done. Qed.

#[local] Arguments ramfs_bind : simpl never.
#[local] Arguments parse_mount_path : simpl never.

Lemma line_code_le l : line_code l <= 0.
Proof.
  unfold line_code, word_code. repeat case_bool_decide; bsplit; cbn; done || lia.
Qed.

Lemma bind_write_cases E uninit buf copied w :
  env_ok E -> ramfs_sync_mutex w = false -> List.length uninit = Z.to_nat RAMFS_MAX_PATH ->
  exists ret w', ramfs_proc_bind_write E uninit buf copied w = Ok (ret, w') /\
    ((ret = Z.of_nat (List.length buf) /\ line_code (buf ++ [0]) = 0 /\
      w' = bound (second_word (buf ++ [0])) w) \/
     (ret < 0 /\ w' = w)).
Proof.
  intros HE Hm Hu. unfold ramfs_proc_bind_write.
  destruct (PATH_MAX <=? _); [eexists _, _; split; [done|]; right; done|].
  destruct w as [fs sd mu al ha pr dl]. cbn in Hm. subst mu.
  destruct (parse_mount_path_cases (buf ++ [0]) uninit uninit) as (a & b & Hp & Hw);
    [apply elem_of_app; right; by apply list_elem_of_singleton|done|done|].
  unfold kmalloc. rewrite Hp.
  destruct (kmalloc_ok E KKbuf), (kmalloc_ok E KRamfsPath), (kmalloc_ok E KSyncPath), copied;
    try (wrun; eexists _, _; split; [done|]; right; split; [done|same_world]).
  wrun. destruct (Z.eqb_spec (line_code (buf ++ [0])) 0) as [El|Hc]; wrun.
  - destruct (Hw El) as [_ ->]. match goal with |- context [ramfs_bind E (Some ?d) ?w0] =>
      destruct (ramfs_bind_spec E d w0 HE eq_refl) as (ret & w' & -> & Hle & H0 & H1) end.
    destruct (Z.eqb_spec ret 0) as [Er|Er].
    + rewrite (H0 Er). eexists _, _. split; [done|]. left. split_and!; [done|done|].
      destruct sd; same_world.
    + rewrite (H1 Er). eexists _, _. split; [done|]. right. split; [lia|same_world].
  - eexists _, _. split; [done|]. right. pose proof (line_code_le (buf ++ [0])).
    split; [lia|same_world].
Qed.

(** A line written to the bind file is handled atomically: either the call
    returns the number of bytes written, the directory bound is the second word
    of the line, and the only lasting allocation is the directory's name (the
    old one is freed); or it returns a negative code, the one of the parser if
    the line is malformed, and nothing at all has changed. *)
Theorem bind_write_atomic E uninit buf copied w :
  env_ok E -> ramfs_sync_mutex w = false -> List.length uninit = Z.to_nat RAMFS_MAX_PATH ->
  exists ret w', ramfs_proc_bind_write E uninit buf copied w = Ok (ret, w') /\
    ((ret = Z.of_nat (List.length buf) /\ line_code (buf ++ [0]) = 0 /\
      w' = bound (second_word (buf ++ [0])) w) \/
     (ret < 0 /\ w' = w)).
Proof.
  intros HE Hm Hu. destruct (bind_write_cases E uninit buf copied w HE Hm Hu)
    as (ret & w' & H1 & H2). by exists ret, w'.
Qed.

(** *** Reading the bound directory back *)

(** A reader that asks for [chunk] bytes until it gets none. *)
Fixpoint read_all (fuel : nat) (chunk ppos : Z) : M world (list Z) :=
  match fuel with
  | O => abort OutOfFuel
  | S fuel' =>
      r ← ramfs_proc_bind_read chunk ppos true;
      let '(n, data, ppos') := r in
      if n =? 0 then mret [] else rest ← read_all fuel' chunk ppos'; mret (data ++ rest)
  end.

Lemma bind_read_step chunk ppos w d :
  ramfs_sync_mutex w = false -> ramfs_sync_dir w = Some d ->
  Z.of_nat (List.length d) < PATH_MAX - 1 -> 0 <= ppos -> 0 < chunk ->
  let text := d ++ [10] in
  let n := Z.max 0 (Z.min chunk (Z.of_nat (List.length text) - ppos)) in
  ramfs_proc_bind_read chunk ppos true w = Ok ((n, slice text ppos n, ppos + n), w).
Proof.
  intros Hm Hd Hl Hp Hc text n. destruct w as [fs sd mu al ha pr dl]. cbn in Hm, Hd. subst mu sd.
  unfold ramfs_proc_bind_read. wrun. fold text. assert (Z.of_nat (List.length text) = Z.of_nat (List.length d) + 1) as Ht
    by (unfold text; rewrite length_app; cbn [List.length]; lia).
  unfold PATH_MAX in *. rewrite snprintf_fits by lia.
  rewrite swrap_small by (unfold is_s; lia).
  destruct (Z.leb_spec (Z.of_nat (List.length text)) ppos).
  - replace n with 0 by lia. unfold slice. rewrite Z.add_0_r. done.
  - rewrite uwrap_small by (unfold is_u; lia).
    destruct (Z.ltb_spec (Z.of_nat (List.length text) - ppos) chunk);
      (destruct (Z.ltb_spec ppos 0); [lia|]; cbn [orb];
       match goal with |- context [Z.ltb ?a ?b] => destruct (Z.ltb_spec a b); [lia|] end; cbn [negb]).
    + replace n with (Z.of_nat (List.length text) - ppos) by lia. done.
    + replace n with chunk by lia. done.
Qed.

Lemma read_all_spec chunk d w fuel : forall ppos,
  ramfs_sync_mutex w = false -> ramfs_sync_dir w = Some d ->
  Z.of_nat (List.length d) < PATH_MAX - 1 -> 0 <= ppos -> 0 < chunk ->
  Z.max 0 (Z.of_nat (List.length d) + 1 - ppos) < Z.of_nat fuel ->
  read_all fuel chunk ppos w = Ok (drop (Z.to_nat ppos) (d ++ [10]), w).
Proof.
  induction fuel as [|fuel IH]; intros ppos Hm Hd Hl Hp Hc Hf; cbn [read_all]; [lia|].
  unfold mbind, M_bind. rewrite (bind_read_step chunk ppos w d) by done.
  assert (Z.of_nat (List.length (d ++ [10])) = Z.of_nat (List.length d) + 1) as Ht
    by (rewrite length_app; cbn [List.length]; lia).
  set (n := Z.max 0 _). destruct (Z.eqb_spec n 0).
  - rewrite drop_ge by lia. done.
  - rewrite IH by (done || lia). f_equal. f_equal. unfold slice.
    replace (Z.to_nat (ppos + n)) with (Z.to_nat ppos + Z.to_nat n)%nat by lia.
    by rewrite <- drop_drop, take_drop.
Qed.

(** C21: what is bound can be read back: after a successful write of a line to
    the bind file, a reader that asks for any positive number of bytes at a time
    gets, in at most one read per byte and one more, exactly the second word of
    the line and a newline; reading changes nothing. *)
Theorem bind_write_read_roundtrip E uninit buf w ret w' chunk fuel :
  env_ok E -> ramfs_sync_mutex w = false -> List.length uninit = Z.to_nat RAMFS_MAX_PATH ->
  ramfs_proc_bind_write E uninit buf true w = Ok (ret, w') -> 0 <= ret ->
  0 < chunk -> (257 <= fuel)%nat ->
  read_all fuel chunk 0 w' = Ok (second_word (buf ++ [0]) ++ [10], w').
Proof.
  intros HE Hm Hu Hw Hr Hc Hf.
  destruct (bind_write_cases E uninit buf true w HE Hm Hu) as (r1 & w1 & E1 & [(_ & Hl & Hb)|[Hn _]]);
    rewrite Hw in E1; injection E1 as <- <-; [|lia].
  assert (Z.of_nat (List.length (second_word (buf ++ [0]))) <= 255) as Hlen.
  { by apply word_code_zero, line_code_zero. }
  subst w'. destruct w; cbn in Hm; subst.
  apply (read_all_spec chunk (second_word (buf ++ [0])) _ fuel 0);
    unfold PATH_MAX; cbn; try done; lia.
Qed.

(** ** Flushing a file *)

(** The backing file system makes progress: a write of some bytes never
    reports zero. *)
Definition writes_progress (E : vfs_env) (tmp : path) : Prop :=
  forall pos n, 0 < n -> kernel_write E tmp pos n <> 0.

(** The source is not cut short: a read of some bytes never reports zero. *)
Definition reads_full (E : vfs_env) (src : path) : Prop :=
  forall pos n, 0 < n -> kernel_read E src pos n <> 0.

(** Neither reads of the source nor writes of the copy report errors. *)
Definition transfers (E : vfs_env) (src tmp : path) : Prop :=
  forall pos n, 0 < n -> 0 <= kernel_read E src pos n /\ 0 <= kernel_write E tmp pos n.

Lemma write_at_end (data : list Z) pos n k :
  0 <= pos -> 0 <= n -> n <= k -> pos + k <= Z.of_nat (List.length data) ->
  write_at (take (Z.to_nat pos) data) pos (take (Z.to_nat n) (slice data pos k))
  = take (Z.to_nat (pos + n)) data.
Proof.
  intros. unfold write_at, slice. rewrite take_take, Nat.min_id.
  rewrite (drop_ge (take _ _)) by (rewrite !length_take, length_drop; lia).
  rewrite app_nil_r, take_take, Nat.min_l by lia.
  rewrite Z2Nat.inj_add by lia. apply take_take_drop.
Qed.

Lemma copy_loop_spec E src tmp data :
  env_ok E -> src <> tmp -> writes_progress E tmp ->
  forall fuel pos fs sd mu al ha pr dl,
  default [] (fs !! src) = data -> fs !! tmp = Some (take (Z.to_nat pos) data) ->
  0 <= pos <= Z.of_nat (List.length data) -> Z.of_nat (List.length data) - pos < Z.of_nat fuel ->
  exists ret n,
    copy_loop E fuel src tmp (Z.of_nat (List.length data)) pos (World fs sd mu al ha pr dl)
      = Ok (ret, World (<[tmp := take n data]> fs) sd mu al ha pr dl) /\
    ret <= 0 /\ (ret = 0 -> reads_full E src -> take n data = data) /\
    (transfers E src tmp -> ret = 0).
Proof.
  intros HE Hne Hpr. induction fuel as [|fuel IH]; intros pos fs sd mu al ha pr dl Hd Ht Hp Hf; [lia|].
  cbn [copy_loop]. destruct (Z.ltb_spec pos (Z.of_nat (List.length data))).
  2: { exists 0, (Z.to_nat pos). wrun. rewrite insert_id by done. split; [done|].
       split_and!; [lia| |done]. intros _ _. by rewrite take_ge by lia. }
  set (k := Z.min _ _). pose proof (kernel_read_le E HE src pos k ltac:(unfold PAGE_SIZE in *; lia)) as Hrk.
  destruct (Z.ltb_spec (kernel_read E src pos k) 0).
  { eexists _, (Z.to_nat pos). wrun. rewrite insert_id by done. split; [done|].
    split_and!; [lia|lia|]. intros Htr. destruct (Htr pos k); unfold k, PAGE_SIZE in *; lia. }
  destruct (Z.eqb_spec (kernel_read E src pos k) 0) as [E0|].
  { exists 0, (Z.to_nat pos). wrun. rewrite insert_id by done. split; [done|]. split_and!; [lia| |done].
    intros _ Hfull. exfalso. apply (Hfull pos k); [unfold k, PAGE_SIZE; lia|done]. }
  set (r := kernel_read E src pos k) in *.
  pose proof (kernel_write_le E HE tmp pos r ltac:(lia)) as Hwr.
  pose proof (Hpr pos r ltac:(lia)) as Hw0.
  wrun. set (wn := kernel_write E tmp pos r) in *.
  destruct (Z.ltb_spec wn 0).
  { eexists _, (Z.to_nat pos). rewrite insert_id by done. split; [done|].
    split_and!; [lia|lia|]. intros Htr. destruct (Htr pos r); lia. }
  rewrite Ht, Hd. cbv [default from_option id]. rewrite write_at_end by lia.
  destruct (IH (pos + wn) (<[tmp:=take (Z.to_nat (pos + wn)) data]> fs) sd mu al ha pr dl)
    as (ret & n' & -> & Hle & Hfin & Hok).
  - by rewrite lookup_insert_ne.
  - by rewrite lookup_insert_eq.
  - lia.
  - lia.
  - exists ret, n'. rewrite insert_insert_eq. done.
Qed.

(** The block with the rename leaves every resource as it was before the call
    (three allocations less than at its start) and either renames or does
    nothing. *)
Lemma rename_block_spec E dir name c fs sd al ha pr :
  env_ok E -> fs !! tmp_path dir name = Some c ->
  exists ret fs',
    rename_block E dir name (World fs sd false al ha pr false)
      = Ok (ret, World fs' sd false (al - 3) ha pr false) /\
    ret <= 0 /\ (ret <> 0 -> fs' = fs) /\
    (ret = 0 -> fs' = <[dir_entry dir name := c]> (delete (tmp_path dir name) fs)).
Proof.
  intros HE Hc. unfold rename_block, out_free_buf, out_close_read_file, out_close_file, out_free_path, kmalloc.
  destruct (kmalloc_ok E KTmpPath).
  2: { wrun. exists (- Errno.ENOMEM), fs. split; [do 2 f_equal; same_world|]. by split_and!. }
  destruct (kern_path E (tmp_path dir name)) as [e|] eqn:E1.
  { pose proof (kern_path_err E HE _ _ E1). wrun. exists e, fs.
    split; [do 2 f_equal; same_world|]. split_and!; [lia|done|lia]. }
  destruct (kern_path E dir) as [e|] eqn:E2.
  { pose proof (kern_path_err E HE _ _ E2). wrun. exists e, fs.
    split; [do 2 f_equal; same_world|]. split_and!; [lia|done|lia]. }
  destruct (lookup_one_len E (dir_entry dir name)) as [e|] eqn:E3.
  { pose proof (lookup_err E HE _ _ E3). wrun. exists e, fs.
    split; [do 2 f_equal; same_world|]. split_and!; [lia|done|lia]. }
  pose proof (rename_err E HE (tmp_path dir name) (dir_entry dir name)).
  destruct (Z.eqb_spec (vfs_rename E (tmp_path dir name) (dir_entry dir name)) 0); wrun.
  - rewrite Hc. eexists _, _. split; [do 2 f_equal; same_world|]. by split_and!.
  - eexists _, fs. split; [do 2 f_equal; same_world|]. split_and!; [done|done|done].
Qed.

(** Names the kernel allows: no component exceeds 255 bytes, and the bound
    directory came from a line of the bind file. *)
Definition names_ok (dir name : list Z) : Prop :=
  Z.of_nat (List.length dir) <= 255 /\ Z.of_nat (List.length name) <= 255.

Lemma tmp_path_full dir name :
  names_ok dir name -> tmp_path dir name = dir ++ bytes_of "/." ++ name ++ bytes_of ".tmp".
Proof.
  intros [H1 H2]. unfold tmp_path. rewrite snprintf_fits; [done|].
  rewrite !length_app. unfold PATH_MAX. cbn [List.length bytes_of]. lia.
Qed.

Lemma tmp_path_not_entry dir name : names_ok dir name -> tmp_path dir name <> dir_entry dir name.
Proof.
  intros H Heq. rewrite tmp_path_full in Heq by done. unfold dir_entry in Heq.
  apply (f_equal List.length) in Heq. rewrite !length_app in Heq. cbn [List.length bytes_of] in Heq. lia.
Qed.

(** What a flush may do to the files: nothing but the temporary file changes
    when it fails; when it succeeds the target holds the copy and the temporary
    file is gone. *)
Definition flush_post (E : vfs_env) (dir : list Z) (f : rfile) (fs fs' : gmap path (list Z)) (ret : Z) : Prop :=
  let tmp := tmp_path dir (d_name f) in
  let dst := dir_entry dir (d_name f) in
  let data := default [] (fs !! f_path f) in
  ret <= 0 /\
  (forall p, p <> tmp -> p <> dst -> fs' !! p = fs !! p) /\
  (ret <> 0 -> fs' !! dst = fs !! dst) /\
  (ret = 0 -> fs' !! tmp = None /\
     exists n, fs' !! dst = Some (take n data) /\ (reads_full E (f_path f) -> take n data = data)).

Lemma flush_post_tmp E dir f fs ret v :
  ret < 0 -> names_ok dir (d_name f) -> flush_post E dir f fs (<[tmp_path dir (d_name f) := v]> fs) ret.
Proof.
  intros Hr Hn. pose proof (tmp_path_not_entry dir (d_name f) Hn).
  split_and!; [lia|intros p H1 H2; by rewrite lookup_insert_ne|intros _; by rewrite lookup_insert_ne|lia].
Qed.

Lemma flush_post_same E dir f fs ret : ret < 0 -> flush_post E dir f fs fs ret.
Proof. intros. split_and!; [lia|done|done|lia]. Qed.

Lemma flush_cases E depth fuel f dir w :
  env_ok E -> is_ramfs f = true -> ramfs_sync_dir w = Some dir ->
  ramfs_sync_mutex w = false -> dir_locked w = false -> names_ok dir (d_name f) ->
  let tmp := tmp_path dir (d_name f) in
  f_path f <> tmp -> on_ramfs E tmp = false -> writes_progress E tmp ->
  Z.of_nat (List.length (default [] (files w !! f_path f))) < Z.of_nat fuel ->
  exists ret fs', ramfs_file_flush E (S depth) fuel (Some f) w = Ok (ret, set_files (fun _ => fs') w) /\
    flush_post E dir f (files w) fs' ret.
Proof.
  intros HE Hr Hsd Hm Hdl Hn tmp Hne Hback Hprog Hfuel.
  destruct w as [fs sd mu al ha pr dl]. cbn in Hsd, Hm, Hdl, Hfuel. subst sd mu dl.
  cbn [ramfs_file_flush]. rewrite Hr. fold tmp. unfold kmalloc.
  destruct (kmalloc_ok E KTempPath).
  2: { wrun. exists (- Errno.ENOMEM), fs. split; [done|by apply flush_post_same]. }
  destruct (kmalloc_ok E KFilepath).
  2: { wrun. exists (- Errno.ENOMEM), fs. split; [do 2 f_equal; same_world|by apply flush_post_same]. }
  wrun. fold tmp. destruct (filp_open E tmp) as [e|] eqn:E1.
  { pose proof (filp_open_err E HE _ _ E1). unfold out_free_path. wrun. exists e, fs.
    split; [do 2 f_equal; same_world|by apply flush_post_same]. }
  destruct (d_path E (f_path f)) as [e|] eqn:E2.
  { pose proof (d_path_err E HE _ _ E2). unfold out_close_file, out_free_path. wrun.
    exists e, (<[tmp := []]> fs). split; [do 2 f_equal; same_world|by apply flush_post_tmp]. }
  destruct (filp_open E (f_path f)) as [e|] eqn:E3.
  { pose proof (filp_open_err E HE _ _ E3). unfold out_close_file, out_free_path. wrun.
    exists e, (<[tmp := []]> fs). split; [do 2 f_equal; same_world|by apply flush_post_tmp]. }
  destruct (kmalloc_ok E KBuf).
  2: { unfold out_close_read_file, out_close_file, out_free_path. wrun.
       exists (- Errno.ENOMEM), (<[tmp := []]> fs).
       split; [do 2 f_equal; same_world|by apply flush_post_tmp]. }
  wrun. rewrite lookup_insert_ne by done. set (data := default [] (fs !! f_path f)) in *.
  destruct (copy_loop_spec E (f_path f) tmp data HE Hne Hprog fuel 0 (<[tmp := []]> fs)
    (Some dir) false (al + 1 + 1 + 1) (ha + 1 + 1) pr false) as (ret & n & -> & Hle & Hfull & _);
    [by rewrite lookup_insert_ne|by rewrite lookup_insert_eq|lia|lia|].
  rewrite insert_insert_eq. destruct (Z.ltb_spec ret 0).
  { unfold out_free_buf, out_close_read_file, out_close_file, out_free_path. wrun.
    exists ret, (<[tmp := take n data]> fs).
    split; [do 2 f_equal; same_world|by apply flush_post_tmp]. }
  rewrite Hback. wrun. pose proof (fsync_err E HE tmp).
  destruct (Z.eqb_spec (fsync_backing E tmp) 0).
  2: { unfold out_free_buf, out_close_read_file, out_close_file, out_free_path. wrun.
       exists (fsync_backing E tmp), (<[tmp := take n data]> fs).
       split; [do 2 f_equal; same_world|apply flush_post_tmp; [lia|done]]. }
  destruct (rename_block_spec E dir (d_name f) (take n data) (<[tmp := take n data]> fs)
    (Some dir) (al + 1 + 1 + 1) (ha + 1 + 1 + -1 + -1) pr HE) as (r & fs' & -> & Hr1 & Hr2 & Hr3);
    [by rewrite lookup_insert_eq|].
  exists r, fs'. split; [do 2 f_equal; same_world|].
  destruct (decide (r = 0)) as [->|Hr0].
  - rewrite (Hr3 eq_refl). fold tmp. rewrite delete_insert_eq.
    pose proof (tmp_path_not_entry dir (d_name f) Hn). fold tmp in H1.
    split_and!; [lia| |done|].
    + intros p H2 H3. by rewrite lookup_insert_ne, lookup_delete_ne.
    + intros _. fold tmp. rewrite lookup_insert_ne, lookup_delete_eq by done. split; [done|].
      exists n. rewrite lookup_insert_eq. split; [done|]. apply Hfull. lia.
  - rewrite (Hr2 Hr0). apply flush_post_tmp; [lia|done].
Qed.

(** C4: a flush of a ramfs file to a directory of another file system is atomic
    and leaks nothing, provided that the mutex and the directory lock are free,
    the names have legal lengths, the file is not the temporary file itself, and a
    write to the temporary file that is no error writes at least one byte
    ([flush_on_ramfs_recurses] and [flush_zero_write_diverges] below show that it
    may not return otherwise).  Whatever allocation, open, read, write, sync, lookup or
    rename fails, the call returns; the mutex, the inode lock, allocations, open
    files and path references are as before; the target file is either untouched
    (on an error) or a whole copy, short only if a read reported the end early;
    the temporary file is gone after a success; no other file changes. *)
Theorem flush_atomic E depth fuel f dir w :
  env_ok E -> is_ramfs f = true -> ramfs_sync_dir w = Some dir ->
  ramfs_sync_mutex w = false -> dir_locked w = false -> names_ok dir (d_name f) ->
  let tmp := tmp_path dir (d_name f) in
  f_path f <> tmp -> on_ramfs E tmp = false -> writes_progress E tmp ->
  Z.of_nat (List.length (default [] (files w !! f_path f))) < Z.of_nat fuel ->
  exists ret fs', ramfs_fsync E (S depth) fuel (Some f) w = Ok (ret, set_files (fun _ => fs') w) /\
    flush_post E dir f (files w) fs' ret.
Proof. intros HE Hr Hsd Hm Hdl Hn tmp. by apply flush_cases. Qed.

(** *** Two ways a flush does not return *)

(** Nothing fails before the copying loop. *)
Record opens_ok (E : vfs_env) (f : rfile) (tmp : path) : Prop := {
  oo_alloc s : kmalloc_ok E s = true;
  oo_tmp : filp_open E tmp = None;
  oo_path : d_path E (f_path f) = None;
  oo_src : filp_open E (f_path f) = None
}.

(** The state in which the copying loop starts. *)
Definition at_copy (tmp : path) (w : world) : world :=
  World (<[tmp := []]> (files w)) (ramfs_sync_dir w) false (allocs w + 1 + 1 + 1)
        (handles w + 1 + 1) (path_refs w) (dir_locked w).

Lemma flush_reaches_copy E depth fuel f dir w :
  is_ramfs f = true -> ramfs_sync_dir w = Some dir -> ramfs_sync_mutex w = false ->
  let tmp := tmp_path dir (d_name f) in
  opens_ok E f tmp -> f_path f <> tmp ->
  ramfs_file_flush E (S depth) fuel (Some f) w =
  (ret ← copy_loop E fuel (f_path f) tmp
           (Z.of_nat (List.length (default [] (files w !! f_path f)))) 0;
   if ret <? 0 then out_free_buf true true ret
   else
     ret ← (if on_ramfs E tmp
            then ramfs_file_flush E depth fuel
                   (Some (RFile (bytes_of "." ++ d_name f ++ bytes_of ".tmp") tmp true))
            else mret (fsync_backing E tmp));
     if negb (ret =? 0) then out_free_buf true true ret
     else _ ← filp_close; _ ← filp_close; rename_block E dir (d_name f)) (at_copy tmp w).
Proof.
  intros Hr Hsd Hm tmp [Ha H1 H2 H3] Hne. destruct w as [fs sd mu al ha pr dl].
  cbn in Hsd, Hm. subst sd mu. cbn [ramfs_file_flush]. rewrite Hr. unfold kmalloc.
  rewrite !Ha. wrun. fold tmp. rewrite H1, H2, H3. wrun.
  by rewrite lookup_insert_ne.
Qed.

(** The copying loop relies on progress: if a write to the backing file
    reports zero bytes (neither an error nor data), the flush of a non-empty
    file loops forever, that is, no number of iterations is enough. *)
Theorem flush_zero_write_diverges E depth fuel f dir w :
  is_ramfs f = true -> ramfs_sync_dir w = Some dir -> ramfs_sync_mutex w = false ->
  let tmp := tmp_path dir (d_name f) in
  opens_ok E f tmp -> f_path f <> tmp -> default [] (files w !! f_path f) <> [] ->
  (forall pos n, 0 < n -> kernel_read E (f_path f) pos n = n) ->
  (forall pos n, kernel_write E tmp pos n = 0) ->
  ramfs_file_flush E (S depth) fuel (Some f) w = Fault OutOfFuel.
Proof.
  intros Hr Hsd Hm tmp Ho Hne Hd Hrd Hwr. rewrite (flush_reaches_copy E depth fuel f dir w) by done.
  fold tmp. unfold mbind at 1, M_bind at 1.
  assert (forall w0, copy_loop E fuel (f_path f) tmp
    (Z.of_nat (List.length (default [] (files w !! f_path f)))) 0 w0 = Fault OutOfFuel) as ->; [|done].
  assert (0 < Z.of_nat (List.length (default [] (files w !! f_path f))))
    by (destruct (default [] (files w !! f_path f)); [done|cbn [List.length]; lia]).
  induction fuel as [|fuel IH]; intros w0; [done|]. cbn [copy_loop].
  destruct (Z.ltb_spec 0 (Z.of_nat (List.length (default [] (files w !! f_path f))))); [|lia].
  rewrite Hrd, Hwr by (unfold PAGE_SIZE; lia).
  destruct (Z.ltb_spec (PAGE_SIZE `min` (Z.of_nat (List.length (default [] (files w !! f_path f))) - 0)) 0);
    [unfold PAGE_SIZE in *; lia|].
  destruct (Z.eqb_spec (PAGE_SIZE `min` (Z.of_nat (List.length (default [] (files w !! f_path f))) - 0)) 0);
    [unfold PAGE_SIZE in *; lia|]. apply IH.
Qed.

(** Nothing keeps the bound directory from lying on a ramfs itself.  Then
    syncing the temporary file calls the flush again, for the temporary file:
    as long as the nested names (five characters longer each time) are legal,
    the calls nest without bound, each with a page-sized array on the kernel
    stack. *)
Theorem flush_on_ramfs_recurses E depth fuel f dir w :
  env_ok E -> is_ramfs f = true -> ramfs_sync_dir w = Some dir -> ramfs_sync_mutex w = false ->
  Z.of_nat (List.length dir) <= 255 ->
  Z.of_nat (List.length (d_name f)) + 5 * Z.of_nat depth <= 255 ->
  f_path f <> tmp_path dir (d_name f) ->
  Z.of_nat (List.length (default [] (files w !! f_path f))) < Z.of_nat fuel ->
  (forall s, kmalloc_ok E s = true) -> (forall p, on_ramfs E p = true) ->
  (forall p, filp_open E p = None) -> (forall p, d_path E p = None) ->
  (forall p pos n, 0 < n -> kernel_read E p pos n = n /\ kernel_write E p pos n = n) ->
  ramfs_file_flush E depth fuel (Some f) w = Fault OutOfFuel.
Proof.
  intros HE Hr Hsd Hm Hdir Hname Hne Hfuel Ha Hram Hop Hdp Hrw.
  revert f w Hr Hsd Hm Hname Hne Hfuel.
  induction depth as [|depth IH]; intros f w Hr Hsd Hm Hname Hne Hfuel; [done|].
  rewrite (flush_reaches_copy E depth fuel f dir w) by done.
  set (tmp := tmp_path dir (d_name f)) in *. set (data := default [] (files w !! f_path f)) in *.
  unfold mbind at 1, M_bind at 1. unfold at_copy.
  destruct (copy_loop_spec E (f_path f) tmp data HE Hne) with (fuel := fuel) (pos := 0)
    (fs := <[tmp := []]> (files w)) (sd := ramfs_sync_dir w) (mu := false)
    (al := allocs w + 1 + 1 + 1) (ha := handles w + 1 + 1) (pr := path_refs w) (dl := dir_locked w)
    as (ret & n & -> & _ & Hfull & Hok);
    [intros pos k Hk; destruct (Hrw tmp pos k Hk); lia|by rewrite lookup_insert_ne|
     by rewrite lookup_insert_eq|lia|lia|].
  rewrite Hok by (intros pos k Hk; destruct (Hrw (f_path f) pos k Hk), (Hrw tmp pos k Hk); lia).
  rewrite Hram. change (0 <? 0) with false. cbv iota. unfold mbind at 1, M_bind at 1.
  rewrite IH; [done|done|done|done| | |].
  - cbn [d_name]. rewrite !length_app. cbn [List.length bytes_of]. lia.
  - cbn [d_name f_path]. intros Heq. apply (f_equal List.length) in Heq. unfold tmp in Heq.
    rewrite !tmp_path_full in Heq by (split; [done|cbn [d_name]; rewrite ?length_app; cbn [List.length bytes_of]; lia]).
    rewrite !length_app in Heq. cbn [List.length bytes_of] in Heq. lia.
  - cbn [f_path files]. rewrite insert_insert_eq, lookup_insert_eq. cbv [default from_option id].
    rewrite length_take. lia.
Qed.

(** *** The sync file *)

(** What a flush needs of a file in order to return. *)
Definition flushable (E : vfs_env) (fuel : nat) (w : world) (f : rfile) : Prop :=
  is_ramfs f = true -> forall dir, ramfs_sync_dir w = Some dir ->
  let tmp := tmp_path dir (d_name f) in
  names_ok dir (d_name f) /\ f_path f <> tmp /\ on_ramfs E tmp = false /\ writes_progress E tmp /\
  Z.of_nat (List.length (default [] (files w !! f_path f))) < Z.of_nat fuel.

Lemma flush_returns E depth fuel f w :
  env_ok E -> ramfs_sync_mutex w = false -> dir_locked w = false -> flushable E fuel w f ->
  exists ret fs', ramfs_file_flush E (S depth) fuel (Some f) w = Ok (ret, set_files (fun _ => fs') w) /\
    ret <= 0 /\
    (ramfs_sync_dir w = None \/ is_ramfs f = false -> ret = 0 /\ fs' = files w) /\
    (forall dir, is_ramfs f = true -> ramfs_sync_dir w = Some dir ->
       flush_post E dir f (files w) fs' ret).
Proof.
  intros HE Hm Hdl Hf. destruct (is_ramfs f) eqn:Er.
  2: { destruct w. exists 0, files0. cbn [ramfs_file_flush]. rewrite Er. by split_and!. }
  destruct (ramfs_sync_dir w) as [dir|] eqn:Ed.
  - destruct (Hf Er dir Ed) as (Hn & Hne & Hb & Hp & Hfu).
    destruct (flush_cases E depth fuel f dir w) as (ret & fs' & -> & Hpost); try done.
    exists ret, fs'. split; [done|]. split_and!; [by destruct Hpost|by intros [|]|].
    intros d' _ [= <-]. done.
  - destruct w as [fs sd mu al ha pr dl]. cbn in Hm, Hdl, Ed. subst. exists 0, fs.
    cbn [ramfs_file_flush]. rewrite Er. wrun. by split_and!.
Qed.

(** The path a line written to the sync file names. *)
Definition sync_target (buf : list Z) : path :=
  cstr (if (0 <? Z.of_nat (List.length buf)) && (List.last buf 0 =? 10)
        then List.removelast buf ++ [0; 0] else buf ++ [0]).

Lemma last_removelast buf :
  nth (Z.to_nat (Z.of_nat (List.length buf) - 1)) buf 0 = List.last buf 0 /\
  take (Z.to_nat (Z.of_nat (List.length buf) - 1)) buf = List.removelast buf.
Proof.
  replace (Z.to_nat (Z.of_nat (List.length buf) - 1)) with (List.length buf - 1)%nat by lia.
  induction buf as [|x [|y buf] IH]; [done|done|]. cbn [List.length] in *.
  replace (S (S (List.length buf)) - 1)%nat with (S (S (List.length buf) - 1)) by lia.
  destruct IH as [IH1 IH2]. split; [exact IH1|]. cbn [take List.removelast]. f_equal. exact IH2.
Qed.

(** Writing a path to the sync file flushes that file and holds on to
    nothing: the call returns the byte count, or the negative code of the step
    that failed; only file contents may have changed, and on success with a
    bound directory the file named (up to a final newline) has been copied. *)
Theorem sync_write_flushes E depth fuel buf copied w :
  env_ok E -> ramfs_sync_mutex w = false -> dir_locked w = false ->
  (forall f, dentry_open E (sync_target buf) = inr f -> flushable E fuel w f) ->
  exists ret fs', ramfs_proc_sync_write E (S depth) fuel buf copied w
                  = Ok (ret, set_files (fun _ => fs') w) /\
    (ret = Z.of_nat (List.length buf) \/ ret < 0) /\
    (0 <= ret -> exists f, dentry_open E (sync_target buf) = inr f /\
       forall dir, is_ramfs f = true -> ramfs_sync_dir w = Some dir ->
         flush_post E dir f (files w) fs' 0).
Proof.
  intros HE Hm Hdl Hf. unfold ramfs_proc_sync_write. unfold sync_target in *.
  destruct (last_removelast buf) as [-> ->]. destruct w as [fs sd mu al ha pr dl].
  cbn in Hm, Hdl. subst mu dl. set (target := cstr _) in *.
  destruct (PATH_MAX <=? _); [exists (- Errno.EINVAL), fs; split; [done|]; split; [by right|done]|].
  unfold kmalloc. destruct (kmalloc_ok E KKbuf).
  2: { wrun. exists (- Errno.ENOMEM), fs. split; [done|]. split; [by right|done]. }
  destruct copied.
  2: { wrun. exists (- Errno.EFAULT), fs. split; [do 2 f_equal; same_world|]. split; [by right|done]. }
  destruct (kern_path E target) as [e|] eqn:E1.
  { pose proof (kern_path_err E HE _ _ E1). wrun. exists e, fs.
    split; [do 2 f_equal; same_world|]. split; [by right|lia]. }
  destruct (dentry_open E target) as [e|f] eqn:E2.
  { pose proof (dentry_open_err E HE _ _ E2). wrun. exists e, fs.
    split; [do 2 f_equal; same_world|]. split; [by right|lia]. }
  wrun. destruct (flush_returns E depth fuel f
    (World fs sd false (al + 1) (ha + 1) (pr + 1 + -1) false)) as (ret & fs' & -> & Hle & _ & Hpost);
    [done|done|done|by apply Hf|]. wrun.
  eexists _, fs'. split; [do 2 f_equal; same_world|].
  destruct (Z.eqb_spec ret 0) as [->|].
  - split; [by left|]. intros _. exists f. split; [done|]. done.
  - split; [right; lia|lia].
Qed.

(** ** Module initialisation *)

(** The proc interface is all or nothing: if one of the three entries cannot
    be made none is left, and loading goes on with the file system registered;
    after loading and unloading no entry is left and the bound name is freed. *)
Theorem module_init_exit_balanced mk bi sy reg w :
  let s0 := ModState false false false false in
  let (ret, s) := init_ramfs_fs mk bi sy reg s0 in
  ret = reg /\ registered s = (reg =? 0) /\
  (proc_dir s, proc_bind s, proc_sync s) =
    (let all := mk && bi && sy in (all, all, all)) /\
  fst (exit_ramfs_fs s w) = s0 /\
  allocs (snd (exit_ramfs_fs s w)) = allocs w - (match ramfs_sync_dir w with Some _ => 1 | None => 0 end).
Proof.
  destruct mk, bi, sy; cbn; destruct (ramfs_sync_dir w); cbn; split_and!; try done; lia.
Qed.

(** ** A concrete kernel *)

Definition demo_file : rfile := RFile (bytes_of "f") (bytes_of "/r/f") true.

(** Every call succeeds and transfers what is asked; [nested] says whether the
    bound directory is itself on a ramfs, [cut] whether writes report zero. *)
Definition demo_env (nested cut : bool) : vfs_env := {|
  kmalloc_ok _ := true; on_ramfs _ := nested; filp_open _ := None; d_path _ := None;
  kernel_read _ _ n := n; kernel_write _ _ n := if cut then 0 else n;
  fsync_backing _ := 0; kern_path _ := inr 0x41ED; lookup_one_len _ := None;
  vfs_rename _ _ := 0; dentry_open _ := inr demo_file |}.

Lemma demo_env_ok nested cut : env_ok (demo_env nested cut).
Proof. constructor; cbn; try discriminate; intros; try destruct cut; lia. Qed.

Definition world0 : world :=
  World {[bytes_of "/r/f" := [1; 2; 3]]} (Some (bytes_of "/s")) false 1 0 0 false.

Lemma parse_mount_path_spec_witness :
  exists a b, parse_mount_path (bytes_of " /r /s" ++ [10; 0]) (replicate 256 7) (replicate 256 7)
              = Ok (0, a, b) /\ cstr a = bytes_of "/r" /\ cstr b = bytes_of "/s".
Proof.
  destruct (parse_mount_path_spec (bytes_of " /r /s" ++ [10; 0]) (replicate 256 7) (replicate 256 7))
    as (a & b & H1 & H2); [apply list_elem_of_In; cbn; auto 20|reflexivity|reflexivity|].
  exists a, b. split; [exact H1|]. apply H2. reflexivity.
Defined.

Lemma bind_write_atomic_witness :
  exists ret w', ramfs_proc_bind_write (demo_env false false) (replicate 256 7)
                   (bytes_of "/r") true world0 = Ok (ret, w') /\
    ((ret = 2 /\ line_code (bytes_of "/r" ++ [0]) = 0 /\
      w' = bound (second_word (bytes_of "/r" ++ [0])) world0) \/ (ret < 0 /\ w' = world0)).
Proof.
  apply (bind_write_atomic (demo_env false false) (replicate 256 7) (bytes_of "/r") true world0);
    [apply demo_env_ok|reflexivity|reflexivity].
Defined.

Lemma bind_write_read_roundtrip_witness :
  exists w', ramfs_proc_bind_write (demo_env false false) (replicate 256 7)
               (bytes_of "/r /data") true world0 = Ok (8, w') /\
    read_all 257 3 0 w' = Ok (bytes_of "/data" ++ [10], w').
Proof.
  eexists. split; [reflexivity|].
  apply (bind_write_read_roundtrip (demo_env false false) (replicate 256 7) (bytes_of "/r /data")
    world0 8 _ 3 257); [apply demo_env_ok|reflexivity|reflexivity|reflexivity|lia|lia|lia].
Defined.

Lemma flush_atomic_witness :
  exists ret fs', ramfs_fsync (demo_env false false) 1 10 (Some demo_file) world0
                  = Ok (ret, set_files (fun _ => fs') world0) /\
    flush_post (demo_env false false) (bytes_of "/s") demo_file (files world0) fs' ret.
Proof.
  apply (flush_atomic (demo_env false false) 0 10 demo_file (bytes_of "/s") world0);
    [apply demo_env_ok|reflexivity|reflexivity|reflexivity|reflexivity|split; cbn; lia|
     discriminate|reflexivity|intros pos n Hn; cbn; lia|vm_compute; reflexivity].
Defined.

Lemma flush_zero_write_diverges_witness :
  ramfs_file_flush (demo_env false true) 1 10 (Some demo_file) world0 = Fault OutOfFuel.
Proof.
  apply (flush_zero_write_diverges (demo_env false true) 0 10 demo_file (bytes_of "/s") world0);
    [reflexivity|reflexivity|reflexivity|constructor; reflexivity|discriminate|discriminate|
     reflexivity|reflexivity].
Defined.

Lemma flush_on_ramfs_recurses_witness :
  ramfs_file_flush (demo_env true false) 50 10 (Some demo_file) world0 = Fault OutOfFuel.
Proof.
  apply (flush_on_ramfs_recurses (demo_env true false) 50 10 demo_file (bytes_of "/s") world0);
    [apply demo_env_ok|reflexivity|reflexivity|reflexivity|cbn; lia|cbn; lia|discriminate|
     vm_compute; reflexivity|reflexivity|reflexivity|reflexivity|reflexivity|split; reflexivity].
Defined.

Lemma sync_write_flushes_witness :
  exists ret fs', ramfs_proc_sync_write (demo_env false false) 1 10 (bytes_of "/r/f" ++ [10]) true world0
                  = Ok (ret, set_files (fun _ => fs') world0) /\ (ret = 5 \/ ret < 0).
Proof.
  destruct (sync_write_flushes (demo_env false false) 0 10 (bytes_of "/r/f" ++ [10]) true world0)
    as (ret & fs' & H1 & H2 & _).
  - apply demo_env_ok.
  - reflexivity.
  - reflexivity.
  - intros f Hf _ dir Hd. injection Hf as <-. injection Hd as <-.
    split; [split; cbn; lia|]. split; [discriminate|]. split; [reflexivity|].
    split; [intros pos n Hn; cbn; lia|vm_compute; reflexivity].
  - exists ret, fs'. split; [exact H1|exact H2].
Defined.
