(* ===== verification/RamfsInode.v ===== *)
(** * RamfsInode: inodes and mounting of the RAM file system

    Models the first half of [fs/ramfs/inode.c]: making inodes and directory
    entries, the mount options and the superblock.  The inode allocator, the
    ownership rule and the setup of special files belong to the rest of the
    kernel and are the interface [InodeApi]. *)

From Stdlib Require Import ZArith Lia String.
From stdpp Require Import base list gmap.
From S2P Require Import Prelude Bytes.

(** ** Data *)

Definition S_IFMT : Z := 0xF000.
Definition S_IFREG : Z := 0x8000.
Definition S_IFDIR : Z := 0x4000.
Definition S_IFLNK : Z := 0xA000.
Definition S_IALLUGO : Z := 0xFFF.
Definition S_IRWXUGO : Z := 0x1FF.
Definition RAMFS_DEFAULT_MODE : Z := 0x1ED.

(** The operation tables an inode may point to. *)
Inductive iop := NoIop | ramfs_file_inode_operations | ramfs_dir_inode_operations
  | page_symlink_inode_operations.
Inductive fop := NoFop | ramfs_file_operations | simple_dir_operations | special_fop (mode dev : Z).

Record inode := Inode {
  i_mode : Z; i_gid : Z; i_nlink : Z; i_op : iop; i_fop : fop; i_time : Z;
  a_ops_ram : bool; unevictable : bool; nohighmem : bool; i_link : list Z
}.

(** A directory entry: the directory it is in, the inode it names and its
    reference count. *)
Record dentry := Dentry { d_parent : Z; d_inode : option Z; d_count : Z }.

Record fs := Fs { inodes : gmap Z inode; dentries : gmap Z dentry; clock : Z }.

(** The rest of the kernel: [new_inode] gives an unused inode or nothing (its
    fields zero, one link); [inode_init_owner] chooses mode and group from the
    parent's and may add only permission bits; [page_symlink] gives an error
    code. *)
Class InodeApi := {
  new_inode : fs -> option Z;
  inode_init_owner : option inode -> Z -> Z * Z;
  page_symlink : fs -> list Z -> Z;
  new_inode_fresh s i : new_inode s = Some i -> inodes s !! i = None;
  inode_init_owner_type d mode : Z.land (fst (inode_init_owner d mode)) S_IFMT = Z.land mode S_IFMT
}.

Definition S_ISDIR (i : inode) : bool := Z.land (i_mode i) S_IFMT =? S_IFDIR.

Section Inode.
Context `{InodeApi}.

Definition set_inode (i : Z) (x : inode) (s : fs) : fs := Fs (<[i := x]> (inodes s)) (dentries s) (clock s).

(** ** ramfs_get_inode and the directory operations *)

Definition inc_nlink (x : inode) : inode :=
  Inode (i_mode x) (i_gid x) (i_nlink x + 1) (i_op x) (i_fop x) (i_time x) (a_ops_ram x)
        (unevictable x) (nohighmem x) (i_link x).

Definition touch (t : Z) (x : inode) : inode :=
  Inode (i_mode x) (i_gid x) (i_nlink x) (i_op x) (i_fop x) t (a_ops_ram x)
        (unevictable x) (nohighmem x) (i_link x).

Definition ramfs_get_inode (dir : option inode) (mode dev : Z) (s : fs) : option Z * fs :=
  match new_inode s with
  | None => (None, s)
  | Some i =>
      let (m, g) := inode_init_owner dir mode in
      let mk nlink op f nohigh := Inode m g nlink op f (clock s) true true nohigh [] in
      let x :=
        if Z.land mode S_IFMT =? S_IFREG then
          mk 1 ramfs_file_inode_operations ramfs_file_operations false
        else if Z.land mode S_IFMT =? S_IFDIR then
          inc_nlink (mk 1 ramfs_dir_inode_operations simple_dir_operations false)
        else if Z.land mode S_IFMT =? S_IFLNK then
          mk 1 page_symlink_inode_operations NoFop true
        else mk 1 NoIop (special_fop mode dev) false in
      (Some i, set_inode i x s)
  end.

(** [d_instantiate], [dget] and the time stamps of the directory. *)
Definition d_instantiate_pin (dir d i : Z) (s : fs) : res fs :=
  match dentries s !! d, inodes s !! dir with
  | Some de, Some dx =>
      if bool_decide (d_inode de = None) then
        Ok (Fs (<[dir := touch (clock s) dx]> (inodes s))
               (<[d := Dentry (d_parent de) (Some i) (d_count de + 1)]> (dentries s)) (clock s))
      else Fault BugOn
  | _, _ => Fault Dangling
  end.

Definition ramfs_mknod (dir d mode dev : Z) (s : fs) : res (Z * fs) :=
  match ramfs_get_inode (inodes s !! dir) mode dev s with
  | (None, s) => Ok (- Errno.ENOSPC, s)
  | (Some i, s) => s ← d_instantiate_pin dir d i s; Ok (0, s)
  end.

Definition ramfs_mkdir (dir d mode : Z) (s : fs) : res (Z * fs) :=
  '(retval, s) ← ramfs_mknod dir d (Z.lor mode S_IFDIR) 0 s;
  if retval =? 0 then
    match inodes s !! dir with
    | Some dx => Ok (retval, set_inode dir (inc_nlink dx) s)
    | None => Fault Dangling
    end
  else Ok (retval, s).

Definition ramfs_create (dir d mode : Z) (s : fs) : res (Z * fs) :=
  ramfs_mknod dir d (Z.lor mode S_IFREG) 0 s.

Definition ramfs_symlink (dir d : Z) (symname : list Z) (s : fs) : res (Z * fs) :=
  match ramfs_get_inode (inodes s !! dir) (Z.lor S_IFLNK S_IRWXUGO) 0 s with
  | (None, s) => Ok (- Errno.ENOSPC, s)
  | (Some i, s1) =>
      let error := page_symlink s1 (symname ++ [0]) in
      if error =? 0 then
        match inodes s1 !! i with
        | Some x =>
            let s2 := set_inode i (Inode (i_mode x) (i_gid x) (i_nlink x) (i_op x) (i_fop x) (i_time x)
                        (a_ops_ram x) (unevictable x) (nohighmem x) symname) s1 in
            s3 ← d_instantiate_pin dir d i s2;
            Ok (0, s3)
        | None => Fault Dangling
        end
      else Ok (error, Fs (delete i (inodes s1)) (dentries s1) (clock s1))   (* iput *)
  end.

(** [d_tmpfile] drops the link count of the new inode and fills the dentry. *)
Definition ramfs_tmpfile (dir d mode : Z) (s : fs) : res (Z * fs) :=
  match ramfs_get_inode (inodes s !! dir) mode 0 s with
  | (None, s) => Ok (- Errno.ENOSPC, s)
  | (Some i, s) =>
      match inodes s !! i, dentries s !! d with
      | Some x, Some de =>
          Ok (0, Fs (<[i := Inode (i_mode x) (i_gid x) (i_nlink x - 1) (i_op x) (i_fop x) (i_time x)
                       (a_ops_ram x) (unevictable x) (nohighmem x) (i_link x)]> (inodes s))
                    (<[d := Dentry (d_parent de) (Some i) (d_count de)]> (dentries s)) (clock s))
      | _, _ => Fault Dangling
      end
  end.

(** ** Mount options and the superblock *)

Record ramfs_fs_info := FsInfo { mount_mode : Z }.

(** [fs_parse] either fails with a code or gives the option and its value. *)
Inductive ramfs_param := Opt_mode.

Definition ramfs_parse_param (fs_parse : Z + ramfs_param * Z) (fsi : ramfs_fs_info)
    : Z * ramfs_fs_info :=
  match fs_parse with
  | inl opt => (if opt =? - Errno.ENOPARAM then 0 else opt, fsi)
  | inr (Opt_mode, uint_32) => (0, FsInfo (u16 (Z.land uint_32 S_IALLUGO)))
  end.

(** The digits of [%o]. *)
Fixpoint oct_digits (fuel : nat) (z : Z) : list Z :=
  match fuel with
  | O => []
  | S f => (if z / 8 =? 0 then [] else oct_digits f (z / 8)) ++ [48 + z mod 8]
  end.

Definition fmt_o (z : Z) : list Z := oct_digits 11 z.

Definition ramfs_show_options (fsi : ramfs_fs_info) : list Z :=
  if negb (mount_mode fsi =? RAMFS_DEFAULT_MODE) then bytes_of ",mode=" ++ fmt_o (mount_mode fsi) else [].

Definition MAX_LFS_FILESIZE : Z := 2 ^ 63 - 1.
Definition PAGE_SIZE : Z := 4096.
Definition PAGE_SHIFT : Z := 12.
Definition RAMFS_MAGIC : Z := 0x858458f6.

Record super_block := Super {
  s_maxbytes : Z; s_blocksize : Z; s_blocksize_bits : Z; s_magic : Z; s_time_gran : Z;
  s_root : option Z
}.

(** [d_make_root] gives no dentry when the inode is missing or when the dentry
    cannot be allocated; then it drops the inode. *)
Definition ramfs_fill_super (fsi : ramfs_fs_info) (d_make_root : option Z) (s : fs)
    : Z * super_block * fs :=
  let sb := Super MAX_LFS_FILESIZE PAGE_SIZE PAGE_SHIFT RAMFS_MAGIC 1 in
  match ramfs_get_inode None (Z.lor S_IFDIR (mount_mode fsi)) 0 s with
  | (Some i, s') =>
      match d_make_root with
      | Some d => (0, sb (Some d), Fs (inodes s') (<[d := Dentry i (Some i) 1]> (dentries s')) (clock s'))
      | None => (- Errno.ENOMEM, sb None, Fs (delete i (inodes s')) (dentries s') (clock s'))
      end
  | (None, s') => (- Errno.ENOMEM, sb None, s')
  end.

(** The context and the superblock hold the options in turn; [frees] counts
    the calls of [kfree] on them. *)
Record fs_context := FsContext { s_fs_info : option ramfs_fs_info; info_allocs : Z }.

Definition ramfs_init_fs_context (kzalloc_ok : bool) (fc : fs_context) : Z * fs_context :=
  if negb kzalloc_ok then (- Errno.ENOMEM, fc)
  else (0, FsContext (Some (FsInfo RAMFS_DEFAULT_MODE)) (info_allocs fc + 1)).

Definition free_info (fc : fs_context) : fs_context :=
  FsContext None (match s_fs_info fc with Some _ => info_allocs fc - 1 | None => info_allocs fc end).

Definition ramfs_free_fc (fc : fs_context) : fs_context := free_info fc.
Definition ramfs_kill_sb (sb : fs_context) : fs_context := free_info sb.

(** ** The tree invariant *)

(** The subdirectories of a directory: the entries in it that name a
    directory. *)
Definition is_subdir (s : fs) (dir : Z) (de : dentry) : bool :=
  (d_parent de =? dir) &&
  match d_inode de with
  | Some i => negb (i =? dir) && match inodes s !! i with Some x => S_ISDIR x | None => false end
  | None => false
  end.

Definition subdirs (s : fs) (dir : Z) : nat :=
  size (filter (fun p => is_subdir s dir p.2 = true) (dentries s)).

(** Every directory has two links and one more for each of its subdirectories;
    every entry in use names an inode that exists and is pinned. *)
Record fs_ok (s : fs) : Prop := {
  ok_nlink dir x : inodes s !! dir = Some x -> S_ISDIR x = true ->
    i_nlink x = 2 + Z.of_nat (subdirs s dir);
  ok_named d de i : dentries s !! d = Some de -> d_inode de = Some i ->
    is_Some (inodes s !! i) /\ 1 <= d_count de;
  ok_parent d de : dentries s !! d = Some de -> is_Some (inodes s !! d_parent de);
  ok_tables i x : inodes s !! i = Some x ->
    a_ops_ram x = true /\ unevictable x = true /\
    (i_op x = ramfs_dir_inode_operations <-> S_ISDIR x = true)
}.

(** An entry a directory operation may fill. *)
Definition negative (s : fs) (dir d : Z) : Prop :=
  exists c, dentries s !! d = Some (Dentry dir None c) /\ 1 <= c.

(** What filling entry [d] of [dir] with a new inode does. *)
Definition filled (s s' : fs) (dir d i : Z) (x : inode) (pin : Z) : Prop :=
  exists dx c t,
    inodes s !! i = None /\ inodes s !! dir = Some dx /\
    dentries s !! d = Some (Dentry dir None c) /\
    inodes s' = <[dir := Inode (i_mode dx) (i_gid dx) (i_nlink dx + (if S_ISDIR x then 1 else 0))
                   (i_op dx) (i_fop dx) t (a_ops_ram dx) (unevictable dx) (nohighmem dx)
                   (i_link dx)]> (<[i := x]> (inodes s)) /\
    dentries s' = <[d := Dentry dir (Some i) (c + pin)]> (dentries s) /\ clock s' = clock s.

Lemma filled_is_subdir s s' dir d i x pin dir' d' de :
  fs_ok s -> filled s s' dir d i x pin -> dentries s !! d' = Some de -> d' <> d ->
  is_subdir s' dir' de = is_subdir s dir' de.
Proof.
  intros Hok (dx & c & t & Hi & Hdir & Hd & Hin & _ & _) Hde Hne. unfold is_subdir. f_equal.
  destruct (d_inode de) as [j|] eqn:Ej; [|done]. f_equal. rewrite Hin.
  destruct (ok_named s Hok _ _ _ Hde Ej) as [[y Hy] _].
  assert (j <> i) by (intros ->; congruence).
  destruct (decide (j = dir)) as [->|Hj].
  - rewrite lookup_insert_eq, Hdir. done.
  - by rewrite !lookup_insert_ne by done.
Qed.

Lemma filled_subdirs s s' dir d i x pin dir' :
  fs_ok s -> filled s s' dir d i x pin ->
  subdirs s' dir' = (subdirs s dir' + (if bool_decide (dir' = dir) && S_ISDIR x then 1 else 0))%nat.
Proof.
  intros Hok Hf. pose proof Hf as (dx & c & t & Hi & Hdir & Hd & Hin & Hde & _).
  assert (dir <> i) by (intros ->; congruence).
  unfold subdirs. rewrite Hde.
  assert (filter (fun p => is_subdir s' dir' p.2 = true) (dentries s)
          = filter (fun p => is_subdir s dir' p.2 = true) (dentries s)) as Hold.
  { apply map_filter_ext. intros d' de Hde'. cbn. destruct (decide (d' = d)) as [->|Hne].
    - rewrite Hd in Hde'. injection Hde' as <-. unfold is_subdir. cbn. by rewrite !andb_false_r.
    - by rewrite (filled_is_subdir s s' dir d i x pin dir' d'). }
  assert (is_subdir s' dir' (Dentry dir (Some i) (c + pin))
          = bool_decide (dir' = dir) && S_ISDIR x) as Hnew.
  { unfold is_subdir. cbn. rewrite Hin, lookup_insert_ne, lookup_insert_eq by done.
    destruct (Z.eqb_spec dir dir') as [->|]; [|by rewrite bool_decide_eq_false_2 by auto].
    rewrite bool_decide_eq_true_2 by done. destruct (Z.eqb_spec i dir'); [congruence|done]. }
  rewrite map_filter_insert. cbn [snd]. rewrite Hnew.
  destruct (bool_decide (dir' = dir) && S_ISDIR x); destruct (decide _) as [Hb|Hb]; try done.
  - rewrite Hold, map_size_insert_None; [lia|].
    apply map_lookup_filter_None. right. intros de Hde'. rewrite Hd in Hde'. injection Hde' as <-.
    unfold is_subdir. cbn. by rewrite andb_false_r.
  - rewrite map_filter_delete, Hold, delete_id; [lia|].
    apply map_lookup_filter_None. right. intros de Hde'. rewrite Hd in Hde'. injection Hde' as <-.
    unfold is_subdir. cbn. by rewrite andb_false_r.
Qed.

Lemma fresh_no_subdirs s i : fs_ok s -> inodes s !! i = None -> subdirs s i = 0%nat.
Proof.
  intros Hok Hi. unfold subdirs. apply map_size_empty_iff, map_empty.
  intros d. apply map_lookup_filter_None. right. intros de Hde. cbn. destruct (ok_parent s Hok _ _ Hde) as [y Hy]. unfold is_subdir.
  destruct (Z.eqb_spec (d_parent de) i); [congruence|done].
Qed.

(** An inode as [ramfs_get_inode] makes it. *)
Definition inode_new (x : inode) : Prop :=
  a_ops_ram x = true /\ unevictable x = true /\
  (i_op x = ramfs_dir_inode_operations <-> S_ISDIR x = true) /\
  (S_ISDIR x = true -> i_nlink x = 2).

Lemma filled_ok s s' dir d i x pin c :
  fs_ok s -> filled s s' dir d i x pin -> inode_new x ->
  (forall dx, inodes s !! dir = Some dx -> S_ISDIR dx = true) ->
  dentries s !! d = Some (Dentry dir None c) -> 1 <= c + pin -> fs_ok s'.
Proof.
  intros Hok Hf (Ha & Hu & Hop & Hnl) Hdd Hdc Hc.
  pose proof (fun dir' => filled_subdirs s s' dir d i x pin dir' Hok Hf) as Hsub.
  destruct Hf as (dx & c' & t & Hi & Hdir & Hd & Hin & Hde & _).
  assert (c' = c) by congruence. subst c'. assert (dir <> i) by (intros ->; congruence).
  constructor.
  - intros dir' x' Hx' Hx'd. rewrite Hsub. rewrite Hin in Hx'.
    destruct (decide (dir' = dir)) as [->|Hne].
    + rewrite lookup_insert_eq in Hx'. injection Hx' as <-. cbn.
      rewrite (ok_nlink s Hok dir dx Hdir (Hdd dx Hdir)), bool_decide_eq_true_2 by done.
      destruct (S_ISDIR x); cbn; lia.
    + rewrite lookup_insert_ne in Hx' by done. rewrite bool_decide_eq_false_2 by done. cbn [andb].
      destruct (decide (dir' = i)) as [->|Hni].
      * rewrite lookup_insert_eq in Hx'. injection Hx' as <-.
        rewrite (fresh_no_subdirs s i Hok Hi). cbn. by apply Hnl.
      * rewrite lookup_insert_ne in Hx' by done. rewrite (ok_nlink s Hok dir' x') by done. lia.
  - intros d' de j Hd' Hj. rewrite Hde in Hd'. rewrite Hin, !lookup_insert_is_Some'.
    destruct (decide (d' = d)) as [->|Hne].
    + rewrite lookup_insert_eq in Hd'. injection Hd' as <-. cbn in *. injection Hj as <-. auto.
    + rewrite lookup_insert_ne in Hd' by done.
      destruct (ok_named s Hok _ _ _ Hd' Hj). auto.
  - intros d' de Hd'. rewrite Hde in Hd'. rewrite Hin, !lookup_insert_is_Some'.
    destruct (decide (d' = d)) as [->|Hne].
    + rewrite lookup_insert_eq in Hd'. injection Hd' as <-. cbn. auto.
    + rewrite lookup_insert_ne in Hd' by done. right. right. by eapply ok_parent.
  - intros j y Hy. rewrite Hin in Hy. destruct (decide (j = dir)) as [->|Hne].
    + rewrite lookup_insert_eq in Hy. injection Hy as <-. cbn. apply (ok_tables s Hok dir dx Hdir).
    + rewrite lookup_insert_ne in Hy by done. destruct (decide (j = i)) as [->|Hni].
      * rewrite lookup_insert_eq in Hy. injection Hy as <-. done.
      * rewrite lookup_insert_ne in Hy by done. by apply (ok_tables s Hok j y).
Qed.

Lemma get_inode_spec dir mode dev s :
  (new_inode s = None /\ ramfs_get_inode dir mode dev s = (None, s)) \/
  (exists i x, inodes s !! i = None /\ ramfs_get_inode dir mode dev s = (Some i, set_inode i x s) /\
     inode_new x /\ Z.land (i_mode x) S_IFMT = Z.land mode S_IFMT /\ i_link x = []).
Proof.
  unfold ramfs_get_inode. destruct (new_inode s) as [i|] eqn:Ei; [right|by left].
  pose proof (inode_init_owner_type dir mode) as Ht.
  destruct (inode_init_owner dir mode) as [m g]. cbn [fst] in Ht.
  eexists i, _. split; [by apply new_inode_fresh|]. split; [done|]. unfold inode_new, S_ISDIR.
  destruct (Z.eqb_spec (Z.land mode S_IFMT) S_IFREG) as [E1|].
  { cbn. rewrite Ht, E1. by split_and!. }
  destruct (Z.eqb_spec (Z.land mode S_IFMT) S_IFDIR) as [E2|].
  { cbn. rewrite Ht, E2. by split_and!. }
  destruct (Z.eqb_spec (Z.land mode S_IFMT) S_IFLNK) as [E3|].
  { cbn. rewrite Ht, E3. by split_and!. }
  cbn. rewrite Ht. destruct (Z.eqb_spec (Z.land mode S_IFMT) S_IFDIR); by split_and!.
Qed.

(** ** The directory operations as the VFS calls them *)

Inductive dir_op :=
  | OpCreate (mode : Z) | OpMkdir (mode : Z) | OpMknod (mode dev : Z)
  | OpSymlink (symname : list Z) | OpTmpfile (mode : Z).

Definition run_op (dir d : Z) (op : dir_op) (s : fs) : res (Z * fs) :=
  match op with
  | OpCreate mode => ramfs_create dir d mode s
  | OpMkdir mode => ramfs_mkdir dir d mode s
  | OpMknod mode dev => ramfs_mknod dir d mode dev s
  | OpSymlink name => ramfs_symlink dir d name s
  | OpTmpfile mode => ramfs_tmpfile dir d mode s
  end.

(** The file type of the inode an operation makes. *)
Definition op_type (op : dir_op) : Z :=
  match op with
  | OpCreate _ => S_IFREG | OpMkdir _ => S_IFDIR | OpSymlink _ => S_IFLNK
  | OpMknod mode _ | OpTmpfile mode => Z.land mode S_IFMT
  end.

(** The VFS passes permission bits to create and mkdir, a file type that is not
    a directory to mknod, and a regular file's mode to tmpfile. *)
Definition op_legal (op : dir_op) : Prop :=
  match op with
  | OpCreate mode | OpMkdir mode => Z.land mode S_IFMT = 0
  | OpMknod mode _ => Z.land mode S_IFMT <> S_IFDIR
  | OpTmpfile mode => Z.land mode S_IFMT = S_IFREG
  | OpSymlink _ => True
  end.

Lemma type_lor mode t : Z.land mode S_IFMT = 0 -> Z.land t S_IFMT = t ->
  Z.land (Z.lor mode t) S_IFMT = t.
Proof. intros H1 H2. rewrite Z.land_lor_distr_l, H1, H2. apply Z.lor_0_l. Qed.

Lemma isdir_of_type x t : Z.land (i_mode x) S_IFMT = t -> S_ISDIR x = (t =? S_IFDIR).
Proof. unfold S_ISDIR. by intros ->. Qed.

(** [ramfs_mknod] either fails without a trace or fills the entry; the links of
    the directory are then still to be counted. *)
Lemma mknod_spec dir d mode dev s dx c :
  inodes s !! dir = Some dx -> dentries s !! d = Some (Dentry dir None c) ->
  (new_inode s = None /\ ramfs_mknod dir d mode dev s = Ok (- Errno.ENOSPC, s)) \/
  (exists i x, inodes s !! i = None /\ inode_new x /\ Z.land (i_mode x) S_IFMT = Z.land mode S_IFMT /\
     ramfs_mknod dir d mode dev s = Ok (0,
       Fs (<[dir := touch (clock s) dx]> (<[i := x]> (inodes s)))
          (<[d := Dentry dir (Some i) (c + 1)]> (dentries s)) (clock s))).
Proof.
  intros Hdir Hd. unfold ramfs_mknod.
  destruct (get_inode_spec (inodes s !! dir) mode dev s) as [[Hn ->]|(i & x & Hi & -> & Hx & Ht & _)];
    [by left|]. right. exists i, x. split_and!; try done.
  assert (dir <> i) by (intros ->; congruence).
  unfold d_instantiate_pin, set_inode. cbn. rewrite Hd, lookup_insert_ne, Hdir by done. done.
Qed.

(** The outcome of a directory operation. *)
Definition op_outcome (dir d : Z) (op : dir_op) (s : fs) (r : Z) (s' : fs) : Prop :=
  fs_ok s' /\
  ((r = 0 /\ exists i x, inodes s !! i = None /\ inodes s' !! i = Some x /\
      Z.land (i_mode x) S_IFMT = op_type op /\
      (d_inode <$> dentries s' !! d) = Some (Some i) /\
      (forall j, j <> i -> j <> dir -> inodes s' !! j = inodes s !! j) /\
      (forall d', d' <> d -> dentries s' !! d' = dentries s !! d')) \/
   (r <> 0 /\ inodes s' = inodes s /\ dentries s' = dentries s)).

Lemma filled_outcome dir d op s s' i x pin dx c :
  fs_ok s -> filled s s' dir d i x pin -> inode_new x -> inodes s !! dir = Some dx ->
  S_ISDIR dx = true -> dentries s !! d = Some (Dentry dir None c) -> 1 <= c + pin ->
  Z.land (i_mode x) S_IFMT = op_type op -> op_outcome dir d op s 0 s'.
Proof.
  intros Hok Hf Hx Hdir Hdd Hd Hc Ht. split.
  - eapply filled_ok; try done. intros dx' Hdx'. congruence.
  - left. split; [done|]. destruct Hf as (dx' & c' & t & Hi & _ & _ & Hin & Hde & _).
    assert (dir <> i) by (intros ->; congruence).
    exists i, x. split_and!; [done| |done| | |].
    + by rewrite Hin, lookup_insert_ne, lookup_insert_eq by done.
    + by rewrite Hde, lookup_insert_eq.
    + intros j H1 H2. by rewrite Hin, !lookup_insert_ne by done.
    + intros d' H1. by rewrite Hde, lookup_insert_ne by done.
Qed.

Lemma unchanged_outcome dir d op s r : fs_ok s -> r <> 0 -> op_outcome dir d op s r s.
Proof. intros Hok Hr. split; [done|]. by right. Qed.

Lemma mknod_outcome dir d mode dev s dx c op :
  fs_ok s -> inodes s !! dir = Some dx -> S_ISDIR dx = true ->
  dentries s !! d = Some (Dentry dir None c) -> 1 <= c ->
  Z.land mode S_IFMT = op_type op -> op_type op <> S_IFDIR ->
  exists r s', ramfs_mknod dir d mode dev s = Ok (r, s') /\ op_outcome dir d op s r s'.
Proof.
  intros Hok Hdir Hdd Hd Hc Ht Hnd.
  destruct (mknod_spec dir d mode dev s dx c Hdir Hd) as [[_ ->]|(i & x & Hi & Hx & Hxt & ->)].
  - eexists _, s. split; [done|]. by apply unchanged_outcome.
  - eexists _, _. split; [done|]. eapply (filled_outcome _ _ _ _ _ i x 1); try done; [|lia|congruence].
    exists dx, c, (clock s). rewrite (isdir_of_type x _ Hxt), Ht. destruct (Z.eqb_spec (op_type op) S_IFDIR); [done|].
    split_and!; try done. unfold touch. by rewrite Z.add_0_r.
Qed.

Lemma mkdir_outcome dir d mode s dx c :
  fs_ok s -> inodes s !! dir = Some dx -> S_ISDIR dx = true ->
  dentries s !! d = Some (Dentry dir None c) -> 1 <= c -> Z.land mode S_IFMT = 0 ->
  exists r s', ramfs_mkdir dir d mode s = Ok (r, s') /\ op_outcome dir d (OpMkdir mode) s r s'.
Proof.
  intros Hok Hdir Hdd Hd Hc Hm. unfold ramfs_mkdir.
  destruct (mknod_spec dir d (Z.lor mode S_IFDIR) 0 s dx c Hdir Hd)
    as [[_ ->]|(i & x & Hi & Hx & Hxt & ->)].
  - eexists _, s. split; [done|]. by apply unchanged_outcome.
  - rewrite type_lor in Hxt by done. cbn. rewrite lookup_insert_eq. eexists _, _. split; [done|].
    eapply (filled_outcome _ _ _ _ _ i x 1); try done; [|lia].
    exists dx, c, (clock s). rewrite (isdir_of_type x _ Hxt). split_and!; try done.
    cbn. by rewrite insert_insert_eq.
Qed.

Lemma symlink_outcome dir d name s dx c :
  fs_ok s -> inodes s !! dir = Some dx -> S_ISDIR dx = true ->
  dentries s !! d = Some (Dentry dir None c) -> 1 <= c ->
  exists r s', ramfs_symlink dir d name s = Ok (r, s') /\ op_outcome dir d (OpSymlink name) s r s'.
Proof.
  intros Hok Hdir Hdd Hd Hc. unfold ramfs_symlink.
  destruct (get_inode_spec (inodes s !! dir) (Z.lor S_IFLNK S_IRWXUGO) 0 s)
    as [[_ ->]|(i & x & Hi & -> & Hx & Hxt & _)].
  { eexists _, s. split; [done|]. by apply unchanged_outcome. }
  assert (dir <> i) by (intros ->; congruence). cbn [set_inode inodes dentries clock].
  destruct (Z.eqb_spec (page_symlink (set_inode i x s) (name ++ [0])) 0) as [_|Hne].
  - rewrite lookup_insert_eq. unfold d_instantiate_pin, set_inode. cbn.
    rewrite Hd, !lookup_insert_ne, Hdir by done. cbn. eexists _, _. split; [done|].
    rewrite insert_insert_eq.
    eapply (filled_outcome _ _ _ _ _ i (Inode (i_mode x) (i_gid x) (i_nlink x) (i_op x) (i_fop x)
      (i_time x) (a_ops_ram x) (unevictable x) (nohighmem x) name) 1); try done; [|lia].
    exists dx, c, (clock s). unfold S_ISDIR at 1. cbn [i_mode]. rewrite Hxt. split_and!; try done.
    cbn. unfold touch. by rewrite Z.add_0_r.
  - eexists _, _. split; [done|]. replace (Fs _ _ _) with s; [by apply unchanged_outcome|].
    destruct s. cbn in *. by rewrite delete_insert_id.
Qed.

Lemma tmpfile_outcome dir d mode s dx c :
  fs_ok s -> inodes s !! dir = Some dx -> S_ISDIR dx = true ->
  dentries s !! d = Some (Dentry dir None c) -> 1 <= c -> Z.land mode S_IFMT = S_IFREG ->
  exists r s', ramfs_tmpfile dir d mode s = Ok (r, s') /\ op_outcome dir d (OpTmpfile mode) s r s'.
Proof.
  intros Hok Hdir Hdd Hd Hc Hm. unfold ramfs_tmpfile.
  destruct (get_inode_spec (inodes s !! dir) mode 0 s) as [[_ ->]|(i & x & Hi & -> & Hx & Hxt & _)].
  { eexists _, s. split; [done|]. by apply unchanged_outcome. }
  assert (dir <> i) by (intros ->; congruence). cbn. rewrite lookup_insert_eq, Hd. cbn.
  eexists _, _. split; [done|]. rewrite insert_insert_eq.
  assert (S_ISDIR x = false) as Hnd by (rewrite (isdir_of_type x _ Hxt), Hm; done).
  eapply (filled_outcome _ _ _ _ _ i (Inode (i_mode x) (i_gid x) (i_nlink x - 1) (i_op x) (i_fop x)
    (i_time x) (a_ops_ram x) (unevictable x) (nohighmem x) (i_link x)) 0); try done; [| |lia].
  - exists dx, c, (i_time dx). unfold S_ISDIR at 1. cbn [i_mode]. rewrite Hxt, Hm. split_and!; try done.
    + cbn. rewrite Z.add_0_r, (insert_id _ dir) ; [done|]. rewrite lookup_insert_ne by done.
      by destruct dx.
    + cbn. by rewrite Z.add_0_r.
  - destruct Hx as (H1 & H2 & H3 & _). split_and!; try done.
    change (S_ISDIR _) with (S_ISDIR x). by rewrite Hnd.
Qed.

(** C29: every directory operation returns and keeps the tree well formed: with
    no inode available, or when the text of a link cannot be stored, it returns
    an error and the tree is as before; otherwise the new entry names a fresh
    inode of the requested type with the operation tables of that type, a
    directory's link count still is two plus its number of subdirectories, and
    no other inode or entry has changed. *)
Theorem dir_ops_keep_tree dir d op s dx :
  fs_ok s -> inodes s !! dir = Some dx -> S_ISDIR dx = true -> negative s dir d -> op_legal op ->
  exists r s', run_op dir d op s = Ok (r, s') /\ op_outcome dir d op s r s'.
Proof.
  intros Hok Hdir Hdd (c & Hd & Hc) Hl. destruct op as [m|m|m dev|name|m]; cbn in Hl |- *.
  - eapply mknod_outcome; try done. by apply type_lor.
  - by eapply mkdir_outcome.
  - by eapply mknod_outcome.
  - by eapply symlink_outcome.
  - by eapply tmpfile_outcome.
Qed.

(** ** Mounting *)

Definition parse_oct (cs : list Z) : Z := fold_left (fun acc c => 8 * acc + (c - 48)) cs 0.

Lemma parse_oct_digits f : forall z, 0 <= z < 8 ^ Z.of_nat f -> parse_oct (oct_digits f z) = z.
Proof.
  induction f as [|f IH]; intros z Hz; [change (8 ^ Z.of_nat 0) with 1 in Hz; cbn; lia|].
  cbn [oct_digits]. unfold parse_oct in *. rewrite fold_left_app. cbn [fold_left].
  pose proof (Z.div_mod z 8). destruct (Z.eqb_spec (z / 8) 0); [cbn; lia|].
  rewrite IH; [lia|]. rewrite Nat2Z.inj_succ, Z.pow_succ_r in Hz by lia.
  split; [apply Z.div_pos; lia|apply Z.div_lt_upper_bound; lia].
Qed.

Lemma land_allugo v : 0 <= Z.land v S_IALLUGO < 4096.
Proof.
  change S_IALLUGO with (Z.ones 12). rewrite Z.land_ones by lia. apply Z.mod_pos_bound. lia.
Qed.

(** The mode option survives a remount from what /proc/mounts shows: the
    permission bits of the value given are kept, the root directory gets them
    with two links, and the text shown is either empty, standing for the
    default 0755, or the option in octal, which parses to the same mode; unknown
    options are ignored and other parse errors are passed on. *)
Theorem mount_mode_roundtrip v d s fsi0 i :
  fs_ok s -> new_inode s = Some i ->
  let fsi := snd (ramfs_parse_param (inr (Opt_mode, v)) fsi0) in
  fst (ramfs_parse_param (inr (Opt_mode, v)) fsi0) = 0 /\
  mount_mode fsi = Z.land v S_IALLUGO /\
  (ramfs_show_options fsi = [] /\ mount_mode fsi = RAMFS_DEFAULT_MODE \/
   exists t, ramfs_show_options fsi = bytes_of ",mode=" ++ t /\
     snd (ramfs_parse_param (inr (Opt_mode, parse_oct t)) fsi0) = fsi) /\
  (exists sb s' x, ramfs_fill_super fsi (Some d) s = (0, sb, s') /\ s_root sb = Some d /\
     inodes s' !! i = Some x /\ S_ISDIR x = true /\ i_nlink x = 2) /\
  (forall e, ramfs_parse_param (inl e) fsi0 = (if e =? - Errno.ENOPARAM then 0 else e, fsi0)).
Proof.
  intros Hok Hi fsi. pose proof (land_allugo v) as Hv.
  assert (mount_mode fsi = Z.land v S_IALLUGO) as Hm
    by (cbn; rewrite uwrap_small; [done|unfold is_u; lia]).
  split_and!; [done|done| | |done].
  - unfold ramfs_show_options. destruct (Z.eqb_spec (mount_mode fsi) RAMFS_DEFAULT_MODE); [by left|right].
    eexists. split; [done|]. unfold fmt_o. rewrite parse_oct_digits by (rewrite Hm; cbn; lia).
    cbn. f_equal. rewrite (uwrap_small 16 (Z.land v S_IALLUGO)) by (unfold is_u; lia).
    f_equal. rewrite <- Z.land_assoc, Z.land_diag. done.
  - unfold ramfs_fill_super, ramfs_get_inode. rewrite Hi.
    pose proof (inode_init_owner_type None (Z.lor S_IFDIR (mount_mode fsi))) as Ht.
    assert (Z.land (Z.lor S_IFDIR (mount_mode fsi)) S_IFMT = S_IFDIR) as Hd.
    { rewrite Hm, Z.land_lor_distr_l, <- Z.land_assoc. change (Z.land S_IALLUGO S_IFMT) with 0.
      by rewrite Z.land_0_r. }
    rewrite Hd in *. destruct (inode_init_owner None _) as [m g]. cbn in Ht |- *.
    eexists _, _, _. split; [done|]. cbn. rewrite lookup_insert_eq. split_and!; try done.
    unfold S_ISDIR. cbn. by rewrite Ht.
Qed.

(** The options of a mount are allocated once and freed once, by the context
    if the mount was not made, by the superblock it was handed to otherwise. *)
Theorem fs_info_freed_once fc ok :
  s_fs_info fc = None ->
  let (ret, fc1) := ramfs_init_fs_context ok fc in
  (ret = 0 \/ ret = - Errno.ENOMEM) /\
  (ret = 0 -> s_fs_info fc1 = Some (FsInfo RAMFS_DEFAULT_MODE)) /\
  info_allocs (ramfs_free_fc fc1) = info_allocs fc /\
  info_allocs (ramfs_kill_sb fc1) = info_allocs fc /\
  info_allocs (ramfs_free_fc (ramfs_kill_sb fc1)) = info_allocs fc.
Proof.
  intros Hn. unfold ramfs_init_fs_context, ramfs_free_fc, ramfs_kill_sb, free_info.
  destruct ok; cbn; rewrite ?Hn; split_and!; auto; lia || done.
Qed.

End Inode.

(** ** A concrete kernel: inode numbers one above the largest in use *)

Definition next_ino (s : fs) : Z := max_key (inodes s) + 1.

Definition plain_api : InodeApi.
Proof.
  refine {| new_inode s := Some (next_ino s); inode_init_owner _ mode := (mode, 0);
            page_symlink _ _ := 0 |}.
  - intros s i [= <-]. apply eq_None_not_Some. intros [x Hs].
    apply max_key_lookup in Hs. unfold next_ino in Hs. lia.
  - done.
Defined.

Definition root_inode : inode :=
  Inode 0x41ED 0 2 ramfs_dir_inode_operations simple_dir_operations 0 true true false [].

Definition fs0 : fs :=
  Fs {[1 := root_inode]} (<[10 := Dentry 1 (Some 1) 1]> {[20 := Dentry 1 None 1]}) 5.

Lemma fs0_ok : fs_ok fs0.
Proof.
  constructor.
  - intros dir x Hx _. cbn in Hx. apply lookup_singleton_Some in Hx as [<- <-]. vm_compute. reflexivity.
  - intros d de i Hd Hi. cbn in Hd. apply lookup_insert_Some in Hd as [[<- <-]|[_ Hd]].
    + cbn in Hi. injection Hi as <-. cbn. split; [by eexists|lia].
    + apply lookup_singleton_Some in Hd as [<- <-]. done.
  - intros d de Hd. cbn in Hd. apply lookup_insert_Some in Hd as [[<- <-]|[_ Hd]]; [by eexists|].
    apply lookup_singleton_Some in Hd as [<- <-]. by eexists.
  - intros i x Hx. cbn in Hx. apply lookup_singleton_Some in Hx as [<- <-]. done.
Qed.

Lemma dir_ops_keep_tree_witness :
  exists r s', run_op (H := plain_api) 1 20 (OpMkdir 0x1ED) fs0 = Ok (r, s') /\
    op_outcome 1 20 (OpMkdir 0x1ED) fs0 r s'.
Proof.
  apply (dir_ops_keep_tree (H := plain_api) 1 20 (OpMkdir 0x1ED) fs0 root_inode);
    [apply fs0_ok|reflexivity|reflexivity|exists 1; split; [reflexivity|lia]|reflexivity].
Defined.

Lemma mount_mode_roundtrip_witness :
  mount_mode (snd (ramfs_parse_param (inr (Opt_mode, 0x1C0)) (FsInfo 0))) = 0x1C0.
Proof.
  destruct (mount_mode_roundtrip (H := plain_api) 0x1C0 30 fs0 (FsInfo 0) 2) as (_ & H1 & _);
    [apply fs0_ok|reflexivity|]. exact H1.
Defined.

Lemma fs_info_freed_once_witness :
  info_allocs (ramfs_free_fc (snd (ramfs_init_fs_context true (FsContext None 0)))) = 0.
Proof.
  pose proof (fs_info_freed_once (FsContext None 0) true eq_refl) as H. apply H.
Defined.
