(* ===== verification/RamfsNommu.v ===== *)
(** * RamfsNommu: shared mappings of ramfs files without an MMU

    Models [fs/ramfs/file-nommu.c]: [ramfs_nommu_expand_for_mapping], which gives
    an empty file physically adjacent pages, [ramfs_nommu_resize],
    [ramfs_nommu_setattr], [ramfs_nommu_get_unmapped_area], which finds such pages
    for a mapping, and [ramfs_nommu_mmap].  A page is its frame number; the state
    of a file is its size, the page cache, and the reference counts of all
    allocated frames. *)

From Stdlib Require Import ZArith Lia.
From stdpp Require Import base list gmap list_numbers.
From S2P Require Import Prelude.

(** ** State *)

Definition PAGE_SHIFT : Z := 12.
Definition PAGE_SIZE : Z := 4096.
Definition MAX_ORDER : Z := 11.

Record nst := Nst {
  i_size : Z;
  cache : gmap Z Z;          (** index in the file to frame *)
  refs : gmap Z Z;           (** allocated frames and their reference counts *)
  cleared : gset Z;          (** frames set to zero here *)
  ready : gset Z             (** frames marked dirty and up to date *)
}.

(** Callees outside this file. *)
Record nenv := NEnv {
  get_order : Z -> Z;
  inode_newsize_ok : Z -> Z;
  alloc_pages : option Z;                            (** first frame *)
  add_to_page_cache : Z -> Z;                        (** result for an index *)
  nommu_shrink_inode_mappings : Z;
  setattr_prepare : Z;
  kcalloc_ok : bool;
  find_get_pages_contig : gmap Z Z -> Z -> nat -> list Z;
  truncate_setsize : Z -> M nst unit
}.

Definition set_size z (s : nst) := Nst z (cache s) (refs s) (cleared s) (ready s).
Definition set_cache c (s : nst) := Nst (i_size s) c (refs s) (cleared s) (ready s).
Definition set_refs r (s : nst) := Nst (i_size s) (cache s) r (cleared s) (ready s).
Definition set_cleared c (s : nst) := Nst (i_size s) (cache s) (refs s) c (ready s).
Definition set_ready r (s : nst) := Nst (i_size s) (cache s) (refs s) (cleared s) r.

(** One reference more, one less; a frame without references is freed. *)
Definition get_page (p : Z) : M nst unit := s ← get;
  match refs s !! p with
  | Some n => put (set_refs (<[p := n + 1]> (refs s)) s)
  | None => abort Dangling
  end.
Definition put_page (p : Z) : M nst unit := s ← get;
  match refs s !! p with
  | Some n => put (set_refs (if n =? 1 then delete p (refs s) else <[p := n - 1]> (refs s)) s)
  | None => abort Dangling
  end.

(** [f] on each element, in order. *)
Fixpoint for_each (f : Z -> M nst unit) (l : list Z) : M nst unit :=
  match l with [] => mret tt | x :: l => _ ← f x; for_each f l end.

Section Nommu.
Context (E : nenv).

(** ** Growing an empty file *)

(** The loop that attaches the pages: index [loop] gets frame [pages + loop]; on
    failure the pages from there on are freed. *)
Fixpoint attach (pages npages : Z) (fuel : nat) (loop : Z) : M nst Z :=
  match fuel with
  | O => mret 0
  | S fuel =>
      let ret := add_to_page_cache E loop in
      if ret <? 0 then
        _ ← for_each put_page (map (Z.add pages) (seqZ loop (npages - loop)));   (* add_error *)
        mret ret
      else
        let page := pages + loop in
        _ ← get_page page;
        _ ← modify (fun s => set_cache (<[loop := page]> (cache s)) s);
        _ ← modify (fun s => set_ready ({[page]} ∪ ready s) s);
        _ ← put_page page;
        attach pages npages fuel (loop + 1)
  end.

Definition npages_of (size : Z) : Z := Z.shiftr (u64 (size + PAGE_SIZE - 1)) PAGE_SHIFT.

Definition ramfs_nommu_expand_for_mapping (newsize : Z) : M nst Z :=
  let order := get_order E newsize in
  if MAX_ORDER <=? order then mret (- Errno.EFBIG)
  else
    let ret := inode_newsize_ok E newsize in
    if negb (ret =? 0) then mret ret
    else
      _ ← modify (set_size newsize);
      match alloc_pages E with
      | None => mret (- Errno.ENOMEM)
      | Some pages =>
          let xpages := Z.shiftl 1 order in
          let npages := npages_of newsize in
          (* alloc_pages and split_page *)
          _ ← for_each (fun p => modify (fun s => set_refs (<[p := 1]> (refs s)) s)) (map (Z.add pages) (seqZ 0 xpages));
          _ ← for_each put_page (map (Z.add pages) (seqZ npages (xpages - npages)));
          _ ← for_each (fun p => modify (fun s => set_cleared ({[p]} ∪ cleared s) s)) (map (Z.add pages) (seqZ 0 npages));
          attach pages npages (Z.to_nat npages) 0
      end.

(** ** Changing the size *)

Definition ramfs_nommu_resize (newsize size : Z) : M nst Z :=
  if size =? 0 then
    if negb (Z.shiftr newsize 32 =? 0) then mret (- Errno.EFBIG)
    else ramfs_nommu_expand_for_mapping newsize
  else if (newsize <? size) && (nommu_shrink_inode_mappings E <? 0) then mret (nommu_shrink_inode_mappings E)
  else _ ← truncate_setsize E newsize; mret 0.

Definition ATTR_SIZE : Z := 8.
Definition ATTR_MTIME : Z := 32.
Definition ATTR_CTIME : Z := 64.

(** The result, the attributes copied by setattr_copy if it is reached, and
    [ia_valid] afterwards. *)
Definition ramfs_nommu_setattr (ia_valid ia_size : Z) : M nst (Z * option Z * Z) :=
  if negb (setattr_prepare E =? 0) then mret (setattr_prepare E, None, ia_valid)
  else if hasb ia_valid ATTR_SIZE then
    s ← get;
    if negb (ia_size =? i_size s) then
      ret ← ramfs_nommu_resize ia_size (i_size s);
      if (ret <? 0) || (ia_valid =? ATTR_SIZE) then mret (ret, None, ia_valid)
      else mret (ret, Some ia_valid, ia_valid)
    else mret (0, Some (Z.lor ia_valid (Z.lor ATTR_MTIME ATTR_CTIME)), ia_valid)
  else mret (0, Some ia_valid, ia_valid).

(** ** Finding a place for a mapping *)

(** Each page is the one after its predecessor. *)
Fixpoint adjacent (page : Z) (ps : list Z) : bool :=
  match ps with [] => true | p :: ps => (p =? page) && adjacent (page + 1) ps end.

Definition page_address (p : Z) : Z := Z.shiftl p PAGE_SHIFT.

Definition ramfs_nommu_get_unmapped_area (len pgoff : Z) : M nst Z :=
  s ← get;
  let lpages := npages_of len in
  let maxpages := npages_of (i_size s) in
  if maxpages <=? pgoff then mret (- Errno.ENOSYS)
  else if maxpages - pgoff <? lpages then mret (- Errno.ENOSYS)
  else if negb (kcalloc_ok E) then mret (- Errno.ENOSYS)
  else
    let pages := find_get_pages_contig E (cache s) pgoff (Z.to_nat lpages) in
    _ ← for_each get_page pages;
    ret ← (if negb (bool_decide (Z.of_nat (length pages) = lpages)) then mret (- Errno.ENOSYS)
           else match pages with
                | [] => abort OutOfBounds
                | p :: ps => mret (if adjacent (p + 1) ps then page_address p else - Errno.ENOSYS)
                end);
    _ ← for_each put_page pages;
    mret ret.

Definition VM_SHARED : Z := 0x8.
Definition VM_MAYSHARE : Z := 0x80.

(** The operations of the area afterwards: generic_file_vm_ops or none. *)
Definition ramfs_nommu_mmap (vm_flags : Z) : Z * bool :=
  if negb (hasb vm_flags (Z.lor VM_SHARED VM_MAYSHARE)) then (- Errno.ENOSYS, false) else (0, true).

(** ** Loops over pages *)

Definition cnt (p : Z) (l : list Z) : Z := Z.of_nat (length (filter (fun x => x = p) l)).

Lemma cnt_cons p x l : cnt p (x :: l) = (if decide (x = p) then 1 else 0) + cnt p l.
Proof. unfold cnt. rewrite filter_cons. case_decide; cbn; lia. Qed.

Lemma cnt_nonneg p l : 0 <= cnt p l.
Proof. unfold cnt. lia. Qed.

Lemma get_page_ok p n s : refs s !! p = Some n -> get_page p s = Ok (tt, set_refs (<[p := n + 1]> (refs s)) s).
Proof. intros H. unfold get_page. mrun. by rewrite H. Qed.

Lemma put_page_ok p n s : refs s !! p = Some n ->
  put_page p s = Ok (tt, set_refs (if n =? 1 then delete p (refs s) else <[p := n - 1]> (refs s)) s).
Proof. intros H. unfold put_page. mrun. by rewrite H. Qed.

Lemma set_refs_id s : set_refs (refs s) s = s.
Proof. by destruct s. Qed.

(** Taking a reference to each page. *)
Lemma gets_ok l : forall s, (forall p, p ∈ l -> is_Some (refs s !! p)) ->
  exists r, for_each get_page l s = Ok (tt, set_refs r s) /\
    forall p, r !! p = (fun n => n + cnt p l) <$> refs s !! p.
Proof.
  induction l as [|x l IH]; intros s H; cbn [for_each].
  { exists (refs s). rewrite set_refs_id. split; [done|]. intros p. destruct (refs s !! p); cbn; [|done]. f_equal. unfold cnt. cbn. lia. }
  destruct (H x) as [n Hn]; [by left|]. rewrite (bind_ok _ _ _ _ _ (get_page_ok _ _ _ Hn)).
  destruct (IH (set_refs (<[x := n + 1]> (refs s)) s)) as (r & -> & Hr).
  { intros p Hp. cbn. rewrite lookup_insert_is_Some'. right. apply H. by right. }
  exists r. split; [done|]. intros p. rewrite Hr, cnt_cons. cbn. destruct (decide (x = p)) as [<-|Hne].
  - rewrite lookup_insert_eq, Hn. cbn. f_equal. lia.
  - rewrite lookup_insert_ne by done. destruct (refs s !! p); done.
Qed.

(** Giving back references that are not the last ones. *)
Lemma puts_ok l : forall s, (forall p, p ∈ l -> exists n, refs s !! p = Some n /\ cnt p l < n) ->
  exists r, for_each put_page l s = Ok (tt, set_refs r s) /\
    forall p, r !! p = (fun n => n - cnt p l) <$> refs s !! p.
Proof.
  induction l as [|x l IH]; intros s H; cbn [for_each].
  { exists (refs s). rewrite set_refs_id. split; [done|]. intros p. destruct (refs s !! p); cbn; [|done]. f_equal. unfold cnt. cbn. lia. }
  destruct (H x) as (n & Hn & Hlt); [by left|]. rewrite cnt_cons, decide_True in Hlt by done.
  pose proof (cnt_nonneg x l). rewrite (bind_ok _ _ _ _ _ (put_page_ok _ _ _ Hn)).
  rewrite (proj2 (Z.eqb_neq n 1)) by lia.
  destruct (IH (set_refs (<[x := n - 1]> (refs s)) s)) as (r & -> & Hr).
  { intros p Hp. cbn. destruct (decide (x = p)) as [<-|Hne].
    - rewrite lookup_insert_eq. exists (n - 1). split; [done|lia].
    - rewrite lookup_insert_ne by done. destruct (H p) as (m & Hm & Hc); [by right|]. exists m.
      rewrite cnt_cons, decide_False in Hc by done. split; [done|lia]. }
  exists r. split; [done|]. intros p. rewrite Hr, cnt_cons. cbn. destruct (decide (x = p)) as [<-|Hne].
  - rewrite lookup_insert_eq, Hn. cbn. f_equal. lia.
  - rewrite lookup_insert_ne by done. destruct (refs s !! p); done.
Qed.

(** Freeing pages with one reference each. *)
Lemma frees_ok l : forall s, NoDup l -> (forall p, p ∈ l -> refs s !! p = Some 1) ->
  exists r, for_each put_page l s = Ok (tt, set_refs r s) /\
    forall p, r !! p = if decide (p ∈ l) then None else refs s !! p.
Proof.
  induction l as [|x l IH]; intros s Hn H; cbn [for_each].
  { exists (refs s). by rewrite set_refs_id. }
  apply NoDup_cons in Hn as [Hx Hn]. rewrite (bind_ok _ _ _ _ _ (put_page_ok x 1 s ltac:(apply H; by left))). cbn [Z.eqb Pos.eqb].
  destruct (IH (set_refs (delete x (refs s)) s) Hn) as (r & -> & Hr).
  { intros p Hp. cbn. rewrite lookup_delete_ne by set_solver. apply H. by right. }
  exists r. split; [done|]. intros p. rewrite Hr. cbn. destruct (decide (p ∈ l)), (decide (p ∈ x :: l)) as [Hd|Hd]; try done.
  - set_solver.
  - assert (p = x) as -> by set_solver. apply lookup_delete_eq.
  - apply lookup_delete_ne. set_solver.
Qed.

(** Allocating pages and clearing them. *)
Lemma allocs_ok l : forall s,
  exists r, for_each (fun p => modify (fun s => set_refs (<[p := 1]> (refs s)) s)) l s = Ok (tt, set_refs r s) /\
    forall p, r !! p = if decide (p ∈ l) then Some 1 else refs s !! p.
Proof.
  induction l as [|x l IH]; intros s; cbn [for_each].
  { exists (refs s). by rewrite set_refs_id. }
  destruct (IH (set_refs (<[x := 1]> (refs s)) s)) as (r & Hr & Hl). exists r. split; [exact Hr|].
  intros p. rewrite Hl. cbn. destruct (decide (p ∈ l)), (decide (p ∈ x :: l)) as [Hd|Hd]; try done.
  - set_solver.
  - assert (p = x) as -> by set_solver. apply lookup_insert_eq.
  - apply lookup_insert_ne. set_solver.
Qed.

Lemma clears_ok l : forall s,
  exists c, for_each (fun p => modify (fun s => set_cleared ({[p]} ∪ cleared s) s)) l s = Ok (tt, set_cleared c s) /\
    forall p, p ∈ c <-> p ∈ l \/ p ∈ cleared s.
Proof.
  induction l as [|x l IH]; intros s; cbn [for_each].
  { exists (cleared s). split; [by destruct s|]. intros p. rewrite elem_of_nil. tauto. }
  destruct (IH (set_cleared ({[x]} ∪ cleared s) s)) as (c & Hc & Hl). exists c. split; [exact Hc|].
  intros p. rewrite Hl, elem_of_cons. cbn. set_solver.
Qed.

(** The frames [base + a] to [base + b - 1]. *)
Lemma elem_of_frames base a n p : p ∈ map (Z.add base) (seqZ a n) <-> base + a <= p < base + a + n.
Proof.
  rewrite list_elem_of_fmap. setoid_rewrite elem_of_seqZ. split; [intros (i & -> & ?); lia|].
  intros H. exists (p - base). lia.
Qed.

Lemma NoDup_frames base a n : NoDup (map (Z.add base) (seqZ a n)).
Proof. apply NoDup_fmap_2; [|apply NoDup_seqZ]. intros x y. lia. Qed.

(** *** Attaching *)

(** Indices [loop] to [k - 1] got their frames, those from [k] on were freed. *)
Record attached (base loop k npages : Z) (s s' : nst) : Prop := {
  at_range : loop <= k <= npages;
  at_size : i_size s' = i_size s;
  at_cleared : cleared s' = cleared s;
  at_cache i : cache s' !! i = if decide (loop <= i < k) then Some (base + i) else cache s !! i;
  at_refs p : refs s' !! p = if decide (base + k <= p < base + npages) then None else refs s !! p;
  at_ready p : base + loop <= p < base + k \/ p ∈ ready s -> p ∈ ready s'
}.

Lemma attach_ok base npages n : forall loop s,
  npages = loop + Z.of_nat n -> (forall p, base + loop <= p < base + npages -> refs s !! p = Some 1) ->
  runs (attach base npages n loop) s (fun r s' => exists k, attached base loop k npages s s' /\
    r <= 0 /\ (r = 0 -> k = npages)).
Proof.
  induction n as [|n IH]; intros loop s Hn H; cbn [attach].
  { apply runs_ret. exists loop. split; [|lia]. split; try done; [lia|intros i|intros p|intros p]; try (by rewrite decide_False by lia).
    intros [?|?]; [lia|done]. }
  destruct (Z.ltb_spec (add_to_page_cache E loop) 0) as [Hr|Hr].
  - destruct (frees_ok (map (Z.add base) (seqZ loop (npages - loop))) s (NoDup_frames _ _ _)) as (r & Hf & Hl).
    { intros p Hp. apply elem_of_frames in Hp. apply H. lia. }
    apply runs_bind. eexists _, _. split; [exact Hf|]. apply runs_ret. exists loop. split; [|lia].
    split; cbn; try done; [lia|intros i; by rewrite decide_False by lia| |intros p [?|?]; [lia|done]].
    intros p. rewrite Hl. apply decide_ext. rewrite elem_of_frames. lia.
  - assert (refs s !! (base + loop) = Some 1) as Hp by (apply H; lia).
    apply runs_bind. eexists _, _. split; [by apply get_page_ok|]. apply runs_bind. eexists _, _. split; [reflexivity|].
    apply runs_bind. eexists _, _. split; [reflexivity|].
    apply runs_bind. eexists _, _. split; [apply (put_page_ok _ 2); cbn; by rewrite lookup_insert_eq|].
    cbn. rewrite insert_insert_eq, (insert_id (refs s)) by done.
    eapply runs_mono; [apply (IH (loop + 1)); [lia|intros p Hp'; apply H; lia]|].
    intros r s' (k & [A B C D F G] & Hz). exists k. split; [|done]. split; cbn in *; try done; [lia| |].
    + intros i. rewrite D. destruct (decide (i = loop)) as [->|Hi].
      * rewrite decide_False, decide_True by lia. apply lookup_insert_eq.
      * rewrite lookup_insert_ne by done. apply decide_ext. lia.
    + intros p Hp'. apply G. destruct (decide (p = base + loop)) as [->|]; [right; set_solver|].
      destruct Hp' as [?|?]; [left; lia|right; set_solver].
Qed.

(** ** Growing an empty file *)

(** The allocator's order covers the size; frames it hands out are not in use. *)
Definition order_ok : Prop := forall n, 0 < n < 2 ^ 32 -> 0 <= get_order E n /\ npages_of n <= 2 ^ get_order E n.
Definition alloc_ok (s : nst) (newsize : Z) : Prop := forall base,
  alloc_pages E = Some base -> forall p, base <= p < base + 2 ^ get_order E newsize -> refs s !! p = None.

(** [k] pages of the file are there: adjacent frames from [base] on, with one
    reference each, cleared and up to date; no other frame was touched. *)
Record backed (base k : Z) (s s' : nst) : Prop := {
  bk_cache i : cache s' !! i = if decide (0 <= i < k) then Some (base + i) else cache s !! i;
  bk_refs p : refs s' !! p = if decide (base <= p < base + k) then Some 1 else refs s !! p;
  bk_clean p : base <= p < base + k -> p ∈ cleared s' /\ p ∈ ready s'
}.

Lemma npages_nonneg n : 0 <= npages_of n.
Proof. unfold npages_of. apply Z.shiftr_nonneg. pose proof (uwrap_range 64 (n + PAGE_SIZE - 1)). unfold is_u in *. lia. Qed.

Lemma npages_div n : 0 <= n <= 2 ^ 64 - PAGE_SIZE -> npages_of n = (n + 4095) / 4096.
Proof.
  intros H. unfold npages_of. rewrite uwrap_small, Z.shiftr_div_pow2 by (unfold is_u, PAGE_SIZE, PAGE_SHIFT in *; lia).
  unfold PAGE_SIZE, PAGE_SHIFT. change (2 ^ 12) with 4096. f_equal. lia.
Qed.

Lemma npages_pos n : 0 < n <= 2 ^ 64 - PAGE_SIZE -> 0 < npages_of n.
Proof. intros H. rewrite npages_div by lia. apply Z.div_str_pos. lia. Qed.

(** Allocation, trimming, clearing and attaching. *)
Lemma expand_pages_ok base newsize s :
  0 < newsize < 2 ^ 32 -> order_ok ->
  (forall p, base <= p < base + 2 ^ get_order E newsize -> refs s !! p = None) ->
  runs (_ ← for_each (fun p => modify (fun s => set_refs (<[p := 1]> (refs s)) s))
              (map (Z.add base) (seqZ 0 (Z.shiftl 1 (get_order E newsize))));
        _ ← for_each put_page (map (Z.add base) (seqZ (npages_of newsize)
              (Z.shiftl 1 (get_order E newsize) - npages_of newsize)));
        _ ← for_each (fun p => modify (fun s => set_cleared ({[p]} ∪ cleared s) s))
              (map (Z.add base) (seqZ 0 (npages_of newsize)));
        attach base (npages_of newsize) (Z.to_nat (npages_of newsize)) 0) s
    (fun r s' => i_size s' = i_size s /\ r <= 0 /\
       exists k, 0 <= k <= npages_of newsize /\ backed base k s s' /\ (r = 0 -> k = npages_of newsize)).
Proof.
  intros Hs Ho Hfree. destruct (Ho newsize Hs) as [Ho1 Ho2]. pose proof (npages_nonneg newsize) as Hn.
  rewrite Z.shiftl_1_l. set (x := 2 ^ get_order E newsize) in *. set (n := npages_of newsize) in *.
  destruct (allocs_ok (map (Z.add base) (seqZ 0 x)) s) as (r1 & H1 & L1).
  apply runs_bind. eexists _, _. split; [exact H1|].
  destruct (frees_ok (map (Z.add base) (seqZ n (x - n))) (set_refs r1 s) (NoDup_frames _ _ _)) as (r2 & H2 & L2).
  { intros p Hp%elem_of_frames. cbn. rewrite L1, decide_True; [done|]. apply elem_of_frames. lia. }
  apply runs_bind. eexists _, _. split; [exact H2|].
  destruct (clears_ok (map (Z.add base) (seqZ 0 n)) (set_refs r2 (set_refs r1 s))) as (c & H3 & L3).
  apply runs_bind. eexists _, _. split; [exact H3|].
  assert (forall p, r2 !! p = if decide (base <= p < base + n) then Some 1 else refs s !! p) as Lr.
  { intros p. rewrite L2. cbn. rewrite L1. rewrite !(decide_ext _ _ _ _ (elem_of_frames _ _ _ _)).
    repeat case_decide; try done; try lia. symmetry. apply Hfree. lia. }
  eapply runs_mono; [apply attach_ok; [lia|]|].
  { intros p Hp. cbn. rewrite Lr, decide_True by lia. done. }
  intros r s' (k & [A B C D F G] & Hr & Hz). cbn in *. split; [done|]. split; [done|]. exists k.
  split; [lia|]. split; [|done]. split.
  - done.
  - intros p. rewrite F, Lr. repeat case_decide; try done; try lia. symmetry. apply Hfree. lia.
  - intros p Hp. rewrite C, L3, elem_of_frames. split; [left; lia|apply G; left; lia].
Qed.

(** How [ramfs_nommu_expand_for_mapping] ends. *)
Definition expand_post (newsize : Z) (s : nst) (r : Z) (s' : nst) : Prop :=
  r <= 0 /\
  ((s' = s /\ r <> 0) \/
   (alloc_pages E = None /\ r = - Errno.ENOMEM /\ s' = set_size newsize s) \/
   exists base k, alloc_pages E = Some base /\ i_size s' = newsize /\ 0 <= k <= npages_of newsize /\
     backed base k s s' /\ (r = 0 -> k = npages_of newsize)).

Lemma expand_ok newsize s :
  0 < newsize < 2 ^ 32 -> order_ok -> alloc_ok s newsize -> (forall n, inode_newsize_ok E n <= 0) ->
  runs (ramfs_nommu_expand_for_mapping newsize) s (expand_post newsize s).
Proof.
  intros Hs Ho Ha Hi. unfold ramfs_nommu_expand_for_mapping. destruct (MAX_ORDER <=? _).
  { apply runs_ret. split; [done|]. by left. }
  destruct (Z.eqb_spec (inode_newsize_ok E newsize) 0) as [_|He]; cbn [negb].
  2: { apply runs_ret. split; [apply Hi|]. by left. }
  apply runs_bind. eexists _, _. split; [reflexivity|]. destruct (alloc_pages E) as [base|] eqn:Eb.
  2: { apply runs_ret. split; [done|]. right. by left. }
  eapply runs_mono; [apply expand_pages_ok; [done..|by apply Ha]|].
  intros r s' (Hsz & Hr & k & Hk & [A B C] & Hz). split; [done|]. right. right. exists base, k.
  split_and!; [done|done|lia|lia|by split|done].
Qed.

(** ** Finding a place for a mapping *)

(** The longest run of cached pages from an index on, at most [n]. *)
Definition find_ok : Prop := forall c i n,
  let ps := find_get_pages_contig E c i n in
  (length ps <= n)%nat /\ (forall j p, ps !! j = Some p -> c !! (i + Z.of_nat j) = Some p) /\
  ((length ps < n)%nat -> c !! (i + Z.of_nat (length ps)) = None).

(** The cached frames are allocated. *)
Definition cache_ok (s : nst) : Prop := forall i p, cache s !! i = Some p -> exists n, refs s !! p = Some n /\ 1 <= n.

Lemma adjacent_spec ps : forall page,
  adjacent page ps = true <-> forall j p, ps !! j = Some p -> p = page + Z.of_nat j.
Proof.
  induction ps as [|q ps IH]; intros page; cbn; [done|]. rewrite andb_true_iff, Z.eqb_eq, IH. split.
  - intros [-> H] [|j] p Hp; cbn in Hp; [injection Hp as <-; lia|]. apply H in Hp. lia.
  - intros H. split; [specialize (H 0%nat q eq_refl); lia|]. intros j p Hp. specialize (H (S j) p Hp). lia.
Qed.

(** Where the pages [pgoff] to [pgoff + n - 1] lie when they are adjacent. *)
Definition adjacent_at (c : gmap Z Z) (pgoff n base : Z) : Prop :=
  forall j, 0 <= j < n -> c !! (pgoff + j) = Some (base + j).

(** Taking the references and giving them back changes nothing. *)
Lemma get_put_pages (pages : list Z) (ret : Z) s :
  (forall p, p ∈ pages -> exists n, refs s !! p = Some n /\ 1 <= n) ->
  runs (_ ← for_each get_page pages; r ← mret ret; _ ← for_each put_page pages; mret r) s
    (fun r s' => r = ret /\ s' = s).
Proof.
  intros H. destruct (gets_ok pages s) as (r1 & H1 & L1).
  { intros p Hp. destruct (H p Hp) as (n & -> & _). done. }
  apply runs_bind. eexists _, _. split; [exact H1|]. apply runs_bind, runs_ret.
  destruct (puts_ok pages (set_refs r1 s)) as (r2 & H2 & L2).
  { intros p Hp. destruct (H p Hp) as (n & Hn & Hle). cbn. rewrite L1, Hn. cbn. exists (n + cnt p pages). split; [done|lia]. }
  apply runs_bind. eexists _, _. split; [exact H2|]. apply runs_ret. split; [done|].
  destruct s as [sz c r cl rd]; cbn in *. unfold set_refs. cbn. f_equal. apply map_eq. intros p.
  rewrite L2, L1. destruct (r !! p); cbn; [|done]. f_equal. lia.
Qed.

(** The pages found are all the pages asked for, and adjacent. *)
Lemma found_adjacent c i n p ps :
  find_ok -> find_get_pages_contig E c i n = p :: ps -> length (p :: ps) = n ->
  (adjacent (p + 1) ps = true <-> exists base, adjacent_at c i (Z.of_nat n) base) /\
  (forall base, adjacent_at c i (Z.of_nat n) base -> base = p).
Proof.
  intros Hf Hps Hl. destruct (Hf c i n) as (_ & Hc & _). rewrite Hps in Hc.
  assert (forall base, adjacent_at c i (Z.of_nat n) base -> base = p) as Hb.
  { intros base Ha. specialize (Ha 0). specialize (Hc 0%nat p eq_refl). cbn in Hl.
    change (Z.of_nat 0) with 0 in Hc. rewrite Ha in Hc by lia. injection Hc. lia. }
  split; [|done]. rewrite adjacent_spec. split.
  - intros H. exists p. intros j Hj. replace j with (Z.of_nat (Z.to_nat j)) by lia.
    destruct (lookup_lt_is_Some_2 (p :: ps) (Z.to_nat j)) as [q Hq]; [lia|]. rewrite (Hc _ _ Hq). f_equal.
    destruct (Z.to_nat j) as [|k]; cbn in Hq; [injection Hq; lia|]. rewrite (H _ _ Hq). lia.
  - intros [base Ha] j q Hq. pose proof (Hb base Ha) as ->.
    assert (S j < n)%nat by (subst n; cbn; apply lookup_lt_Some in Hq; lia).
    specialize (Hc (S j) q Hq). rewrite (Ha (Z.of_nat (S j))) in Hc by lia. injection Hc. lia.
Qed.

Lemma get_unmapped_area_ok len pgoff s :
  0 < len <= 2 ^ 64 - PAGE_SIZE -> 0 <= pgoff -> find_ok -> cache_ok s -> kcalloc_ok E = true ->
  runs (ramfs_nommu_get_unmapped_area len pgoff) s (fun r s' => s' = s /\
    ((exists base, adjacent_at (cache s) pgoff (npages_of len) base /\
        pgoff + npages_of len <= npages_of (i_size s) /\ r = page_address base) \/
     (r = - Errno.ENOSYS /\
      ~ exists base, adjacent_at (cache s) pgoff (npages_of len) base /\ pgoff + npages_of len <= npages_of (i_size s)))).
Proof.
  intros Hl Hp Hf Hc Hk. unfold ramfs_nommu_get_unmapped_area. apply runs_bind. eexists _, _. split; [reflexivity|].
  pose proof (npages_pos len Hl) as Hnp.
  cbv zeta. destruct (Z.leb_spec (npages_of (i_size s)) pgoff).
  { apply runs_ret. split; [done|]. right. split; [done|]. intros (base & _ & ?). lia. }
  destruct (Z.ltb_spec (npages_of (i_size s) - pgoff) (npages_of len)).
  { apply runs_ret. split; [done|]. right. split; [done|]. intros (base & _ & ?). lia. }
  rewrite Hk. cbn [negb]. set (n := Z.to_nat (npages_of len)).
  destruct (Hf (cache s) pgoff n) as (F1 & F2 & F3). set (ps := find_get_pages_contig E (cache s) pgoff n) in *.
  assert (forall p, p ∈ ps -> exists m, refs s !! p = Some m /\ 1 <= m) as Href.
  { intros p (j & Hj)%list_elem_of_lookup. by eapply Hc, F2. }
  destruct (decide (Z.of_nat (length ps) = npages_of len)) as [He|Hne].
  - rewrite bool_decide_eq_true_2 by done. cbn [negb]. destruct ps as [|p ps'] eqn:Eps; [cbn in He; lia|].
    eapply runs_mono; [by apply get_put_pages|]. intros r s' (-> & ->). split; [done|].
    destruct (found_adjacent (cache s) pgoff n p ps' Hf) as [Ha Hb]; [done|lia|].
    replace (Z.of_nat n) with (npages_of len) in Ha, Hb by lia. destruct (adjacent (p + 1) ps').
    + left. destruct (proj1 Ha eq_refl) as [base Hbase]. pose proof (Hb base Hbase) as ->. exists p.
      split_and!; [done|lia|done].
    + right. split; [done|]. intros (base & Hbase & _). pose proof (proj2 Ha (ex_intro _ base Hbase)) as Hx. discriminate Hx.
  - rewrite bool_decide_eq_false_2 by done. cbn [negb]. eapply runs_mono; [by apply get_put_pages|].
    intros r s' (-> & ->). split; [done|]. right. split; [done|]. intros (base & Ha & _).
    specialize (F3 ltac:(lia)). by rewrite (Ha (Z.of_nat (length ps))) in F3 by lia.
Qed.

(** [ramfs_nommu_get_unmapped_area] always returns and leaves every reference
    count as it was.  It gives the address of the first page when the mapping
    lies within the file and all its pages exist and are physically adjacent, and
    -ENOSYS otherwise. *)
Theorem get_unmapped_area_spec len pgoff s :
  0 < len <= 2 ^ 64 - PAGE_SIZE -> 0 <= pgoff -> find_ok -> cache_ok s -> kcalloc_ok E = true ->
  runs (ramfs_nommu_get_unmapped_area len pgoff) s (fun r s' => s' = s /\
    ((exists base, adjacent_at (cache s) pgoff (npages_of len) base /\
        pgoff + npages_of len <= npages_of (i_size s) /\ r = page_address base) \/
     (r = - Errno.ENOSYS /\
      ~ exists base, adjacent_at (cache s) pgoff (npages_of len) base /\ pgoff + npages_of len <= npages_of (i_size s)))).
Proof. apply get_unmapped_area_ok. Qed.

(** ** Truncate, then map *)

Lemma resize_empty newsize s :
  0 < newsize < 2 ^ 32 -> order_ok -> alloc_ok s newsize -> (forall n, inode_newsize_ok E n <= 0) ->
  runs (ramfs_nommu_resize newsize 0) s (expand_post newsize s).
Proof.
  intros Hs Ho Ha Hi. unfold ramfs_nommu_resize. cbn [Z.eqb].
  rewrite Z.shiftr_div_pow2, Z.div_small by lia. cbn [Z.eqb negb]. by apply expand_ok.
Qed.

Lemma backed_adjacent base k s s' pgoff n :
  backed base k s s' -> 0 <= pgoff -> pgoff + n <= k -> adjacent_at (cache s') pgoff n (base + pgoff).
Proof.
  intros [A _ _] Hp Hn j Hj. rewrite A, decide_True by lia. f_equal. lia.
Qed.

(** C30: a file that is truncated from zero to a size below four gigabytes can be
    mapped: the change of attributes always returns, an error is negative, and
    when it succeeds every range of pages within the file is found, at the place
    of its pages in one block of cleared memory, with all reference counts in
    balance.  When it fails, every page that was allocated is either freed or in
    the cache of the file. *)
Theorem truncate_then_map newsize s :
  i_size s = 0 -> cache s = ∅ -> 0 < newsize < 2 ^ 32 -> order_ok -> alloc_ok s newsize ->
  (forall n, inode_newsize_ok E n <= 0) -> setattr_prepare E = 0 -> find_ok -> kcalloc_ok E = true ->
  runs (ramfs_nommu_setattr ATTR_SIZE newsize) s (fun '(r, copied, valid) s' =>
    r <= 0 /\ copied = None /\ valid = ATTR_SIZE /\
    (refs s' = refs s \/ exists base k, alloc_pages E = Some base /\ 0 <= k <= npages_of newsize /\ backed base k s s') /\
    (r = 0 -> exists base, alloc_pages E = Some base /\ i_size s' = newsize /\
       forall len pgoff, 0 < len <= 2 ^ 64 - PAGE_SIZE -> 0 <= pgoff -> pgoff + npages_of len <= npages_of newsize ->
         runs (ramfs_nommu_get_unmapped_area len pgoff) s' (fun a s2 => s2 = s' /\ a = page_address (base + pgoff)))).
Proof.
  intros Hz Hc Hs Ho Ha Hi Hp Hf Hk. unfold ramfs_nommu_setattr. rewrite Hp. cbn [Z.eqb negb].
  change (hasb ATTR_SIZE ATTR_SIZE) with true. cbv iota. apply runs_bind. eexists _, _. split; [reflexivity|].
  rewrite Hz. destruct (Z.eqb_spec newsize 0); [lia|]. cbn [negb]. apply runs_bind.
  eapply runs_mono; [by apply resize_empty|]. intros r s' [Hr He]. rewrite Z.eqb_refl, orb_true_r.
  apply runs_ret. split_and!; try done.
  - destruct He as [[-> _]|[(_ & _ & ->)|(base & k & Hb & _ & H1 & H2 & _)]]; [by left..|]. right. eauto 10.
  - intros ->. destruct He as [[_ ?]|[(_ & ? & _)|(base & k & Hb & Hsz & Hk' & H2 & Hkn)]]; [done..|].
    rewrite (Hkn eq_refl) in *. exists base. split_and!; try done. intros len pgoff Hl Hpg Hin.
    eapply runs_mono; [apply get_unmapped_area_ok; try done|].
    + intros i p. rewrite (bk_cache _ _ _ _ H2), Hc, lookup_empty. case_decide; [|done]. intros [= <-].
      exists 1. rewrite (bk_refs _ _ _ _ H2), decide_True by lia. done.
    + intros a s2 [-> Ho']. split; [done|]. pose proof (backed_adjacent _ _ _ _ _ _ H2 Hpg Hin) as Hadj.
      destruct Ho' as [(b2 & Hb2 & _ & ->)|[_ Hno]]; [|destruct Hno; exists (base + pgoff); rewrite Hsz; done].
      pose proof (npages_pos len Hl) as Hnp.
      specialize (Hb2 0 ltac:(lia)). rewrite (Hadj 0) in Hb2 by lia. injection Hb2 as Heq. f_equal. lia.
Qed.

End Nommu.

(** ** Examples *)

Definition get_order_ref (n : Z) : Z := if n <=? PAGE_SIZE then 0 else Z.log2 ((n - 1) / PAGE_SIZE) + 1.

Fixpoint find_ref (c : gmap Z Z) (i : Z) (n : nat) : list Z :=
  match n with
  | O => []
  | S n => match c !! i with Some p => p :: find_ref c (i + 1) n | None => [] end
  end.

(** [alloc] is the first frame of the allocation, [full] the first index that the
    page cache refuses. *)
Definition nenv1 (alloc : option Z) (full : Z) : nenv :=
  NEnv get_order_ref (fun _ => 0) alloc (fun i => if i <? full then 0 else - Errno.ENOMEM) 0 0 true find_ref
       (fun z => modify (set_size z)).

Definition empty_file : nst := Nst 0 ∅ {[7 := 1]} ∅ ∅.

Lemma nenv1_order a f : order_ok (nenv1 a f).
Proof.
  intros n Hn. cbn. rewrite npages_div by (unfold PAGE_SIZE; lia). unfold get_order_ref, PAGE_SIZE.
  destruct (Z.leb_spec n 4096).
  - split; [lia|]. change (2 ^ 0) with 1. apply Z.lt_succ_r, Z.div_lt_upper_bound; lia.
  - set (x := (n - 1) / 4096). assert (1 <= x) by (apply Z.div_le_lower_bound; lia).
    pose proof (Z.log2_nonneg x). split; [lia|]. destruct (Z.log2_spec x) as [_ Hx]; [lia|].
    replace (n + 4095) with (n - 1 + 1 * 4096) by lia. rewrite Z.div_add by lia. fold x.
    unfold Z.succ in Hx. lia.
Qed.

Lemma find_ref_ok c n : forall i,
  (length (find_ref c i n) <= n)%nat /\
  (forall j p, find_ref c i n !! j = Some p -> c !! (i + Z.of_nat j) = Some p) /\
  ((length (find_ref c i n) < n)%nat -> c !! (i + Z.of_nat (length (find_ref c i n))) = None).
Proof.
  induction n as [|n IH]; intros i; cbn [find_ref]; [split_and!; [done|done|cbn; lia]|].
  destruct (c !! i) as [p|] eqn:Ec; [|split_and!; [cbn; lia|done|by cbn [length Z.of_nat]; rewrite Z.add_0_r]].
  destruct (IH (i + 1)) as (H1 & H2 & H3). cbn [length]. split_and!; [lia| |].
  - intros [|j] q Hq; [injection Hq as <-; by rewrite Z.add_0_r|]. rewrite <- (H2 j q Hq). f_equal. lia.
  - intros Hlt. rewrite <- (H3 ltac:(lia)). f_equal. lia.
Qed.

Lemma nenv1_find a f : find_ok (nenv1 a f).
Proof. intros c i n. apply find_ref_ok. Qed.

Lemma empty_file_alloc f n : get_order_ref n <= 3 -> alloc_ok (nenv1 (Some 100) f) empty_file n.
Proof.
  intros Hn base [= <-] p Hp. cbn in *. assert (2 ^ get_order_ref n <= 2 ^ 3) by (by apply Z.pow_le_mono_r; lia).
  rewrite lookup_singleton_ne; [done|lia].
Qed.

(** Five pages of eight allocated frames. *)
Lemma truncate_then_map_witness :
  runs (ramfs_nommu_setattr (nenv1 (Some 100) 9) ATTR_SIZE 20000) empty_file (fun '(r, copied, valid) s' =>
    r <= 0 /\ copied = None /\ valid = ATTR_SIZE /\
    (refs s' = refs empty_file \/ exists base k, alloc_pages (nenv1 (Some 100) 9) = Some base /\
       0 <= k <= npages_of 20000 /\ backed base k empty_file s') /\
    (r = 0 -> exists base, alloc_pages (nenv1 (Some 100) 9) = Some base /\ i_size s' = 20000 /\
       forall len pgoff, 0 < len <= 2 ^ 64 - PAGE_SIZE -> 0 <= pgoff -> pgoff + npages_of len <= npages_of 20000 ->
         runs (ramfs_nommu_get_unmapped_area (nenv1 (Some 100) 9) len pgoff) s'
              (fun a s2 => s2 = s' /\ a = page_address (base + pgoff)))).
Proof.
  apply truncate_then_map; try done; [apply nenv1_order|by apply empty_file_alloc|apply nenv1_find].
Defined.

(** Two adjacent pages, then one elsewhere. *)
Definition file3 : nst := Nst 12288 {[0 := 40; 1 := 41; 2 := 60]} {[40 := 1; 41 := 1; 60 := 2]} ∅ ∅.

Lemma get_unmapped_area_spec_witness :
  runs (ramfs_nommu_get_unmapped_area (nenv1 None 0) 8192 0) file3 (fun r s' => s' = file3 /\
    ((exists base, adjacent_at (cache file3) 0 (npages_of 8192) base /\
        0 + npages_of 8192 <= npages_of (i_size file3) /\ r = page_address base) \/
     (r = - Errno.ENOSYS /\
      ~ exists base, adjacent_at (cache file3) 0 (npages_of 8192) base /\ 0 + npages_of 8192 <= npages_of (i_size file3)))).
Proof.
  apply get_unmapped_area_spec; [unfold PAGE_SIZE; lia|lia|apply nenv1_find| |done].
  intros i p H. cbn in H. repeat (apply lookup_insert_Some in H as [[<- <-]|[_ H]]; [by eexists|]).
  apply lookup_singleton_Some in H as [<- <-]. by eexists.
Defined.

Example map_two : is_ok (ramfs_nommu_get_unmapped_area (nenv1 None 0) 8192 0 file3) = true /\
  (fst <$> match ramfs_nommu_get_unmapped_area (nenv1 None 0) 8192 0 file3 with Ok x => Some x | Fault _ => None end)
    = Some (Z.shiftl 40 12) /\
  (fst <$> match ramfs_nommu_get_unmapped_area (nenv1 None 0) 8192 1 file3 with Ok x => Some x | Fault _ => None end)
    = Some (- Errno.ENOSYS).
Proof. vm_compute. done. Qed.

(** A length of zero reads an entry of an empty array. *)
Example map_nothing : ramfs_nommu_get_unmapped_area (nenv1 None 0) 0 0 file3 = Fault OutOfBounds.
Proof. vm_compute. reflexivity. Qed.

(** A truncation that fails for want of memory has already set the size: a second
    attempt no longer takes the branch that allocates pages. *)
Example failed_truncate_keeps_size :
  match ramfs_nommu_setattr (nenv1 None 0) ATTR_SIZE 8192 empty_file with
  | Ok ((r, _, _), s') => (r, i_size s')
  | Fault _ => (0, 0)
  end = (- Errno.ENOMEM, 8192).
Proof. vm_compute. reflexivity. Qed.
