(* ===== verification/Vdso.v ===== *)
(** * Vdso: mapping the vDSO and the current task into a process

    Models [arch/x86/entry/vdso/vma.c] (where the mappings are placed, what a
    page fault in them maps) and [vget_task_struct_info.c] (the user-space
    reader of the [vtask] area).  The memory manager's placement and insertion
    functions are the interface [MmApi]; physical memory is a byte function. *)

From Stdlib Require Import ZArith Lia.
From stdpp Require Import base list gmap.
From S2P Require Import Prelude Bytes.

(** ** Constants *)

Definition PAGE_SHIFT : Z := 12.
Definition PAGE_SIZE : Z := 4096.
Definition TASK_STRUCT_PAGE_NUMBER : Z := 5.
Definition PMD_SIZE : Z := 2 ^ 21.
Definition DEFAULT_MAP_WINDOW : Z := 2 ^ 47 - PAGE_SIZE.
Definition VM_FAULT_OOM : Z := 1.
Definition VM_FAULT_SIGBUS : Z := 2.
Definition VM_FAULT_NOPAGE : Z := 0x100.
(** the mask of the bits of a fault result that are errors *)
Definition VM_FAULT_ERROR : Z := 0x873.

Definition page_align (x : Z) : Z := Z.land (u64 (x + PAGE_SIZE - 1)) (2 ^ 64 - PAGE_SIZE).

(** ** Data *)

Inductive image_id := vdso_image_64 | vdso_image_x32 | vdso_image_32.

#[global] Instance image_id_eq_dec : EqDecision image_id.
Proof. solve_decision. Defined.

Record vdso_image := VdsoImage {
  img : image_id;
  data : Z;
  size : Z;
  sym_vvar_start : Z;
  sym_vvar_page : Z;
  sym_pvclock_page : Z;
  sym_hvclock_page : Z;
  sym_timens_page : Z;
  sym_int80_landing_pad : Z;
  sym_vdso32_sigreturn_landing_pad : Z;
  sym_vdso32_rt_sigreturn_landing_pad : Z
}.

Inductive mapping := vdso_mapping | vvar_mapping | vtask_mapping | other_mapping.

#[global] Instance mapping_eq_dec : EqDecision mapping.
Proof. solve_decision. Defined.

Record vma := Vma { vm_start : Z; vm_end : Z; vm_special : mapping }.

#[global] Instance vma_eq_dec : EqDecision vma.
Proof. solve_decision. Defined.

(** The address space: its areas, [mmap_lock], the x86 context and the ranges
    whose page tables have been cleared. *)
Record mm_struct := Mm {
  mmap : list vma;
  mmap_lock : bool;
  ctx_vdso : Z;
  ctx_vdso_image : option vdso_image;
  ctx_vtask : Z;
  start_stack : Z;
  zapped : list (Z * Z)
}.

Definition set_mmap (f : list vma -> list vma) (m : mm_struct) : mm_struct :=
  Mm (f (mmap m)) (mmap_lock m) (ctx_vdso m) (ctx_vdso_image m) (ctx_vtask m) (start_stack m) (zapped m).
Definition set_lock (b : bool) (m : mm_struct) : mm_struct :=
  Mm (mmap m) b (ctx_vdso m) (ctx_vdso_image m) (ctx_vtask m) (start_stack m) (zapped m).
Definition set_ctx (vdso : Z) (image : option vdso_image) (vtask : Z) (m : mm_struct) : mm_struct :=
  Mm (mmap m) (mmap_lock m) vdso image vtask (start_stack m) (zapped m).
Definition set_zapped (z : list (Z * Z)) (m : mm_struct) : mm_struct :=
  Mm (mmap m) (mmap_lock m) (ctx_vdso m) (ctx_vdso_image m) (ctx_vtask m) (start_stack m) z.

Definition mmap_write_lock : M mm_struct unit :=
  m ← get; if mmap_lock m then abort Deadlock else modify (set_lock true).
Definition mmap_write_unlock : M mm_struct unit := modify (set_lock false).
Definition mmap_read_lock : M mm_struct unit :=
  m ← get; if mmap_lock m then abort Deadlock else modify (set_lock true).
Definition mmap_read_unlock : M mm_struct unit := modify (set_lock false).

(** An area is clear of [start, start + len). *)
Definition clear_of (start len : Z) (v : vma) : Prop := vm_end v <= start \/ start + len <= vm_start v.

(** The memory manager.  [get_unmapped_area] gives an address or a negative
    error as an unsigned long; [install_special_mapping] gives 0 or a negative
    error and refuses a range that is not free. *)
Class MmApi := {
  get_unmapped_area : list vma -> Z -> Z -> Z;
  install_special_mapping : list vma -> Z -> Z -> Z;
  (** an error code or a page-aligned address with room for [len] below the
      end of user space *)
  get_unmapped_area_range vs addr len :
    let a := get_unmapped_area vs addr len in
    (2 ^ 64 - MAX_ERRNO <= a < 2 ^ 64) \/
    (0 <= a /\ a + len <= 2 ^ 47 /\ a mod PAGE_SIZE = 0 /\ Forall (clear_of a len) vs);
  install_range vs start len : - MAX_ERRNO <= install_special_mapping vs start len <= 0;
  install_free vs start len : install_special_mapping vs start len = 0 ->
    0 < len /\ Forall (clear_of start len) vs
}.

(** What [munmap] leaves of an area. *)
Definition unmap_piece (start len : Z) (v : vma) : list vma :=
  (if vm_start v <? Z.min (vm_end v) start
   then [Vma (vm_start v) (Z.min (vm_end v) start) (vm_special v)] else []) ++
  (if Z.max (vm_start v) (start + len) <? vm_end v
   then [Vma (Z.max (vm_start v) (start + len)) (vm_end v) (vm_special v)] else []).

Definition do_munmap (start len : Z) : M mm_struct unit :=
  modify (set_mmap (fun vs => vs ≫= unmap_piece start len)).

Section Vdso.
Context `{MmApi}.

(** ** Page faults *)

(** What a fault handler does: the page it hands over, or the frames it
    inserts, with the result code. *)
Inductive fault_result :=
  | FaultCode (code : Z)
  | FaultPage (kaddr : Z)                (** [vmf->page] is the page at this address *)
  | FaultInfo (fields : list Z)          (** a fresh page that begins with these words *)
  | FaultPfn (inserted : list (Z * Z)).  (** frames inserted, by user address *)

Definition init_vdso_image (image : vdso_image) : res unit :=
  if negb (size image mod PAGE_SIZE =? 0) then Fault BugOn else Ok tt.

Definition vdso_fault (image : option vdso_image) (pgoff : Z) : fault_result :=
  match image with
  | None => FaultCode VM_FAULT_SIGBUS
  | Some image =>
      let off := u64 (Z.shiftl pgoff PAGE_SHIFT) in
      if size image <=? off then FaultCode VM_FAULT_SIGBUS else FaultPage (data image + off)
  end.

(** [vmf_insert_pfn] after the frames of [pre]; [insert] gives its result. *)
Definition insert_one (insert : Z -> Z -> Z) (pre : list (Z * Z)) (address pfn : Z) : fault_result :=
  if hasb (insert address pfn) VM_FAULT_ERROR then FaultCode (insert address pfn)
  else FaultPfn (pre ++ [(address, pfn)]).

(** [task_phys_addr] is the physical address of [current]. *)
Definition vtask_fault (insert : Z -> Z -> Z) (task_phys_addr sizeof_task : Z) (alloc_ok : bool)
    (address pgoff : Z) : fault_result :=
  let task_start_page := Z.shiftr task_phys_addr PAGE_SHIFT in
  if (TASK_STRUCT_PAGE_NUMBER <? pgoff) || (pgoff <? 0) then FaultCode (u32 (-1))
  else if pgoff <? TASK_STRUCT_PAGE_NUMBER then insert_one insert [] address (task_start_page + pgoff)
  else if negb alloc_ok then FaultCode VM_FAULT_OOM
  else FaultInfo [Z.land task_phys_addr (PAGE_SIZE - 1); 6; sizeof_task; 114514].

(** What the clock sources give [vvar_fault]: the frame of the vvar page, of the
    time namespace's page, and of the two hypervisor clocks when in use, and the
    result of inserting a frame. *)
Record vvar_env := VvarEnv {
  vvar_pfn : Z;
  timens_pfn : option Z;
  pvclock_pfn : option Z;
  hvclock_pfn : option Z;
  insert_pfn : Z -> Z -> Z
}.

Definition vvar_fault (V : vvar_env) (image : option vdso_image) (address pgoff : Z) : fault_result :=
  match image with
  | None => FaultCode VM_FAULT_SIGBUS
  | Some image =>
      let sym_offset := s64 (s64 (Z.shiftl pgoff PAGE_SHIFT) + sym_vvar_start image) in
      if sym_offset =? 0 then FaultCode VM_FAULT_SIGBUS
      else if sym_offset =? sym_vvar_page image then
        match timens_pfn V with
        | Some pfn =>
            let addr := u64 (address + (sym_timens_page image - sym_offset)) in
            let err := insert_pfn V addr (vvar_pfn V) in
            if hasb err VM_FAULT_ERROR then FaultCode err
            else insert_one (insert_pfn V) [(addr, vvar_pfn V)] address pfn
        | None => insert_one (insert_pfn V) [] address (vvar_pfn V)
        end
      else if sym_offset =? sym_pvclock_page image then
        match pvclock_pfn V with
        | Some pfn => insert_one (insert_pfn V) [] address pfn
        | None => FaultCode VM_FAULT_SIGBUS
        end
      else if sym_offset =? sym_hvclock_page image then
        match hvclock_pfn V with
        | Some pfn => insert_one (insert_pfn V) [] address pfn
        | None => FaultCode VM_FAULT_SIGBUS
        end
      else if sym_offset =? sym_timens_page image then
        match timens_pfn V with
        | Some _ => insert_one (insert_pfn V) [] address (vvar_pfn V)
        | None => FaultCode VM_FAULT_SIGBUS
        end
      else FaultCode VM_FAULT_SIGBUS
  end.

(** ** Moving the vDSO *)

(** [regs->ip] of the current 32-bit system call, if it is one. *)
Definition vdso_fix_landing (image : option vdso_image) (old_vdso new_start : Z)
    (ia32_ip : option Z) : option Z :=
  match ia32_ip, image with
  | Some ip, Some image =>
      if bool_decide (img image = vdso_image_32) then
        let vdso_land := sym_int80_landing_pad image in
        if ip =? u64 (vdso_land + old_vdso) then Some (u64 (new_start + vdso_land)) else Some ip
      else Some ip
  | _, _ => ia32_ip
  end.

Definition vdso_mremap (new_start : Z) (ia32_ip : option Z) : M mm_struct (Z * option Z) :=
  m ← get;
  let ip := vdso_fix_landing (ctx_vdso_image m) (ctx_vdso m) new_start ia32_ip in
  _ ← modify (set_ctx new_start (ctx_vdso_image m) (ctx_vtask m));
  mret (0, ip).

Definition vdso_join_timens : M mm_struct Z :=
  _ ← mmap_read_lock;
  m ← get;
  let vs := filter (fun v => vm_special v = vvar_mapping) (mmap m) in
  _ ← modify (set_zapped (zapped m ++ map (fun v => (vm_start v, vm_end v - vm_start v)) vs));
  _ ← mmap_read_unlock;
  mret 0.

(** ** Mapping *)

Definition vtask_len : Z := TASK_STRUCT_PAGE_NUMBER * PAGE_SIZE + PAGE_SIZE.

Definition do_install (start len : Z) (k : mapping) : M mm_struct Z :=
  m ← get;
  let r := install_special_mapping (mmap m) start len in
  if r =? 0 then _ ← modify (set_mmap (cons (Vma start (u64 (start + len)) k))); mret 0 else mret r.

(** [map_vdso]; [killed] says whether taking the lock was interrupted. *)
Definition map_vdso (image : vdso_image) (addr : Z) (killed : bool) : M mm_struct Z :=
  if killed then mret (- Errno.EINTR)
  else
    _ ← mmap_write_lock;
    m ← get;
    let addr := get_unmapped_area (mmap m) addr (u64 (size image - sym_vvar_start image)) in
    let addr := u64 (addr + vtask_len) in
    ret ←
      (if IS_ERR_VALUE addr then mret (s32 addr)
       else
         let text_start := u64 (addr - sym_vvar_start image) in
         r ← do_install text_start (size image) vdso_mapping;
         if negb (r =? 0) then mret r
         else
           r ← do_install addr (u64 (- sym_vvar_start image)) vvar_mapping;
           if negb (r =? 0) then
             _ ← do_munmap text_start (size image); mret r
           else
             r ← do_install (u64 (addr - vtask_len)) vtask_len vtask_mapping;
             if negb (r =? 0) then
               _ ← do_munmap text_start (size image);
               _ ← do_munmap addr (u64 (- sym_vvar_start image));
               mret r
             else
               _ ← modify (set_ctx text_start (Some image) (u64 (addr - vtask_len)));
               mret 0);
    _ ← mmap_write_unlock;
    mret ret.

(** [vdso_addr]; [align_vdso_addr] is the hardware-specific alignment. *)
Definition vdso_addr (align_vdso_addr : Z -> Z) (random start len : Z) : Z :=
  let start := page_align start in
  let e := Z.land (u64 (start + len + PMD_SIZE - 1)) (2 ^ 64 - PMD_SIZE) in
  let e := if DEFAULT_MAP_WINDOW <=? e then DEFAULT_MAP_WINDOW else e in
  let e := u64 (e - len) in
  let addr :=
    if start <? e then
      let offset := u32 (random mod (Z.shiftr (u64 (e - start)) PAGE_SHIFT + 1)) in
      u64 (start + u32 (Z.shiftl offset PAGE_SHIFT))
    else start in
  align_vdso_addr addr.

Definition map_vdso_randomized (align : Z -> Z) (random : Z) (image : vdso_image) (killed : bool)
    : M mm_struct Z :=
  m ← get;
  map_vdso image (vdso_addr align random (start_stack m) (u32 (size image - sym_vvar_start image))) killed.

Definition map_vdso_once (image : vdso_image) (addr : Z) (killed : bool) : M mm_struct Z :=
  _ ← mmap_write_lock;
  m ← get;
  let mapped := existsb (fun v => bool_decide (vm_special v = vdso_mapping)
                                  || bool_decide (vm_special v = vvar_mapping)) (mmap m) in
  _ ← mmap_write_unlock;
  if mapped then mret (- Errno.EEXIST) else map_vdso image addr killed.

Definition load_vdso32 (vdso32_enabled : Z) (image32 : vdso_image) (killed : bool) : M mm_struct Z :=
  if negb (vdso32_enabled =? 1) then mret 0 else map_vdso image32 0 killed.

Definition arch_setup_additional_pages (vdso64_enabled : Z) (align : Z -> Z) (random : Z)
    (image64 : vdso_image) (killed : bool) : M mm_struct Z :=
  if vdso64_enabled =? 0 then mret 0 else map_vdso_randomized align random image64 killed.

Definition compat_arch_setup_additional_pages (x32 : bool) (vdso64_enabled vdso32_enabled : Z)
    (align : Z -> Z) (random : Z) (imagex32 image32 : vdso_image) (killed : bool) : M mm_struct Z :=
  if x32 then
    if vdso64_enabled =? 0 then mret 0 else map_vdso_randomized align random imagex32 killed
  else load_vdso32 vdso32_enabled image32 killed.

Definition arch_syscall_is_vdso_sigreturn (image : option vdso_image) (vdso : Z) (ia32_ip : option Z)
    : bool :=
  match ia32_ip, image with
  | Some ip, Some image =>
      bool_decide (img image = vdso_image_32) &&
      ((ip =? u64 (vdso + sym_vdso32_sigreturn_landing_pad image)) ||
       (ip =? u64 (vdso + sym_vdso32_rt_sigreturn_landing_pad image)))
  | _, _ => false
  end.

(** ** Reading from user space *)

(** A page of the task area that has been faulted in: a frame of physical memory,
    or the fresh page that begins with the words of the info structure. *)
Inductive upage := UPfn (pfn : Z) | UInfo (fields : list Z).

(** The page table entries of the address space, by virtual page number.  They
    stay when another thread runs on the address space. *)
Abbreviation ptab := (gmap Z upage).

(** The machine that faults and reads: the results of [vmf_insert_pfn_prot] and
    [alloc_page], physical memory, [sizeof(struct task_struct)], and what was in
    the page [alloc_page] gives. *)
Record machine := Machine {
  insert_result : Z -> Z -> Z;
  alloc_ok : bool;
  pmem : Z -> Z;
  sizeof_task : Z;
  fresh : Z -> Z
}.

(** The page at an address of the task area: the one in the page table, or the
    one that [vtask_fault] gives for the current task, which is entered there. *)
Definition user_page (C : machine) (task_phys : Z) (v : vma) (va : Z) : M ptab upage :=
  pt ← get;
  match pt !! (va / PAGE_SIZE) with
  | Some pg => mret pg
  | None =>
      let enter pg := (_ ← put (<[va / PAGE_SIZE := pg]> pt); mret pg) in
      match vtask_fault (insert_result C) task_phys (sizeof_task C) (alloc_ok C)
              (va - va mod PAGE_SIZE) ((va - vm_start v) / PAGE_SIZE) with
      | FaultPfn [(_, pfn)] => enter (UPfn pfn)
      | FaultInfo fields => enter (UInfo fields)
      | _ => abort Dangling
      end
  end.

Definition page_byte (C : machine) (pg : upage) (off : Z) : Z :=
  match pg with
  | UPfn pfn => pmem C (pfn * PAGE_SIZE + off)
  | UInfo fields => nth (Z.to_nat off) (concat (map (le_bytes 8) fields)) (fresh C off)
  end.

(** The byte the task at [task_phys] reads at an address. *)
Definition user_byte (C : machine) (m : mm_struct) (task_phys : Z) (va : Z) : M ptab Z :=
  match List.find (fun v => (vm_start v <=? va) && (va <? vm_end v)) (mmap m) with
  | Some v =>
      if bool_decide (vm_special v = vtask_mapping) then
        pg ← user_page C task_phys v va;
        mret (page_byte C pg (va mod PAGE_SIZE))
      else abort Dangling
  | None => abort Dangling
  end.

Fixpoint user_bytes (rd : Z -> M ptab Z) (va : Z) (n : nat) : M ptab (list Z) :=
  match n with
  | O => mret []
  | S n' => b ← rd va; bs ← user_bytes rd (va + 1) n'; mret (b :: bs)
  end.

(** [__vdso_get_task_struct_info]: the return value and, on success, the two
    fields of [*info]; [vdata] is the address of the vDSO data page's contents,
    [off_pid] that of [pid] in a [task_struct]. *)
Definition vdso_get_task_struct_info (rd : Z -> M ptab Z) (off_pid : Z) (info vdata : Z)
    : M ptab (Z * option (Z * Z)) :=
  if info =? NULL then mret (-1, None)
  else if vdata =? NULL then mret (- Errno.EINVAL, None)
  else
    let vinfo := u64 (Z.shiftl (Z.shiftr vdata PAGE_SHIFT) PAGE_SHIFT - PAGE_SIZE) in
    judge ← user_bytes rd (vinfo + 24) 8;
    if negb (le_val judge =? 114514) then mret (-1, None)
    else
      offset ← user_bytes rd vinfo 8;
      let vtask := u64 (vinfo - TASK_STRUCT_PAGE_NUMBER * PAGE_SIZE + le_val offset) in
      pid ← user_bytes rd (vtask + off_pid) 4;
      mret (0, Some (vtask, s32 (le_val pid))).

(** ** Placement *)

(** What the build guarantees of an image: whole pages, with the data pages
    right below the text and the vvar page first among them. *)
Record image_ok (i : vdso_image) : Prop := {
  size_pages : size i mod PAGE_SIZE = 0;
  size_range : 0 < size i < 2 ^ 31;
  vvar_pages : sym_vvar_start i mod PAGE_SIZE = 0;
  vvar_range : - 2 ^ 31 < sym_vvar_start i < 0;
  vvar_first : sym_vvar_page i = sym_vvar_start i
}.

Definition nonempty (v : vma) : Prop := vm_start v < vm_end v.

Lemma unmap_piece_clear start len v : 0 < len -> nonempty v -> clear_of start len v -> unmap_piece start len v = [v].
Proof.
  intros Hl Hn [Hc|Hc]; unfold unmap_piece, nonempty in *; destruct v as [a b k]; cbn in *.
  - rewrite Z.min_l by lia. destruct (Z.ltb_spec a b); [|lia].
    destruct (Z.ltb_spec (Z.max a (start + len)) b); [lia|done].
  - destruct (Z.ltb_spec a (Z.min b start)); [lia|]. rewrite Z.max_l by lia.
    destruct (Z.ltb_spec a b); [done|lia].
Qed.

Lemma unmap_piece_self start len k : 0 < len -> unmap_piece start len (Vma start (start + len) k) = [].
Proof.
  intros. unfold unmap_piece. cbn. destruct (Z.ltb_spec start (Z.min (start + len) start)); [lia|].
  destruct (Z.ltb_spec (Z.max start (start + len)) (start + len)); [lia|done].
Qed.

Lemma unmap_clear start len vs :
  0 < len -> Forall nonempty vs -> Forall (clear_of start len) vs -> (vs ≫= unmap_piece start len) = vs.
Proof.
  intros Hl Hn. induction Hn as [|v vs Hv Hvs IH]; intros Hc; [done|].
  inversion Hc; subst. rewrite bind_cons, unmap_piece_clear by done. cbn. by rewrite IH.
Qed.

(** The three areas, from the address found. *)
Definition vtask_area (g : Z) : vma := Vma g (g + vtask_len) vtask_mapping.
Definition vvar_area (i : vdso_image) (g : Z) : vma :=
  Vma (g + vtask_len) (g + vtask_len - sym_vvar_start i) vvar_mapping.
Definition text_area (i : vdso_image) (g : Z) : vma :=
  Vma (g + vtask_len - sym_vvar_start i) (g + vtask_len - sym_vvar_start i + size i) vdso_mapping.

Lemma unmapped_ok vs addr len :
  0 <= len < 2 ^ 64 -> IS_ERR_VALUE (get_unmapped_area vs addr len) = false ->
  let g := get_unmapped_area vs addr len in 0 <= g /\ g <= 2 ^ 47 /\ g mod PAGE_SIZE = 0.
Proof.
  intros Hl He g. pose proof (get_unmapped_area_range vs addr len) as Hr. cbv zeta in Hr. fold g in Hr, He.
  unfold IS_ERR_VALUE, MAX_ERRNO in *.
  destruct Hr as [Hr|(? & ? & ? & _)]; [|repeat split; lia].
  rewrite uwrap_small in He by (unfold is_u; lia). apply Z.leb_gt in He. lia.
Qed.

(** Run the monadic code over an address space given by its fields. *)
Ltac vrun := cbv beta iota zeta delta [mbind M_bind mret M_ret modify get abort negb
  mmap_write_lock mmap_write_unlock mmap_read_lock mmap_read_unlock do_munmap set_mmap set_lock
  set_ctx set_zapped mmap mmap_lock ctx_vdso ctx_vdso_image ctx_vtask start_stack zapped].

(** An installation: nothing happens, or the area is free and is added. *)
Lemma do_install_spec start len k m :
  (do_install start len k m = Ok (0, set_mmap (cons (Vma start (u64 (start + len)) k)) m) /\
   0 < len /\ Forall (clear_of start len) (mmap m)) \/
  (exists r, r < 0 /\ do_install start len k m = Ok (r, m)).
Proof.
  unfold do_install, mbind, M_bind, get, modify, mret, M_ret.
  pose proof (install_range (mmap m) start len).
  destruct (Z.eqb_spec (install_special_mapping (mmap m) start len) 0) as [E|E].
  - left. split; [done|]. by apply install_free.
  - right. eexists. split; [|done]. lia.
Qed.

(** The address after the shift: the task area ends there also when
    [get_unmapped_area] failed, since the shift wraps an error code around. *)
Lemma unmapped_shift vs addr len :
  0 <= len < 2 ^ 64 ->
  let g := get_unmapped_area vs addr len in let a := u64 (g + vtask_len) in
  0 <= g < 2 ^ 64 /\ 4096 < a <= 2 ^ 47 + 24576 /\ u64 (a - vtask_len) = g /\
  (IS_ERR_VALUE g = false -> a = g + vtask_len).
Proof.
  intros Hl g a. pose proof (get_unmapped_area_range vs addr len) as Hr. cbv zeta in Hr. fold g in Hr.
  assert (vtask_len = 24576) as Hvl by reflexivity. unfold IS_ERR_VALUE, MAX_ERRNO in *.
  destruct Hr as [Hr|(? & ? & ? & _)].
  - assert (a = g + vtask_len - 2 ^ 64) as Ha.
    { unfold a, uwrap. replace (g + vtask_len) with (g + vtask_len - 2 ^ 64 + 1 * 2 ^ 64) by lia.
      rewrite Z.mod_add, Z.mod_small by lia. lia. }
    split_and!; [lia|lia|lia|lia| |].
    + rewrite Ha. unfold uwrap. replace (g + vtask_len - 2 ^ 64 - vtask_len) with (g + (-1) * 2 ^ 64) by lia.
      rewrite Z.mod_add, Z.mod_small by lia. done.
    + rewrite uwrap_small by (unfold is_u; lia). destruct (Z.leb_spec (2 ^ 64 - 4095) g); [done|lia].
  - assert (a = g + vtask_len) as Ha by (unfold a; rewrite uwrap_small; [done|unfold is_u; lia]).
    split_and!; try lia. rewrite Ha, uwrap_small by (unfold is_u; lia). lia.
Qed.

(** The areas below and above the shifted address [a]. *)
Definition areas (i : vdso_image) (g a : Z) : list vma :=
  [Vma g a vtask_mapping; Vma a (a - sym_vvar_start i) vvar_mapping;
   Vma (a - sym_vvar_start i) (a - sym_vvar_start i + size i) vdso_mapping].

Lemma map_vdso_outcome i addr killed m :
  image_ok i -> mmap_lock m = false -> Forall nonempty (mmap m) ->
  let g := get_unmapped_area (mmap m) addr (u64 (size i - sym_vvar_start i)) in
  let a := u64 (g + vtask_len) in
  exists r m', map_vdso i addr killed m = Ok (r, m') /\
    ((r = 0 /\ m' = set_ctx (a - sym_vvar_start i) (Some i) g (set_mmap (app (areas i g a)) m) /\
      Forall (clear_of a (size i - sym_vvar_start i)) (mmap m) /\
      Forall (clear_of g vtask_len) (mmap m)) \/
     (r < 0 /\ m' = m)).
Proof.
  intros [_ Hsz _ Hvv _] Hlk Hne g a. destruct m as [vs lk cv ci ct ss zp]. cbn in Hlk, Hne, g. subst lk.
  unfold map_vdso. destruct killed; [eexists _, _; split; [done|]; by right|].
  destruct (unmapped_shift vs addr (u64 (size i - sym_vvar_start i)) (uwrap_range 64 _ ltac:(lia)))
    as (Hg & Ha & Hback & _). fold g in Hg, Hback. fold g a in Ha. fold g a in Hback.
  assert (vtask_len = 24576) as Hvl by reflexivity.
  vrun. fold g. fold a.
  destruct (IS_ERR_VALUE a) eqn:Eerr.
  { unfold IS_ERR_VALUE, MAX_ERRNO in Eerr. rewrite uwrap_small in Eerr by (unfold is_u; lia).
    apply Z.leb_le in Eerr. lia. }
  rewrite (uwrap_small 64 (a - sym_vvar_start i)) by (unfold is_u; lia).
  rewrite (uwrap_small 64 (- sym_vvar_start i)) by (unfold is_u; lia). rewrite Hback.
  set (m1 := Mm vs true cv ci ct ss zp).
  destruct (do_install_spec (a - sym_vvar_start i) (size i) vdso_mapping m1)
    as [(-> & L1 & C1)|(r & Hr & ->)]; unfold m1 in *; clear m1.
  2: { destruct (Z.eqb_spec r 0); [lia|]. vrun. eexists _, _. split; [done|]. by right. }
  vrun. rewrite (uwrap_small 64 (a - sym_vvar_start i + size i)) by (unfold is_u; lia).
  change (0 =? 0) with true. cbv iota.
  set (text := Vma (a - sym_vvar_start i) (a - sym_vvar_start i + size i) vdso_mapping).
  set (m2 := Mm (text :: vs) true cv ci ct ss zp).
  destruct (do_install_spec a (- sym_vvar_start i) vvar_mapping m2)
    as [(-> & L2 & C2)|(r & Hr & ->)]; unfold m2 in *; clear m2.
  2: { destruct (Z.eqb_spec r 0); [lia|]. vrun. eexists _, _. split; [done|]. right. split; [done|].
       f_equal. rewrite bind_cons, unmap_clear by done.
       unfold text. by rewrite unmap_piece_self by done. }
  vrun. change (a + - sym_vvar_start i) with (a - sym_vvar_start i).
  rewrite (uwrap_small 64 (a - sym_vvar_start i)) by (unfold is_u; lia).
  change (0 =? 0) with true. cbv iota.
  cbn in C2. inversion C2 as [|? ? C2a C2b]; subst.
  set (vvar := Vma a (a - sym_vvar_start i) vvar_mapping).
  set (m3 := Mm (vvar :: text :: vs) true cv ci ct ss zp).
  destruct (do_install_spec g vtask_len vtask_mapping m3) as [(-> & L3 & C3)|(r & Hr & ->)];
    unfold m3 in *; clear m3.
  - vrun. fold a. eexists _, _. split; [done|]. left. split; [done|]. split; [done|].
    cbn in C1, C3. inversion C3 as [|? ? _ C3']; subst. inversion C3' as [|? ? _ C3b]; subst.
    split; [|done]. apply List.Forall_forall. intros v Hv. rewrite List.Forall_forall in C1, C2b.
    specialize (C1 v Hv). specialize (C2b v Hv).
    rewrite List.Forall_forall in Hne. specialize (Hne v Hv). unfold clear_of, nonempty in *. lia.
  - destruct (Z.eqb_spec r 0); [lia|]. vrun. eexists _, _. split; [done|]. right. split; [done|].
    f_equal. rewrite !bind_cons, (unmap_clear (a - sym_vvar_start i)) by done.
    unfold vvar, text.
    rewrite unmap_piece_clear by (first [done|unfold nonempty, clear_of; cbn; lia]).
    rewrite unmap_piece_self by done. cbn [app]. rewrite bind_cons.
    rewrite (unmap_clear a) by done.
    change (a - sym_vvar_start i) with (a + - sym_vvar_start i).
    by rewrite unmap_piece_self by done.
Qed.

(** When [get_unmapped_area] found room. *)
Lemma map_vdso_cases i addr killed m :
  image_ok i -> mmap_lock m = false -> Forall nonempty (mmap m) ->
  let g := get_unmapped_area (mmap m) addr (u64 (size i - sym_vvar_start i)) in
  IS_ERR_VALUE g = false ->
  exists r m', map_vdso i addr killed m = Ok (r, m') /\
    ((r = 0 /\ m' = set_ctx (vm_start (text_area i g)) (Some i) g
                    (set_mmap (app [vtask_area g; vvar_area i g; text_area i g]) m) /\
      0 <= g /\ g <= 2 ^ 47 /\ g mod PAGE_SIZE = 0) \/
     (r < 0 /\ m' = m)).
Proof.
  intros Hi Hlk Hne g Hg.
  destruct (unmapped_ok (mmap m) addr (u64 (size i - sym_vvar_start i)) (uwrap_range 64 _ ltac:(lia)) Hg)
    as (Hg0 & Hg1 & Hga).
  destruct (unmapped_shift (mmap m) addr (u64 (size i - sym_vvar_start i)) (uwrap_range 64 _ ltac:(lia)))
    as (_ & _ & _ & Ha). specialize (Ha Hg). fold g in Ha, Hg0, Hg1, Hga.
  destruct (map_vdso_outcome i addr killed m Hi Hlk Hne) as (r & m' & E & Hc). fold g in Hc. rewrite Ha in Hc.
  exists r, m'. split; [done|]. destruct Hc as [(-> & -> & _)|[? ?]]; [by left|by right].
Qed.

(** C7: mapping is all or nothing, for every answer of the memory manager.  In an
    unlocked address space [map_vdso] either returns 0 having added exactly the
    task, data and text areas, one after the other, and recorded them in the
    context; or it returns a negative code and the address space is as it was.  The
    lock is released either way.  The data and text areas are clear of every older
    area; the task area is too when [get_unmapped_area] found room.  When it
    failed, the error is not recognised: it becomes the start of the task area,
    which ends at a wrapped address. *)
Theorem map_vdso_all_or_nothing i addr killed m :
  image_ok i -> mmap_lock m = false -> Forall nonempty (mmap m) ->
  let g := get_unmapped_area (mmap m) addr (u64 (size i - sym_vvar_start i)) in
  let a := u64 (g + vtask_len) in
  exists r m', map_vdso i addr killed m = Ok (r, m') /\ mmap_lock m' = false /\
    ((r = 0 /\ mmap m' = areas i g a ++ mmap m /\
      ctx_vdso m' = a - sym_vvar_start i /\ ctx_vdso_image m' = Some i /\ ctx_vtask m' = g /\
      Forall (clear_of a (size i - sym_vvar_start i)) (mmap m) /\
      (IS_ERR_VALUE g = false -> a = g + vtask_len /\ Forall (clear_of g (a - g)) (mmap m))) \/
     (r < 0 /\ m' = m)).
Proof.
  intros Hi Hl Hn g a. pose proof (unmapped_shift (mmap m) addr (u64 (size i - sym_vvar_start i))
    (uwrap_range 64 _ ltac:(lia))) as (_ & _ & _ & Ha). fold g in Ha. fold a in Ha.
  destruct (map_vdso_outcome i addr killed m Hi Hl Hn) as (r & m' & E & Hc). fold g in Hc. fold a in Hc.
  exists r, m'. split; [done|]. destruct Hc as [(-> & -> & Hc1 & Hc2)|[Hr ->]]; [|by eauto].
  destruct m; cbn in *. split; [done|]. left. split_and!; try done.
  intros Hg. specialize (Ha Hg). split; [done|]. rewrite Ha. by replace (g + vtask_len - g) with vtask_len by lia.
Qed.

(** ** Reading the task back *)

Section Read.
Context (C : machine) (m : mm_struct) (rest : list vma) (g : Z) (P : Z).
Context (Hmap : mmap m = vtask_area g :: rest) (Hg : 0 <= g) (Hga : g mod PAGE_SIZE = 0).
Context (Hins : forall a pfn, hasb (insert_result C a pfn) VM_FAULT_ERROR = false) (Hall : alloc_ok C = true).

(** The pages of the task area when [P] faults them in. *)
Definition page_of (n : Z) : upage :=
  if n <? 5 then UPfn (Z.shiftr P PAGE_SHIFT + n)
  else UInfo [Z.land P (PAGE_SIZE - 1); 6; sizeof_task C; 114514].

(** The pages present are those of [P]. *)
Definition owned (pt : ptab) : Prop :=
  forall n pg, 0 <= n <= 5 -> pt !! (g / PAGE_SIZE + n) = Some pg -> pg = page_of n.

Definition area_byte (off : Z) : Z := page_byte C (page_of (off / PAGE_SIZE)) (off mod PAGE_SIZE).

Lemma area_page off : (g + off) / PAGE_SIZE = g / PAGE_SIZE + off / PAGE_SIZE /\ (g + off) mod PAGE_SIZE = off mod PAGE_SIZE.
Proof.
  unfold PAGE_SIZE in *. pose proof (Z.div_mod g 4096 ltac:(lia)) as D. rewrite Hga in D.
  replace (g + off) with (off + g / 4096 * 4096) by lia. rewrite Z.div_add, Z.mod_add by lia. lia.
Qed.

Lemma find_area off : 0 <= off < vtask_len ->
  List.find (fun v => (vm_start v <=? g + off) && (g + off <? vm_end v)) (mmap m) = Some (vtask_area g).
Proof.
  intros Ho. rewrite Hmap. cbn [List.find vtask_area vm_start vm_end].
  destruct (Z.leb_spec g (g + off)); [|lia]. by destruct (Z.ltb_spec (g + off) (g + vtask_len)); [|lia].
Qed.

(** Reading a byte faults its page in, unless it is there. *)
Lemma user_byte_area off pt :
  0 <= off < vtask_len -> owned pt ->
  user_byte C m P (g + off) pt
  = Ok (area_byte off, <[g / PAGE_SIZE + off / PAGE_SIZE := page_of (off / PAGE_SIZE)]> pt).
Proof.
  intros Ho Hown. unfold user_byte. rewrite find_area by done. cbn [vtask_area vm_special].
  rewrite bool_decide_eq_true_2 by done. unfold user_page. mrun. destruct (area_page off) as [Hd Hm]. rewrite Hd, Hm.
  assert (0 <= off / PAGE_SIZE <= 5) as Hn.
  { change vtask_len with 24576 in Ho. unfold PAGE_SIZE.
    pose proof (Z.div_mod off 4096 ltac:(lia)). pose proof (Z.mod_pos_bound off 4096 ltac:(lia)). lia. }
  destruct (pt !! (g / PAGE_SIZE + off / PAGE_SIZE)) as [pg|] eqn:E.
  - pose proof (Hown _ pg Hn E) as ->. by rewrite (insert_id pt).
  - cbn [vtask_area vm_start]. replace (g + off - g) with off by lia.
    unfold vtask_fault, TASK_STRUCT_PAGE_NUMBER. destruct (Z.ltb_spec 5 (off / PAGE_SIZE)); [lia|].
    destruct (Z.ltb_spec (off / PAGE_SIZE) 0); [lia|]. cbn [orb]. unfold area_byte, page_of.
    destruct (Z.ltb_spec (off / PAGE_SIZE) 5).
    + unfold insert_one. rewrite Hins. done.
    + rewrite Hall. done.
Qed.

(** A page that is there is read whoever reads it. *)
Lemma user_byte_present Q off pt :
  0 <= off < vtask_len -> owned pt -> is_Some (pt !! (g / PAGE_SIZE + off / PAGE_SIZE)) ->
  user_byte C m Q (g + off) pt = Ok (area_byte off, pt).
Proof.
  intros Ho Hown [pg E]. unfold user_byte. rewrite find_area by done. cbn [vtask_area vm_special].
  rewrite bool_decide_eq_true_2 by done. unfold user_page. mrun. destruct (area_page off) as [Hd Hm]. rewrite Hd, Hm, E.
  unfold area_byte. rewrite <- (Hown (off / PAGE_SIZE) pg); [done| |done].
  change vtask_len with 24576 in Ho. unfold PAGE_SIZE in *.
  pose proof (Z.div_mod off 4096 ltac:(lia)). pose proof (Z.mod_pos_bound off 4096 ltac:(lia)). lia.
Qed.

Lemma owned_enter off pt :
  owned pt -> owned (<[g / PAGE_SIZE + off / PAGE_SIZE := page_of (off / PAGE_SIZE)]> pt).
Proof.
  intros Hown n pg Hn. rewrite lookup_insert_Some. intros [[E <-]|[_ E]]; [f_equal; lia|by apply Hown].
Qed.

(** Every page of a range is present. *)
Definition present (off : Z) (n : nat) (pt : ptab) : Prop :=
  forall k, (k < n)%nat -> is_Some (pt !! (g / PAGE_SIZE + (off + Z.of_nat k) / PAGE_SIZE)).

Lemma user_bytes_area n off pt :
  0 <= off -> off + Z.of_nat n <= vtask_len -> owned pt ->
  exists pt', user_bytes (user_byte C m P) (g + off) n pt
      = Ok (map (fun k => area_byte (off + Z.of_nat k)) (seq 0 n), pt') /\
    owned pt' /\ present off n pt' /\ (forall p, is_Some (pt !! p) -> is_Some (pt' !! p)).
Proof.
  revert off pt. induction n as [|n IH]; intros off pt H0 H1 Hown.
  { exists pt. split; [done|]. split; [done|]. split; [intros k Hk; lia|done]. }
  cbn [user_bytes seq map]. mrun. rewrite user_byte_area by (done || lia). cbn.
  destruct (IH (off + 1) _ ltac:(lia) ltac:(lia) (owned_enter off pt Hown)) as (pt' & E & Ho & Hp & Hk).
  rewrite Z.add_assoc in E. rewrite E. cbn. exists pt'. rewrite Z.add_0_r. split_and!.
  - do 3 f_equal. rewrite <- seq_shift, map_map. apply map_ext. intros k. f_equal. lia.
  - done.
  - intros [|k] Hlt; [rewrite Z.add_0_r; apply Hk; by rewrite lookup_insert_eq|].
    replace (off + Z.of_nat (S k)) with (off + 1 + Z.of_nat k) by lia. apply Hp. lia.
  - intros p Hs. apply Hk. destruct (decide (p = g / PAGE_SIZE + off / PAGE_SIZE)) as [->|];
      [by rewrite lookup_insert_eq|by rewrite lookup_insert_ne].
Qed.

Lemma user_bytes_present Q n off pt :
  0 <= off -> off + Z.of_nat n <= vtask_len -> owned pt -> present off n pt ->
  user_bytes (user_byte C m Q) (g + off) n pt = Ok (map (fun k => area_byte (off + Z.of_nat k)) (seq 0 n), pt).
Proof.
  revert off. induction n as [|n IH]; intros off H0 H1 Hown Hp; [done|].
  cbn [user_bytes seq map]. mrun. rewrite (user_byte_present Q off pt);
    [|lia|done|specialize (Hp 0%nat ltac:(lia)); by rewrite Z.add_0_r in Hp].
  cbn. pose proof (IH (off + 1)) as E. rewrite Z.add_assoc in E. rewrite E; [|lia|lia|done|].
  - rewrite Z.add_0_r. do 3 f_equal. rewrite <- seq_shift, map_map. apply map_ext. intros k. f_equal. lia.
  - intros k Hk. specialize (Hp (S k) ltac:(lia)). by replace (off + 1 + Z.of_nat k) with (off + Z.of_nat (S k)) by lia.
Qed.

Lemma present_mono off n pt pt' :
  present off n pt -> (forall p, is_Some (pt !! p) -> is_Some (pt' !! p)) -> present off n pt'.
Proof. intros Hp Hk k Hlt. by apply Hk, Hp. Qed.

(** An offset in the first five pages is a byte of the frames of the task. *)
Lemma area_byte_task off : 0 <= off < 5 * 4096 -> area_byte off = pmem C (P - P mod 4096 + off).
Proof.
  intros Ho. unfold area_byte, page_of, page_byte, PAGE_SIZE, PAGE_SHIFT.
  pose proof (Z.div_mod off 4096 ltac:(lia)). pose proof (Z.mod_pos_bound off 4096 ltac:(lia)).
  destruct (Z.ltb_spec (off / 4096) 5); [|lia]. f_equal. rewrite Z.shiftr_div_pow2 by lia. change (2 ^ 12) with 4096.
  pose proof (Z.div_mod P 4096 ltac:(lia)). lia.
Qed.

(** The sixth page begins with the four words of the info structure. *)
Lemma area_word j x :
  [P mod 4096; 6; sizeof_task C; 114514] !! j = Some x ->
  map (fun k => area_byte (5 * 4096 + 8 * Z.of_nat j + Z.of_nat k)) (seq 0 8) = le_bytes 8 x.
Proof.
  intros Hj. pose proof (lookup_lt_Some _ _ _ Hj) as Hlt. cbn in Hlt.
  assert (Z.land P (PAGE_SIZE - 1) = P mod 4096) as Hland
    by (change (PAGE_SIZE - 1) with (Z.ones 12); by rewrite Z.land_ones by lia).
  assert (forall off, 0 <= off < 32 -> area_byte (5 * 4096 + off) =
    nth (Z.to_nat off) (concat (map (le_bytes 8) [P mod 4096; 6; sizeof_task C; 114514])) 0) as Hb.
  { intros off Ho. unfold area_byte, page_of, page_byte, PAGE_SIZE in *.
    replace (5 * 4096 + off) with (off + 5 * 4096) by lia.
    rewrite Z.div_add, Z.mod_add, Z.div_small, Z.mod_small by lia.
    change (0 + 5 <? 5) with false. cbv iota. rewrite Hland. apply nth_indep. cbn. lia. }
  rewrite (map_ext_in _ (fun k => nth (8 * j + k) (concat (map (le_bytes 8) [P mod 4096; 6; sizeof_task C; 114514])) 0)).
  - destruct j as [|[|[|[|j]]]]; [..|cbn in Hlt; lia]; cbn in Hj; injection Hj as <-; reflexivity.
  - intros k Hk. apply in_seq in Hk. rewrite <- Z.add_assoc, Hb by lia. f_equal. lia.
Qed.

(** What [__vdso_get_task_struct_info] returns when the five pages reach over the
    pid: the pointer, and the pid of [P]. *)
Definition vget_answer (off_pid : Z) : Z * option (Z * Z) :=
  (0, Some (g + P mod 4096, s32 (le_val (map (fun k => pmem C (P + off_pid + Z.of_nat k)) (seq 0 4))))).

(** The addresses [__vdso_get_task_struct_info] computes. *)
Lemma vinfo_addr doff :
  g <= 2 ^ 47 -> 0 <= doff < 4096 ->
  u64 (Z.shiftl (Z.shiftr (g + vtask_len + doff) PAGE_SHIFT) PAGE_SHIFT - PAGE_SIZE) = g + 5 * 4096.
Proof.
  intros Hg1 Hd. change vtask_len with 24576. unfold PAGE_SHIFT, PAGE_SIZE in *.
  rewrite Z.shiftl_mul_pow2, Z.shiftr_div_pow2 by lia.
  change (2 ^ 12) with 4096. pose proof (Z.div_mod g 4096 ltac:(lia)) as Hdm. rewrite Hga in Hdm.
  replace (g + 24576 + doff) with (doff + (g / 4096 + 6) * 4096) by lia.
  rewrite Z.div_add, Z.div_small by lia. rewrite uwrap_small; [lia|unfold is_u; lia].
Qed.

Lemma vtask_addr : g <= 2 ^ 47 ->
  u64 (g + 5 * 4096 - TASK_STRUCT_PAGE_NUMBER * PAGE_SIZE + P mod 4096) = g + P mod 4096.
Proof.
  intros Hg1. pose proof (Z.mod_pos_bound P 4096 ltac:(lia)).
  unfold TASK_STRUCT_PAGE_NUMBER, PAGE_SIZE. rewrite uwrap_small; [lia|unfold is_u; lia].
Qed.

Context (off_pid info doff : Z).
Context (Hg1 : g <= 2 ^ 47) (Hd : 0 <= doff < 4096) (Hinfo : info <> NULL).
Context (Hpid : 0 <= off_pid) (Hfit : P mod 4096 + off_pid + 4 <= 5 * 4096).

(** The pages the call reads. *)
Definition vget_present (pt : ptab) : Prop :=
  present (5 * 4096 + 24) 8 pt /\ present (5 * 4096) 8 pt /\ present (P mod 4096 + off_pid) 4 pt.

Lemma vget_run Q pt pt1 pt2 pt3 :
  user_bytes (user_byte C m Q) (g + (5 * 4096 + 24)) 8 pt
    = Ok (map (fun k => area_byte (5 * 4096 + 24 + Z.of_nat k)) (seq 0 8), pt1) ->
  user_bytes (user_byte C m Q) (g + 5 * 4096) 8 pt1
    = Ok (map (fun k => area_byte (5 * 4096 + Z.of_nat k)) (seq 0 8), pt2) ->
  user_bytes (user_byte C m Q) (g + (P mod 4096 + off_pid)) 4 pt2
    = Ok (map (fun k => area_byte (P mod 4096 + off_pid + Z.of_nat k)) (seq 0 4), pt3) ->
  vdso_get_task_struct_info (user_byte C m Q) off_pid info (g + vtask_len + doff) pt = Ok (vget_answer off_pid, pt3).
Proof.
  intros E1 E2 E3. pose proof (Z.mod_pos_bound P 4096 ltac:(lia)) as Hpm.
  unfold vdso_get_task_struct_info. destruct (Z.eqb_spec info NULL); [done|].
  destruct (Z.eqb_spec (g + vtask_len + doff) NULL) as [E0|_];
    [change vtask_len with 24576 in E0; unfold NULL in *; lia|].
  rewrite vinfo_addr by done. cbv zeta. rewrite <- Z.add_assoc. erewrite bind_ok; [|exact E1].
  pose proof (area_word 3 114514 eq_refl) as W3. change (8 * Z.of_nat 3) with 24 in W3. rewrite W3.
  change (le_val (le_bytes 8 114514) =? 114514) with true. cbn [negb].
  erewrite bind_ok; [|exact E2].
  pose proof (area_word 0 (P mod 4096) eq_refl) as W0. change (8 * Z.of_nat 0) with 0 in W0.
  rewrite Z.add_0_r in W0. rewrite W0.
  rewrite le_val_bytes by (unfold is_u; lia). rewrite vtask_addr by done. rewrite <- (Z.add_assoc g).
  erewrite bind_ok; [|exact E3]. unfold vget_answer, mret, M_ret. do 7 f_equal. apply map_ext_in. intros k Hk. apply in_seq in Hk.
  rewrite area_byte_task by lia. f_equal. lia.
Qed.

Lemma vget_first pt :
  owned pt -> exists pt', vdso_get_task_struct_info (user_byte C m P) off_pid info (g + vtask_len + doff) pt
    = Ok (vget_answer off_pid, pt') /\ owned pt' /\ vget_present pt'.
Proof.
  intros Hown. pose proof (Z.mod_pos_bound P 4096 ltac:(lia)) as Hpm. assert (vtask_len = 24576) as Hvl by reflexivity.
  destruct (user_bytes_area 8 (5 * 4096 + 24) pt ltac:(lia) ltac:(lia) Hown) as (pt1 & E1 & O1 & R1 & _).
  destruct (user_bytes_area 8 (5 * 4096) pt1 ltac:(lia) ltac:(lia) O1) as (pt2 & E2 & O2 & R2 & K2).
  destruct (user_bytes_area 4 (P mod 4096 + off_pid) pt2 ltac:(lia) ltac:(lia) O2) as (pt3 & E3 & O3 & R3 & K3).
  exists pt3. split; [by eapply vget_run|]. split; [done|].
  split_and!; eauto using present_mono.
Qed.

Lemma vget_again Q pt :
  owned pt -> vget_present pt ->
  vdso_get_task_struct_info (user_byte C m Q) off_pid info (g + vtask_len + doff) pt = Ok (vget_answer off_pid, pt).
Proof.
  intros Hown (R1 & R2 & R3). pose proof (Z.mod_pos_bound P 4096 ltac:(lia)) as Hpm.
  assert (vtask_len = 24576) as Hvl by reflexivity.
  apply (vget_run Q pt pt pt pt); by apply user_bytes_present; (done || lia).
Qed.

End Read.

(** C5: the reader in user space and the fault handler agree.  Suppose
    [get_unmapped_area] found room, [map_vdso] succeeded, pages can be allocated and
    entered, the pages of the task area present, if any, were faulted in by the
    task at [P], and the five mapped pages reach over its [pid] field.  When this task calls
    [__vdso_get_task_struct_info] it gets 0, its own pid and a pointer at which its
    [task_struct] reads byte for byte as in physical memory, as far as the five
    pages reach.  The pages stay in the page table: whichever task calls the
    function on this page table later, another thread for instance, gets the pid of
    [P] and not its own. *)
Theorem vget_reads_current_task C i addr m m' P pt info off_pid doff :
  image_ok i -> mmap_lock m = false -> Forall nonempty (mmap m) ->
  IS_ERR_VALUE (get_unmapped_area (mmap m) addr (u64 (size i - sym_vvar_start i))) = false ->
  map_vdso i addr false m = Ok (0, m') ->
  (forall a pfn, hasb (insert_result C a pfn) VM_FAULT_ERROR = false) -> alloc_ok C = true ->
  info <> NULL -> 0 <= P -> 0 <= off_pid -> P mod 4096 + off_pid + 4 <= 5 * 4096 -> 0 <= doff < 4096 ->
  owned C (ctx_vtask m') P pt ->
  let vget Q := vdso_get_task_struct_info (user_byte C m' Q) off_pid info (ctx_vdso m' + sym_vvar_page i + doff) in
  let pid := s32 (le_val (map (fun k => pmem C (P + off_pid + Z.of_nat k)) (seq 0 4))) in
  exists p pt', vget P pt = Ok ((0, Some (p, pid)), pt') /\ owned C (ctx_vtask m') P pt' /\
    (forall k, 0 <= k -> P mod 4096 + k < 5 * 4096 ->
       exists pt'', user_byte C m' P (p + k) pt' = Ok (pmem C (P + k), pt'')) /\
    (forall Q, vget Q pt' = Ok ((0, Some (p, pid)), pt')).
Proof.
  intros Hi Hl Hn Hg Hmap Hins Hall Hinfo HP Hpid Hfit Hd Hown vget pid. pose proof (vvar_first i Hi) as Hvf.
  destruct (map_vdso_cases i addr false m Hi Hl Hn Hg) as (r & m1 & E & Hc).
  rewrite Hmap in E. injection E as <- <-. destruct Hc as [(_ & -> & Hg0 & Hg1 & Hga)|[? _]]; [|lia].
  set (g := get_unmapped_area _ _ _) in *. set (m' := set_ctx _ _ _ _) in *. change (ctx_vtask m') with g in *.
  assert (mmap m' = vtask_area g :: [vvar_area i g; text_area i g] ++ mmap m) as Hm by done.
  assert (ctx_vdso m' + sym_vvar_page i + doff = g + vtask_len + doff) as Hv
    by (change (ctx_vdso m') with (g + vtask_len - sym_vvar_start i); lia).
  unfold vget. rewrite Hv. pose proof (Z.mod_pos_bound P 4096 ltac:(lia)) as Hpm.
  destruct (vget_first C m' _ g P Hm Hg0 Hga Hins Hall off_pid info doff Hg1 Hd Hinfo Hpid Hfit pt Hown)
    as (pt' & E & Ho & Hp).
  exists (g + P mod 4096), pt'. split; [exact E|]. split; [done|]. split.
  - intros k Hk0 Hk1. eexists. rewrite <- Z.add_assoc.
    rewrite (user_byte_area C m' _ g P Hm Hga Hins Hall) by (done || (change vtask_len with 24576; lia)).
    rewrite area_byte_task by (done || lia). do 3 f_equal. lia.
  - intros Q. by apply (vget_again C m' _ g P Hm Hg0 Hga off_pid info doff Hg1 Hd Hinfo Hpid Hfit).
Qed.

(** A failure of [get_unmapped_area] goes unnoticed: the size of the task
    area is added to the error code before it is tested, so for every error the
    test fails.  With a memory manager that accepts free ranges and nothing
    mapped in the lowest 8 GB the call then reports success, with the data area
    at the unaligned address 24576 minus the error number. *)
Theorem map_vdso_misses_error i addr m e :
  image_ok i -> mmap_lock m = false -> 1 <= e <= MAX_ERRNO ->
  get_unmapped_area (mmap m) addr (u64 (size i - sym_vvar_start i)) = u64 (- e) ->
  (forall vs start len, 0 < len -> Forall (clear_of start len) vs ->
     install_special_mapping vs start len = 0) ->
  Forall (fun v => 2 ^ 33 <= vm_start v /\ vm_end v <= 2 ^ 47) (mmap m) ->
  exists m', map_vdso i addr false m = Ok (0, m') /\
    Vma (vtask_len - e) (vtask_len - e - sym_vvar_start i) vvar_mapping ∈ mmap m'.
Proof.
  intros [_ Hsz _ Hvv _] Hl He Hg Hin Hlow. destruct m as [vs lk cv ci ct ss zp]. cbn in Hl, Hg, Hlow. subst lk.
  unfold MAX_ERRNO in He. assert (vtask_len = 24576) as Hvl by reflexivity.
  assert (u64 (u64 (- e) + vtask_len) = vtask_len - e) as Ha.
  { unfold uwrap. rewrite Zplus_mod_idemp_l, Z.mod_small; lia. }
  assert (u64 (vtask_len - e - vtask_len) = 2 ^ 64 - e) as Hw.
  { unfold uwrap. replace (vtask_len - e - vtask_len) with (2 ^ 64 - e + (-1) * 2 ^ 64) by lia.
    rewrite Z.mod_add, Z.mod_small; lia. }
  unfold map_vdso. vrun. rewrite Hg, Ha. unfold IS_ERR_VALUE, MAX_ERRNO.
  rewrite (uwrap_small 64 (vtask_len - e)) by (unfold is_u; lia).
  destruct (Z.leb_spec (2 ^ 64 - 4095) (vtask_len - e)); [lia|].
  rewrite (uwrap_small 64 (- sym_vvar_start i)) by (unfold is_u; lia).
  rewrite (uwrap_small 64 (vtask_len - e - sym_vvar_start i)) by (unfold is_u; lia). rewrite Hw.
  assert (forall start len k ws cv ci ct ss zp, 0 < len -> Forall (clear_of start len) ws ->
    do_install start len k (Mm ws true cv ci ct ss zp)
    = Ok (0, Mm (Vma start (u64 (start + len)) k :: ws) true cv ci ct ss zp)) as Hdo.
  { intros. unfold do_install. vrun. by rewrite Hin. }
  assert (forall start len, 0 < len -> 0 <= start -> start + len <= 2 ^ 33 \/ 2 ^ 47 <= start ->
    Forall (clear_of start len) vs) as Hcl.
  { intros start len H1 H2 H3. eapply Forall_impl; [exact Hlow|]. unfold clear_of. cbn. intros v [? ?]. lia. }
  rewrite Hdo by (first [lia|apply Hcl; lia]). change (0 =? 0) with true. vrun.
  rewrite (uwrap_small 64 (vtask_len - e - sym_vvar_start i + size i)) by (unfold is_u; lia).
  rewrite Hdo; [|lia|constructor; [unfold clear_of; cbn; lia|apply Hcl; lia]]. change (0 =? 0) with true. vrun.
  rewrite (uwrap_small 64 (vtask_len - e + - sym_vvar_start i)) by (unfold is_u; lia).
  rewrite Hdo; [|lia|repeat constructor; [unfold clear_of; cbn; lia|unfold clear_of; cbn; lia|apply Hcl; lia]].
  change (0 =? 0) with true. vrun. eexists. split; [reflexivity|].
  apply list_elem_of_In. right. left. f_equal; lia.
Qed.

Lemma map_vdso_once_eq i addr killed m :
  mmap_lock m = false ->
  map_vdso_once i addr killed m =
  if existsb (fun v => bool_decide (vm_special v = vdso_mapping)
                       || bool_decide (vm_special v = vvar_mapping)) (mmap m)
  then Ok (- Errno.EEXIST, m) else map_vdso i addr killed m.
Proof. destruct m. cbn. intros ->. unfold map_vdso_once. vrun. by destruct (existsb _ _). Qed.

(** A vDSO is mapped at most once: after a successful [map_vdso_once] every
    further call, for any image and address, is refused with [-EEXIST] and
    changes nothing. *)
Theorem map_vdso_once_once i addr m m' j addr' killed :
  image_ok i -> mmap_lock m = false -> Forall nonempty (mmap m) ->
  IS_ERR_VALUE (get_unmapped_area (mmap m) addr (u64 (size i - sym_vvar_start i))) = false ->
  map_vdso_once i addr false m = Ok (0, m') ->
  map_vdso_once j addr' killed m' = Ok (- Errno.EEXIST, m').
Proof.
  intros Hi Hl Hn Hg Hm. rewrite map_vdso_once_eq in Hm by done.
  destruct (existsb _ _); [discriminate|].
  destruct (map_vdso_cases i addr false m Hi Hl Hn Hg) as (r & m1 & E & Hc).
  rewrite Hm in E. injection E as <- <-. destruct Hc as [(_ & -> & _)|[? _]]; [|lia].
  destruct m; cbn in Hl; subst. by rewrite map_vdso_once_eq.
Qed.

(** ** The randomised address *)

Lemma land_low_zero x k : 0 <= k < 64 -> is_u 64 x -> Z.land x (2 ^ 64 - 2 ^ k) = x - x mod 2 ^ k.
Proof.
  intros Hk Hx. replace (2 ^ 64 - 2 ^ k) with (Z.land (Z.lnot (Z.ones k)) (Z.ones 64)).
  - rewrite (Z.land_comm (Z.lnot _)), Z.land_assoc, Z.land_ones, (Z.mod_small x) by (done || lia).
    rewrite <- Z.ldiff_land, Z.ldiff_ones_r, Z.shiftl_mul_pow2, Z.shiftr_div_pow2 by lia.
    pose proof (Z.div_mod x (2 ^ k) ltac:(apply Z.pow_nonzero; lia)). lia.
  - rewrite Z.land_ones by lia. unfold Z.lnot. rewrite Z.ones_equiv.
    replace (Z.pred (- Z.pred (2 ^ k))) with ((2 ^ 64 - 2 ^ k) + (-1) * 2 ^ 64) by lia.
    rewrite Z.mod_add by (apply Z.pow_nonzero; lia). apply Z.mod_small.
    assert (0 < 2 ^ k) by (apply Z.pow_pos_nonneg; lia).
    assert (2 ^ k < 2 ^ 64) by (apply Z.pow_lt_mono_r; lia). lia.
Qed.

(** The end of the 2 MB region in which the lowest placement ends, or of user space. *)
Definition region_end (start len : Z) : Z :=
  Z.min DEFAULT_MAP_WINDOW ((page_align start + len + PMD_SIZE - 1) / PMD_SIZE * PMD_SIZE).

(** The address before the hardware's alignment. *)
Lemma vdso_addr_unaligned align random start len :
  0 <= start <= 2 ^ 47 -> 0 <= len < 2 ^ 32 -> len mod PAGE_SIZE = 0 -> 0 <= random ->
  let s := page_align start in
  exists a, vdso_addr align random start len = align a /\
  start <= s < start + PAGE_SIZE /\ s mod PAGE_SIZE = 0 /\ a mod PAGE_SIZE = 0 /\
  s <= a /\ a + len <= Z.max (region_end start len) (s + len).
Proof.
  intros Hs Hl Hlp Hr s. unfold region_end. fold s.
  set (e := Z.min _ _). unfold DEFAULT_MAP_WINDOW, PMD_SIZE, PAGE_SIZE in *.
  assert (s = start + 4095 - (start + 4095) mod 4096) as Es.
  { unfold s, page_align, PAGE_SIZE. replace (start + 4096 - 1) with (start + 4095) by lia.
    rewrite uwrap_small by (unfold is_u; lia).
    change (2 ^ 64 - 4096) with (2 ^ 64 - 2 ^ 12). rewrite land_low_zero by (unfold is_u; lia).
    change (2 ^ 12) with 4096. lia. }
  pose proof (Z.div_mod (start + 4095) 4096 ltac:(lia)) as D1.
  pose proof (Z.mod_pos_bound (start + 4095) 4096 ltac:(lia)) as M1.
  assert (s mod 4096 = 0) as Hsm
    by (replace s with ((start + 4095) / 4096 * 4096) by lia; apply Z.mod_mul; lia).
  set (top := s + len + 2 ^ 21 - 1) in *.
  pose proof (Z.div_mod top (2 ^ 21) ltac:(lia)) as D2.
  pose proof (Z.mod_pos_bound top (2 ^ 21) ltac:(lia)) as M2.
  unfold vdso_addr. fold s. unfold DEFAULT_MAP_WINDOW, PMD_SIZE, PAGE_SIZE, PAGE_SHIFT. fold top.
  rewrite (uwrap_small 64 top) by (unfold is_u; lia). rewrite land_low_zero by (unfold is_u; lia).
  set (e0 := if _ <=? _ then _ else _).
  assert (e0 = e) as He0.
  { unfold e0, e. destruct (Z.leb_spec (2 ^ 47 - 4096) (top - top mod 2 ^ 21)); lia. }
  assert (e <= 2 ^ 47) as Hetop by (unfold e; lia).
  assert (e mod 4096 = 0) as Hem.
  { unfold e. destruct (Z.min_spec (2 ^ 47 - 4096) (top / 2 ^ 21 * 2 ^ 21)) as [[_ ->]|[_ ->]]; [done|].
    replace (top / 2 ^ 21 * 2 ^ 21) with (top / 2 ^ 21 * 512 * 4096) by lia. apply Z.mod_mul. lia. }
  rewrite He0. destruct (Z.le_gt_cases len e) as [Hle|Hgt].
  - rewrite (uwrap_small 64 (e - len)) by (unfold is_u; lia).
    destruct (Z.ltb_spec s (e - len)); [|exists s; split_and!; try done; lia].
    rewrite (uwrap_small 64 (e - len - s)) by (unfold is_u; lia).
    rewrite Z.shiftr_div_pow2 by lia. change (2 ^ 12) with 4096.
    set (q := (e - len - s) / 4096).
    assert (e - len - s = 4096 * q) as Hq.
    { unfold q. rewrite <- Z_div_exact_full_2; [done|lia|].
      rewrite Zminus_mod, (Zminus_mod e), Hem, Hlp, Hsm. done. }
    assert (q <= 2 ^ 9) as Hq9 by (unfold e in *; lia).
    pose proof (Z.mod_pos_bound random (q + 1) ltac:(lia)) as Hrb.
    set (o := random mod (q + 1)) in *. rewrite (uwrap_small 32 o) by (unfold is_u; lia).
    rewrite Z.shiftl_mul_pow2 by lia. change (2 ^ 12) with 4096.
    rewrite (uwrap_small 32 (o * 4096)) by (unfold is_u; lia).
    rewrite (uwrap_small 64 (s + o * 4096)) by (unfold is_u; lia).
    eexists. split; [done|]. split_and!; try lia. by rewrite Z.mod_add by lia.
  - exfalso. unfold e in Hgt. lia.
Qed.

(** C31: where the randomised vDSO goes.  Let [align_vdso_addr] move page-aligned
    addresses up by at most [slack] to page-aligned addresses.  For every random
    number the address asked for is page aligned, not below the page-aligned start
    of the stack, and the vDSO and its data placed there would end at most [slack]
    beyond the end of the 2 MB region (or of user space) in which the lowest
    placement ends, or at the lowest placement's end if that is higher.  When the
    memory manager grants the address and the mapping succeeds, the task area
    begins there, and the end of the text area is [vtask_len] higher than that
    bound. *)
Theorem vdso_addr_in_range align slack random i killed m m' :
  image_ok i -> mmap_lock m = false -> Forall nonempty (mmap m) ->
  0 <= start_stack m <= 2 ^ 47 -> 0 <= random ->
  (forall x, x mod PAGE_SIZE = 0 -> x <= align x <= x + slack /\ align x mod PAGE_SIZE = 0) ->
  let len := size i - sym_vvar_start i in
  let a := vdso_addr align random (start_stack m) len in
  let s := page_align (start_stack m) in
  let e := Z.max (region_end (start_stack m) len) (s + len) in
  a mod PAGE_SIZE = 0 /\ start_stack m <= s <= a /\ a + len <= e + slack /\
  (get_unmapped_area (mmap m) a len = a -> a < 2 ^ 48 ->
   map_vdso_randomized align random i killed m = Ok (0, m') ->
   ctx_vtask m' = a /\ mmap m' = [vtask_area a; vvar_area i a; text_area i a] ++ mmap m /\
   vm_end (text_area i a) <= e + slack + vtask_len).
Proof.
  intros Hi Hl Hn Hs Hr Hal len a s e. pose proof Hi as [Hp1 Hp2 Hp3 Hp4 Hp5].
  assert (len mod PAGE_SIZE = 0) as Hlp.
  { unfold len. rewrite Zminus_mod, Hp1, Hp3. reflexivity. }
  destruct (vdso_addr_unaligned align random (start_stack m) len Hs ltac:(unfold len; lia) Hlp Hr)
    as (a0 & Ha & Hs1 & Hs2 & Ha0 & Hlo & Hhi). fold a in Ha. fold s in Hs1, Hs2, Hlo, Hhi. fold e in Hhi.
  destruct (Hal a0 Ha0) as [Hb Hpg]. rewrite <- Ha in Hb, Hpg.
  split; [done|]. split; [lia|]. split; [lia|].
  intros Hga Ha48 Hm. unfold map_vdso_randomized, mbind, M_bind, get in Hm.
  rewrite (uwrap_small 32) in Hm by (unfold is_u; lia). fold len in Hm. fold a in Hm.
  assert (u64 (size i - sym_vvar_start i) = len) as Hu by (apply uwrap_small; unfold is_u; lia).
  assert (IS_ERR_VALUE (get_unmapped_area (mmap m) a (u64 (size i - sym_vvar_start i))) = false) as Herr.
  { rewrite Hu, Hga. unfold IS_ERR_VALUE, MAX_ERRNO. rewrite uwrap_small by (unfold is_u; lia).
    apply Z.leb_gt. lia. }
  destruct (map_vdso_cases i a killed m Hi Hl Hn Herr) as (r & m1 & E & Hc).
  rewrite Hm in E. injection E as <- <-. destruct Hc as [(_ & -> & _)|[? _]]; [|lia].
  rewrite Hu, Hga. cbn. split_and!; [done|done|]. unfold len in *. lia.
Qed.

(** ** Faults in the data area *)

(** Inside a time namespace a fault on the vvar page shows the namespace's
    page there and maps the real vvar page at the timens offset ahead of time;
    that early mapping is exactly what a fault at the timens offset maps by
    itself.  Outside a namespace the vvar page shows the real page and the
    timens page is refused. *)
Theorem vvar_prefault_agrees V i base pv pt :
  image_ok i -> 0 <= base < 2 ^ 47 -> 0 <= pv < 2 ^ 19 -> 0 <= pt < 2 ^ 19 ->
  (forall a f, hasb (insert_pfn V a f) VM_FAULT_ERROR = false) ->
  sym_vvar_page i = pv * PAGE_SIZE + sym_vvar_start i -> sym_vvar_page i < 0 ->
  sym_timens_page i = pt * PAGE_SIZE + sym_vvar_start i -> sym_timens_page i < 0 ->
  sym_timens_page i <> sym_vvar_page i ->
  sym_timens_page i <> sym_pvclock_page i -> sym_timens_page i <> sym_hvclock_page i ->
  let at_page p := vvar_fault V (Some i) (base + p * PAGE_SIZE) p in
  match timens_pfn V with
  | Some f => at_page pt = FaultPfn [(base + pt * PAGE_SIZE, vvar_pfn V)] /\
              at_page pv = FaultPfn [(base + pt * PAGE_SIZE, vvar_pfn V); (base + pv * PAGE_SIZE, f)]
  | None => at_page pv = FaultPfn [(base + pv * PAGE_SIZE, vvar_pfn V)] /\
            at_page pt = FaultCode VM_FAULT_SIGBUS
  end.
Proof.
  intros [_ _ _ Hvv _] Hb Hpv Hpt Hins Ev Hv0 Et Ht0 Hne Hn1 Hn2 at_page. unfold PAGE_SIZE in *.
  assert (forall p, 0 <= p < 2 ^ 19 -> p * 4096 + sym_vvar_start i < 0 ->
    s64 (s64 (Z.shiftl p PAGE_SHIFT) + sym_vvar_start i) = p * 4096 + sym_vvar_start i) as Hoff.
  { intros p Hp Hneg. unfold PAGE_SHIFT. rewrite Z.shiftl_mul_pow2 by lia. change (2 ^ 12) with 4096.
    rewrite (swrap_small 64 (p * 4096)) by (unfold is_s; lia). rewrite swrap_small; [done|lia|unfold is_s; lia]. }
  unfold at_page, vvar_fault. rewrite !Hoff by lia. rewrite <- Ev, <- Et.
  destruct (Z.eqb_spec (sym_vvar_page i) 0); [lia|]. destruct (Z.eqb_spec (sym_timens_page i) 0); [lia|].
  rewrite !Z.eqb_refl. destruct (Z.eqb_spec (sym_timens_page i) (sym_vvar_page i)); [done|].
  destruct (Z.eqb_spec (sym_timens_page i) (sym_pvclock_page i)); [done|].
  destruct (Z.eqb_spec (sym_timens_page i) (sym_hvclock_page i)); [done|].
  unfold insert_one. destruct (timens_pfn V) as [f|]; rewrite !Hins; [|done].
  split; [done|]. replace (u64 _) with (base + pt * 4096); [done|].
  rewrite uwrap_small; [lia|unfold is_u; lia].
Qed.

End Vdso.

(** ** A concrete memory manager: first fit above 2 MB, insertion when free *)

Definition clearb (start len : Z) (v : vma) : bool := (vm_end v <=? start) || (start + len <=? vm_start v).

Lemma clearb_spec start len v : clearb start len v = true <-> clear_of start len v.
Proof.
  unfold clearb, clear_of. rewrite orb_true_iff, !Z.leb_le. done.
Qed.

Definition free_range (vs : list vma) (start len : Z) : bool := forallb (clearb start len) vs.

Lemma free_range_spec vs start len : free_range vs start len = true -> Forall (clear_of start len) vs.
Proof.
  unfold free_range. rewrite forallb_forall, List.Forall_forall.
  intros Hf v Hv. by apply clearb_spec, Hf.
Qed.

(** The address 2 MB when it is free, else [-ENOMEM]. *)
Definition at_2mb (vs : list vma) (addr len : Z) : Z :=
  if free_range vs (2 ^ 21) len && (len <=? 2 ^ 31) then 2 ^ 21 else u64 (- Errno.ENOMEM).

Definition install_if_free (vs : list vma) (start len : Z) : Z :=
  if (0 <? len) && free_range vs start len then 0 else - Errno.ENOMEM.

#[global] Instance mm_simple : MmApi.
Proof.
  refine {| get_unmapped_area := at_2mb; install_special_mapping := install_if_free |}.
  - intros vs addr len. unfold at_2mb.
    destruct (free_range vs (2 ^ 21) len) eqn:E, (Z.leb_spec len (2 ^ 31)); cbn [andb].
    + right. split_and!; [lia|lia|done|by apply free_range_spec].
    + left. change (u64 (- Errno.ENOMEM)) with (2 ^ 64 - 12). unfold MAX_ERRNO. lia.
    + left. change (u64 (- Errno.ENOMEM)) with (2 ^ 64 - 12). unfold MAX_ERRNO. lia.
    + left. change (u64 (- Errno.ENOMEM)) with (2 ^ 64 - 12). unfold MAX_ERRNO. lia.
  - intros vs start len. unfold install_if_free. destruct (_ && _); unfold MAX_ERRNO, Errno.ENOMEM; lia.
  - intros vs start len. unfold install_if_free.
    destruct (Z.ltb_spec 0 len), (free_range vs start len) eqn:E; cbn; try done.
    intros _. split; [done|by apply free_range_spec].
Defined.

Definition image0 : vdso_image :=
  VdsoImage vdso_image_64 0 8192 (-16384) (-16384) (-12288) (-8192) (-4096) 0 0 0.

Lemma image0_ok : image_ok image0.
Proof. constructor; cbn; try done; unfold image0; cbn; lia. Qed.

Definition stack_area : vma := Vma (2 ^ 40) (2 ^ 40 + 4096) other_mapping.
Definition mm0 : mm_struct := Mm [stack_area] false 0 None 0 (2 ^ 40) [].

Lemma mm0_nonempty : Forall nonempty (mmap mm0).
Proof. repeat constructor. Qed.

Lemma map_vdso_all_or_nothing_witness :
  exists r m', map_vdso image0 0 false mm0 = Ok (r, m') /\ mmap_lock m' = false.
Proof.
  destruct (map_vdso_all_or_nothing image0 0 false mm0) as (r & m' & H1 & H2 & _);
    [apply image0_ok|reflexivity|apply mm0_nonempty|].
  exists r, m'. split; [exact H1|exact H2].
Defined.

Definition mm1 : mm_struct :=
  match map_vdso image0 0 false mm0 with Ok (_, m) => m | Fault _ => mm0 end.

Definition machine0 : machine := Machine (fun _ _ => VM_FAULT_NOPAGE) true (fun a => a mod 251) 9000 (fun _ => 0).

(** Two tasks on one address space whose task area nobody has read yet: the one at
    70000 calls first and reads its pid; the one at 90000 then gets the same pid. *)
Lemma vget_reads_current_task_witness :
  map_vdso image0 0 false mm0 = Ok (0, mm1) /\
  let vget Q := vdso_get_task_struct_info (user_byte machine0 mm1 Q) 1256 1 (ctx_vdso mm1 + sym_vvar_page image0 + 128) in
  let pid := s32 (le_val (map (fun k => (70000 + 1256 + Z.of_nat k) mod 251) (seq 0 4))) in
  exists p pt', vget 70000 ∅ = Ok ((0, Some (p, pid)), pt') /\ vget 90000 pt' = Ok ((0, Some (p, pid)), pt').
Proof.
  split; [reflexivity|].
  destruct (vget_reads_current_task machine0 image0 0 mm0 mm1 70000 ∅ 1 1256 128)
    as (p & pt' & H1 & _ & _ & H2); [apply image0_ok|reflexivity|apply mm0_nonempty|reflexivity|reflexivity|
    reflexivity|reflexivity|discriminate|lia|lia|change (70000 mod 4096) with 368; lia|lia| |].
  - intros n pg Hn E. rewrite lookup_empty in E. discriminate E.
  - exists p, pt'. split; [exact H1|exact (H2 90000)].
Defined.

(** A task that reads the area first gets its own pid, so the two differ. *)
Example vget_alone :
  let answer Q := match vdso_get_task_struct_info (user_byte machine0 mm1 Q) 1256 1
                          (ctx_vdso mm1 + sym_vvar_page image0 + 128) ∅ with
                  | Ok (r, _) => Some r | Fault _ => None end in
  is_Some (answer 90000) /\ answer 90000 <> answer 70000.
Proof. vm_compute. split; [by eexists|discriminate]. Qed.

(** A manager that never finds room. *)
Definition mm_no_room : MmApi.
Proof.
  refine {| get_unmapped_area := fun _ _ _ => u64 (- Errno.ENOMEM);
            install_special_mapping := install_if_free |}.
  - intros vs addr len. left. change (u64 (- Errno.ENOMEM)) with (2 ^ 64 - 12). unfold MAX_ERRNO. lia.
  - exact (install_range (MmApi := mm_simple)).
  - exact (install_free (MmApi := mm_simple)).
Defined.

Lemma free_range_true vs start len : Forall (clear_of start len) vs -> free_range vs start len = true.
Proof.
  unfold free_range. rewrite forallb_forall, List.Forall_forall.
  intros Hf v Hv. by apply clearb_spec, Hf.
Qed.

Lemma map_vdso_misses_error_witness :
  exists m', map_vdso (H := mm_no_room) image0 0 false mm0 = Ok (0, m') /\
    Vma (24576 - 12) (24576 - 12 + 16384) vvar_mapping ∈ mmap m'.
Proof.
  apply (map_vdso_misses_error (H := mm_no_room) image0 0 mm0 12);
    [apply image0_ok|reflexivity|unfold MAX_ERRNO; lia|reflexivity| |].
  - intros vs start len Hl Hc. cbn. unfold install_if_free. rewrite free_range_true by exact Hc.
    destruct (Z.ltb_spec 0 len); [reflexivity|lia].
  - constructor; [cbn; lia|constructor].
Defined.

Lemma map_vdso_once_once_witness :
  exists m', map_vdso_once image0 0 false mm0 = Ok (0, m') /\
    map_vdso_once image0 4096 false m' = Ok (- Errno.EEXIST, m').
Proof.
  exists mm1. split; [vm_compute; reflexivity|].
  apply (map_vdso_once_once image0 0 mm0);
    [apply image0_ok|reflexivity|apply mm0_nonempty|reflexivity|vm_compute; reflexivity].
Defined.

(** A manager that grants the address asked for when it can. *)
Definition at_hint (vs : list vma) (addr len : Z) : Z :=
  if free_range vs addr len && (0 <=? addr) && (addr + len <=? 2 ^ 47) && (addr mod PAGE_SIZE =? 0)
  then addr else u64 (- Errno.ENOMEM).

Definition mm_hint : MmApi.
Proof.
  refine {| get_unmapped_area := at_hint; install_special_mapping := install_if_free |}.
  - intros vs addr len. unfold at_hint. destruct (_ && _) eqn:E.
    + right. rewrite !andb_true_iff, !Z.leb_le, Z.eqb_eq in E. destruct E as (((E1 & E2) & E3) & E4).
      split_and!; try lia. by apply free_range_spec.
    + left. change (u64 (- Errno.ENOMEM)) with (2 ^ 64 - 12). unfold MAX_ERRNO. lia.
  - exact (install_range (MmApi := mm_simple)).
  - exact (install_free (MmApi := mm_simple)).
Defined.

(** Alignment to 32 kB, as some AMD processors want it. *)
Definition align32k (x : Z) : Z := (x + 32767) / 32768 * 32768.

(** The stack of [mm0] begins at the start of its only area, here at its end. *)
Definition mm_above : mm_struct := Mm [stack_area] false 0 None 0 (2 ^ 40 + 4096) [].

Definition mm_hint1 : mm_struct :=
  match map_vdso_randomized (H := mm_hint) align32k 77 image0 false mm_above with Ok (_, m) => m | Fault _ => mm0 end.

Lemma vdso_addr_in_range_witness :
  let a := vdso_addr align32k 77 (2 ^ 40 + 4096) 24576 in
  a mod 4096 = 0 /\ a + 24576 <= 2 ^ 40 + 2 ^ 21 + 32768 /\ ctx_vtask mm_hint1 = a /\
  vm_end (text_area image0 a) <= 2 ^ 40 + 2 ^ 21 + 32768 + vtask_len.
Proof.
  destruct (vdso_addr_in_range (H := mm_hint) align32k 32768 77 image0 false mm_above mm_hint1)
    as (H1 & _ & H3 & H4).
  - apply image0_ok.
  - reflexivity.
  - apply mm0_nonempty.
  - cbn. lia.
  - lia.
  - unfold align32k, PAGE_SIZE. intros x Hx. split.
    + pose proof (Z.div_mod (x + 32767) 32768 ltac:(lia)). pose proof (Z.mod_pos_bound (x + 32767) 32768 ltac:(lia)). lia.
    + replace ((x + 32767) / 32768 * 32768) with ((x + 32767) / 32768 * 8 * 4096) by lia. apply Z.mod_mul. lia.
  - destruct H4 as (H4 & _ & H5); [vm_compute; reflexivity|vm_compute; reflexivity|vm_compute; reflexivity|].
    split; [exact H1|]. split; [exact H3|]. split; [exact H4|exact H5].
Defined.

(** The shift can carry the end of the text area out of the 2 MB region that the
    randomisation keeps it in: here the address asked for is the highest one. *)
Example vdso_leaves_region :
  let a := vdso_addr (fun x => x) 506 (2 ^ 40) 24576 in
  a + 24576 = region_end (2 ^ 40) 24576 /\ region_end (2 ^ 40) 24576 < vm_end (text_area image0 a).
Proof. vm_compute. split; reflexivity. Qed.

Definition clocks : vvar_env := VvarEnv 10 (Some 20) None None (fun _ _ => VM_FAULT_NOPAGE).

Lemma vvar_prefault_agrees_witness :
  vvar_fault clocks (Some image0) (2 ^ 21 + 3 * PAGE_SIZE) 3 = FaultPfn [(2 ^ 21 + 3 * PAGE_SIZE, 10)] /\
  vvar_fault clocks (Some image0) (2 ^ 21 + 0 * PAGE_SIZE) 0
    = FaultPfn [(2 ^ 21 + 3 * PAGE_SIZE, 10); (2 ^ 21 + 0 * PAGE_SIZE, 20)].
Proof.
  apply (vvar_prefault_agrees clocks image0 (2 ^ 21) 0 3);
    [apply image0_ok|lia|lia|lia|reflexivity|reflexivity|reflexivity|reflexivity|reflexivity|
     discriminate|discriminate|discriminate].
Defined.
