(* ===== verification/Fork.v ===== *)
(** * Fork: creating a process

    Models [copy_process] of [kernel/fork.c] with the [copy_*] functions it
    calls and its chain of error labels.  What the calls into other parts of the
    kernel return is the parameter [fork_env]; what they acquire is a token in
    the list [held] of the state, which an error label gives back.  Releasing
    what is not held is a fault.  The specification is [fork_post]: the ordered
    list of the points of failure ([early_failures], [late_failures]) decides the
    result.  Of the child's fields those are kept that decide sharing, identity,
    unwinding and the socket limits. *)

From Stdlib Require Import ZArith Lia.
From stdpp Require Import base list.
From S2P Require Import Prelude.

(** ** Clone flags *)

Definition CSIGNAL : Z := 0xff.
Definition CLONE_NEWTIME : Z := 0x80.
Definition CLONE_VM : Z := 0x100.
Definition CLONE_FS : Z := 0x200.
Definition CLONE_FILES : Z := 0x400.
Definition CLONE_SIGHAND : Z := 0x800.
Definition CLONE_PIDFD : Z := 0x1000.
Definition CLONE_PTRACE : Z := 0x2000.
Definition CLONE_VFORK : Z := 0x4000.
Definition CLONE_PARENT : Z := 0x8000.
Definition CLONE_THREAD : Z := 0x10000.
Definition CLONE_NEWNS : Z := 0x20000.
Definition CLONE_SYSVSEM : Z := 0x40000.
Definition CLONE_PARENT_SETTID : Z := 0x100000.
Definition CLONE_CHILD_CLEARTID : Z := 0x200000.
Definition CLONE_DETACHED : Z := 0x400000.
Definition CLONE_UNTRACED : Z := 0x800000.
Definition CLONE_CHILD_SETTID : Z := 0x1000000.
Definition CLONE_NEWCGROUP : Z := 0x2000000.
Definition CLONE_NEWUTS : Z := 0x4000000.
Definition CLONE_NEWIPC : Z := 0x8000000.
Definition CLONE_NEWUSER : Z := 0x10000000.
Definition CLONE_NEWPID : Z := 0x20000000.
Definition CLONE_NEWNET : Z := 0x40000000.
Definition CLONE_IO : Z := 0x80000000.
Definition CLONE_CLEAR_SIGHAND : Z := 2 ^ 32.
Definition CLONE_INTO_CGROUP : Z := 2 ^ 33.
Definition CLONE_LEGACY_FLAGS : Z := 0xffffffff.

(** Both bits of a pair are set. *)
Definition both (flags a b : Z) : bool := Z.land flags (Z.lor a b) =? Z.lor a b.

(** ** State *)

Inductive pid_type := PIDTYPE_PID | PIDTYPE_TGID | PIDTYPE_PGID | PIDTYPE_SID.

#[global] Instance pid_type_eq_dec : EqDecision pid_type.
Proof. solve_decision. Defined.

(** What a call acquires.  The flag of a shared resource says whether it is a
    reference to the parent's object ([true]) or an object of the child's own. *)
Inductive resource :=
  | RDelayedNode | RTask | RNproc | RCreds | RDelayacct | RMempolicy | RPerf | RAudit
  | RSecurity | RSemundo | RFiles (shared : bool) | RFs (shared : bool) | RSighand (shared : bool)
  | RSignal | RMm (shared : bool) | RNamespaces | RIo (shared : bool) | RThread | RPid
  | RPidfd | RPidfile | RKvStore | RKvLocks | RCgroup | RTasklistLock | RSiglock
  (** membership in a list, hash or count of live tasks *)
  | RAttached (t : pid_type) | RTty | RSibling | RTasks | RSigLive | RSigcnt | RThreadGroup | RThreadNode.


#[global] Instance resource_eq_dec : EqDecision resource.
Proof. solve_decision. Defined.

(** Fields that are only set: where to store the thread id on start and on exit,
    the io_uring worker flag, whether the signal handlers and the alternative
    signal stack are reset, and [nr_threads], [live] and [sigcnt] of a signal
    structure of the child's own. *)
Record misc := Misc {
  set_child_tid : Z; clear_child_tid : Z; io_worker : bool;
  handlers_reset : bool; altstack_reset : bool; own_signal : option (Z * Z * Z)
}.

(** The fields of the child that [copy_process] sets and later reads. *)
Record child := Child {
  p_files : option bool; p_fs : option bool; p_sighand : option bool; p_mm : option bool;
  p_io : option bool;
  p_kv : option bool;       (** a usable key-value store: the parent's, or the child's own *)
  p_pid : Z; p_tgid : Z; p_leader : Z; p_real_parent : Z; p_exit_signal : Z;
  p_max_socket_allowed : Z; p_priority_level : Z; p_socket_count : Z;
  p_misc : misc
}.

Record kstate := Kst {
  held : list resource;
  p : child;
  nr_threads : Z;
  process_counts : Z;
  total_forks : Z;
  sig_nr_threads : Z
}.

Definition set_held (h : list resource) (s : kstate) : kstate :=
  Kst h (p s) (nr_threads s) (process_counts s) (total_forks s) (sig_nr_threads s).
Definition set_p (f : child -> child) (s : kstate) : kstate :=
  Kst (held s) (f (p s)) (nr_threads s) (process_counts s) (total_forks s) (sig_nr_threads s).
Definition set_counts (thr proc tot sig : Z) (s : kstate) : kstate :=
  Kst (held s) (p s) thr proc tot sig.

Fixpoint remove_one (r : resource) (h : list resource) : option (list resource) :=
  match h with
  | [] => None
  | x :: h' => if bool_decide (x = r) then Some h' else cons x <$> remove_one r h'
  end.

Definition acquire (r : resource) : M kstate unit := modify (fun s => set_held (r :: held s) s).
Definition release (r : resource) : M kstate unit :=
  s ← get;
  match remove_one r (held s) with
  | Some h => modify (set_held h)
  | None => abort Dangling
  end.

Definition release_opt (mk : bool -> resource) (o : option bool) : M kstate unit :=
  match o with Some b => release (mk b) | None => mret tt end.

(** ** The caller and the rest of the kernel *)

Record task := Task {
  t_pid : Z; t_tgid : Z; t_leader : Z; t_real_parent : Z; t_leader_exit_signal : Z;
  t_has_mm : bool; t_has_files : bool;
  t_fs_in_exec : bool;
  t_io : option bool;          (** an io context, and whether its priority is valid *)
  t_unkillable : bool;         (** SIGNAL_UNKILLABLE *)
  t_same_pid_ns : bool; t_same_time_ns : bool;
  t_sigpending : bool; t_fatal_signal : bool
}.

Inductive call := DupTask | CopyCreds | MpolDup | SchedFork | PerfInit | AuditAlloc | SecurityAlloc
  | CopySemundo | DupFd | CopyFsStruct | SighandAlloc | SignalAlloc | DupMm | CopyNamespaces
  | GetIoContext | CopyThread | AllocPid | GetUnusedFd | AnonInode | PutUser
  | KvStoreAlloc | KvLocksAlloc | CgroupCanFork.

(** The result of each call (0 or a negative code; for a file descriptor, its
    number or a negative code), the limits and the new pid. *)
Record fork_env := ForkEnv {
  ans : call -> Z;
  over_nproc : bool;         (** over RLIMIT_NPROC and not privileged *)
  max_threads : Z;
  new_pid : Z;
  pidns_adding : bool
}.

Record kernel_clone_args := Kargs {
  flags : Z; pidfd : Z; child_tid : Z; parent_tid : Z; exit_signal : Z;
  stack : Z; stack_size : Z; tls : Z; set_tid : list Z; cgroup : Z; io_thread : bool
}.

(** The child after [dup_task_struct] and the first assignments. *)
Definition misc0 (args : kernel_clone_args) : misc :=
  Misc (if hasb (flags args) CLONE_CHILD_SETTID then child_tid args else NULL)
       (if hasb (flags args) CLONE_CHILD_CLEARTID then child_tid args else NULL)
       (io_thread args) false false None.
Definition child0 (args : kernel_clone_args) : child :=
  Child None None None None None None 0 0 0 0 0 0 0 0 (misc0 args).

Definition set_misc (f : misc -> misc) (c : child) : child :=
  Child (p_files c) (p_fs c) (p_sighand c) (p_mm c) (p_io c) (p_kv c)
    (p_pid c) (p_tgid c) (p_leader c) (p_real_parent c) (p_exit_signal c)
    (p_max_socket_allowed c) (p_priority_level c) (p_socket_count c) (f (p_misc c)).

Definition reset_handlers (b : bool) (m : misc) : misc :=
  Misc (set_child_tid m) (clear_child_tid m) (io_worker m) b (altstack_reset m) (own_signal m).
Definition reset_altstack (b : bool) (m : misc) : misc :=
  Misc (set_child_tid m) (clear_child_tid m) (io_worker m) (handlers_reset m) b (own_signal m).
Definition new_signal (m : misc) : misc :=
  Misc (set_child_tid m) (clear_child_tid m) (io_worker m) (handlers_reset m) (altstack_reset m)
       (Some (1, 1, 1)).

Section Fork.
Context (E : fork_env) (current : task).

(** ** The copy_* functions *)

Definition set_files (b : bool) (c : child) : child :=
  Child (Some b) (p_fs c) (p_sighand c) (p_mm c) (p_io c) (p_kv c)
    (p_pid c) (p_tgid c) (p_leader c) (p_real_parent c) (p_exit_signal c)
    (p_max_socket_allowed c) (p_priority_level c) (p_socket_count c) (p_misc c).

Definition copy_files (clone_flags : Z) : M kstate Z :=
  if negb (t_has_files current) then mret 0
  else if hasb clone_flags CLONE_FILES then
    _ ← acquire (RFiles true); _ ← modify (set_p (set_files true)); mret 0
  else if negb (ans E DupFd =? 0) then mret (ans E DupFd)
  else _ ← acquire (RFiles false); _ ← modify (set_p (set_files false)); mret 0.

Definition set_fs (b : bool) (c : child) : child :=
  Child (p_files c) (Some b) (p_sighand c) (p_mm c) (p_io c) (p_kv c)
    (p_pid c) (p_tgid c) (p_leader c) (p_real_parent c) (p_exit_signal c)
    (p_max_socket_allowed c) (p_priority_level c) (p_socket_count c) (p_misc c).

Definition copy_fs (clone_flags : Z) : M kstate Z :=
  if hasb clone_flags CLONE_FS then
    if t_fs_in_exec current then mret (- Errno.EAGAIN)
    else _ ← acquire (RFs true); _ ← modify (set_p (set_fs true)); mret 0
  else if negb (ans E CopyFsStruct =? 0) then mret (- Errno.ENOMEM)
  else _ ← acquire (RFs false); _ ← modify (set_p (set_fs false)); mret 0.

Definition set_sighand (b : bool) (c : child) : child :=
  Child (p_files c) (p_fs c) (Some b) (p_mm c) (p_io c) (p_kv c)
    (p_pid c) (p_tgid c) (p_leader c) (p_real_parent c) (p_exit_signal c)
    (p_max_socket_allowed c) (p_priority_level c) (p_socket_count c) (p_misc c).

Definition copy_sighand (clone_flags : Z) : M kstate Z :=
  if hasb clone_flags CLONE_SIGHAND then
    _ ← acquire (RSighand true); _ ← modify (set_p (set_sighand true)); mret 0
  else if negb (ans E SighandAlloc =? 0) then mret (- Errno.ENOMEM)
  else
    _ ← acquire (RSighand false); _ ← modify (set_p (set_sighand false));
    _ ← (if hasb clone_flags CLONE_CLEAR_SIGHAND then modify (set_p (set_misc (reset_handlers true)))
         else mret tt);
    mret 0.

Definition copy_signal (clone_flags : Z) : M kstate Z :=
  if hasb clone_flags CLONE_THREAD then mret 0
  else if negb (ans E SignalAlloc =? 0) then mret (- Errno.ENOMEM)
  else _ ← acquire RSignal; _ ← modify (set_p (set_misc new_signal)); mret 0.

Definition set_mm (o : option bool) (c : child) : child :=
  Child (p_files c) (p_fs c) (p_sighand c) o (p_io c) (p_kv c)
    (p_pid c) (p_tgid c) (p_leader c) (p_real_parent c) (p_exit_signal c)
    (p_max_socket_allowed c) (p_priority_level c) (p_socket_count c) (p_misc c).

Definition copy_mm (clone_flags : Z) : M kstate Z :=
  _ ← modify (set_p (set_mm None));
  if negb (t_has_mm current) then mret 0
  else if hasb clone_flags CLONE_VM then
    _ ← acquire (RMm true); _ ← modify (set_p (set_mm (Some true))); mret 0
  else if negb (ans E DupMm =? 0) then mret (- Errno.ENOMEM)
  else _ ← acquire (RMm false); _ ← modify (set_p (set_mm (Some false))); mret 0.

Definition set_io (o : option bool) (c : child) : child :=
  Child (p_files c) (p_fs c) (p_sighand c) (p_mm c) o (p_kv c)
    (p_pid c) (p_tgid c) (p_leader c) (p_real_parent c) (p_exit_signal c)
    (p_max_socket_allowed c) (p_priority_level c) (p_socket_count c) (p_misc c).

Definition copy_io (clone_flags : Z) : M kstate Z :=
  match t_io current with
  | None => mret 0
  | Some ioprio_valid =>
      if hasb clone_flags CLONE_IO then
        _ ← acquire (RIo true); _ ← modify (set_p (set_io (Some true))); mret 0
      else if ioprio_valid then
        if negb (ans E GetIoContext =? 0) then mret (- Errno.ENOMEM)
        else _ ← acquire (RIo false); _ ← modify (set_p (set_io (Some false))); mret 0
      else mret 0
  end.

(** [init_task_kv_store]: two allocations, the first freed if the second fails;
    the caller ignores the result. *)
Definition set_kv (o : option bool) (c : child) : child :=
  Child (p_files c) (p_fs c) (p_sighand c) (p_mm c) (p_io c) o
    (p_pid c) (p_tgid c) (p_leader c) (p_real_parent c) (p_exit_signal c)
    (p_max_socket_allowed c) (p_priority_level c) (p_socket_count c) (p_misc c).

Definition kv_setup (clone_flags : Z) : M kstate unit :=
  if hasb clone_flags CLONE_THREAD then modify (set_p (set_kv (Some true)))
  else if negb (ans E KvStoreAlloc =? 0) then mret tt
  else
    _ ← acquire RKvStore;
    if negb (ans E KvLocksAlloc =? 0) then release RKvStore
    else _ ← acquire RKvLocks; modify (set_p (set_kv (Some false))).

(** ** The error labels, last to first *)

Definition fork_result : Type := Z + child.

Definition fork_out (clone_flags retval : Z) : M kstate fork_result :=
  _ ← (if hasb clone_flags CLONE_THREAD then mret tt else release RDelayedNode);
  mret (inl retval).

Definition bad_fork_free (cf retval : Z) : M kstate fork_result :=
  _ ← release RTask; fork_out cf retval.
Definition bad_fork_cleanup_count (cf retval : Z) : M kstate fork_result :=
  _ ← release RNproc; _ ← release RCreds; bad_fork_free cf retval.
Definition bad_fork_cleanup_threadgroup_lock (cf retval : Z) : M kstate fork_result :=
  _ ← release RDelayacct; bad_fork_cleanup_count cf retval.
Definition bad_fork_cleanup_policy (cf retval : Z) : M kstate fork_result :=
  _ ← release RMempolicy; bad_fork_cleanup_threadgroup_lock cf retval.
Definition bad_fork_cleanup_perf (cf retval : Z) : M kstate fork_result :=
  _ ← release RPerf; bad_fork_cleanup_policy cf retval.
Definition bad_fork_cleanup_audit (cf retval : Z) : M kstate fork_result :=
  _ ← release RAudit; bad_fork_cleanup_perf cf retval.
Definition bad_fork_cleanup_security (cf retval : Z) : M kstate fork_result :=
  _ ← release RSecurity; bad_fork_cleanup_audit cf retval.
Definition bad_fork_cleanup_semundo (cf retval : Z) : M kstate fork_result :=
  _ ← release RSemundo; bad_fork_cleanup_security cf retval.
Definition bad_fork_cleanup_files (cf retval : Z) : M kstate fork_result :=
  s ← get; _ ← release_opt RFiles (p_files (p s)); bad_fork_cleanup_semundo cf retval.
Definition bad_fork_cleanup_fs (cf retval : Z) : M kstate fork_result :=
  s ← get; _ ← release_opt RFs (p_fs (p s)); bad_fork_cleanup_files cf retval.
Definition bad_fork_cleanup_sighand (cf retval : Z) : M kstate fork_result :=
  s ← get; _ ← release_opt RSighand (p_sighand (p s)); bad_fork_cleanup_fs cf retval.
Definition bad_fork_cleanup_signal (cf retval : Z) : M kstate fork_result :=
  _ ← (if hasb cf CLONE_THREAD then mret tt else release RSignal); bad_fork_cleanup_sighand cf retval.
Definition bad_fork_cleanup_mm (cf retval : Z) : M kstate fork_result :=
  s ← get; _ ← release_opt RMm (p_mm (p s)); bad_fork_cleanup_signal cf retval.
Definition bad_fork_cleanup_namespaces (cf retval : Z) : M kstate fork_result :=
  _ ← release RNamespaces; bad_fork_cleanup_mm cf retval.
Definition bad_fork_cleanup_io (cf retval : Z) : M kstate fork_result :=
  s ← get; _ ← release_opt RIo (p_io (p s)); bad_fork_cleanup_namespaces cf retval.
Definition bad_fork_cleanup_thread (cf retval : Z) : M kstate fork_result :=
  _ ← release RThread; bad_fork_cleanup_io cf retval.
Definition bad_fork_free_pid (idle : bool) (cf retval : Z) : M kstate fork_result :=
  _ ← (if idle then mret tt else release RPid); bad_fork_cleanup_thread cf retval.
Definition bad_fork_put_pidfd (idle : bool) (cf retval : Z) : M kstate fork_result :=
  _ ← (if hasb cf CLONE_PIDFD then _ ← release RPidfile; release RPidfd else mret tt);
  bad_fork_free_pid idle cf retval.
Definition bad_fork_cancel_cgroup (idle : bool) (cf retval : Z) : M kstate fork_result :=
  _ ← release RSiglock; _ ← release RTasklistLock; _ ← release RCgroup;
  bad_fork_put_pidfd idle cf retval.

(** ** copy_process *)

(** The consistency checks on the flags. *)
Definition flags_refused (cf : Z) : bool :=
  both cf CLONE_NEWNS CLONE_FS ||
  both cf CLONE_NEWUSER CLONE_FS ||
  (hasb cf CLONE_THREAD && negb (hasb cf CLONE_SIGHAND)) ||
  (hasb cf CLONE_SIGHAND && negb (hasb cf CLONE_VM)) ||
  (hasb cf CLONE_PARENT && t_unkillable current) ||
  (hasb cf CLONE_THREAD && (hasb cf (Z.lor CLONE_NEWUSER CLONE_NEWPID) || negb (t_same_pid_ns current))) ||
  (hasb cf (Z.lor CLONE_THREAD CLONE_VM) && negb (t_same_time_ns current)) ||
  (hasb cf CLONE_PIDFD && hasb cf (Z.lor CLONE_DETACHED CLONE_THREAD)).

Definition set_ids (pid tgid leader : Z) (c : child) : child :=
  Child (p_files c) (p_fs c) (p_sighand c) (p_mm c) (p_io c) (p_kv c)
    pid tgid leader (p_real_parent c) (p_exit_signal c)
    (p_max_socket_allowed c) (p_priority_level c) (p_socket_count c) (p_misc c).

Definition set_parent (parent sig : Z) (c : child) : child :=
  Child (p_files c) (p_fs c) (p_sighand c) (p_mm c) (p_io c) (p_kv c)
    (p_pid c) (p_tgid c) (p_leader c) parent sig
    (p_max_socket_allowed c) (p_priority_level c) (p_socket_count c) (p_misc c).

Definition acquire_all (l : list resource) : M kstate unit := modify (fun s => set_held (l ++ held s) s).

(** [thread_group_leader]: a leader has an exit signal, a thread has -1. *)
Definition thread_group_leader (c : child) : bool := 0 <=? p_exit_signal c.

(** What makes a leader and a thread visible, the last step first. *)
Definition leader_links : list resource :=
  [RAttached PIDTYPE_SID; RAttached PIDTYPE_PGID; RAttached PIDTYPE_TGID; RTasks; RSibling; RTty].
Definition thread_links : list resource := [RThreadNode; RThreadGroup; RSigcnt; RSigLive].

(** The part after the last point that can fail. *)
Definition commit (cf : Z) : M kstate fork_result :=
  s ← get;
  let c := p s in
  _ ← (if negb (p_pid c =? 0) then
         _ ← (if thread_group_leader c then
                _ ← acquire_all leader_links;
                modify (fun s => set_counts (nr_threads s) (process_counts s + 1) (total_forks s)
                                            (sig_nr_threads s) s)
              else
                _ ← modify (fun s => set_counts (nr_threads s) (process_counts s) (total_forks s)
                                                (sig_nr_threads s + 1) s);
                acquire_all thread_links);
         _ ← acquire (RAttached PIDTYPE_PID);
         modify (fun s => set_counts (nr_threads s + 1) (process_counts s) (total_forks s)
                                     (sig_nr_threads s) s)
       else mret tt);
  _ ← modify (fun s => set_counts (nr_threads s) (process_counts s) (total_forks s + 1)
                                  (sig_nr_threads s) s);
  _ ← (if hasb cf CLONE_THREAD then mret tt else release RDelayedNode);
  _ ← release RSiglock;
  _ ← release RTasklistLock;
  _ ← release RCgroup;          (* cgroup_post_fork *)
  s ← get;
  mret (inr (p s)).

(** From the pid on. *)
Definition copy_process_tail (args : kernel_clone_args) (idle : bool) : M kstate fork_result :=
  let cf := flags args in
  let pid := if idle then 0 else new_pid E in
  _ ← kv_setup cf;
  _ ← (if Z.land cf (Z.lor CLONE_VM CLONE_VFORK) =? CLONE_VM then
         modify (set_p (set_misc (reset_altstack true)))
       else mret tt);
  _ ← modify (set_p (if hasb cf CLONE_THREAD then set_ids pid (t_tgid current) (t_leader current)
                     else set_ids pid pid pid));
  if negb (ans E CgroupCanFork =? 0) then bad_fork_put_pidfd idle cf (ans E CgroupCanFork)
  else
    _ ← acquire RCgroup;
    _ ← acquire RTasklistLock;
    _ ← modify (set_p (
          if hasb cf (Z.lor CLONE_PARENT CLONE_THREAD) then
            set_parent (t_real_parent current)
              (if hasb cf CLONE_THREAD then -1 else t_leader_exit_signal current)
          else set_parent (t_pid current) (exit_signal args)));
    _ ← acquire RSiglock;
    if negb (pidns_adding E) then bad_fork_cancel_cgroup idle cf (- Errno.ENOMEM)
    else if t_fatal_signal current then bad_fork_cancel_cgroup idle cf (- Errno.EINTR)
    else commit cf.

(** The pid and the pidfd. *)
Definition copy_process_pid (args : kernel_clone_args) (idle : bool) : M kstate fork_result :=
  let cf := flags args in
  if negb idle && negb (ans E AllocPid =? 0) then bad_fork_cleanup_thread cf (ans E AllocPid)
  else
    _ ← (if idle then mret tt else acquire RPid);
    if hasb cf CLONE_PIDFD then
      if ans E GetUnusedFd <? 0 then bad_fork_free_pid idle cf (ans E GetUnusedFd)
      else
        _ ← acquire RPidfd;
        if negb (ans E AnonInode =? 0) then
          _ ← release RPidfd; bad_fork_free_pid idle cf (ans E AnonInode)
        else
          _ ← acquire RPidfile;
          if negb (ans E PutUser =? 0) then bad_fork_put_pidfd idle cf (ans E PutUser)
          else copy_process_tail args idle
    else copy_process_tail args idle.

(** The copies of the parent's structures. *)
Definition copy_process_copies (args : kernel_clone_args) (idle : bool) : M kstate fork_result :=
  let cf := flags args in
  retval ← copy_files cf;
  if negb (retval =? 0) then bad_fork_cleanup_semundo cf retval
  else retval ← copy_fs cf;
  if negb (retval =? 0) then bad_fork_cleanup_files cf retval
  else retval ← copy_sighand cf;
  if negb (retval =? 0) then bad_fork_cleanup_fs cf retval
  else retval ← copy_signal cf;
  if negb (retval =? 0) then bad_fork_cleanup_sighand cf retval
  else retval ← copy_mm cf;
  if negb (retval =? 0) then bad_fork_cleanup_signal cf retval
  else if negb (ans E CopyNamespaces =? 0) then bad_fork_cleanup_mm cf (ans E CopyNamespaces)
  else _ ← acquire RNamespaces;
  retval ← copy_io cf;
  if negb (retval =? 0) then bad_fork_cleanup_namespaces cf retval
  else if negb (ans E CopyThread =? 0) then bad_fork_cleanup_io cf (ans E CopyThread)
  else _ ← acquire RThread;
  copy_process_pid args idle.

Definition copy_process (args : kernel_clone_args) (idle : bool) : M kstate fork_result :=
  let cf := flags args in
  if flags_refused cf then mret (inl (- Errno.EINVAL))
  else
    _ ← (if hasb cf CLONE_THREAD then mret tt else acquire RDelayedNode);
    if t_sigpending current then fork_out cf (- Errno.ERESTARTNOINTR)
    else if negb (ans E DupTask =? 0) then fork_out cf (- Errno.ENOMEM)
    else
      _ ← acquire RTask;
      _ ← modify (set_p (fun _ => child0 args));
      if ans E CopyCreds <? 0 then bad_fork_free cf (ans E CopyCreds)
      else
        _ ← acquire RCreds;
        _ ← acquire RNproc;
        s ← get;
        if over_nproc E then bad_fork_cleanup_count cf (- Errno.EAGAIN)
        else if max_threads E <=? nr_threads s then bad_fork_cleanup_count cf (- Errno.EAGAIN)
        else
          _ ← acquire RDelayacct;
          if negb (ans E MpolDup =? 0) then bad_fork_cleanup_threadgroup_lock cf (ans E MpolDup)
          else
            _ ← acquire RMempolicy;
            if negb (ans E SchedFork =? 0) then bad_fork_cleanup_policy cf (ans E SchedFork)
            else if negb (ans E PerfInit =? 0) then bad_fork_cleanup_policy cf (ans E PerfInit)
            else
              _ ← acquire RPerf;
              if negb (ans E AuditAlloc =? 0) then bad_fork_cleanup_perf cf (ans E AuditAlloc)
              else
                _ ← acquire RAudit;
                if negb (ans E SecurityAlloc =? 0) then bad_fork_cleanup_audit cf (ans E SecurityAlloc)
                else
                  _ ← acquire RSecurity;
                  if negb (ans E CopySemundo =? 0) then bad_fork_cleanup_security cf (ans E CopySemundo)
                  else
                    _ ← acquire RSemundo;
                    copy_process_copies args idle.

(** ** Unwinding *)

(** The resources held at each label, above those of the caller ([h]). *)
Definition opt_res (mk : bool -> resource) (o : option bool) (h : list resource) : list resource :=
  match o with Some b => mk b :: h | None => h end.
Definition unless (b : bool) (r : list resource) (h : list resource) : list resource :=
  if b then h else r ++ h.

Definition stk_out (cf : Z) h := unless (hasb cf CLONE_THREAD) [RDelayedNode] h.
Definition stk_free cf h := RTask :: stk_out cf h.
Definition stk_count cf h := RNproc :: RCreds :: stk_free cf h.
Definition stk_tgl cf h := RDelayacct :: stk_count cf h.
Definition stk_policy cf h := RMempolicy :: stk_tgl cf h.
Definition stk_perf cf h := RPerf :: stk_policy cf h.
Definition stk_audit cf h := RAudit :: stk_perf cf h.
Definition stk_security cf h := RSecurity :: stk_audit cf h.
Definition stk_semundo cf h := RSemundo :: stk_security cf h.
Definition stk_files cf c h := opt_res RFiles (p_files c) (stk_semundo cf h).
Definition stk_fs cf c h := opt_res RFs (p_fs c) (stk_files cf c h).
Definition stk_sighand cf c h := opt_res RSighand (p_sighand c) (stk_fs cf c h).
Definition stk_signal cf c h := unless (hasb cf CLONE_THREAD) [RSignal] (stk_sighand cf c h).
Definition stk_mm cf c h := opt_res RMm (p_mm c) (stk_signal cf c h).
Definition stk_ns cf c h := RNamespaces :: stk_mm cf c h.
Definition stk_io cf c h := opt_res RIo (p_io c) (stk_ns cf c h).
Definition stk_thread cf c h := RThread :: stk_io cf c h.
Definition stk_pid idle cf c h := unless idle [RPid] (stk_thread cf c h).
Definition stk_pidfd idle cf c h :=
  unless (negb (hasb cf CLONE_PIDFD)) [RPidfile; RPidfd] (stk_pid idle cf c h).
Definition stk_cgroup k idle cf c h := RSiglock :: RTasklistLock :: RCgroup :: k ++ stk_pidfd idle cf c h.

(** Lists of key-value store allocations, which no label gives back. *)
Definition kv_only (k : list resource) : Prop := Forall (fun r => r = RKvStore \/ r = RKvLocks) k.

(** Run the code over a state given by its fields; labels and releases stay. *)
Ltac frun := cbv beta iota zeta delta [mbind M_bind mret M_ret modify get abort acquire negb
  set_held set_p set_counts held p nr_threads process_counts total_forks sig_nr_threads].

Lemma remove_under (k : list resource) (x : resource) (l : list resource) :
  kv_only k -> x <> RKvStore -> x <> RKvLocks -> remove_one x (k ++ x :: l) = Some (k ++ l).
Proof.
  intros Hk H1 H2. induction Hk as [|y k' Hy _ IH]; cbn; [by rewrite bool_decide_eq_true_2|].
  rewrite bool_decide_eq_false_2 by (destruct Hy; congruence). by rewrite IH.
Qed.

Section Labels.
Context (k h : list resource) (Hk : kv_only k) (c : child) (a1 a2 a3 a4 : Z) (cf retval : Z).

Lemma release_under (x : resource) l :
  x <> RKvStore -> x <> RKvLocks ->
  release x (Kst (k ++ x :: l) c a1 a2 a3 a4) = Ok (tt, Kst (k ++ l) c a1 a2 a3 a4).
Proof. intros H1 H2. unfold release. frun. by rewrite remove_under. Qed.

Lemma release_opt_under mk o l :
  (forall b, mk b <> RKvStore) -> (forall b, mk b <> RKvLocks) ->
  release_opt mk o (Kst (k ++ opt_res mk o l) c a1 a2 a3 a4) = Ok (tt, Kst (k ++ l) c a1 a2 a3 a4).
Proof. intros H1 H2. destruct o as [b|]; [|done]. apply release_under; auto. Qed.

Ltac label next := intros; unfold mbind, M_bind, get; cbn [p];
  repeat (first [rewrite release_opt_under by done|rewrite release_under by done]; cbv beta iota);
  apply next.

Lemma fork_out_ok :
  fork_out cf retval (Kst (k ++ stk_out cf h) c a1 a2 a3 a4) = Ok (inl retval, Kst (k ++ h) c a1 a2 a3 a4).
Proof.
  unfold fork_out, stk_out, unless, mbind, M_bind. destruct (hasb cf CLONE_THREAD); [done|].
  cbn [app]. by rewrite release_under.
Qed.

Lemma bad_fork_free_ok :
  bad_fork_free cf retval (Kst (k ++ stk_free cf h) c a1 a2 a3 a4) = Ok (inl retval, Kst (k ++ h) c a1 a2 a3 a4).
Proof. unfold bad_fork_free, stk_free. label fork_out_ok. Qed.

Lemma bad_fork_cleanup_count_ok :
  bad_fork_cleanup_count cf retval (Kst (k ++ stk_count cf h) c a1 a2 a3 a4)
  = Ok (inl retval, Kst (k ++ h) c a1 a2 a3 a4).
Proof. unfold bad_fork_cleanup_count, stk_count. label bad_fork_free_ok. Qed.

Lemma bad_fork_cleanup_threadgroup_lock_ok :
  bad_fork_cleanup_threadgroup_lock cf retval (Kst (k ++ stk_tgl cf h) c a1 a2 a3 a4)
  = Ok (inl retval, Kst (k ++ h) c a1 a2 a3 a4).
Proof. unfold bad_fork_cleanup_threadgroup_lock, stk_tgl. label bad_fork_cleanup_count_ok. Qed.

Lemma bad_fork_cleanup_policy_ok :
  bad_fork_cleanup_policy cf retval (Kst (k ++ stk_policy cf h) c a1 a2 a3 a4)
  = Ok (inl retval, Kst (k ++ h) c a1 a2 a3 a4).
Proof. unfold bad_fork_cleanup_policy, stk_policy. label bad_fork_cleanup_threadgroup_lock_ok. Qed.

Lemma bad_fork_cleanup_perf_ok :
  bad_fork_cleanup_perf cf retval (Kst (k ++ stk_perf cf h) c a1 a2 a3 a4)
  = Ok (inl retval, Kst (k ++ h) c a1 a2 a3 a4).
Proof. unfold bad_fork_cleanup_perf, stk_perf. label bad_fork_cleanup_policy_ok. Qed.

Lemma bad_fork_cleanup_audit_ok :
  bad_fork_cleanup_audit cf retval (Kst (k ++ stk_audit cf h) c a1 a2 a3 a4)
  = Ok (inl retval, Kst (k ++ h) c a1 a2 a3 a4).
Proof. unfold bad_fork_cleanup_audit, stk_audit. label bad_fork_cleanup_perf_ok. Qed.

Lemma bad_fork_cleanup_security_ok :
  bad_fork_cleanup_security cf retval (Kst (k ++ stk_security cf h) c a1 a2 a3 a4)
  = Ok (inl retval, Kst (k ++ h) c a1 a2 a3 a4).
Proof. unfold bad_fork_cleanup_security, stk_security. label bad_fork_cleanup_audit_ok. Qed.

Lemma bad_fork_cleanup_semundo_ok :
  bad_fork_cleanup_semundo cf retval (Kst (k ++ stk_semundo cf h) c a1 a2 a3 a4)
  = Ok (inl retval, Kst (k ++ h) c a1 a2 a3 a4).
Proof. unfold bad_fork_cleanup_semundo, stk_semundo. label bad_fork_cleanup_security_ok. Qed.

Lemma bad_fork_cleanup_files_ok :
  bad_fork_cleanup_files cf retval (Kst (k ++ stk_files cf c h) c a1 a2 a3 a4)
  = Ok (inl retval, Kst (k ++ h) c a1 a2 a3 a4).
Proof. unfold bad_fork_cleanup_files, stk_files. label bad_fork_cleanup_semundo_ok. Qed.

Lemma bad_fork_cleanup_fs_ok :
  bad_fork_cleanup_fs cf retval (Kst (k ++ stk_fs cf c h) c a1 a2 a3 a4)
  = Ok (inl retval, Kst (k ++ h) c a1 a2 a3 a4).
Proof. unfold bad_fork_cleanup_fs, stk_fs. label bad_fork_cleanup_files_ok. Qed.

Lemma bad_fork_cleanup_sighand_ok :
  bad_fork_cleanup_sighand cf retval (Kst (k ++ stk_sighand cf c h) c a1 a2 a3 a4)
  = Ok (inl retval, Kst (k ++ h) c a1 a2 a3 a4).
Proof. unfold bad_fork_cleanup_sighand, stk_sighand. label bad_fork_cleanup_fs_ok. Qed.

Lemma bad_fork_cleanup_signal_ok :
  bad_fork_cleanup_signal cf retval (Kst (k ++ stk_signal cf c h) c a1 a2 a3 a4)
  = Ok (inl retval, Kst (k ++ h) c a1 a2 a3 a4).
Proof.
  unfold bad_fork_cleanup_signal, stk_signal, unless.
  destruct (hasb cf CLONE_THREAD); [apply bad_fork_cleanup_sighand_ok|]. cbn [app].
  label bad_fork_cleanup_sighand_ok.
Qed.

Lemma bad_fork_cleanup_mm_ok :
  bad_fork_cleanup_mm cf retval (Kst (k ++ stk_mm cf c h) c a1 a2 a3 a4)
  = Ok (inl retval, Kst (k ++ h) c a1 a2 a3 a4).
Proof. unfold bad_fork_cleanup_mm, stk_mm. label bad_fork_cleanup_signal_ok. Qed.

Lemma bad_fork_cleanup_namespaces_ok :
  bad_fork_cleanup_namespaces cf retval (Kst (k ++ stk_ns cf c h) c a1 a2 a3 a4)
  = Ok (inl retval, Kst (k ++ h) c a1 a2 a3 a4).
Proof. unfold bad_fork_cleanup_namespaces, stk_ns. label bad_fork_cleanup_mm_ok. Qed.

Lemma bad_fork_cleanup_io_ok :
  bad_fork_cleanup_io cf retval (Kst (k ++ stk_io cf c h) c a1 a2 a3 a4)
  = Ok (inl retval, Kst (k ++ h) c a1 a2 a3 a4).
Proof. unfold bad_fork_cleanup_io, stk_io. label bad_fork_cleanup_namespaces_ok. Qed.

Lemma bad_fork_cleanup_thread_ok :
  bad_fork_cleanup_thread cf retval (Kst (k ++ stk_thread cf c h) c a1 a2 a3 a4)
  = Ok (inl retval, Kst (k ++ h) c a1 a2 a3 a4).
Proof. unfold bad_fork_cleanup_thread, stk_thread. label bad_fork_cleanup_io_ok. Qed.

Lemma bad_fork_free_pid_ok idle :
  bad_fork_free_pid idle cf retval (Kst (k ++ stk_pid idle cf c h) c a1 a2 a3 a4)
  = Ok (inl retval, Kst (k ++ h) c a1 a2 a3 a4).
Proof.
  unfold bad_fork_free_pid, stk_pid, unless. destruct idle; [apply bad_fork_cleanup_thread_ok|].
  cbn [app]. label bad_fork_cleanup_thread_ok.
Qed.

Lemma bad_fork_put_pidfd_ok idle :
  bad_fork_put_pidfd idle cf retval (Kst (k ++ stk_pidfd idle cf c h) c a1 a2 a3 a4)
  = Ok (inl retval, Kst (k ++ h) c a1 a2 a3 a4).
Proof.
  unfold bad_fork_put_pidfd, stk_pidfd, unless. destruct (hasb cf CLONE_PIDFD); cbn [negb app].
  - label bad_fork_free_pid_ok.
  - apply bad_fork_free_pid_ok.
Qed.

Lemma bad_fork_cancel_cgroup_ok idle :
  bad_fork_cancel_cgroup idle cf retval (Kst (stk_cgroup k idle cf c h) c a1 a2 a3 a4)
  = Ok (inl retval, Kst (k ++ h) c a1 a2 a3 a4).
Proof. exact (bad_fork_put_pidfd_ok idle). Qed.

End Labels.

(** ** What a call leaves behind *)

(** The parent's structures the child gets, by flags: shared, own, or none. *)
Definition copied (cf : Z) : child :=
  Child (if t_has_files current then Some (hasb cf CLONE_FILES) else None)
        (Some (hasb cf CLONE_FS)) (Some (hasb cf CLONE_SIGHAND))
        (if t_has_mm current then Some (hasb cf CLONE_VM) else None)
        (match t_io current with
         | Some valid => if hasb cf CLONE_IO then Some true else if valid then Some false else None
         | None => None end)
        None 0 0 0 0 0 0 0 0 (Misc NULL NULL false false false None).

(** Its remaining fields: what [dup_task_struct] set, handlers reset on request in
    a handler table of its own, a new signal structure for a new thread group. *)
Definition misc_copied (args : kernel_clone_args) : misc :=
  let cf := flags args in
  Misc (if hasb cf CLONE_CHILD_SETTID then child_tid args else NULL)
       (if hasb cf CLONE_CHILD_CLEARTID then child_tid args else NULL)
       (io_thread args)
       (negb (hasb cf CLONE_SIGHAND) && hasb cf CLONE_CLEAR_SIGHAND) false
       (if hasb cf CLONE_THREAD then None else Some (1, 1, 1)).

Definition full (args : kernel_clone_args) : child := set_misc (fun _ => misc_copied args) (copied (flags args)).

(** The store of a child that is not a thread: its own if both allocations
    succeed. *)
Definition kv_own (cf : Z) : bool :=
  negb (hasb cf CLONE_THREAD) && (ans E KvStoreAlloc =? 0) && (ans E KvLocksAlloc =? 0).

Definition kv_res (cf : Z) : list resource := if kv_own cf then [RKvLocks; RKvStore] else [].

Definition kv_of (cf : Z) : option bool :=
  if hasb cf CLONE_THREAD then Some true else if kv_own cf then Some false else None.

(** The new child. *)
Definition new_child (args : kernel_clone_args) (idle : bool) : child :=
  let cf := flags args in
  let pid := if idle then 0 else new_pid E in
  let c := copied cf in
  let thread := hasb cf CLONE_THREAD in
  Child (p_files c) (p_fs c) (p_sighand c) (p_mm c) (p_io c) (kv_of cf)
        pid (if thread then t_tgid current else pid) (if thread then t_leader current else pid)
        (if hasb cf (Z.lor CLONE_PARENT CLONE_THREAD) then t_real_parent current else t_pid current)
        (if hasb cf (Z.lor CLONE_PARENT CLONE_THREAD)
         then (if thread then -1 else t_leader_exit_signal current) else exit_signal args)
        0 0 0
        (reset_altstack (Z.land cf (Z.lor CLONE_VM CLONE_VFORK) =? CLONE_VM) (misc_copied args)).

(** What a live child holds. *)
Definition own (idle : bool) (cf : Z) (c : child) : list resource :=
  unless (negb (hasb cf CLONE_PIDFD)) [RPidfile; RPidfd] (unless idle [RPid]
    (RThread :: opt_res RIo (p_io c) (RNamespaces :: opt_res RMm (p_mm c)
      (unless (hasb cf CLONE_THREAD) [RSignal] (opt_res RSighand (p_sighand c) (opt_res RFs (p_fs c)
        (opt_res RFiles (p_files c) [RSemundo; RSecurity; RAudit; RPerf; RMempolicy; RDelayacct;
           RNproc; RCreds; RTask]))))))).

(** Where a live child is visible; an idle task (pid 0) is not. *)
Definition links (c : child) : list resource :=
  if p_pid c =? 0 then []
  else RAttached PIDTYPE_PID :: (if thread_group_leader c then leader_links else thread_links).

Lemma stk_own idle cf c h : stk_pidfd idle cf c h = own idle cf c ++ stk_out cf h.
Proof.
  unfold stk_pidfd, stk_pid, stk_thread, stk_io, stk_ns, stk_mm, stk_signal, stk_sighand, stk_fs,
    stk_files, stk_semundo, stk_security, stk_audit, stk_perf, stk_policy, stk_tgl, stk_count, stk_free, own, unless, opt_res.
  destruct (hasb cf CLONE_PIDFD), idle, (p_io c), (p_mm c), (hasb cf CLONE_THREAD), (p_sighand c),
    (p_fs c), (p_files c); reflexivity.
Qed.

Lemma own_no_node idle cf c : RDelayedNode ∉ own idle cf c.
Proof.
  unfold own, unless, opt_res. rewrite list_elem_of_In.
  destruct (hasb cf CLONE_PIDFD), idle, (p_io c), (p_mm c), (hasb cf CLONE_THREAD), (p_sighand c),
    (p_fs c), (p_files c); cbn; intuition discriminate.
Qed.

Lemma remove_notin x l r : x ∉ l -> remove_one x (l ++ x :: r) = Some (l ++ r).
Proof.
  induction l as [|y l IH]; intros Hx; cbn; [by rewrite bool_decide_eq_true_2|].
  rewrite not_elem_of_cons in Hx. destruct Hx as [H1 H2].
  rewrite bool_decide_eq_false_2 by auto. by rewrite IH.
Qed.

(** The points of failure, in the order of the code, each with its condition and
    the code it returns. *)
Definition first_hit (l : list (bool * Z)) : option Z :=
  match List.find fst l with Some (_, e) => Some e | None => None end.

Definition failed (c : call) : bool * Z := (negb (ans E c =? 0), ans E c).

Definition pid_failures (idle : bool) (cf : Z) : list (bool * Z) :=
  [ (negb idle && negb (ans E AllocPid =? 0), ans E AllocPid);
    (hasb cf CLONE_PIDFD && (ans E GetUnusedFd <? 0), ans E GetUnusedFd);
    (hasb cf CLONE_PIDFD && negb (ans E AnonInode =? 0), ans E AnonInode);
    (hasb cf CLONE_PIDFD && negb (ans E PutUser =? 0), ans E PutUser) ].

Definition io_fails (cf : Z) : bool :=
  match t_io current with
  | Some valid => negb (hasb cf CLONE_IO) && valid && negb (ans E GetIoContext =? 0)
  | None => false
  end.

Definition copy_failures (cf : Z) : list (bool * Z) :=
  [ (t_has_files current && negb (hasb cf CLONE_FILES) && negb (ans E DupFd =? 0), ans E DupFd);
    (if hasb cf CLONE_FS then (t_fs_in_exec current, - Errno.EAGAIN)
     else (negb (ans E CopyFsStruct =? 0), - Errno.ENOMEM));
    (negb (hasb cf CLONE_SIGHAND) && negb (ans E SighandAlloc =? 0), - Errno.ENOMEM);
    (negb (hasb cf CLONE_THREAD) && negb (ans E SignalAlloc =? 0), - Errno.ENOMEM);
    (t_has_mm current && negb (hasb cf CLONE_VM) && negb (ans E DupMm =? 0), - Errno.ENOMEM);
    failed CopyNamespaces;
    (io_fails cf, - Errno.ENOMEM);
    failed CopyThread ].

Definition start_failures (cf nr : Z) : list (bool * Z) :=
  [ (flags_refused cf, - Errno.EINVAL);
    (t_sigpending current, - Errno.ERESTARTNOINTR);
    (negb (ans E DupTask =? 0), - Errno.ENOMEM);
    (ans E CopyCreds <? 0, ans E CopyCreds);
    (over_nproc E, - Errno.EAGAIN);
    (max_threads E <=? nr, - Errno.EAGAIN);
    failed MpolDup; failed SchedFork; failed PerfInit; failed AuditAlloc; failed SecurityAlloc;
    failed CopySemundo ].

Definition early_failures (idle : bool) (cf nr : Z) : list (bool * Z) :=
  start_failures cf nr ++ copy_failures cf ++ pid_failures idle cf.

(** After the child's key-value store has been made. *)
Definition late_failures : list (bool * Z) :=
  [ failed CgroupCanFork; (negb (pidns_adding E), - Errno.ENOMEM); (t_fatal_signal current, - Errno.EINTR) ].

Definition same_counts (s s' : kstate) : Prop :=
  nr_threads s' = nr_threads s /\ process_counts s' = process_counts s /\
  total_forks s' = total_forks s /\ sig_nr_threads s' = sig_nr_threads s.

Definition new_counts (c : child) (s s' : kstate) : Prop :=
  let idle := p_pid c =? 0 in
  let leader := thread_group_leader c in
  total_forks s' = total_forks s + 1 /\
  nr_threads s' = nr_threads s + (if idle then 0 else 1) /\
  process_counts s' = process_counts s + (if idle then 0 else if leader then 1 else 0) /\
  sig_nr_threads s' = sig_nr_threads s + (if idle then 0 else if leader then 0 else 1).

(** How a call ends: at the first point of failure with its code, everything
    given back and the counters as before, except that a late failure leaves the
    child's key-value store; otherwise with the new child, what it holds and the
    counters advanced. *)
Definition fork_post (early : list (bool * Z)) (args : kernel_clone_args) (idle : bool)
    (s : kstate) (r : fork_result) (s' : kstate) : Prop :=
  let cf := flags args in
  match first_hit early with
  | Some e => r = inl e /\ held s' = held s /\ same_counts s s'
  | None =>
      match first_hit late_failures with
      | Some e => r = inl e /\ held s' = kv_res cf ++ held s /\ same_counts s s'
      | None =>
          let c := new_child args idle in
          r = inr c /\ p s' = c /\ held s' = links c ++ kv_res cf ++ own idle cf c ++ held s /\
          new_counts c s s'
      end
  end.

Lemma kv_res_only cf : kv_only (kv_res cf).
Proof.
  unfold kv_res, kv_only. destruct (kv_own cf); [|done].
  constructor; [by right|]. constructor; [by left|done].
Qed.

Lemma kv_setup_ok cf hd c a1 a2 a3 a4 :
  p_kv c = None ->
  kv_setup cf (Kst hd c a1 a2 a3 a4) =
    Ok (tt, Kst (kv_res cf ++ hd) (set_kv (kv_of cf) c) a1 a2 a3 a4).
Proof.
  intros Hkv. unfold kv_setup, kv_res, kv_of, kv_own. destruct c; cbn in Hkv; subst.
  destruct (hasb cf CLONE_THREAD); [done|].
  destruct (ans E KvStoreAlloc =? 0); [|done].
  destruct (ans E KvLocksAlloc =? 0); done.
Qed.

Lemma release_top x l c a1 a2 a3 a4 :
  release x (Kst (x :: l) c a1 a2 a3 a4) = Ok (tt, Kst l c a1 a2 a3 a4).
Proof. unfold release. frun. cbn. by rewrite bool_decide_eq_true_2. Qed.

Lemma release_mid x l r c a1 a2 a3 a4 :
  x ∉ l -> release x (Kst (l ++ x :: r) c a1 a2 a3 a4) = Ok (tt, Kst (l ++ r) c a1 a2 a3 a4).
Proof. intros H. unfold release. frun. by rewrite remove_notin. Qed.

Lemma links_no_lock x c : x = RDelayedNode \/ x = RSiglock \/ x = RTasklistLock \/ x = RCgroup -> x ∉ links c.
Proof.
  unfold links. rewrite list_elem_of_In.
  destruct (p_pid c =? 0), (thread_group_leader c); cbn; intros [->|[->|[->| ->]]]; intuition discriminate.
Qed.

Lemma kv_no_node k : kv_only k -> RDelayedNode ∉ k.
Proof.
  unfold kv_only. rewrite List.Forall_forall. intros Hk Hin. apply list_elem_of_In, Hk in Hin. by destruct Hin.
Qed.

(** Unlocking at the end of [commit]. *)
Lemma commit_unlock cf k idle c h a1 a2 a3 a4 :
  kv_only k ->
  (_ ← (if hasb cf CLONE_THREAD then mret tt else release RDelayedNode);
   _ ← release RSiglock; _ ← release RTasklistLock; _ ← release RCgroup;
   s ← get; mret (inr (A := Z) (p s)))
    (Kst (links c ++ stk_cgroup k idle cf c h) c a1 a2 a3 a4)
  = Ok (inr c, Kst (links c ++ k ++ own idle cf c ++ h) c a1 a2 a3 a4).
Proof.
  intros Hk. unfold stk_cgroup. rewrite stk_own. unfold mbind, M_bind.
  assert ((if hasb cf CLONE_THREAD then mret tt else release RDelayedNode)
            (Kst (links c ++ RSiglock :: RTasklistLock :: RCgroup :: k ++ own idle cf c ++ stk_out cf h) c a1 a2 a3 a4)
          = Ok (tt, Kst (links c ++ RSiglock :: RTasklistLock :: RCgroup :: k ++ own idle cf c ++ h) c a1 a2 a3 a4))
    as ->.
  { unfold stk_out, unless. destruct (hasb cf CLONE_THREAD); [done|].
    set (l := links c ++ RSiglock :: RTasklistLock :: RCgroup :: k ++ own idle cf c).
    assert (forall r, links c ++ RSiglock :: RTasklistLock :: RCgroup :: k ++ own idle cf c ++ r = l ++ r) as El
      by (intros; unfold l; by rewrite <- !app_assoc, <- !app_comm_cons, <- app_assoc).
    rewrite !El. apply release_mid. unfold l. rewrite not_elem_of_app, !not_elem_of_cons, not_elem_of_app.
    split_and!; try done; [apply links_no_lock; auto|by apply kv_no_node|apply own_no_node]. }
  cbv beta iota.
  do 3 (rewrite release_mid by (apply links_no_lock; auto 10); cbv beta iota). done.
Qed.

Lemma commit_ok idle cf k c h a1 a2 a3 a4 :
  kv_only k ->
  let lead := thread_group_leader c in
  commit cf (Kst (stk_cgroup k idle cf c h) c a1 a2 a3 a4) =
  Ok (inr c, if p_pid c =? 0 then Kst (links c ++ k ++ own idle cf c ++ h) c a1 a2 (a3 + 1) a4
             else Kst (links c ++ k ++ own idle cf c ++ h) c (a1 + 1)
                    (a2 + (if lead then 1 else 0)) (a3 + 1) (a4 + (if lead then 0 else 1))).
Proof.
  intros Hk lead. unfold commit. fold lead.
  pose proof (fun x1 x2 x3 x4 => commit_unlock cf k idle c h x1 x2 x3 x4 Hk) as Hu.
  unfold mbind at 1, M_bind at 1, get at 1. cbv beta iota zeta. cbn [p]. fold lead.
  unfold links in *. fold lead in Hu |- *.
  destruct (p_pid c =? 0); [exact (Hu _ _ _ _)|].
  destruct lead; rewrite Z.add_0_r; exact (Hu _ _ _ _).
Qed.

Lemma early_failure args idle e l h c c0 a1 a2 a3 a4 :
  first_hit l = Some e ->
  fork_post l args idle (Kst h c0 a1 a2 a3 a4) (inl e) (Kst h c a1 a2 a3 a4).
Proof. intros Hl. unfold fork_post. rewrite Hl. unfold same_counts. by split_and!. Qed.

Lemma altstack_ok (b : bool) hd c a1 a2 a3 a4 :
  altstack_reset (p_misc c) = false ->
  (if b then modify (set_p (set_misc (reset_altstack true))) else mret tt) (Kst hd c a1 a2 a3 a4)
  = Ok (tt, Kst hd (set_misc (reset_altstack b) c) a1 a2 a3 a4).
Proof. destruct c as [? ? ? ? ? ? ? ? ? ? ? ? ? ? []]. cbn. intros ->. by destruct b. Qed.

(** The state of an error return is the one before the call, up to the child. *)
Ltac finish_err := eexists _, _; split; [reflexivity|]; cbn; unfold same_counts; by split_and!.

Lemma tail_ok args idle h c0 a1 a2 a3 a4 :
  let cf := flags args in
  exists r s', copy_process_tail args idle (Kst (stk_pidfd idle cf (full args) h) (full args) a1 a2 a3 a4)
               = Ok (r, s') /\ fork_post [] args idle (Kst h c0 a1 a2 a3 a4) r s'.
Proof.
  intros cf. unfold copy_process_tail. fold cf. unfold mbind at 1, M_bind at 1.
  rewrite kv_setup_ok by done. cbv beta iota.
  unfold mbind at 1, M_bind at 1. rewrite altstack_ok by done. frun.
  set (pid := if idle then 0 else new_pid E).
  set (c1 := (if hasb cf CLONE_THREAD then _ else _) _).
  assert (stk_pidfd idle cf c1 h = stk_pidfd idle cf (full args) h) as E1
    by (unfold c1; destruct (hasb cf CLONE_THREAD); done).
  rewrite <- E1. unfold fork_post, late_failures, failed. fold cf.
  destruct (ans E CgroupCanFork =? 0); frun.
  2: { rewrite (bad_fork_put_pidfd_ok (kv_res cf) h (kv_res_only cf)). finish_err. }
  set (c2 := (if hasb cf (Z.lor _ _) then _ else _) c1).
  assert (stk_pidfd idle cf c2 h = stk_pidfd idle cf c1 h) as E2
    by (unfold c2; destruct (hasb cf (Z.lor _ _)); done).
  rewrite <- E2. fold (stk_cgroup (kv_res cf) idle cf c2 h).
  destruct (pidns_adding E); frun.
  2: { rewrite (bad_fork_cancel_cgroup_ok (kv_res cf) h (kv_res_only cf)). finish_err. }
  destruct (t_fatal_signal current).
  { rewrite (bad_fork_cancel_cgroup_ok (kv_res cf) h (kv_res_only cf)). finish_err. }
  rewrite (commit_ok idle cf (kv_res cf) c2 h a1 a2 a3 a4 (kv_res_only cf)).
  assert (c2 = new_child args idle) as <-.
  { unfold c2, c1, new_child. fold cf pid.
    destruct (hasb cf CLONE_THREAD), (hasb cf (Z.lor CLONE_PARENT CLONE_THREAD)); done. }
  eexists _, _. split; [done|]. cbn [first_hit List.find fst negb]. unfold new_counts.
  destruct (p_pid c2 =? 0), (thread_group_leader c2); cbn [held p nr_threads process_counts total_forks sig_nr_threads];
    split_and!; try done; lia.
Qed.

Lemma pid_ok args idle h c0 a1 a2 a3 a4 :
  let cf := flags args in
  exists r s', copy_process_pid args idle (Kst (stk_thread cf (full args) h) (full args) a1 a2 a3 a4)
               = Ok (r, s') /\ fork_post (pid_failures idle cf) args idle (Kst h c0 a1 a2 a3 a4) r s'.
Proof.
  intros cf. unfold copy_process_pid, pid_failures. fold cf.
  assert (kv_only []) as Hnil by constructor.
  destruct (negb idle && negb (ans E AllocPid =? 0)).
  { eexists _, _. split; [exact (bad_fork_cleanup_thread_ok [] h Hnil _ _ _ _ _ _ _)|].
    by apply early_failure. }
  unfold mbind at 1, M_bind at 1.
  assert ((if idle then mret tt else acquire RPid) (Kst (stk_thread cf (full args) h) (full args) a1 a2 a3 a4)
          = Ok (tt, Kst (stk_pid idle cf (full args) h) (full args) a1 a2 a3 a4)) as ->
    by (unfold stk_pid, unless; by destruct idle).
  pose proof (tail_ok args idle h c0 a1 a2 a3 a4) as Htail. cbv zeta in Htail. fold cf in Htail.
  unfold stk_pidfd, unless in Htail.
  destruct (hasb cf CLONE_PIDFD) eqn:Epf; cbn [negb] in Htail; [|exact Htail].
  destruct (ans E GetUnusedFd <? 0).
  { eexists _, _. split; [exact (bad_fork_free_pid_ok [] h Hnil _ _ _ _ _ _ _ _)|]. by apply early_failure. }
  frun. destruct (ans E AnonInode =? 0); frun.
  2: { rewrite release_top. eexists _, _.
       split; [exact (bad_fork_free_pid_ok [] h Hnil _ _ _ _ _ _ _ _)|]. by apply early_failure. }
  destruct (ans E PutUser =? 0); frun; [exact Htail|].
  pose proof (bad_fork_put_pidfd_ok [] h Hnil (full args) a1 a2 a3 a4 cf (ans E PutUser) idle) as Hp.
  unfold stk_pidfd, unless in Hp. rewrite Epf in Hp. cbn [negb app] in Hp.
  eexists _, _. split; [exact Hp|]. by apply early_failure.
Qed.

(** A copy either fails, leaving the state as it was, or acquires what the flags
    ask for. *)
Definition copy_step (m : M kstate Z) (f : bool * Z) (h : list resource) (c : child) (h' : list resource)
    (c' : child) : Prop :=
  forall a1 a2 a3 a4,
    (fst f = true /\ snd f <> 0 /\ m (Kst h c a1 a2 a3 a4) = Ok (snd f, Kst h c a1 a2 a3 a4)) \/
    (fst f = false /\ m (Kst h c a1 a2 a3 a4) = Ok (0, Kst h' c' a1 a2 a3 a4)).

(** The child after the first copies. *)
Definition part (fl fs sg mm io : option bool) (mi : misc) : child :=
  Child fl fs sg mm io None 0 0 0 0 0 0 0 0 mi.

Definition sighand_misc (cf : Z) (mi : misc) : misc :=
  if hasb cf CLONE_SIGHAND then mi else if hasb cf CLONE_CLEAR_SIGHAND then reset_handlers true mi else mi.
Definition signal_misc (cf : Z) (mi : misc) : misc := if hasb cf CLONE_THREAD then mi else new_signal mi.

Lemma misc_steps args : misc_copied args = signal_misc (flags args) (sighand_misc (flags args) (misc0 args)).
Proof.
  unfold misc_copied, signal_misc, sighand_misc, misc0.
  by destruct (hasb (flags args) CLONE_SIGHAND), (hasb (flags args) CLONE_CLEAR_SIGHAND),
    (hasb (flags args) CLONE_THREAD).
Qed.

Ltac cstep := cbv zeta; intros ????; frun; repeat match goal with
  | |- context [if ?b then _ else _] => destruct b eqn:?; frun
  | |- context [match t_io current with _ => _ end] => destruct (t_io current) as [?|]; frun
  end; cbn [fst snd andb negb]; first [discriminate | by right
             | left; split; [reflexivity|split; [|reflexivity]];
               first [discriminate | let H := fresh in intros H; rewrite H in *; discriminate]].

Lemma copy_files_step cf mi h :
  let o := p_files (copied cf) in
  copy_step (copy_files cf)
    (t_has_files current && negb (hasb cf CLONE_FILES) && negb (ans E DupFd =? 0), ans E DupFd)
    h (part None None None None None mi) (opt_res RFiles o h) (part o None None None None mi).
Proof. unfold copy_files, copied, opt_res, andb. cbn [p_files]. cstep. Qed.

Lemma copy_fs_step cf fl mi h :
  let o := p_fs (copied cf) in
  copy_step (copy_fs cf)
    (if hasb cf CLONE_FS then (t_fs_in_exec current, - Errno.EAGAIN)
     else (negb (ans E CopyFsStruct =? 0), - Errno.ENOMEM))
    h (part fl None None None None mi) (opt_res RFs o h) (part fl o None None None mi).
Proof. unfold copy_fs, copied, opt_res, andb. cbn [p_fs]. cstep. Qed.

Lemma copy_sighand_step cf fl fs mi h :
  let o := p_sighand (copied cf) in
  copy_step (copy_sighand cf)
    (negb (hasb cf CLONE_SIGHAND) && negb (ans E SighandAlloc =? 0), - Errno.ENOMEM)
    h (part fl fs None None None mi) (opt_res RSighand o h) (part fl fs o None None (sighand_misc cf mi)).
Proof. unfold copy_sighand, copied, opt_res, andb, sighand_misc. cbn [p_sighand]. cstep. Qed.

Lemma copy_signal_step cf fl fs sg mi h :
  copy_step (copy_signal cf)
    (negb (hasb cf CLONE_THREAD) && negb (ans E SignalAlloc =? 0), - Errno.ENOMEM)
    h (part fl fs sg None None mi) (unless (hasb cf CLONE_THREAD) [RSignal] h)
    (part fl fs sg None None (signal_misc cf mi)).
Proof. unfold copy_signal, unless, andb, signal_misc. cstep. Qed.

Lemma copy_mm_step cf fl fs sg mi h :
  let o := p_mm (copied cf) in
  copy_step (copy_mm cf)
    (t_has_mm current && negb (hasb cf CLONE_VM) && negb (ans E DupMm =? 0), - Errno.ENOMEM)
    h (part fl fs sg None None mi) (opt_res RMm o h) (part fl fs sg o None mi).
Proof. unfold copy_mm, copied, opt_res, andb. cbn [p_mm]. cstep. Qed.

Lemma copy_io_step cf fl fs sg mm mi h :
  let o := p_io (copied cf) in
  copy_step (copy_io cf) (io_fails cf, - Errno.ENOMEM)
    h (part fl fs sg mm None mi) (opt_res RIo o h) (part fl fs sg mm o mi).
Proof. unfold copy_io, copied, opt_res, io_fails, andb. cbn [p_io]. cstep. Qed.

Lemma hit_here f l : fst f = true -> first_hit (f :: l) = Some (snd f).
Proof. destruct f as [[] e]; [done|discriminate]. Qed.

Lemma post_next f l : fst f = false -> fork_post (f :: l) = fork_post l.
Proof. destruct f as [[] e]; [discriminate|done]. Qed.

(** End in an error label. *)
Ltac fail_at label :=
  lazymatch goal with |- ex (fun r => ex (fun s => ?m (Kst _ ?c _ _ _ _) = _ /\ fork_post _ _ _ (Kst ?h _ _ _ _ _) _ _)) =>
    eexists _, _; split; [exact (label [] h (List.Forall_nil _) c _ _ _ _ _ _)|]
  end;
  apply early_failure; first [by apply hit_here | reflexivity].

(** Go past one copy: the failing case ends in the given label. *)
Ltac past step label :=
  try unfold mbind at 1, M_bind at 1;
  let Hb := fresh in let He := fresh in let Hs := fresh in
  match goal with |- context [match _ (Kst ?hh _ ?x1 ?x2 ?x3 ?x4) with Ok _ => _ | Fault _ => _ end] =>
    destruct (step hh x1 x2 x3 x4) as [(Hb & He & Hs)|(Hb & Hs)]; rewrite Hs; clear Hs; cbv beta iota
  end;
  [apply Z.eqb_neq in He; rewrite He; cbn [negb]; fail_at label
  | rewrite (post_next _ _ Hb); clear Hb; cbn [Z.eqb negb] ].

(** Go past a call that only acquires a token. *)
Ltac past_call label :=
  match goal with
  | |- context [if negb (?x =? 0) then _ else _] => destruct (x =? 0); cbn [negb]
  | |- context [if (if ?x =? 0 then false else true) then _ else _] => destruct (x =? 0)
  end;
  [rewrite post_next by reflexivity; frun|fail_at label].

(** Every copy either fails into its label or goes on. *)
Lemma copies_ok args idle h c0 a1 a2 a3 a4 :
  let cf := flags args in
  exists r s', copy_process_copies args idle (Kst (stk_semundo cf h) (child0 args) a1 a2 a3 a4)
               = Ok (r, s') /\
    fork_post (copy_failures cf ++ pid_failures idle cf) args idle (Kst h c0 a1 a2 a3 a4) r s'.
Proof.
  intros cf. pose proof (pid_ok args idle h c0 a1 a2 a3 a4) as Hpid. cbv zeta in Hpid. fold cf in Hpid.
  unfold full in Hpid. rewrite misc_steps in Hpid. fold cf in Hpid.
  unfold copy_process_copies, copy_failures, failed. cbn [app]. fold cf.
  change (child0 args) with (part None None None None None (misc0 args)).
  set (w := copied cf) in *. set (m0 := misc0 args) in *. set (m1 := sighand_misc cf m0) in *.
  past (copy_files_step cf m0) bad_fork_cleanup_semundo_ok. fold w.
  past (copy_fs_step cf (p_files w) m0) bad_fork_cleanup_files_ok. fold w.
  past (copy_sighand_step cf (p_files w) (p_fs w) m0) bad_fork_cleanup_fs_ok. fold w m1.
  past (copy_signal_step cf (p_files w) (p_fs w) (p_sighand w) m1) bad_fork_cleanup_sighand_ok.
  past (copy_mm_step cf (p_files w) (p_fs w) (p_sighand w) (signal_misc cf m1)) bad_fork_cleanup_signal_ok. fold w.
  past_call bad_fork_cleanup_mm_ok.
  past (copy_io_step cf (p_files w) (p_fs w) (p_sighand w) (p_mm w) (signal_misc cf m1))
    bad_fork_cleanup_namespaces_ok. fold w.
  past_call bad_fork_cleanup_io_ok.
  exact Hpid.
Qed.

Lemma copy_process_cases args idle s :
  exists r s', copy_process args idle s = Ok (r, s') /\
    fork_post (early_failures idle (flags args) (nr_threads s)) args idle s r s'.
Proof.
  destruct s as [h c0 a1 a2 a3 a4]. unfold copy_process, early_failures, start_failures, failed.
  cbn [app nr_threads]. set (cf := flags args).
  pose proof (copies_ok args idle h c0 a1 a2 a3 a4) as Hc. cbv zeta in Hc. fold cf in Hc.
  destruct (flags_refused cf); [eexists _, _; split; [done|by apply early_failure]|rewrite post_next by done].
  unfold mbind at 1, M_bind at 1.
  assert ((if hasb cf CLONE_THREAD then mret tt else acquire RDelayedNode) (Kst h c0 a1 a2 a3 a4)
          = Ok (tt, Kst (stk_out cf h) c0 a1 a2 a3 a4)) as ->
    by (unfold stk_out, unless; by destruct (hasb cf CLONE_THREAD)).
  cbv beta iota. destruct (t_sigpending current); [fail_at fork_out_ok|rewrite post_next by done].
  past_call fork_out_ok.
  destruct (ans E CopyCreds <? 0); [fail_at bad_fork_free_ok|rewrite post_next by done]. frun.
  destruct (over_nproc E); [fail_at bad_fork_cleanup_count_ok|rewrite post_next by done].
  destruct (max_threads E <=? a1); [fail_at bad_fork_cleanup_count_ok|rewrite post_next by done].
  past_call bad_fork_cleanup_threadgroup_lock_ok.
  past_call bad_fork_cleanup_policy_ok.
  past_call bad_fork_cleanup_policy_ok.
  past_call bad_fork_cleanup_perf_ok.
  past_call bad_fork_cleanup_audit_ok.
  past_call bad_fork_cleanup_security_ok.
  exact Hc.
Qed.

(** ** Theorems *)

(** C6: [copy_process] implements its flat specification on every input: it
    never gives back what it does not hold, it returns the code of the first
    point of failure in order with every resource released and the counters
    unchanged (a failure after the key-value store was made keeps only that
    store), and otherwise it returns the child the flags describe, holding
    exactly what that child needs, with the counters advanced. *)
Theorem copy_process_refines_spec args idle s :
  exists r s', copy_process args idle s = Ok (r, s') /\
    fork_post (early_failures idle (flags args) (nr_threads s)) args idle s r s'.
Proof. apply copy_process_cases. Qed.

(** A successful call passed every check. *)
Lemma first_hit_none l : first_hit l = None -> Forall (fun f => fst f = false) l.
Proof.
  unfold first_hit. induction l as [|[[] e] l IH]; cbn; intros H; [done|discriminate|].
  constructor; [done|]. by apply IH.
Qed.

Lemma copy_process_created args idle s c s' :
  copy_process args idle s = Ok (inr c, s') ->
  c = new_child args idle /\ flags_refused (flags args) = false.
Proof.
  intros Hr. destruct (copy_process_cases args idle s) as (r & s2 & H2 & Hp).
  rewrite Hr in H2. injection H2 as <- <-. unfold fork_post in Hp.
  destruct (first_hit (early_failures _ _ _)) eqn:He; [by destruct Hp|].
  destruct (first_hit late_failures); [by destruct Hp|]. destruct Hp as [Hc _]. injection Hc as Hc.
  split; [done|]. apply first_hit_none in He. unfold early_failures, start_failures in He.
  cbn [app] in He. inversion He as [|? ? H1]. exact H1.
Qed.

(** The flags of a thread. *)
Lemma thread_flags cf :
  flags_refused cf = false -> hasb cf CLONE_THREAD = true ->
  hasb cf CLONE_SIGHAND = true /\ hasb cf CLONE_VM = true /\ hasb cf CLONE_PIDFD = false /\
  hasb cf CLONE_NEWUSER = false /\ hasb cf CLONE_NEWPID = false.
Proof.
  unfold flags_refused. rewrite !hasb_lor_r. intros H Ht. rewrite Ht in H.
  rewrite !orb_false_iff in H. destruct H as [[[[[[[_ _] H1] H2] _] H3] _] H4].
  destruct (hasb cf CLONE_SIGHAND); [|done]. destruct (hasb cf CLONE_VM); [|done].
  destruct (hasb cf CLONE_PIDFD); [by rewrite orb_true_r in H4|].
  destruct (hasb cf CLONE_NEWUSER); [done|]. destruct (hasb cf CLONE_NEWPID); done.
Qed.

(** A child created with CLONE_THREAD is a member of its creator's thread
    group and shares its address space, signal handlers and key-value store; a
    child created without it leads a group of its own, named by its pid, and
    never has its creator's store. *)
Theorem created_child_identity args idle s c s' :
  copy_process args idle s = Ok (inr c, s') ->
  if hasb (flags args) CLONE_THREAD then
    p_tgid c = t_tgid current /\ p_leader c = t_leader current /\ p_exit_signal c = -1 /\
    p_real_parent c = t_real_parent current /\ p_sighand c = Some true /\
    (t_has_mm current = true -> p_mm c = Some true) /\ p_kv c = Some true /\
    RPidfd ∉ own idle (flags args) c
  else
    p_tgid c = p_pid c /\ p_leader c = p_pid c /\ p_kv c <> Some true.
Proof.
  intros Hr. destruct (copy_process_created args idle s c s' Hr) as [-> Hf].
  destruct (hasb (flags args) CLONE_THREAD) eqn:Ht.
  - destruct (thread_flags _ Hf Ht) as (H1 & H2 & H3 & _).
    unfold new_child, kv_of, copied, own, unless, opt_res. cbn. rewrite hasb_lor_r, Ht, H1, H2, H3, orb_true_r.
    cbn [negb]. split_and!; try done; [by intros ->|].
    destruct idle, (t_has_files current), (t_has_mm current), (t_io current) as [[]|], (hasb (flags args) CLONE_IO);
      cbn; rewrite list_elem_of_In; cbn; intuition discriminate.
  - unfold new_child, kv_of. cbn. rewrite Ht. split_and!; try done. by destruct (kv_own _).
Qed.

(** When every earlier step succeeds, both allocations of the child's store
    included, and a late check then refuses the child (the cgroup controllers, a
    dying pid namespace, a fatal signal), [copy_process] returns the error with
    the store still allocated: no label frees it. *)
Theorem late_failure_leaks_store args idle s e :
  first_hit (early_failures idle (flags args) (nr_threads s)) = None ->
  first_hit late_failures = Some e ->
  kv_own (flags args) = true ->
  exists s', copy_process args idle s = Ok (inl e, s') /\ held s' = RKvLocks :: RKvStore :: held s.
Proof.
  intros H1 H2 H3. destruct (copy_process_cases args idle s) as (r & s2 & Hr & Hp).
  unfold fork_post in Hp. rewrite H1, H2 in Hp. destruct Hp as (-> & Hh & _).
  exists s2. split; [done|]. rewrite Hh. unfold kv_res. by rewrite H3.
Qed.

End Fork.

(** ** Witnesses *)

(** A shell with pid 100, everything available; and the same when the cgroup
    controller refuses with EAGAIN. *)
Definition env_ok : fork_env := ForkEnv (fun c => match c with GetUnusedFd => 5 | _ => 0 end) false 32000 101 true.
Definition env_cg : fork_env :=
  ForkEnv (fun c => match c with CgroupCanFork => - Errno.EAGAIN | _ => 0 end) false 32000 101 true.
Definition shell : task := Task 100 100 100 1 17 true true false None false true true false false.
Definition fork_kargs (fl sig : Z) : kernel_clone_args := Kargs fl 0 0 0 sig 0 0 0 [] 0 false.
Definition kst0 : kstate := Kst [] (child0 (fork_kargs 0 0)) 57 40 1000 1.
Definition thread_fl : Z := 0x10f00.

Lemma created_child_identity_witness :
  p_tgid (new_child env_ok shell (fork_kargs thread_fl 0) false) = 100 /\
  p_kv (new_child env_ok shell (fork_kargs thread_fl 0) false) = Some true.
Proof.
  destruct (copy_process env_ok shell (fork_kargs thread_fl 0) false kst0) as [[r s']|f] eqn:Hr;
    [|vm_compute in Hr; discriminate].
  pose proof Hr as Hr2. vm_compute in Hr2. injection Hr2 as H1 H2. subst r.
  destruct (created_child_identity env_ok shell (fork_kargs thread_fl 0) false kst0 _ s' Hr)
    as (G1 & _ & _ & _ & _ & _ & G2 & _).
  split; [exact G1|exact G2].
Defined.

Lemma late_failure_leaks_store_witness :
  exists s', copy_process env_cg shell (fork_kargs 0 17) false kst0 = Ok (inl (- Errno.EAGAIN), s') /\
    held s' = [RKvLocks; RKvStore].
Proof. apply (late_failure_leaks_store env_cg shell (fork_kargs 0 17) false kst0); vm_compute; reflexivity. Defined.
