(* ===== verification/Clone.v ===== *)
(** * Clone: the entry points that create tasks

    Models, over [copy_process] of [Fork], the rest of the way from user space in
    [kernel/fork.c]: [kernel_clone], the system calls
    [fork], [vfork], [clone] and [clone3] with the reading and checking of
    [struct clone_args], and the in-kernel callers [kernel_thread],
    [create_io_thread] and [fork_idle].  Reading user memory is an interface
    whose laws are the documented behaviour of [copy_struct_from_user] and
    [copy_from_user]. *)

From Stdlib Require Import ZArith Lia.
From stdpp Require Import base list.
From S2P Require Import Prelude Bytes Fork.

Definition SIGCHLD : Z := 17.
Definition PTRACE_EVENT_FORK : Z := 1.
Definition PTRACE_EVENT_VFORK : Z := 2.
Definition PTRACE_EVENT_CLONE : Z := 3.
Definition PTRACE_EVENT_VFORK_DONE : Z := 5.
Definition CLONE_ARGS_SIZE_VER0 : Z := 64.
Definition CLONE_ARGS_SIZE_VER2 : Z := 88.
Definition PAGE_SIZE : Z := 4096.
Definition MAX_PID_NS_LEVEL : Z := 32.
Definition INT_MAX : Z := 2147483647.
Definition NSIG : Z := 64.

(** ** Interfaces *)

(** What user space sees of a call that created a task, in order. *)
Inductive event :=
  | PutTid (addr nr : Z)           (** put_user of the child's pid *)
  | WakeUp (pid : Z)               (** wake_up_new_task *)
  | PtraceEvent (ev nr : Z)
  | VforkWait (pid : Z).           (** blocked until the child releases the mm *)

(** Tracing and waiting, as the rest of the kernel answers. *)
Record clone_env := CloneEnv {
  ptrace_event_enabled : Z -> bool;
  pid_vnr : Z -> Z;
  wait_killed : bool;            (** wait_for_completion_killable is interrupted *)
  config_mmu : bool              (** CONFIG_MMU *)
}.

(** User memory: [user addr n] are the [n] bytes at [addr], if readable. *)
Class UserMem := {
  user : Z -> Z -> option (list Z);
  copy_struct_from_user : Z -> Z -> Z -> Z + list Z;    (** ksize, src, usize *)
  access_ok : Z -> Z -> bool
}.

Definition zeros (n : Z) : list Z := replicate (Z.to_nat n) 0.

(** The documented contract: a short struct is extended with zeros, a long one
    must be zero where the kernel does not know it. *)
Class UserMemLaws (U : UserMem) : Prop := {
  user_length a n bs : user a n = Some bs -> Z.of_nat (List.length bs) = n;
  copy_struct_short ks a us bs : user a us = Some bs -> us <= ks ->
    copy_struct_from_user ks a us = inr (bs ++ zeros (ks - us));
  copy_struct_long ks a us bs : user a us = Some bs -> ks < us ->
    copy_struct_from_user ks a us =
      if forallb (Z.eqb 0) (drop (Z.to_nat ks) bs) then inr (take (Z.to_nat ks) bs)
      else inl (- Errno.E2BIG);
  copy_struct_fault ks a us : user a us = None -> copy_struct_from_user ks a us = inl (- Errno.EFAULT)
}.

(** ** struct clone_args *)

Record clone_args := Cargs {
  u_flags : Z; u_pidfd : Z; u_child_tid : Z; u_parent_tid : Z; u_exit_signal : Z;
  u_stack : Z; u_stack_size : Z; u_tls : Z; u_set_tid : Z; u_set_tid_size : Z; u_cgroup : Z
}.

Definition word (bs : list Z) (i : Z) : Z := le_val (slice bs (8 * i) 8).

Definition decode_args (bs : list Z) : clone_args :=
  Cargs (word bs 0) (word bs 1) (word bs 2) (word bs 3) (word bs 4) (word bs 5) (word bs 6)
        (word bs 7) (word bs 8) (word bs 9) (word bs 10).

(** The pids of [set_tid], 32-bit each. *)
Fixpoint decode_pids (n : nat) (bs : list Z) : list Z :=
  match n with
  | O => []
  | S n' => s32 (le_val (take 4 bs)) :: decode_pids n' (drop 4 bs)
  end.

Section Clone.
Context (E : fork_env) (current : task) (K : clone_env) `{U : UserMem}.

(** ** kernel_clone *)

Definition trace_of (args : kernel_clone_args) : Z :=
  if hasb (flags args) CLONE_UNTRACED then 0
  else
    let trace := if hasb (flags args) CLONE_VFORK then PTRACE_EVENT_VFORK
                 else if negb (exit_signal args =? SIGCHLD) then PTRACE_EVENT_CLONE
                 else PTRACE_EVENT_FORK in
    if negb (ptrace_event_enabled K trace) then 0 else trace.

(** The answer of the wait; the wait itself is modelled in [Vfork]. *)
Definition vfork_wait (c : child) : list event * bool := ([VforkWait (p_pid c)], wait_killed K).

Definition kernel_clone (args : kernel_clone_args) : M kstate (Z * list event) :=
  let cf := flags args in
  if hasb cf CLONE_PIDFD && hasb cf CLONE_PARENT_SETTID && (pidfd args =? parent_tid args) then
    mret (- Errno.EINVAL, [])
  else
    let trace := trace_of args in
    r ← copy_process E current args false;
    match r with
    | inl err => mret (err, [])
    | inr c =>
        let nr := pid_vnr K (p_pid c) in
        let settid := if hasb cf CLONE_PARENT_SETTID then [PutTid (parent_tid args) nr] else [] in
        let traced := if negb (trace =? 0) then [PtraceEvent trace nr] else [] in
        let waited := if hasb cf CLONE_VFORK then
                        let '(ev, killed) := vfork_wait c in
                        ev ++ (if killed then [] else [PtraceEvent PTRACE_EVENT_VFORK_DONE nr])
                      else [] in
        mret (nr, settid ++ [WakeUp (p_pid c)] ++ traced ++ waited)
    end.

(** ** The callers *)

Definition lower_32_bits (x : Z) : Z := u32 x.

Definition kernel_thread (fn arg fl : Z) : M kstate (Z * list event) :=
  kernel_clone (Kargs (Z.ldiff (Z.lor (Z.lor (lower_32_bits fl) CLONE_VM) CLONE_UNTRACED) CSIGNAL)
                  0 0 0 (Z.land (lower_32_bits fl) CSIGNAL) fn arg 0 [] 0 false).

Definition io_thread_flags : Z :=
  Z.lor CLONE_FS (Z.lor CLONE_FILES (Z.lor CLONE_SIGHAND (Z.lor CLONE_THREAD CLONE_IO))).

Definition create_io_thread (fn arg : Z) : M kstate fork_result :=
  copy_process E current
    (Kargs (Z.ldiff (Z.lor (Z.lor (lower_32_bits io_thread_flags) CLONE_VM) CLONE_UNTRACED) CSIGNAL)
       0 0 0 (Z.land (lower_32_bits io_thread_flags) CSIGNAL) fn arg 0 [] 0 true) false.

Definition fork_idle : M kstate fork_result :=
  copy_process E current (Kargs CLONE_VM 0 0 0 0 0 0 0 [] 0 false) true.

Definition sys_fork : M kstate (Z * list event) :=
  if config_mmu K then kernel_clone (Kargs 0 0 0 0 SIGCHLD 0 0 0 [] 0 false)
  else mret (- Errno.EINVAL, []).

Definition sys_vfork : M kstate (Z * list event) :=
  kernel_clone (Kargs (Z.lor CLONE_VFORK CLONE_VM) 0 0 0 SIGCHLD 0 0 0 [] 0 false).

Definition sys_clone (clone_flags newsp parent_tidptr child_tidptr tls : Z) : M kstate (Z * list event) :=
  kernel_clone (Kargs (Z.ldiff (lower_32_bits clone_flags) CSIGNAL) parent_tidptr child_tidptr parent_tidptr
                  (Z.land (lower_32_bits clone_flags) CSIGNAL) newsp 0 tls [] 0 false).

(** ** clone3 *)

Definition valid_signal (sig : Z) : bool := sig <=? NSIG.

(** The checks on the struct once it is in the kernel, and the kernel's copy. *)
Definition accept_clone_args (args : clone_args) (usize : Z) : Z + kernel_clone_args :=
  if MAX_PID_NS_LEVEL <? u_set_tid_size args then inl (- Errno.EINVAL)
  else if (u_set_tid args =? 0) && (0 <? u_set_tid_size args) then inl (- Errno.EINVAL)
  else if negb (u_set_tid args =? 0) && (u_set_tid_size args =? 0) then inl (- Errno.EINVAL)
  else if negb (Z.ldiff (u_exit_signal args) CSIGNAL =? 0) || negb (valid_signal (u_exit_signal args)) then
    inl (- Errno.EINVAL)
  else if hasb (u_flags args) CLONE_INTO_CGROUP &&
          ((INT_MAX <? u_cgroup args) || (usize <? CLONE_ARGS_SIZE_VER2)) then inl (- Errno.EINVAL)
  else
    let kargs tids := Kargs (u_flags args) (u_pidfd args) (u_child_tid args) (u_parent_tid args)
                        (u_exit_signal args) (u_stack args) (u_stack_size args) (u_tls args)
                        tids (s32 (u_cgroup args)) false in
    if u_set_tid args =? 0 then inr (kargs [])
    else match user (u_set_tid args) (u_set_tid_size args * 4) with
         | None => inl (- Errno.EFAULT)
         | Some bs => inr (kargs (decode_pids (Z.to_nat (u_set_tid_size args)) bs))
         end.

Definition copy_clone_args_from_user (uargs usize : Z) : Z + kernel_clone_args :=
  if PAGE_SIZE <? usize then inl (- Errno.E2BIG)
  else if usize <? CLONE_ARGS_SIZE_VER0 then inl (- Errno.EINVAL)
  else match copy_struct_from_user CLONE_ARGS_SIZE_VER2 uargs usize with
       | inl err => inl err
       | inr bs => accept_clone_args (decode_args bs) usize
       end.

(** The check also moves the stack pointer to the top of the stack. *)
Definition clone3_stack_valid (k : kernel_clone_args) : option kernel_clone_args :=
  if stack k =? 0 then (if 0 <? stack_size k then None else Some k)
  else if stack_size k =? 0 then None
  else if negb (access_ok (stack k) (stack_size k)) then None
  else Some (Kargs (flags k) (pidfd k) (child_tid k) (parent_tid k) (exit_signal k)
               (u64 (stack k + stack_size k)) (stack_size k) (tls k) (set_tid k) (cgroup k) (io_thread k)).

Definition clone3_args_valid (k : kernel_clone_args) : option kernel_clone_args :=
  if negb (Z.ldiff (flags k) (Z.lor CLONE_LEGACY_FLAGS (Z.lor CLONE_CLEAR_SIGHAND CLONE_INTO_CGROUP)) =? 0) then None
  else if hasb (flags k) (Z.lor CLONE_DETACHED (Z.ldiff CSIGNAL CLONE_NEWTIME)) then None
  else if both (flags k) CLONE_SIGHAND CLONE_CLEAR_SIGHAND then None
  else if hasb (flags k) (Z.lor CLONE_THREAD CLONE_PARENT) && negb (exit_signal k =? 0) then None
  else clone3_stack_valid k.

Definition sys_clone3 (uargs size : Z) : M kstate (Z * list event) :=
  match copy_clone_args_from_user uargs size with
  | inl err => mret (err, [])
  | inr kargs =>
      match clone3_args_valid kargs with
      | None => mret (- Errno.EINVAL, [])
      | Some kargs => kernel_clone kargs
      end
  end.

(** ** Reading struct clone_args *)

Definition args_words (c : clone_args) : list Z :=
  [u_flags c; u_pidfd c; u_child_tid c; u_parent_tid c; u_exit_signal c; u_stack c; u_stack_size c;
   u_tls c; u_set_tid c; u_set_tid_size c; u_cgroup c].

(** The struct as the caller lays it out. *)
Definition encode_args (c : clone_args) : list Z := mjoin (le_bytes 8 <$> args_words c).

Lemma drop_words i (ws : list Z) :
  drop (8 * i) (mjoin (le_bytes 8 <$> ws)) = mjoin (le_bytes 8 <$> drop i ws).
Proof.
  revert i. induction ws as [|w ws IH]; intros i; [cbn [fmap list_fmap mjoin list_join]; by rewrite !drop_nil|].
  destruct i as [|i]; [done|]. rewrite fmap_cons. cbn [drop mjoin list_join].
  replace (8 * S i)%nat with (8 + 8 * i)%nat by lia.
  rewrite <- drop_drop, drop_app_length' by (by rewrite length_le_bytes). apply IH.
Qed.

Lemma word_encode (ws : list Z) i w :
  ws !! i = Some w -> is_u 64 w -> word (mjoin (le_bytes 8 <$> ws)) (Z.of_nat i) = w.
Proof.
  intros Hi Hw. unfold word, slice.
  replace (Z.to_nat (8 * Z.of_nat i)) with (8 * i)%nat by lia. rewrite drop_words.
  rewrite (drop_S _ _ _ Hi), fmap_cons. cbn [mjoin list_join]. change (Z.to_nat 8) with 8%nat.
  rewrite take_app_length' by (by rewrite length_le_bytes). by apply le_val_bytes.
Qed.

Lemma decode_encode c : Forall (is_u 64) (args_words c) -> decode_args (encode_args c) = c.
Proof.
  intros Hc. rewrite Forall_lookup in Hc. unfold decode_args, encode_args.
  destruct c; f_equal; match goal with |- word _ ?i = _ =>
    apply (word_encode _ (Z.to_nat i)); [done|by apply (Hc (Z.to_nat i))] end.
Qed.

Lemma length_encode c : List.length (encode_args c) = 88%nat.
Proof. done. Qed.

Lemma zeros_zero n : forallb (Z.eqb 0) (zeros n) = true.
Proof. unfold zeros. by induction (Z.to_nat n). Qed.

(** What the kernel has after copying, when the caller's bytes, extended with zeros
    to the kernel's struct if they are shorter, are a struct and a tail. *)
Lemma struct_copied `{!UserMemLaws U} c tail bs uargs usize :
  user uargs usize = Some bs -> bs ++ zeros (CLONE_ARGS_SIZE_VER2 - usize) = encode_args c ++ tail ->
  copy_struct_from_user CLONE_ARGS_SIZE_VER2 uargs usize =
    if forallb (Z.eqb 0) tail then inr (encode_args c) else inl (- Errno.E2BIG).
Proof.
  intros Hu He. pose proof (user_length _ _ _ Hu) as Hn. pose proof (length_encode c) as Hl.
  destruct (Z.le_gt_cases usize CLONE_ARGS_SIZE_VER2) as [Hle|Hgt].
  - rewrite (copy_struct_short _ _ _ _ Hu Hle), He. pose proof (f_equal List.length He) as Hlen.
    rewrite !length_app, Hl in Hlen. unfold zeros in Hlen. rewrite length_replicate in Hlen.
    unfold CLONE_ARGS_SIZE_VER2 in *. destruct tail; [by rewrite app_nil_r|cbn in Hlen; lia].
  - rewrite (copy_struct_long _ _ _ _ Hu Hgt).
    assert (zeros (CLONE_ARGS_SIZE_VER2 - usize) = []) as Ez
      by (unfold zeros; by replace (Z.to_nat (CLONE_ARGS_SIZE_VER2 - usize)) with 0%nat by lia).
    rewrite Ez, app_nil_r in He. rewrite He, drop_app_length', take_app_length' by (rewrite Hl; done). done.
Qed.

(** ** Flag arithmetic *)

Lemma ldiff_lor_low fl sig : Z.land fl CSIGNAL = 0 -> Z.land sig CSIGNAL = sig ->
  Z.ldiff (Z.lor fl sig) CSIGNAL = fl /\ Z.land (Z.lor fl sig) CSIGNAL = sig.
Proof.
  intros H1 H2. split.
  - apply Z.bits_inj'. intros n Hn. rewrite Z.ldiff_spec, Z.lor_spec.
    apply (f_equal (fun z => Z.testbit z n)) in H1, H2. rewrite Z.land_spec in H1, H2.
    rewrite Z.bits_0 in H1. destruct (Z.testbit fl n), (Z.testbit sig n), (Z.testbit CSIGNAL n); done.
  - by rewrite Z.land_lor_distr_l, H1, H2.
Qed.

Lemma high_bit z w n : is_u w z -> w <= n -> Z.testbit z n = false.
Proof.
  intros [H0 H1] Hn. destruct (Z.eq_dec z 0) as [->|]; [apply Z.bits_0|].
  apply Z.bits_above_log2; [done|]. apply Z.log2_lt_pow2; [lia|].
  eapply Z.lt_le_trans; [done|]. apply Z.pow_le_mono_r; lia.
Qed.

(** ** The accepted calls *)

(** The fields that are checked while the struct is read: both or neither of the
    pointer and the number of pids, at most one pid for each level, a signal that
    exists, and a descriptor for the control group if one is asked for, which only
    the newest struct has. *)
Definition header_fine (c : clone_args) (usize : Z) : Prop :=
  (u_set_tid c = 0 <-> u_set_tid_size c = 0) /\ u_set_tid_size c <= 32 /\ u_exit_signal c <= 64 /\
  (Z.testbit (u_flags c) 33 = true -> u_cgroup c < 2 ^ 31 /\ 88 <= usize).

(** No unknown flag, no bit of the old signal field but CLONE_NEWTIME's, no
    CLONE_DETACHED; not both CLONE_SIGHAND and CLONE_CLEAR_SIGHAND; no signal with
    CLONE_PARENT or CLONE_THREAD. *)
Definition flags_fine (c : clone_args) : Prop :=
  let bit := Z.testbit (u_flags c) in
  u_flags c < 2 ^ 34 /\ u_flags c mod 2 ^ 7 = 0 /\ bit 22 = false /\
  (bit 11 = true -> bit 32 = false) /\ (bit 15 = true \/ bit 16 = true -> u_exit_signal c = 0).

(** No stack, or one in user space. *)
Definition stack_fine (c : clone_args) : Prop :=
  (u_stack c = 0 <-> u_stack_size c = 0) /\ (u_stack c <> 0 -> access_ok (u_stack c) (u_stack_size c) = true).

#[global] Instance header_fine_dec c usize : Decision (header_fine c usize).
Proof. unfold header_fine. apply _. Defined.
#[global] Instance flags_fine_dec c : Decision (flags_fine c).
Proof. unfold flags_fine. apply _. Defined.
#[global] Instance stack_fine_dec c : Decision (stack_fine c).
Proof. unfold stack_fine. apply _. Defined.

(** The pids asked for. *)
Definition pids_of (c : clone_args) : option (list Z) :=
  if u_set_tid c =? 0 then Some []
  else decode_pids (Z.to_nat (u_set_tid_size c)) <$> user (u_set_tid c) (u_set_tid_size c * 4).

(** What [kernel_clone] is called with, for a stack pointer [sp]. *)
Definition kargs_of (c : clone_args) (tids : list Z) (sp : Z) : kernel_clone_args :=
  Kargs (u_flags c) (u_pidfd c) (u_child_tid c) (u_parent_tid c) (u_exit_signal c) sp (u_stack_size c)
    (u_tls c) tids (s32 (u_cgroup c)) false.

Lemma ldiff_ones z n : 0 <= z -> 0 <= n -> (Z.ldiff z (Z.ones n) =? 0) = (z <? 2 ^ n).
Proof.
  intros Hz Hn. rewrite Z.ldiff_ones_r, Z.shiftr_div_pow2, Z.shiftl_mul_pow2 by done.
  assert (0 < 2 ^ n) by (apply Z.pow_pos_nonneg; lia). pose proof (Z.div_pos z (2 ^ n) Hz).
  destruct (Z.ltb_spec z (2 ^ n)); [by rewrite Z.div_small by lia|].
  apply Z.eqb_neq. assert (1 <= z / 2 ^ n) by (apply Z.div_le_lower_bound; lia). nia.
Qed.

Lemma both_bits z i j : 0 <= i < j -> both z (2 ^ i) (2 ^ j) = Z.testbit z i && Z.testbit z j.
Proof.
  intros Hij. unfold both. rewrite Z.land_lor_distr_r, !land_bit by lia.
  assert (0 < 2 ^ i) by (apply Z.pow_pos_nonneg; lia). assert (0 < 2 ^ j) by (apply Z.pow_pos_nonneg; lia).
  assert (2 ^ i < 2 ^ j) by (apply Z.pow_lt_mono_r; lia).
  assert (Z.testbit (Z.lor (2 ^ i) (2 ^ j)) i = true) as Hi by (by rewrite Z.lor_spec, Z.pow2_bits_true by lia).
  assert (Z.testbit (Z.lor (2 ^ i) (2 ^ j)) j = true) as Hj
    by (by rewrite Z.lor_spec, (Z.pow2_bits_true j), orb_true_r by lia).
  destruct (Z.testbit z i) eqn:Ei, (Z.testbit z j) eqn:Ej; cbn [andb]; [by apply Z.eqb_eq|..];
    apply Z.eqb_neq; intros E0; rewrite <- E0 in Hi, Hj.
  - rewrite Z.lor_0_r, Z.pow2_bits_false in Hj by lia. done.
  - rewrite Z.lor_0_l, Z.pow2_bits_false in Hi by lia. done.
  - by rewrite Z.bits_0 in Hi.
Qed.

(** The checks on the struct are the conditions above. *)
Lemma accept_spec c usize :
  Forall (is_u 64) (args_words c) ->
  accept_clone_args c usize =
    if bool_decide (header_fine c usize) then
      match pids_of c with
      | None => inl (- Errno.EFAULT)
      | Some tids => inr (kargs_of c tids (u_stack c))
      end
    else inl (- Errno.EINVAL).
Proof.
  intros Hc. unfold args_words in Hc. rewrite !Forall_cons in Hc.
  destruct Hc as (Hf & _ & _ & _ & He & _ & _ & _ & Ht & Hn & Hg & _). unfold accept_clone_args.
  unfold is_u in *. change CSIGNAL with (Z.ones 8). rewrite ldiff_ones by lia.
  change CLONE_INTO_CGROUP with (2 ^ 33). rewrite hasb_bit by lia.
  assert ((if u_set_tid c =? 0 then inr (kargs_of c [] (u_stack c))
           else match user (u_set_tid c) (u_set_tid_size c * 4) with
                | None => inl (- Errno.EFAULT)
                | Some bs => inr (kargs_of c (decode_pids (Z.to_nat (u_set_tid_size c)) bs) (u_stack c))
                end) =
          match pids_of c with None => inl (- Errno.EFAULT) | Some tids => inr (kargs_of c tids (u_stack c)) end) as Hp
    by (unfold pids_of; destruct (u_set_tid c =? 0); [done|]; by destruct (user _ _)).
  unfold kargs_of at 1 2 in Hp. rewrite Hp. clear Hp.
  unfold valid_signal, MAX_PID_NS_LEVEL, NSIG, INT_MAX, CLONE_ARGS_SIZE_VER2. change (2 ^ 8) with 256.
  case_bool_decide as Hh; unfold header_fine in Hh; change (2 ^ 31) with 2147483648 in Hh.
  - destruct Hh as (Hst & Hsz & Hsg & Hcg).
    rewrite (proj2 (Z.ltb_ge _ _) Hsz), (proj2 (Z.leb_le _ _) Hsg), (proj2 (Z.ltb_lt (u_exit_signal c) 256)) by lia.
    destruct (Z.eqb_spec (u_set_tid c) 0), (Z.ltb_spec 0 (u_set_tid_size c)), (Z.eqb_spec (u_set_tid_size c) 0);
      cbn [negb andb orb]; try lia;
      (destruct (Z.testbit (u_flags c) 33); [|done]); destruct (Hcg eq_refl);
      by rewrite (proj2 (Z.ltb_ge 2147483647 _)), (proj2 (Z.ltb_ge usize 88)) by lia.
  - destruct (Z.ltb_spec 32 (u_set_tid_size c)); [done|].
    destruct (Z.eqb_spec (u_set_tid c) 0), (Z.ltb_spec 0 (u_set_tid_size c)), (Z.eqb_spec (u_set_tid_size c) 0);
      cbn [negb andb]; try done; try lia;
      (destruct (Z.leb_spec (u_exit_signal c) 64); [|by rewrite orb_true_r]);
      rewrite (proj2 (Z.ltb_lt (u_exit_signal c) 256)) by lia; cbn [negb orb];
      (destruct (Z.testbit (u_flags c) 33); cbn [andb]; [|destruct Hh; split_and!; try done; lia]);
      destruct (Z.ltb_spec 2147483647 (u_cgroup c)), (Z.ltb_spec usize 88); cbn [orb]; try done;
      destruct Hh; split_and!; try done; lia.
Qed.

Lemma flags_spec c tids sp :
  Forall (is_u 64) (args_words c) ->
  clone3_args_valid (kargs_of c tids sp) =
    if bool_decide (flags_fine c) then clone3_stack_valid (kargs_of c tids sp) else None.
Proof.
  intros Hc. unfold args_words in Hc. rewrite !Forall_cons in Hc. destruct Hc as ([Hf _] & _).
  unfold clone3_args_valid. cbn [flags exit_signal kargs_of].
  change (Z.lor CLONE_LEGACY_FLAGS (Z.lor CLONE_CLEAR_SIGHAND CLONE_INTO_CGROUP)) with (Z.ones 34).
  rewrite ldiff_ones by lia.
  change CLONE_CLEAR_SIGHAND with (2 ^ 32). change CLONE_SIGHAND with (2 ^ 11). rewrite both_bits by lia.
  change CLONE_DETACHED with (2 ^ 22). change CLONE_THREAD with (2 ^ 16). change CLONE_PARENT with (2 ^ 15).
  rewrite !hasb_lor_r, !hasb_bit by lia. unfold hasb.
  change (Z.ldiff CSIGNAL CLONE_NEWTIME) with (Z.ones 7). rewrite Z.land_ones by lia.
  case_bool_decide as Hh; unfold flags_fine in Hh; cbv zeta in Hh; set (bit := Z.testbit (u_flags c)) in *.
  - destruct Hh as (Hk & Hm & H22 & Hsh & Hsg). rewrite (proj2 (Z.ltb_lt _ _) Hk), Hm, H22. cbn [negb orb Z.eqb].
    destruct (bit 11), (bit 32), (bit 15), (bit 16); try (by discriminate Hsh); cbn [andb orb];
      by rewrite ?Hsg by auto.
  - destruct (Z.ltb_spec (u_flags c) (2 ^ 34)), (bit 22), (Z.eqb_spec (u_flags c mod 2 ^ 7) 0); cbn [negb orb]; try done.
    destruct (bit 11), (bit 32), (bit 15), (bit 16), (Z.eqb_spec (u_exit_signal c) 0); cbn [andb orb negb]; try done;
      destruct Hh; split_and!; naive_solver.
Qed.

Lemma stack_spec c tids :
  Forall (is_u 64) (args_words c) ->
  clone3_stack_valid (kargs_of c tids (u_stack c)) =
    if bool_decide (stack_fine c) then Some (kargs_of c tids (u64 (u_stack c + u_stack_size c))) else None.
Proof.
  intros Hc. unfold args_words in Hc. rewrite !Forall_cons in Hc. destruct Hc as (_ & _ & _ & _ & _ & _ & [Hz _] & _).
  unfold clone3_stack_valid. cbn [stack stack_size kargs_of]. case_bool_decide as Hh; unfold stack_fine in Hh.
  - destruct Hh as [Hs Ha]. destruct (Z.eqb_spec (u_stack c) 0) as [E0|E0].
    + assert (u_stack_size c = 0) as E1 by tauto. by rewrite E0, E1.
    + rewrite (proj2 (Z.eqb_neq (u_stack_size c) 0)), Ha by tauto. done.
  - destruct (Z.eqb_spec (u_stack c) 0) as [E0|E0], (Z.ltb_spec 0 (u_stack_size c)), (Z.eqb_spec (u_stack_size c) 0);
      try done; try lia; try (destruct Hh; split; [lia|done]).
    destruct (access_ok (u_stack c) (u_stack_size c)); [destruct Hh; split; [lia|done]|done].
Qed.

(** A call that is refused before anything is done. *)
Definition refused (err : Z) (s : kstate) : res ((Z * list event) * kstate) := Ok ((- err, []), s).

(** The call with the struct in the kernel. *)
Definition clone3_call (c : clone_args) (usize : Z) (s : kstate) : res ((Z * list event) * kstate) :=
  if negb (bool_decide (header_fine c usize)) then refused Errno.EINVAL s
  else match pids_of c with
       | None => refused Errno.EFAULT s
       | Some tids =>
           if bool_decide (flags_fine c /\ stack_fine c) then
             kernel_clone (kargs_of c tids (u64 (u_stack c + u_stack_size c))) s
           else refused Errno.EINVAL s
       end.

Lemma clone3_value `{!UserMemLaws U} c tail bs uargs usize s :
  Forall (is_u 64) (args_words c) -> CLONE_ARGS_SIZE_VER0 <= usize <= PAGE_SIZE -> user uargs usize = Some bs ->
  bs ++ zeros (CLONE_ARGS_SIZE_VER2 - usize) = encode_args c ++ tail ->
  sys_clone3 uargs usize s = if forallb (Z.eqb 0) tail then clone3_call c usize s else refused Errno.E2BIG s.
Proof.
  intros Hc Hz Hu He. unfold sys_clone3, copy_clone_args_from_user.
  rewrite (proj2 (Z.ltb_ge PAGE_SIZE usize)), (proj2 (Z.ltb_ge usize CLONE_ARGS_SIZE_VER0)) by lia.
  rewrite (struct_copied c tail bs) by done. destruct (forallb (Z.eqb 0) tail); [|done].
  rewrite decode_encode, accept_spec by done. unfold clone3_call.
  destruct (bool_decide (header_fine c usize)); [|done]. cbn [negb]. destruct (pids_of c) as [tids|]; [|done].
  rewrite flags_spec, stack_spec by done.
  by destruct (decide (flags_fine c)), (decide (stack_fine c));
    rewrite ?(bool_decide_eq_true_2 (flags_fine c)), ?(bool_decide_eq_true_2 (stack_fine c)),
      ?(bool_decide_eq_false_2 (flags_fine c)), ?(bool_decide_eq_false_2 (stack_fine c)),
      ?bool_decide_eq_true_2, ?(bool_decide_eq_false_2 (_ /\ _)) by tauto.
Qed.

(** C32: [clone3] on every call.  A size below the first struct's or above a page and
    memory that cannot be read are refused; so is a larger struct with something
    set in the part this kernel does not know.  Otherwise, with the part of the
    struct a smaller size leaves out read as zero, it is refused exactly when the
    fields fail the conditions [header_fine], [flags_fine] and [stack_fine] or the
    pids cannot be read, in this order and without doing anything; and else it is
    [kernel_clone] with each field where it belongs, the pids asked for, and the
    stack pointer at the upper end of the stack. *)
Theorem clone3_refines_spec `{!UserMemLaws U} c tail uargs usize s :
  Forall (is_u 64) (args_words c) -> 0 <= usize ->
  (forall bs, user uargs usize = Some bs ->
     bs ++ zeros (CLONE_ARGS_SIZE_VER2 - usize) = encode_args c ++ tail) ->
  sys_clone3 uargs usize s =
    if decide (usize < 64) then refused Errno.EINVAL s
    else if decide (4096 < usize) then refused Errno.E2BIG s
    else if decide (user uargs usize = None) then refused Errno.EFAULT s
    else if decide (Forall (eq 0) tail) then clone3_call c usize s
    else refused Errno.E2BIG s.
Proof.
  intros Hc H0 Hu. destruct (decide (usize < 64)).
  { unfold sys_clone3, copy_clone_args_from_user.
    by rewrite (proj2 (Z.ltb_ge PAGE_SIZE usize)), (proj2 (Z.ltb_lt usize CLONE_ARGS_SIZE_VER0))
      by (unfold PAGE_SIZE, CLONE_ARGS_SIZE_VER0; lia). }
  destruct (decide (4096 < usize)).
  { unfold sys_clone3, copy_clone_args_from_user. by rewrite (proj2 (Z.ltb_lt PAGE_SIZE usize)) by (unfold PAGE_SIZE; lia). }
  destruct (user uargs usize) as [bs|] eqn:Hus; destruct (decide _) as [Hn|Hn]; [done| |..|by destruct Hn].
  - rewrite (clone3_value c tail bs) by (done || unfold PAGE_SIZE, CLONE_ARGS_SIZE_VER0; auto; lia).
    assert (forallb (Z.eqb 0) tail = true <-> Forall (eq 0) tail) as Hb.
    { rewrite forallb_forall, List.Forall_forall. by setoid_rewrite Z.eqb_eq. }
    destruct (decide (Forall (eq 0) tail)), (forallb (Z.eqb 0) tail); naive_solver.
  - unfold sys_clone3, copy_clone_args_from_user.
    rewrite (proj2 (Z.ltb_ge PAGE_SIZE usize)), (proj2 (Z.ltb_ge usize CLONE_ARGS_SIZE_VER0))
      by (unfold PAGE_SIZE, CLONE_ARGS_SIZE_VER0; lia). by rewrite copy_struct_fault.
Qed.

(** ** The interfaces *)

(** The struct of a legacy call without a stack of its own. *)
Definition legacy_args (fl sig ptid ctid tls : Z) : clone_args := Cargs fl ptid ctid ptid sig 0 0 tls 0 0 0.

(** A flags-and-signal pair that both interfaces accept. *)
Definition legacy_ok (fl sig : Z) : Prop :=
  sig <= NSIG /\ hasb fl CLONE_DETACHED = false /\ (hasb fl (Z.lor CLONE_THREAD CLONE_PARENT) = true -> sig = 0).
#[global] Instance legacy_ok_dec fl sig : Decision (legacy_ok fl sig).
Proof. unfold legacy_ok. apply _. Defined.

(** Flags without the signal's byte, and a signal in it. *)
Definition legacy_pair (fl sig : Z) : Prop := is_u 32 fl /\ Z.land fl CSIGNAL = 0 /\ is_u 8 sig.

Lemma legacy_fine fl sig ptid ctid tls0 :
  legacy_pair fl sig ->
  header_fine (legacy_args fl sig ptid ctid tls0) 64 /\ flags_fine (legacy_args fl sig ptid ctid tls0)
  <-> legacy_ok fl sig.
Proof.
  intros (Hf & Hc & Hs). unfold header_fine, flags_fine, legacy_ok, legacy_args. cbn -[Z.pow Z.testbit].
  rewrite (high_bit fl 32 33), (high_bit fl 32 32) by done.
  change CLONE_DETACHED with (2 ^ 22). change CLONE_THREAD with (2 ^ 16). change CLONE_PARENT with (2 ^ 15).
  rewrite hasb_lor_r, !hasb_bit, orb_true_iff by lia. unfold NSIG.
  assert (fl mod 2 ^ 7 = 0) as Hm.
  { rewrite <- Z.land_ones by lia. change (Z.ones 7) with (Z.land CSIGNAL (Z.ones 7)). by rewrite Z.land_assoc, Hc. }
  assert (fl < 2 ^ 34) by (destruct Hf; etransitivity; [done|]; by apply Z.pow_lt_mono_r).
  naive_solver lia.
Qed.

Lemma legacy_clone fl sig ptid ctid tls0 :
  legacy_pair fl sig ->
  sys_clone (Z.lor fl sig) 0 ptid ctid tls0 = kernel_clone (Kargs fl ptid ctid ptid sig 0 0 tls0 [] 0 false).
Proof.
  intros (Hf & Hc & Hs). unfold sys_clone, lower_32_bits.
  assert (Z.land sig CSIGNAL = sig) as Hl.
  { change CSIGNAL with (Z.ones 8). rewrite Z.land_ones by lia. by apply Z.mod_small. }
  assert (is_u 32 (Z.lor fl sig)) as Hu.
  { destruct (Z.eq_dec (Z.lor fl sig) 0) as [->|Hne]; [done|]. destruct Hf as [Hf0 Hf1], Hs as [Hs0 Hs1].
    assert (0 <= Z.lor fl sig) by (apply Z.lor_nonneg; lia). split; [done|].
    apply Z.log2_lt_pow2; [lia|]. rewrite Z.log2_lor by lia.
    apply Z.max_lub_lt; [destruct (Z.eq_dec fl 0) as [->|]|destruct (Z.eq_dec sig 0) as [->|]]; try done;
      apply Z.log2_lt_pow2; lia. }
  rewrite (uwrap_small 32) by done. destruct (ldiff_lor_low fl sig Hc Hl) as [-> ->]. done.
Qed.

Lemma legacy_words fl sig ptid ctid tls0 :
  legacy_pair fl sig -> is_u 64 ptid -> is_u 64 ctid -> is_u 64 tls0 ->
  Forall (is_u 64) (args_words (legacy_args fl sig ptid ctid tls0)).
Proof.
  intros ([Hf0 Hf1] & _ & [Hs0 Hs1]) ???.
  assert (is_u 64 0) by done. assert (is_u 64 fl) by (split; [done|]; etransitivity; [exact Hf1|done]).
  assert (is_u 64 sig) by (split; [done|]; etransitivity; [exact Hs1|done]).
  repeat (apply List.Forall_cons; [done|]). constructor.
Qed.

(** C33: the interfaces: with CONFIG_MMU [fork] is [clone] with SIGCHLD (without, it is
    refused), [vfork] is [clone] with CLONE_VFORK, CLONE_VM and SIGCHLD.  The
    [clone3] call that passes the arguments of a legacy [clone] call without a
    stack in a struct of the first version runs exactly as that call, with the
    same result, events and state, if the pair of flags and signal is one both
    accept; for the others, which [clone] takes (a signal above 64, CLONE_DETACHED,
    a signal with CLONE_THREAD or CLONE_PARENT), [clone3] is refused. *)
Theorem clone_interfaces_agree `{!UserMemLaws U} fl sig ptid ctid tls0 uargs s :
  legacy_pair fl sig -> is_u 64 ptid -> is_u 64 ctid -> is_u 64 tls0 ->
  user uargs 64 = Some (take 64 (encode_args (legacy_args fl sig ptid ctid tls0))) ->
  sys_clone3 uargs 64 s =
    (if bool_decide (legacy_ok fl sig) then sys_clone (Z.lor fl sig) 0 ptid ctid tls0 s
     else refused Errno.EINVAL s) /\
  sys_fork s = (if config_mmu K then sys_clone SIGCHLD 0 0 0 0 s else refused Errno.EINVAL s) /\
  sys_vfork s = sys_clone (Z.lor (Z.lor CLONE_VFORK CLONE_VM) SIGCHLD) 0 0 0 0 s.
Proof.
  intros Hl Hp Hc Ht Hu. split; [|split; [unfold sys_fork; by destruct (config_mmu K)|done]].
  rewrite (legacy_clone fl sig ptid ctid tls0 Hl).
  rewrite (clone3_value (legacy_args fl sig ptid ctid tls0) [] _ _ _ _ (legacy_words _ _ _ _ _ Hl Hp Hc Ht)
             ltac:(done) Hu) by (rewrite app_nil_r; done).
  cbn [forallb]. unfold clone3_call. pose proof (legacy_fine fl sig ptid ctid tls0 Hl) as Hok.
  set (a := legacy_args fl sig ptid ctid tls0) in *.
  assert (stack_fine a) as Hst by done. change (pids_of a) with (Some (@nil Z)). cbv iota.
  destruct (decide (legacy_ok fl sig)) as [Hy|Hn].
  - rewrite !bool_decide_eq_true_2 by tauto. done.
  - rewrite (bool_decide_eq_false_2 (legacy_ok _ _)) by done.
    destruct (decide (header_fine a 64)) as [Hh|Hh];
      [rewrite (bool_decide_eq_true_2 (header_fine _ _)), (bool_decide_eq_false_2 (_ /\ _)) by tauto
      |rewrite (bool_decide_eq_false_2 (header_fine _ _)) by tauto]; done.
Qed.

(** Every call of [kernel_clone] returns.  Without a child it returns an error
    and nothing happens in user space; with one it returns the child's pid, the
    pid is stored before the child first runs, and the child is woken once. *)
Theorem kernel_clone_wakes_once args s :
  exists r ev s', kernel_clone args s = Ok ((r, ev), s') /\
    (ev = [] /\ (r = - Errno.EINVAL /\ s' = s \/ copy_process E current args false s = Ok (inl r, s')) \/
     exists c post, copy_process E current args false s = Ok (inr c, s') /\ r = pid_vnr K (p_pid c) /\
       ev = (if hasb (flags args) CLONE_PARENT_SETTID then [PutTid (parent_tid args) r] else [])
              ++ WakeUp (p_pid c) :: post /\
       Forall (fun e => match e with WakeUp _ | PutTid _ _ => False | _ => True end) post).
Proof.
  unfold kernel_clone. destruct (hasb _ CLONE_PIDFD && _ && _).
  { eexists _, _, _. split; [done|]. left. auto. }
  destruct (copy_process_cases E current args false s) as (r & s' & Hr & _).
  unfold mbind, M_bind. rewrite Hr. destruct r as [e|c]; eexists _, _, _; (split; [done|]).
  - left. auto.
  - right. eexists c, _. split; [done|]. split; [done|]. split; [reflexivity|].
    unfold vfork_wait. destruct (negb _), (hasb _ CLONE_VFORK), (wait_killed K); cbn; repeat constructor.
Qed.

End Clone.

(** ** Witnesses *)

(** A user memory given by its readable ranges. *)
Definition mem_user (f : Z -> Z -> option (list Z)) : UserMem := {|
  user := f;
  copy_struct_from_user ks a us :=
    match f a us with
    | None => inl (- Errno.EFAULT)
    | Some bs => if us <=? ks then inr (bs ++ zeros (ks - us))
                 else if forallb (Z.eqb 0) (drop (Z.to_nat ks) bs) then inr (take (Z.to_nat ks) bs)
                 else inl (- Errno.E2BIG)
    end;
  access_ok a n := a + n <=? 2 ^ 47
|}.

Lemma mem_user_laws f :
  (forall a n bs, f a n = Some bs -> Z.of_nat (List.length bs) = n) -> UserMemLaws (mem_user f).
Proof.
  intros Hf. split; cbn; [exact Hf| | |].
  - intros ks a us bs -> H. by rewrite (proj2 (Z.leb_le _ _) H).
  - intros ks a us bs -> H. by rewrite (proj2 (Z.leb_gt _ _) H).
  - by intros ks a us ->.
Qed.

(** One struct at address 4096 of which [size] bytes can be read. *)
Definition one_struct (c : clone_args) (size : Z) (a n : Z) : option (list Z) :=
  if (a =? 4096) && (n =? size) && (0 <=? n) && (n <=? 88) then Some (take (Z.to_nat n) (encode_args c)) else None.

Lemma one_struct_length c size a n bs : one_struct c size a n = Some bs -> Z.of_nat (List.length bs) = n.
Proof.
  unfold one_struct. destruct (a =? 4096); [|done]. destruct (n =? size); [|done]. cbn [andb].
  destruct (Z.leb_spec 0 n), (Z.leb_spec n 88); try done. cbn [andb]. intros [= <-].
  rewrite length_take, length_encode. lia.
Qed.

Definition fork_struct : clone_args := legacy_args 0 SIGCHLD 0 0 0.
Definition clone_env0 : clone_env := CloneEnv (fun _ => false) (fun n => n) false true.

(** A struct that asks for a stack of two pages, and one whose stack has no size. *)
Definition stack_struct (size : Z) : clone_args := Cargs 0 0 0 0 SIGCHLD 8192 size 0 0 0 0.

Abbreviation stack_mem n := (mem_user (one_struct (stack_struct n) 64)) (only parsing).

Lemma stack_struct_words n : is_u 64 n -> Forall (is_u 64) (args_words (stack_struct n)).
Proof. intros Hn. repeat (apply List.Forall_cons; [done|]). constructor. Qed.

Lemma stack_struct_read n bs :
  user (UserMem := stack_mem n) 4096 64 = Some bs -> bs ++ zeros (CLONE_ARGS_SIZE_VER2 - 64) = encode_args (stack_struct n) ++ [].
Proof. intros H. apply Some_inj in H. by subst bs. Qed.

Lemma clone3_refines_spec_witness :
  sys_clone3 env_ok shell clone_env0 (U := stack_mem 8192) 4096 64 kst0
  = kernel_clone env_ok shell clone_env0 (Kargs 0 0 0 0 SIGCHLD 16384 8192 0 [] 0 false) kst0 /\
  sys_clone3 env_ok shell clone_env0 (U := stack_mem 0) 4096 64 kst0 = refused Errno.EINVAL kst0.
Proof.
  split.
  - rewrite (clone3_refines_spec env_ok shell clone_env0 (U := stack_mem 8192)
      (UserMemLaws0 := mem_user_laws _ (one_struct_length (stack_struct 8192) 64)) (stack_struct 8192) []
      4096 64 kst0 (stack_struct_words 8192 ltac:(done)) ltac:(lia) (stack_struct_read 8192)).
    vm_compute. reflexivity.
  - rewrite (clone3_refines_spec env_ok shell clone_env0 (U := stack_mem 0)
      (UserMemLaws0 := mem_user_laws _ (one_struct_length (stack_struct 0) 64)) (stack_struct 0) []
      4096 64 kst0 (stack_struct_words 0 ltac:(done)) ltac:(lia) (stack_struct_read 0)).
    vm_compute. reflexivity.
Defined.

Lemma clone_interfaces_agree_witness :
  sys_clone3 env_ok shell clone_env0 (U := mem_user (one_struct fork_struct 64)) 4096 64 kst0
  = sys_clone env_ok shell clone_env0 SIGCHLD 0 0 0 0 kst0.
Proof.
  rewrite (proj1 (clone_interfaces_agree env_ok shell clone_env0 (U := mem_user (one_struct fork_struct 64))
    (UserMemLaws0 := mem_user_laws _ (one_struct_length fork_struct 64))
    0 SIGCHLD 0 0 0 4096 kst0 ltac:(done) ltac:(done) ltac:(done) ltac:(done) eq_refl)).
  vm_compute. reflexivity.
Defined.

(** A pair that only the legacy call takes: the child's parent is the caller's, and it
    sends SIGCHLD. *)
Example clone_only_legacy : legacy_ok CLONE_PARENT SIGCHLD -> False.
Proof. intros (_ & _ & H). discriminate (H eq_refl). Qed.
