(* ===== verification/Vfork.v ===== *)
(** * Vfork: the parent waits on its own stack

    With CLONE_VFORK the parent of a new task waits for a completion that lies in
    the stack frame of [kernel_clone]; the child signals it when it leaves the
    parent's address space ([mm_release]).  Models the part of [kernel_clone] that
    sets this up, [wait_for_vfork_done], [mm_release] and [complete_vfork_done] of
    [kernel/fork.c], as two threads of single accesses under any interleaving,
    with a fatal signal for the parent at any time. *)

From Stdlib Require Import ZArith Lia.
From stdpp Require Import base list relations.
From S2P Require Import Prelude.

(** ** The two threads *)

(** The parent, from the wait on. *)
Inductive ppc :=
  | PWait                    (** wait_for_completion_killable *)
  | PLock                    (** killed: task_lock (child) *)
  | PClear                   (** child->vfork_done = NULL *)
  | PUnlock                  (** task_unlock (child) *)
  | PPut (killed : bool)     (** put_task_struct (child) *)
  | PRet (killed : bool).    (** returned: the frame is gone *)

(** The child: it may leave an address space more than once, by exec and exit. *)
Inductive cpc :=
  | CRun
  | CTest                    (** if (tsk->vfork_done) *)
  | CLock                    (** task_lock (tsk) *)
  | CRead                    (** vfork = tsk->vfork_done; if (vfork) *)
  | CClear                   (** tsk->vfork_done = NULL *)
  | CComplete                (** complete (vfork) *)
  | CUnlock                  (** task_unlock (tsk) *)
  | CGone.                   (** the child dropped its reference to itself *)

Inductive who := Parent | Child.

Record vst := Vst {
  pp : ppc; cp : cpc;
  vfork_done : bool;         (** the child's pointer to the completion is not NULL *)
  done : bool;               (** the completion *)
  alloc_lock : option who;   (** task_lock of the child *)
  usage : Z                  (** references to the child's task_struct *)
}.

Definition set_pp p (s : vst) := Vst p (cp s) (vfork_done s) (done s) (alloc_lock s) (usage s).
Definition set_cp c (s : vst) := Vst (pp s) c (vfork_done s) (done s) (alloc_lock s) (usage s).
Definition set_vfork b (s : vst) := Vst (pp s) (cp s) b (done s) (alloc_lock s) (usage s).
Definition set_done b (s : vst) := Vst (pp s) (cp s) (vfork_done s) b (alloc_lock s) (usage s).
Definition set_lock l (s : vst) := Vst (pp s) (cp s) (vfork_done s) (done s) l (usage s).
Definition set_usage n (s : vst) := Vst (pp s) (cp s) (vfork_done s) (done s) (alloc_lock s) n.

(** Access to the child's structure, and to the completion in the parent's frame. *)
Definition child_live (s : vst) (r : res (option vst)) : res (option vst) :=
  if usage s <=? 0 then Fault Dangling else r.
Definition frame_live (s : vst) (r : res (option vst)) : res (option vst) :=
  match pp s with PRet _ => Fault Dangling | _ => r end.

Definition take_lock (w : who) (s s' : vst) : res (option vst) :=
  match alloc_lock s with
  | Some _ => Ok None
  | None => Ok (Some (set_lock (Some w) s'))
  end.

(** One step of the parent; [None] when it has to wait.  [killed] says whether a
    fatal signal ends the wait. *)
Definition parent_step (killed : bool) (s : vst) : res (option vst) :=
  match pp s with
  | PWait =>
      if done s then Ok (Some (set_pp (PPut false) s))
      else if killed then Ok (Some (set_pp PLock s))
      else Ok None
  | PLock => child_live s (take_lock Parent s (set_pp PClear s))
  | PClear => child_live s (Ok (Some (set_vfork false (set_pp PUnlock s))))
  | PUnlock => child_live s (Ok (Some (set_lock None (set_pp (PPut true) s))))
  | PPut k => child_live s (Ok (Some (set_usage (usage s - 1) (set_pp (PRet k) s))))
  | PRet _ => Ok None
  end.

(** One step of the child; [leaves] says whether it now calls [mm_release] or, as
    its last act, gives itself up. *)
Definition child_step (leaves : bool) (s : vst) : res (option vst) :=
  match cp s with
  | CRun => if leaves then Ok (Some (set_cp CTest s))
            else Ok None
  | CTest => child_live s (Ok (Some (set_cp (if vfork_done s then CLock else CRun) s)))
  | CLock => child_live s (take_lock Child s (set_cp CRead s))
  | CRead => child_live s (Ok (Some (set_cp (if vfork_done s then CClear else CUnlock) s)))
  | CClear => child_live s (Ok (Some (set_vfork false (set_cp CComplete s))))
  | CComplete => frame_live s (Ok (Some (set_done true (set_cp CUnlock s))))
  | CUnlock => child_live s (Ok (Some (set_lock None (set_cp CRun s))))
  | CGone => Ok None
  end.

(** The child may end only after it has left its last address space: when it no
    longer has a completion to signal. *)
Definition child_end (s : vst) : res (option vst) :=
  match cp s with
  | CRun => if vfork_done s then Ok None
            else child_live s (Ok (Some (set_usage (usage s - 1) (set_cp CGone s))))
  | _ => Ok None
  end.

(** [kernel_clone] with CLONE_VFORK, after [wake_up_new_task]. *)
Definition init : vst := Vst PWait CRun true false None 2.

Inductive vcall : vst -> res (option vst) -> Prop :=
  | call_parent k s : vcall s (parent_step k s)
  | call_child b s : vcall s (child_step b s)
  | call_end s : vcall s (child_end s).

Definition vstep (s s' : vst) : Prop := vcall s (Ok (Some s')).

(** ** Invariant *)

(** Who is inside the child's lock, and who still needs the frame. *)
Definition p_inside (p : ppc) : bool := match p with PClear | PUnlock => true | _ => false end.
Definition c_inside (c : cpc) : bool := match c with CRead | CClear | CComplete | CUnlock => true | _ => false end.
Definition p_refs (p : ppc) : Z := match p with PRet _ => 0 | _ => 1 end.
Definition c_refs (c : cpc) : Z := match c with CGone => 0 | _ => 1 end.

Definition lock_of (p : ppc) (c : cpc) : option who :=
  if p_inside p then Some Parent else if c_inside c then Some Child else None.

(** What relates the two threads, the pointer and the completion. *)
Definition related (p : ppc) (c : cpc) (v d : bool) : bool :=
  negb (p_inside p && c_inside c) &&
  (* the pointer is set only while the frame is there and nobody signalled *)
  implb v (negb d && match p with PWait | PLock | PClear => true | _ => false end) &&
  (* the child acts on the pointer only while the parent cannot have returned *)
  match c with
  | CClear => v
  | CComplete => negb d && negb v && match p with PWait | PLock => true | _ => false end
  | CGone => negb v
  | _ => true
  end &&
  (* a parent that was not killed returns after the signal; one that waits will get it *)
  match p with
  | PPut false | PRet false => d
  | PWait => v || d || match c with CComplete => true | _ => false end
  | _ => true
  end.

Definition lock_eqb (a b : option who) : bool :=
  match a, b with
  | None, None | Some Parent, Some Parent | Some Child, Some Child => true
  | _, _ => false
  end.

(** The lock and the count are determined by where the threads are. *)
Definition inv (s : vst) : bool :=
  lock_eqb (alloc_lock s) (lock_of (pp s) (cp s)) && (usage s =? p_refs (pp s) + c_refs (cp s)) &&
  related (pp s) (cp s) (vfork_done s) (done s).

(** A state of the invariant is one of finitely many. *)
Definition state_of (p : ppc) (c : cpc) (v d : bool) : vst := Vst p c v d (lock_of p c) (p_refs p + c_refs c).

Lemma inv_state s :
  inv s = true -> s = state_of (pp s) (cp s) (vfork_done s) (done s) /\
                  related (pp s) (cp s) (vfork_done s) (done s) = true.
Proof.
  intros H. unfold inv in H. apply andb_true_iff in H as [H Hr]. apply andb_true_iff in H as [Hl Hu].
  apply Z.eqb_eq in Hu. split; [|done]. destruct s as [p c v d l u]. cbn in *. subst u. unfold state_of. f_equal.
  destruct l as [[]|], (lock_of p c) as [[]|]; done.
Qed.

(** A call that returned and left the invariant intact. *)
Definition fine (r : res (option vst)) : bool :=
  match r with Fault _ => false | Ok None => true | Ok (Some s) => inv s end.

Lemma related_calls p c v d (b : bool) :
  related p c v d = true ->
  fine (parent_step b (state_of p c v d)) && fine (child_step b (state_of p c v d)) &&
  fine (child_end (state_of p c v d)) = true.
Proof. destruct p as [| | | |[]|[]], c, v, d, b; try reflexivity; discriminate. Qed.

Lemma vcall_fine s r : inv s = true -> vcall s r -> fine r = true.
Proof.
  intros I H. destruct (inv_state s I) as [Hs Hr].
  inversion H as [b ? |b ?|?]; subst; rewrite Hs;
    [pose proof (related_calls _ _ _ _ b Hr) as X..|pose proof (related_calls _ _ _ _ true Hr) as X];
    apply andb_true_iff in X as [X X3]; apply andb_true_iff in X as [X1 X2]; done.
Qed.

Lemma reachable_inv s : rtc vstep init s -> inv s = true.
Proof.
  intros H. assert (inv init = true) as I by reflexivity. revert I.
  induction H as [|s s1 s2 Hs _ IH]; [done|]. intros I. apply IH. exact (vcall_fine _ _ I Hs).
Qed.

(** ** Theorems *)

(** C19: under every interleaving neither thread touches the other's memory after it
    is gone: the child never signals a completion in a frame the parent has left,
    even when the parent is killed while the child is about to signal, and the
    parent never touches the structure of a child that was freed.  A parent that
    was not killed returns only after the child has given up its address space. *)
Theorem vfork_safe s :
  rtc vstep init s ->
  (forall r, vcall s r -> is_ok r = true) /\
  (pp s = PRet false -> done s = true) /\
  (forall k, pp s = PRet k -> vfork_done s = false /\ cp s <> CComplete).
Proof.
  intros H. apply reachable_inv in H. split.
  - intros r Hc. pose proof (vcall_fine _ _ H Hc) as F. by destruct r.
  - destruct (inv_state s H) as [_ Hr]. destruct s as [p c v d l u]. cbn in *. split.
    + intros ->. destruct c, v, d; try reflexivity; discriminate.
    + intros k ->. destruct k, c, v, d; try discriminate; done.
Qed.

Lemma vfork_safe_witness :
  (forall r, vcall (set_pp PLock init) r -> is_ok r = true) /\
  (pp (set_pp PLock init) = PRet false -> done (set_pp PLock init) = true) /\
  (forall k, pp (set_pp PLock init) = PRet k -> vfork_done (set_pp PLock init) = false /\ cp (set_pp PLock init) <> CComplete).
Proof. apply vfork_safe. apply rtc_once. exact (call_parent true init). Defined.

(** *** No deadlock *)

(** Some step is possible for a parent that has not returned, once the child has
    signalled or the parent has been killed, by the parent itself or by the child
    inside the lock. *)
Definition can_step (r : res (option vst)) : bool := match r with Ok (Some _) => true | _ => false end.

Lemma related_progress p c v d :
  related p c v d = true -> (match p with PRet _ => false | PWait => d | _ => true end) = true ->
  can_step (parent_step false (state_of p c v d)) || (c_inside c && can_step (child_step false (state_of p c v d))) = true.
Proof. destruct p as [| | | |[]|[]], c, v, d; try reflexivity; discriminate. Qed.

(** The parent cannot be left waiting: while it waits, the child still has the
    completion to signal, is signalling it, or has done so; and once it has, or a
    fatal signal has ended the wait, the parent can always go on, if not at once
    then after the child inside the lock, which needs nothing else. *)
Theorem vfork_parent_returns s :
  rtc vstep init s ->
  (pp s = PWait -> vfork_done s = true \/ done s = true \/ cp s = CComplete) /\
  ((pp s = PWait -> done s = true) -> (forall k, pp s <> PRet k) ->
   exists s', parent_step false s = Ok (Some s') \/ (c_inside (cp s) = true /\ child_step false s = Ok (Some s'))).
Proof.
  intros H. apply reachable_inv in H. destruct (inv_state s H) as [Hs Hr]. split.
  - intros Hp. destruct s as [p c v d l u]. cbn in *. subst p. destruct c, v, d; try discriminate; auto.
  - intros Hw Hk. assert ((match pp s with PRet _ => false | PWait => done s | _ => true end) = true) as Hc.
    { destruct (pp s) as [| | | |k|k]; auto. by destruct (Hk k). }
    pose proof (related_progress _ _ _ _ Hr Hc) as X. rewrite <- Hs in X. apply orb_true_iff in X as [X|X].
    + destruct (parent_step false s) as [[s'|]|]; try discriminate. eauto.
    + apply andb_true_iff in X as [X1 X]. destruct (child_step false s) as [[s'|]|]; try discriminate. eauto.
Qed.

Lemma vfork_parent_returns_witness :
  (pp (set_pp PLock init) = PWait -> vfork_done (set_pp PLock init) = true \/ done (set_pp PLock init) = true \/
     cp (set_pp PLock init) = CComplete) /\
  ((pp (set_pp PLock init) = PWait -> done (set_pp PLock init) = true) -> (forall k, pp (set_pp PLock init) <> PRet k) ->
   exists s', parent_step false (set_pp PLock init) = Ok (Some s') \/
     (c_inside (cp (set_pp PLock init)) = true /\ child_step false (set_pp PLock init) = Ok (Some s'))).
Proof. apply vfork_parent_returns. apply rtc_once. exact (call_parent true init). Defined.

(** ** Leaving an address space *)

Inductive uevent := PutUser (addr : Z) | FutexWake (addr : Z).

(** The first half of [mm_release]: what user space sees, and [clear_child_tid]
    afterwards.  The second half is the child's part above. *)
Definition mm_release (clear_child_tid : Z) (group_coredump : bool) (mm_users : Z) : list uevent * Z :=
  if negb (clear_child_tid =? NULL) then
    (if negb group_coredump && (1 <? mm_users) then [PutUser clear_child_tid; FutexWake clear_child_tid] else [], NULL)
  else ([], clear_child_tid).

(** Joiners are woken exactly when the structure is still in use by others and no
    core is dumped, after the word is cleared, and once. *)
Lemma mm_release_wakes tid core users :
  snd (mm_release tid core users) = NULL /\
  (fst (mm_release tid core users) = [PutUser tid; FutexWake tid] <-> tid <> NULL /\ core = false /\ 1 < users) /\
  fst (mm_release (snd (mm_release tid core users)) core users) = [].
Proof.
  unfold mm_release. destruct (Z.eqb_spec tid NULL) as [->|Ht]; cbn; [naive_solver|].
  destruct core, (Z.ltb_spec 1 users); cbn; naive_solver lia.
Qed.
