(* ===== verification/Unshare.v ===== *)
(** * Unshare: leaving shared structures

    Models [check_unshare_flags], [unshare_fs], [unshare_fd], [ksys_unshare] and
    [unshare_files] of [kernel/fork.c].  The state is what the caller shares (file
    system information, descriptor table, credentials, namespaces) with the
    reference counts of all live objects; the constructors of new objects that
    are not in this repository are the answers [unshare_env]. *)

From Stdlib Require Import ZArith Lia.
From stdpp Require Import base list gmap.
From S2P Require Import Prelude Fork.

(** ** State *)

Record ustate := Ust {
  cur_fs : option Z; fs_users : gmap Z Z;
  cur_files : option Z; files_count : gmap Z Z;
  cur_cred : Z; cred_usage : gmap Z Z;
  cur_nsproxy : Z; ns_count : gmap Z Z;
  sem_exited : bool;        (** exit_sem was called *)
  shm_exited : bool;        (** exit_shm and shm_init_task were called *)
  alloc_lock : bool         (** task_lock *)
}.

(** What the callees answer; new objects are numbers. *)
Record unshare_env := UnshareEnv {
  thread_group_empty : bool;
  sighand_count : Z;
  current_is_single_threaded : bool;
  copy_fs_struct : option Z;
  dup_fd : Z + Z;                          (** error or new table *)
  unshare_userns : Z -> Z + option Z;      (** error, or new credentials if the flags ask *)
  unshare_nsproxy_namespaces : Z -> Z + option Z;
  set_cred_ucounts : Z;
  drop_ref : gmap Z Z -> Z -> res (gmap Z Z);   (** the put functions: one reference less *)
  free_fs : gmap Z Z -> Z -> res (gmap Z Z)     (** free_fs_struct *)
}.

Definition with_fs f m (s : ustate) := Ust f m (cur_files s) (files_count s) (cur_cred s) (cred_usage s)
  (cur_nsproxy s) (ns_count s) (sem_exited s) (shm_exited s) (alloc_lock s).
Definition with_files f m (s : ustate) := Ust (cur_fs s) (fs_users s) f m (cur_cred s) (cred_usage s)
  (cur_nsproxy s) (ns_count s) (sem_exited s) (shm_exited s) (alloc_lock s).
Definition with_cred c m (s : ustate) := Ust (cur_fs s) (fs_users s) (cur_files s) (files_count s) c m
  (cur_nsproxy s) (ns_count s) (sem_exited s) (shm_exited s) (alloc_lock s).
Definition with_ns n m (s : ustate) := Ust (cur_fs s) (fs_users s) (cur_files s) (files_count s)
  (cur_cred s) (cred_usage s) n m (sem_exited s) (shm_exited s) (alloc_lock s).
Definition with_ipc a b (s : ustate) := Ust (cur_fs s) (fs_users s) (cur_files s) (files_count s)
  (cur_cred s) (cred_usage s) (cur_nsproxy s) (ns_count s) a b (alloc_lock s).
Definition with_lock b (s : ustate) := Ust (cur_fs s) (fs_users s) (cur_files s) (files_count s)
  (cur_cred s) (cred_usage s) (cur_nsproxy s) (ns_count s) (sem_exited s) (shm_exited s) b.

(** Dropping one reference; the object goes with the last one. *)
Definition put_ref (m : gmap Z Z) (x : Z) : res (gmap Z Z) :=
  match m !! x with
  | None => Fault Dangling
  | Some n => Ok (if n =? 1 then delete x m else <[x := n - 1]> m)
  end.

Definition is_Some_b (o : option Z) : bool := match o with Some _ => true | None => false end.

Section Unshare.
Context (E : unshare_env).

(** ** The steps *)

(** The callees that release an object of the caller, or install a new one and
    release the old. *)
Definition put_files_struct (f : Z) : M ustate unit :=
  s ← get; m ← lift (drop_ref E (files_count s) f); put (with_files (cur_files s) m s).
Definition put_cred (c : Z) : M ustate unit :=
  s ← get; m ← lift (drop_ref E (cred_usage s) c); put (with_cred (cur_cred s) m s).
Definition free_fs_struct (f : Z) : M ustate unit :=
  s ← get; m ← lift (free_fs E (fs_users s) f); put (with_fs (cur_fs s) m s).
Definition commit_creds (c : Z) : M ustate unit :=
  s ← get; m ← lift (drop_ref E (cred_usage s) (cur_cred s)); put (with_cred c m s).
Definition switch_task_namespaces (n : Z) : M ustate unit :=
  s ← get; m ← lift (drop_ref E (ns_count s) (cur_nsproxy s)); put (with_ns n m s).


Definition unshare_known : Z :=
  Z.lor CLONE_THREAD (Z.lor CLONE_FS (Z.lor CLONE_NEWNS (Z.lor CLONE_SIGHAND (Z.lor CLONE_VM
  (Z.lor CLONE_FILES (Z.lor CLONE_SYSVSEM (Z.lor CLONE_NEWUTS (Z.lor CLONE_NEWIPC (Z.lor CLONE_NEWNET
  (Z.lor CLONE_NEWUSER (Z.lor CLONE_NEWPID (Z.lor CLONE_NEWCGROUP CLONE_NEWTIME)))))))))))).

Definition check_unshare_flags (uf : Z) : Z :=
  if negb (Z.ldiff uf unshare_known =? 0) then - Errno.EINVAL
  else if hasb uf (Z.lor CLONE_THREAD (Z.lor CLONE_SIGHAND CLONE_VM)) && negb (thread_group_empty E) then
    - Errno.EINVAL
  else if hasb uf (Z.lor CLONE_SIGHAND CLONE_VM) && (1 <? sighand_count E) then - Errno.EINVAL
  else if hasb uf CLONE_VM && negb (current_is_single_threaded E) then - Errno.EINVAL
  else 0.

(** The result and the new object, if one was made. *)
Definition unshare_fs (uf : Z) : M ustate (Z * option Z) :=
  s ← get;
  match cur_fs s with
  | None => mret (0, None)
  | Some f =>
      if negb (hasb uf CLONE_FS) then mret (0, None)
      else
        users ← lift (res_of_opt Dangling (fs_users s !! f));
        if users =? 1 then mret (0, None)
        else match copy_fs_struct E with
             | None => mret (- Errno.ENOMEM, None)
             | Some new => _ ← put (with_fs (cur_fs s) (<[new := 1]> (fs_users s)) s); mret (0, Some new)
             end
  end.

Definition unshare_fd (uf : Z) : M ustate (Z * option Z) :=
  s ← get;
  match cur_files s with
  | None => mret (0, None)
  | Some f =>
      count ← lift (res_of_opt Dangling (files_count s !! f));
      if hasb uf CLONE_FILES && (1 <? count) then
        match dup_fd E with
        | inl e => mret (e, None)
        | inr new => _ ← put (with_files (cur_files s) (<[new := 1]> (files_count s)) s); mret (0, Some new)
        end
      else mret (0, None)
  end.

Definition new_user_ns (uf : Z) : M ustate (Z * option Z) :=
  match unshare_userns E uf with
  | inl e => mret (e, None)
  | inr None => mret (0, None)
  | inr (Some c) => _ ← modify (fun s => with_cred (cur_cred s) (<[c := 1]> (cred_usage s)) s); mret (0, Some c)
  end.

Definition new_namespaces (uf : Z) : M ustate (Z * option Z) :=
  match unshare_nsproxy_namespaces E uf with
  | inl e => mret (e, None)
  | inr None => mret (0, None)
  | inr (Some n) => _ ← modify (fun s => with_ns (cur_nsproxy s) (<[n := 1]> (ns_count s)) s); mret (0, Some n)
  end.

(** The labels, last to first; they end every path, the successful one too. *)
Definition opt_do (f : Z -> M ustate unit) (o : option Z) : M ustate unit :=
  match o with Some x => f x | None => mret tt end.

Definition bad_unshare_cleanup_fs (err : Z) (new_fs : option Z) : M ustate Z :=
  _ ← opt_do free_fs_struct new_fs; mret err.
Definition bad_unshare_cleanup_fd (err : Z) (new_fs new_fd : option Z) : M ustate Z :=
  _ ← opt_do put_files_struct new_fd; bad_unshare_cleanup_fs err new_fs.
Definition bad_unshare_cleanup_cred (err : Z) (new_fs new_fd new_cred : option Z) : M ustate Z :=
  _ ← opt_do put_cred new_cred; bad_unshare_cleanup_fd err new_fs new_fd.

(** Under the task lock: the new structures are installed; the result is what the
    labels are to release. *)
Definition install_fs (new_fs : option Z) : M ustate (option Z) :=
  match new_fs with
  | None => mret None
  | Some new =>
      s ← get;
      match cur_fs s with
      | None => abort NullDeref
      | Some f =>
          users ← lift (res_of_opt Dangling (fs_users s !! f));
          _ ← put (with_fs (Some new) (<[f := users - 1]> (fs_users s)) s);
          mret (if negb (users - 1 =? 0) then None else Some f)
      end
  end.

Definition install_files (new_fd : option Z) : M ustate (option Z) :=
  match new_fd with
  | None => mret None
  | Some new => s ← get; _ ← put (with_files (Some new) (files_count s) s); mret (cur_files s)
  end.

Definition install_all (uf : Z) (do_sysvsem : bool) (new_fs new_fd new_cred new_nsproxy : option Z)
    : M ustate (option Z * option Z * option Z) :=
  _ ← (if do_sysvsem then modify (fun s => with_ipc true (shm_exited s) s) else mret tt);
  _ ← (if hasb uf CLONE_NEWIPC then modify (fun s => with_ipc (sem_exited s) true s) else mret tt);
  _ ← opt_do switch_task_namespaces new_nsproxy;
  _ ← modify (with_lock true);
  new_fs ← install_fs new_fs;
  new_fd ← install_files new_fd;
  _ ← modify (with_lock false);
  _ ← opt_do commit_creds new_cred;
  mret (new_fs, new_fd, None).

(** The flags that go with others. *)
Definition unshare_closure (uf : Z) : Z :=
  let uf := if hasb uf CLONE_NEWUSER then Z.lor uf (Z.lor CLONE_THREAD CLONE_FS) else uf in
  let uf := if hasb uf CLONE_VM then Z.lor uf CLONE_SIGHAND else uf in
  let uf := if hasb uf CLONE_SIGHAND then Z.lor uf CLONE_THREAD else uf in
  if hasb uf CLONE_NEWNS then Z.lor uf CLONE_FS else uf.

Definition ksys_unshare (unshare_flags : Z) : M ustate Z :=
  let uf := unshare_closure unshare_flags in
  let err := check_unshare_flags uf in
  if negb (err =? 0) then mret err
  else
    let do_sysvsem := hasb uf (Z.lor CLONE_NEWIPC CLONE_SYSVSEM) in
    '(err, new_fs) ← unshare_fs uf;
    if negb (err =? 0) then mret err
    else
      '(err, new_fd) ← unshare_fd uf;
      if negb (err =? 0) then bad_unshare_cleanup_fs err new_fs
      else
        '(err, new_cred) ← new_user_ns uf;
        if negb (err =? 0) then bad_unshare_cleanup_fd err new_fs new_fd
        else
          '(err, new_nsproxy) ← new_namespaces uf;
          if negb (err =? 0) then bad_unshare_cleanup_cred err new_fs new_fd new_cred
          else
            let err := match new_cred with Some _ => set_cred_ucounts E | None => 0 end in
            if negb (err =? 0) then bad_unshare_cleanup_cred err new_fs new_fd new_cred
            else
              '(new_fs, new_fd, new_cred) ←
                (if is_Some_b new_fs || is_Some_b new_fd || do_sysvsem || is_Some_b new_cred || is_Some_b new_nsproxy
                 then install_all uf do_sysvsem new_fs new_fd new_cred new_nsproxy
                 else mret (new_fs, new_fd, new_cred));
              bad_unshare_cleanup_cred 0 new_fs new_fd new_cred.

Definition unshare_files : M ustate Z :=
  '(error, copy) ← unshare_fd CLONE_FILES;
  match copy with
  | None => mret error
  | Some new =>
      if negb (error =? 0) then mret error
      else
        s ← get;
        _ ← modify (with_lock true);
        _ ← modify (fun s => with_files (Some new) (files_count s) s);
        _ ← modify (with_lock false);
        _ ← opt_do put_files_struct (cur_files s);
        mret 0
  end.

(** ** Specification *)

(** The caller's objects are live and counted. *)
Record uwf (s : ustate) : Prop := {
  wf_fs f : cur_fs s = Some f -> exists n, fs_users s !! f = Some n /\ 1 <= n;
  wf_files f : cur_files s = Some f -> exists n, files_count s !! f = Some n /\ 1 <= n;
  wf_cred : exists n, cred_usage s !! cur_cred s = Some n /\ 1 <= n;
  wf_ns : exists n, ns_count s !! cur_nsproxy s = Some n /\ 1 <= n;
  wf_lock : alloc_lock s = false
}.

(** New objects are new and errors are not zero. *)
Record env_ok (s : ustate) : Prop := {
  ok_fs new : copy_fs_struct E = Some new -> fs_users s !! new = None;
  ok_fd : match dup_fd E with inl e => e <> 0 | inr new => files_count s !! new = None end;
  ok_cred uf : match unshare_userns E uf with
               | inl e => e <> 0 | inr (Some c) => cred_usage s !! c = None | inr None => True end;
  ok_ns uf : match unshare_nsproxy_namespaces E uf with
             | inl e => e <> 0 | inr (Some n) => ns_count s !! n = None | inr None => True end;
  ok_drop m x n : m !! x = Some n -> drop_ref E m x = put_ref m x;
  ok_free m f n : m !! f = Some n -> free_fs E m f = Ok (delete f m)
}.

(** A reference stays, or moves from a live object to a new one that nobody else
    holds; the old object goes when it was the last reference. *)
Definition moved (c : option Z) (m : gmap Z Z) (c' : option Z) (m' : gmap Z Z) : Prop :=
  (c' = c /\ m' = m) \/
  exists f new, c = Some f /\ c' = Some new /\ m !! new = None /\ put_ref (<[new := 1]> m) f = Ok m'.

(** A reference nobody else holds. *)
Definition alone_in (c : option Z) (m : gmap Z Z) : Prop := forall f, c = Some f -> m !! f = Some 1.

Lemma put_ref_live m f n : m !! f = Some n -> exists m', put_ref m f = Ok m'.
Proof. intros H. unfold put_ref. rewrite H. eauto. Qed.

Lemma put_ref_other m f m' x : put_ref m f = Ok m' -> x <> f -> m' !! x = m !! x.
Proof.
  unfold put_ref. intros H Hx. destruct (m !! f) as [n|]; [|done]. destruct (n =? 1); injection H as <-.
  - by rewrite lookup_delete_ne.
  - by rewrite lookup_insert_ne.
Qed.

Lemma put_new m new : m !! new = None -> put_ref (<[new := 1]> m) new = Ok m.
Proof.
  intros H. unfold put_ref. rewrite lookup_insert_eq. cbn. by rewrite delete_insert_id.
Qed.

(** What the first four steps leave: the state with the new objects added. *)
Definition add_new (o : option Z) (m : gmap Z Z) : gmap Z Z :=
  match o with Some new => <[new := 1]> m | None => m end.
Definition added (nf nd nc nn : option Z) (s : ustate) : ustate :=
  Ust (cur_fs s) (add_new nf (fs_users s)) (cur_files s) (add_new nd (files_count s))
      (cur_cred s) (add_new nc (cred_usage s)) (cur_nsproxy s) (add_new nn (ns_count s))
      (sem_exited s) (shm_exited s) (alloc_lock s).

Definition fresh (o : option Z) (m : gmap Z Z) : Prop := forall x, o = Some x -> m !! x = None.

Lemma added_none s : added None None None None s = s.
Proof. by destruct s. Qed.

Lemma unshare_fs_ok uf s :
  uwf s -> env_ok s ->
  exists e nf, unshare_fs uf s = Ok ((e, nf), added nf None None None s) /\ fresh nf (fs_users s) /\
    (e <> 0 -> nf = None) /\
    (nf = None -> e = 0 -> hasb uf CLONE_FS = true -> alone_in (cur_fs s) (fs_users s)) /\
    (nf <> None -> exists f n, cur_fs s = Some f /\ fs_users s !! f = Some n /\ 1 < n).
Proof.
  intros W O. unfold unshare_fs, mbind, M_bind, get. destruct (cur_fs s) as [f|] eqn:Ef.
  2: { exists 0, None. rewrite added_none. split_and!; done. }
  destruct (wf_fs s W f Ef) as (n & Hn & H1).
  destruct (hasb uf CLONE_FS); cbn [negb].
  2: { exists 0, None. rewrite added_none. split_and!; done. }
  unfold lift, res_of_opt. rewrite Hn. destruct (Z.eqb_spec n 1) as [->|Hne].
  { exists 0, None. rewrite added_none. split_and!; try done. intros _ _ _ g [= <-]. done. }
  destruct (copy_fs_struct E) as [new|] eqn:Ec.
  2: { exists (- Errno.ENOMEM), None. rewrite added_none. split_and!; done. }
  exists 0, (Some new). split_and!; try done; [by (destruct s; cbn in *; subst)| |].
  - intros x [= <-]. by apply (ok_fs s O).
  - intros _. exists f, n. split_and!; [done..|lia].
Qed.

Lemma unshare_fd_ok uf s :
  uwf s -> env_ok s ->
  exists e nd, (forall nf, unshare_fd uf (added nf None None None s) = Ok ((e, nd), added nf nd None None s)) /\
    fresh nd (files_count s) /\ (e <> 0 -> nd = None) /\
    (nd = None -> e = 0 -> hasb uf CLONE_FILES = true -> alone_in (cur_files s) (files_count s)) /\
    (nd <> None -> exists f n, cur_files s = Some f /\ files_count s !! f = Some n /\ 1 < n).
Proof.
  intros W O. unfold unshare_fd, mbind, M_bind, get. cbn [cur_files added files_count add_new].
  destruct (cur_files s) as [f|] eqn:Ef; [|by exists 0, None].
  destruct (wf_files s W f Ef) as (n & Hn & H1). unfold lift, res_of_opt. rewrite Hn.
  destruct (hasb uf CLONE_FILES); [|by exists 0, None]. cbn [andb].
  destruct (Z.ltb_spec 1 n).
  2: { exists 0, None. split_and!; try done. intros _ _ _ g [= <-]. replace n with 1 in Hn by lia. done. }
  pose proof (ok_fd s O) as Hfd. destruct (dup_fd E) as [e|new].
  { exists e, None. split_and!; done. }
  exists 0, (Some new). split_and!; try done; [by intros nf; destruct s; cbn in *; subst| |].
  - intros x [= <-]. done.
  - intros _. by exists f, n.
Qed.

Lemma new_user_ns_ok uf s :
  env_ok s ->
  exists e nc, (forall nf nd, new_user_ns uf (added nf nd None None s) = Ok ((e, nc), added nf nd nc None s)) /\
    fresh nc (cred_usage s) /\ (e <> 0 -> nc = None) /\
    (forall c, nc = Some c -> unshare_userns E uf = inr (Some c)).
Proof.
  intros O. pose proof (ok_cred s O uf) as Hc. unfold new_user_ns.
  destruct (unshare_userns E uf) as [e|[c|]]; [exists e, None|exists 0, (Some c)|exists 0, None];
    split_and!; try done; by intros x [= <-].
Qed.

Lemma new_namespaces_ok uf s :
  env_ok s ->
  exists e nn, (forall nf nd nc, new_namespaces uf (added nf nd nc None s) = Ok ((e, nn), added nf nd nc nn s)) /\
    fresh nn (ns_count s) /\ (e <> 0 -> nn = None) /\
    (forall n, nn = Some n -> unshare_nsproxy_namespaces E uf = inr (Some n)).
Proof.
  intros O. pose proof (ok_ns s O uf) as Hc. unfold new_namespaces.
  destruct (unshare_nsproxy_namespaces E uf) as [e|[c|]]; [exists e, None|exists 0, (Some c)|exists 0, None];
    split_and!; try done; by intros x [= <-].
Qed.

(** *** The labels give back what was added *)

Lemma drop_new s m new : env_ok s -> m !! new = None -> drop_ref E (<[new := 1]> m) new = Ok m.
Proof.
  intros O H. rewrite (ok_drop s O _ _ 1) by apply lookup_insert_eq. by apply put_new.
Qed.

Lemma free_new s m new : env_ok s -> m !! new = None -> free_fs E (<[new := 1]> m) new = Ok m.
Proof.
  intros O H. rewrite (ok_free s O _ _ 1) by apply lookup_insert_eq. by rewrite delete_insert_id.
Qed.

Lemma cleanup_fs_ok s e nf nn :
  env_ok s -> fresh nf (fs_users s) ->
  bad_unshare_cleanup_fs e nf (added nf None None nn s) = Ok (e, added None None None nn s).
Proof.
  intros O F. unfold bad_unshare_cleanup_fs, opt_do, free_fs_struct. destruct nf as [x|]; [|done].
  mrun. cbn [fs_users added add_new]. rewrite (free_new s) by auto. done.
Qed.

Lemma cleanup_fd_ok s e nf nd nn :
  env_ok s -> fresh nf (fs_users s) -> fresh nd (files_count s) ->
  bad_unshare_cleanup_fd e nf nd (added nf nd None nn s) = Ok (e, added None None None nn s).
Proof.
  intros O F D. rewrite <- (cleanup_fs_ok s e nf nn) by done.
  unfold bad_unshare_cleanup_fd, opt_do, put_files_struct. destruct nd as [x|]; [|done].
  unfold mbind, M_bind, get, lift, put. cbn [files_count added add_new]. by rewrite (drop_new s) by auto.
Qed.

Lemma cleanup_cred_ok s e nf nd nc nn :
  env_ok s -> fresh nf (fs_users s) -> fresh nd (files_count s) -> fresh nc (cred_usage s) ->
  bad_unshare_cleanup_cred e nf nd nc (added nf nd nc nn s) = Ok (e, added None None None nn s).
Proof.
  intros O F D C. rewrite <- (cleanup_fd_ok s e nf nd nn) by done.
  unfold bad_unshare_cleanup_cred, opt_do, put_cred. destruct nc as [x|]; [|done].
  unfold mbind, M_bind, get, lift, put. cbn [cred_usage added add_new]. by rewrite (drop_new s) by auto.
Qed.

(** *** Installing moves one reference each *)

(** The reference in use afterwards. *)
Definition pick (o c : option Z) : option Z := match o with Some _ => o | None => c end.

(** [m'] is [m] after the reference [c] moved to [o], if there is one. *)
Definition switched (c o : option Z) (m m' : gmap Z Z) : Prop :=
  match o with
  | None => m' = m
  | Some new => exists f n, c = Some f /\ m !! f = Some n /\ 1 <= n /\ m !! new = None /\
                            put_ref (<[new := 1]> m) f = Ok m'
  end.

Lemma switched_ex c o m :
  fresh o m -> (o <> None -> exists f n, c = Some f /\ m !! f = Some n /\ 1 <= n) ->
  exists m', switched c o m m'.
Proof.
  intros F H. destruct o as [new|]; [|by exists m]. destruct H as (f & n & -> & Hn & H1); [done|].
  destruct (put_ref_live (<[new := 1]> m) f n) as [m' Hm].
  { rewrite lookup_insert_ne; [done|]. intros ->. specialize (F _ eq_refl). congruence. }
  exists m', f, n. split_and!; auto.
Qed.

Lemma switched_new c new m m' : switched c (Some new) m m' -> m' !! new = Some 1.
Proof.
  intros (f & n & -> & Hn & _ & Hf & Hp). rewrite (put_ref_other _ _ _ new Hp) by congruence.
  apply lookup_insert_eq.
Qed.

Lemma switched_moved c o m m' : switched c o m m' -> moved c m (pick o c) m'.
Proof.
  destruct o as [new|]; cbn; [|by left]. intros (f & n & -> & Hn & _ & Hf & Hp). right. eauto 10.
Qed.

Lemma switched_alone c o m m' :
  switched c o m m' -> (o = None -> alone_in c m) -> alone_in (pick o c) m'.
Proof.
  destruct o as [new|]; cbn; [|by intros -> H; auto]. intros H _ f [= <-]. by eapply switched_new.
Qed.

Lemma switched_wf c o m m' :
  switched c o m m' -> (forall f, c = Some f -> exists n, m !! f = Some n /\ 1 <= n) ->
  forall f, pick o c = Some f -> exists n, m' !! f = Some n /\ 1 <= n.
Proof.
  intros H W. destruct o as [new|]; [|by intros f; rewrite H; apply W].
  intros f [= <-]. exists 1. split; [by eapply switched_new|lia].
Qed.

(** The state after the new objects are installed and the old ones released. *)
Definition final (sem shm : bool) (nf nd nc nn : option Z) (mf md mc mn : gmap Z Z) (s : ustate) : ustate :=
  Ust (pick nf (cur_fs s)) mf (pick nd (cur_files s)) md (default (cur_cred s) nc) mc
      (default (cur_nsproxy s) nn) mn (sem || sem_exited s) (shm || shm_exited s) (alloc_lock s).

Lemma drop_switched s c new m m' f :
  env_ok s -> switched (Some f) (Some new) m m' -> c = f -> drop_ref E (<[new := 1]> m) c = Ok m'.
Proof.
  intros O (g & n & [= <-] & Hn & H1 & Hf & Hp) ->. rewrite (ok_drop s O _ _ n); [done|].
  rewrite lookup_insert_ne; [done|congruence].
Qed.

(** With more than one user the old structure is not released. *)
Lemma install_fs_switched c new m m' :
  switched c (Some new) m m' -> (exists f n, c = Some f /\ m !! f = Some n /\ 1 < n) ->
  exists f n, c = Some f /\ <[new := 1]> m !! f = Some n /\ (n - 1 =? 0) = false /\
    m' = <[f := n - 1]> (<[new := 1]> m).
Proof.
  intros (f & n & -> & Hn & H1 & Hf & Hp) (f' & n' & [= <-] & Hn' & H2).
  assert (n' = n) as -> by congruence. unfold put_ref in Hp.
  assert (<[new := 1]> m !! f = Some n) as Hi by (rewrite lookup_insert_ne; [done|congruence]).
  rewrite Hi in Hp. destruct (Z.eqb_spec n 1); [lia|]. injection Hp as <-.
  exists f, n. split_and!; auto. by apply Z.eqb_neq; lia.
Qed.

Lemma install_fs_ok s t nf mf :
  switched (cur_fs s) nf (fs_users s) mf ->
  (nf <> None -> exists f n, cur_fs s = Some f /\ fs_users s !! f = Some n /\ 1 < n) ->
  cur_fs t = cur_fs s -> fs_users t = add_new nf (fs_users s) ->
  install_fs nf t = Ok (None, with_fs (pick nf (cur_fs s)) mf t).
Proof.
  intros F Nf Ec Em. destruct nf as [x|].
  2: { cbn in *. subst. rewrite <- Em, <- Ec. by destruct t. }
  destruct (install_fs_switched _ _ _ _ F) as (f & n & Hf & Hn & He & ->); [by apply Nf|].
  unfold install_fs. mrun. rewrite Ec, Hf. cbn in Em. rewrite Em, Hn. cbn [res_of_opt].
  by rewrite He.
Qed.

Lemma switch_ok s t nn mn :
  env_ok s -> switched (Some (cur_nsproxy s)) nn (ns_count s) mn ->
  cur_nsproxy t = cur_nsproxy s -> ns_count t = add_new nn (ns_count s) ->
  opt_do switch_task_namespaces nn t = Ok (tt, with_ns (default (cur_nsproxy s) nn) mn t).
Proof.
  intros O N Ec Em. destruct nn as [x|]; cbn in Em.
  2: { cbn in *. subst. rewrite <- Em, <- Ec. by destruct t. }
  unfold opt_do, switch_task_namespaces. mrun. by rewrite Ec, Em, (drop_switched s _ _ _ _ _ O N eq_refl).
Qed.

Lemma commit_creds_ok s t nc mc :
  env_ok s -> switched (Some (cur_cred s)) nc (cred_usage s) mc ->
  cur_cred t = cur_cred s -> cred_usage t = add_new nc (cred_usage s) ->
  opt_do commit_creds nc t = Ok (tt, with_cred (default (cur_cred s) nc) mc t).
Proof.
  intros O N Ec Em. destruct nc as [x|]; cbn in Em.
  2: { cbn in *. subst. rewrite <- Em, <- Ec. by destruct t. }
  unfold opt_do, commit_creds. mrun. by rewrite Ec, Em, (drop_switched s _ _ _ _ _ O N eq_refl).
Qed.

Lemma install_files_ok s t nd :
  cur_files t = cur_files s ->
  install_files nd t = Ok (match nd with Some _ => cur_files s | None => None end,
                           with_files (pick nd (cur_files s)) (files_count t) t).
Proof. intros E'. destruct nd; unfold install_files; mrun; [by rewrite E'|]. rewrite <- E'. by destruct t. Qed.

Lemma release_files_ok s t nd md :
  env_ok s -> switched (cur_files s) nd (files_count s) md -> files_count t = add_new nd (files_count s) ->
  opt_do put_files_struct (match nd with Some _ => cur_files s | None => None end) t =
    Ok (tt, with_files (cur_files t) md t).
Proof.
  intros O D Em. destruct nd as [x|]; cbn in Em.
  2: { cbn in *. subst. rewrite <- Em. by destruct t. }
  pose proof D as (f & n & Hf & _). rewrite Hf in D |- *.
  unfold opt_do, put_files_struct. mrun. by rewrite Em, (drop_switched s _ _ _ _ _ O D eq_refl).
Qed.

Lemma install_ok uf sem s nf nd nc nn mf md mc mn :
  env_ok s -> alloc_lock s = false ->
  switched (cur_fs s) nf (fs_users s) mf ->
  (nf <> None -> exists f n, cur_fs s = Some f /\ fs_users s !! f = Some n /\ 1 < n) ->
  switched (cur_files s) nd (files_count s) md ->
  switched (Some (cur_cred s)) nc (cred_usage s) mc ->
  switched (Some (cur_nsproxy s)) nn (ns_count s) mn ->
  ('(a, b, c) ← install_all uf sem nf nd nc nn; bad_unshare_cleanup_cred 0 a b c) (added nf nd nc nn s) =
    Ok (0, final sem (hasb uf CLONE_NEWIPC) nf nd nc nn mf md mc mn s).
Proof.
  intros O L F Nf D C N. unfold install_all.
  set (t0 := with_ipc (sem || sem_exited s) (hasb uf CLONE_NEWIPC || shm_exited s) (added nf nd nc nn s)).
  erewrite bind_ok. 2: {
    rewrite (bind_ok _ _ _ (with_ipc (sem || sem_exited s) (shm_exited s) (added nf nd nc nn s)) tt)
      by (by destruct sem, s).
    rewrite (bind_ok _ _ _ t0 tt) by (unfold t0; by destruct (hasb uf CLONE_NEWIPC), s).
    erewrite bind_ok by (by apply (switch_ok s)).
    erewrite bind_ok by done.
    erewrite bind_ok by (by apply (install_fs_ok s)).
    erewrite bind_ok by (by apply (install_files_ok s)).
    erewrite bind_ok by done.
    erewrite bind_ok by (by apply (commit_creds_ok s)). done. }
  cbv beta iota. unfold bad_unshare_cleanup_cred. erewrite bind_ok by done.
  unfold bad_unshare_cleanup_fd. erewrite bind_ok by (by apply (release_files_ok s)).
  unfold final. rewrite L. done.
Qed.

(** ** The system call *)

(** Success: every reference stayed or moved, the shared ones the flags name are
    shared no more, and undo lists and segments are given up when asked. *)
Record unshared (uf : Z) (s s' : ustate) : Prop := {
  un_wf : uwf s';
  un_fs : moved (cur_fs s) (fs_users s) (cur_fs s') (fs_users s');
  un_files : moved (cur_files s) (files_count s) (cur_files s') (files_count s');
  un_cred : moved (Some (cur_cred s)) (cred_usage s) (Some (cur_cred s')) (cred_usage s');
  un_ns : moved (Some (cur_nsproxy s)) (ns_count s) (Some (cur_nsproxy s')) (ns_count s');
  un_fs_alone : hasb uf CLONE_FS = true -> alone_in (cur_fs s') (fs_users s');
  un_files_alone : hasb uf CLONE_FILES = true -> alone_in (cur_files s') (files_count s');
  un_sem : sem_exited s' = hasb uf (Z.lor CLONE_NEWIPC CLONE_SYSVSEM) || sem_exited s;
  un_shm : shm_exited s' = hasb uf CLONE_NEWIPC || shm_exited s
}.

(** Failure: nothing happened, or the charge of new credentials failed and the
    new namespaces, which nothing releases, are left over. *)
Definition unshare_failed (uf err : Z) (s s' : ustate) : Prop :=
  s' = s \/
  exists c n, unshare_userns E uf = inr (Some c) /\ unshare_nsproxy_namespaces E uf = inr (Some n) /\
    err = set_cred_ucounts E /\ s' = with_ns (cur_nsproxy s) (<[n := 1]> (ns_count s)) s.

Lemma pick_some o c : pick o (Some c) = Some (default c o).
Proof. by destruct o. Qed.

Lemma final_unshared uf s nf nd nc nn mf md mc mn :
  uwf s ->
  switched (cur_fs s) nf (fs_users s) mf ->
  switched (cur_files s) nd (files_count s) md ->
  switched (Some (cur_cred s)) nc (cred_usage s) mc ->
  switched (Some (cur_nsproxy s)) nn (ns_count s) mn ->
  (hasb uf CLONE_FS = true -> nf = None -> alone_in (cur_fs s) (fs_users s)) ->
  (hasb uf CLONE_FILES = true -> nd = None -> alone_in (cur_files s) (files_count s)) ->
  unshared uf s (final (hasb uf (Z.lor CLONE_NEWIPC CLONE_SYSVSEM)) (hasb uf CLONE_NEWIPC)
                       nf nd nc nn mf md mc mn s).
Proof.
  intros W F D C N Af Ad. split; cbn; rewrite <- ?pick_some; try done.
  - split; cbn; [by eapply switched_wf, wf_fs|by eapply switched_wf, wf_files| | |apply (wf_lock s W)].
    + eapply switched_wf; [exact C|by intros f [= <-]; apply (wf_cred s W)|apply pick_some].
    + eapply switched_wf; [exact N|by intros f [= <-]; apply (wf_ns s W)|apply pick_some].
  - by apply switched_moved.
  - by apply switched_moved.
  - by apply switched_moved.
  - by apply switched_moved.
  - intros H. eapply switched_alone; eauto.
  - intros H. eapply switched_alone; eauto.
Qed.

(** With nothing to install the final state is the initial one. *)
Lemma final_same uf s :
  hasb uf (Z.lor CLONE_NEWIPC CLONE_SYSVSEM) = false ->
  s = final (hasb uf (Z.lor CLONE_NEWIPC CLONE_SYSVSEM)) (hasb uf CLONE_NEWIPC) None None None None
            (fs_users s) (files_count s) (cred_usage s) (ns_count s) s.
Proof.
  intros H. rewrite H. rewrite hasb_lor_r in H. apply orb_false_iff in H as [-> _]. by destruct s.
Qed.

(** Once every new object is there, the call succeeds. *)
Lemma install_all_ok uf s nf nd nc nn :
  uwf s -> env_ok s ->
  fresh nf (fs_users s) -> fresh nd (files_count s) -> fresh nc (cred_usage s) -> fresh nn (ns_count s) ->
  (nf <> None -> exists f n, cur_fs s = Some f /\ fs_users s !! f = Some n /\ 1 < n) ->
  (nd <> None -> exists f n, cur_files s = Some f /\ files_count s !! f = Some n /\ 1 < n) ->
  (hasb uf CLONE_FS = true -> nf = None -> alone_in (cur_fs s) (fs_users s)) ->
  (hasb uf CLONE_FILES = true -> nd = None -> alone_in (cur_files s) (files_count s)) ->
  exists s', ('(a, b, c) ←
      (if is_Some_b nf || is_Some_b nd || hasb uf (Z.lor CLONE_NEWIPC CLONE_SYSVSEM) || is_Some_b nc || is_Some_b nn
       then install_all uf (hasb uf (Z.lor CLONE_NEWIPC CLONE_SYSVSEM)) nf nd nc nn else mret (nf, nd, nc));
      bad_unshare_cleanup_cred 0 a b c) (added nf nd nc nn s) = Ok (0, s') /\ unshared uf s s'.
Proof.
  intros W O Ff Fd Fc Fn Hf Hd Af Ad.
  destruct (switched_ex (cur_fs s) nf (fs_users s) Ff) as [mf Sf].
  { intros H. destruct (Hf H) as (f & n & ? & ? & ?). exists f, n. split_and!; [done..|lia]. }
  destruct (switched_ex (cur_files s) nd (files_count s) Fd) as [md Sd].
  { intros H. destruct (Hd H) as (f & n & ? & ? & ?). exists f, n. split_and!; [done..|lia]. }
  destruct (switched_ex (Some (cur_cred s)) nc (cred_usage s) Fc) as [mc Sc].
  { intros _. destruct (wf_cred s W) as (n & ? & ?). eauto. }
  destruct (switched_ex (Some (cur_nsproxy s)) nn (ns_count s) Fn) as [mn Sn].
  { intros _. destruct (wf_ns s W) as (n & ? & ?). eauto. }
  eexists. split; [|by eapply (final_unshared uf s nf nd nc nn mf md mc mn)].
  destruct (is_Some_b nf || is_Some_b nd || _ || is_Some_b nc || is_Some_b nn) eqn:Ei.
  - apply install_ok; auto. apply (wf_lock s W).
  - repeat (apply orb_false_iff in Ei as [Ei ?]). destruct nf, nd, nc, nn; try done.
    cbn in Sf, Sd, Sc, Sn. subst. rewrite <- final_same by done. rewrite added_none. done.
Qed.

(** *** Which flags are accepted *)

(** The flags a caller may give: known ones; to leave the thread group, the signal
    handlers, the address space or the user namespace it must be alone in its
    thread group; for signal handlers and address space its handlers must have no
    other user; for the address space it must be the only thread that uses it. *)
Record may_unshare (flags : Z) : Prop := {
  may_known : forall n, Z.testbit flags n = true -> Z.testbit unshare_known n = true;
  may_thread : hasb flags CLONE_THREAD || hasb flags CLONE_SIGHAND || hasb flags CLONE_VM || hasb flags CLONE_NEWUSER = true ->
    thread_group_empty E = true;
  may_sighand : hasb flags CLONE_SIGHAND || hasb flags CLONE_VM = true -> sighand_count E <= 1;
  may_vm : hasb flags CLONE_VM = true -> current_is_single_threaded E = true
}.

Lemma ldiff_bits a b : Z.ldiff a b = 0 <-> forall n, Z.testbit a n = true -> Z.testbit b n = true.
Proof.
  split.
  - intros H n Hn. apply (f_equal (fun z => Z.testbit z n)) in H. rewrite Z.ldiff_spec, Z.testbit_0_l, Hn in H.
    by destruct (Z.testbit b n).
  - intros H. apply Z.bits_inj_0. intros n. rewrite Z.ldiff_spec. specialize (H n).
    destruct (Z.testbit a n), (Z.testbit b n); cbn; try done. by rewrite H in *.
Qed.

Lemma hasb_if (b : bool) f x m : hasb (if b then Z.lor f x else f) m = hasb f m || (b && hasb x m).
Proof. destruct b; [by rewrite hasb_lor_l|by rewrite orb_false_r]. Qed.

Lemma ldiff_if (b : bool) f x k : Z.ldiff x k = 0 -> Z.ldiff (if b then Z.lor f x else f) k = Z.ldiff f k.
Proof.
  intros H. destruct b; [|done]. apply Z.bits_inj. intros n. rewrite !Z.ldiff_spec, Z.lor_spec.
  apply (f_equal (fun z => Z.testbit z n)) in H. rewrite Z.ldiff_spec, Z.testbit_0_l in H.
  by destruct (Z.testbit f n), (Z.testbit x n), (Z.testbit k n).
Qed.

(** What the closure adds. *)
Lemma closure_flags flags :
  Z.ldiff (unshare_closure flags) unshare_known = Z.ldiff flags unshare_known /\
  hasb (unshare_closure flags) CLONE_VM = hasb flags CLONE_VM /\
  hasb (unshare_closure flags) CLONE_SIGHAND = hasb flags CLONE_SIGHAND || hasb flags CLONE_VM /\
  hasb (unshare_closure flags) CLONE_THREAD =
    hasb flags CLONE_THREAD || hasb flags CLONE_SIGHAND || hasb flags CLONE_VM || hasb flags CLONE_NEWUSER /\
  hasb (unshare_closure flags) CLONE_FS = hasb flags CLONE_FS || hasb flags CLONE_NEWUSER || hasb flags CLONE_NEWNS /\
  hasb (unshare_closure flags) CLONE_FILES = hasb flags CLONE_FILES.
Proof.
  unfold unshare_closure. split; [by rewrite !ldiff_if|].
  split_and!; rewrite ?hasb_if;
    destruct (hasb flags CLONE_THREAD), (hasb flags CLONE_SIGHAND), (hasb flags CLONE_VM), (hasb flags CLONE_NEWUSER),
      (hasb flags CLONE_FS), (hasb flags CLONE_NEWNS), (hasb flags CLONE_FILES); reflexivity.
Qed.

Lemma check_unshare_flags_spec flags :
  (check_unshare_flags (unshare_closure flags) = 0 /\ may_unshare flags) \/
  (check_unshare_flags (unshare_closure flags) = - Errno.EINVAL /\ ~ may_unshare flags).
Proof.
  destruct (closure_flags flags) as (Hk & Hv & Hs & Ht & _ & _). unfold check_unshare_flags.
  rewrite !hasb_lor_r, Hk, Hv, Hs, Ht.
  destruct (Z.eqb_spec (Z.ldiff flags unshare_known) 0) as [Hz|Hz]; cbn [negb].
  2: { right. split; [done|]. intros [H _ _ _]. by apply Hz, ldiff_bits. }
  pose proof (proj1 (ldiff_bits _ _) Hz) as Hz'.
  destruct (thread_group_empty E) eqn:Et, (Z.ltb_spec 1 (sighand_count E)), (current_is_single_threaded E) eqn:Ec,
    (hasb flags CLONE_THREAD) eqn:E1, (hasb flags CLONE_SIGHAND) eqn:E2, (hasb flags CLONE_VM) eqn:E3,
    (hasb flags CLONE_NEWUSER) eqn:E4; cbn;
    first [ left; split; [done|]; split; rewrite ?E1, ?E2, ?E3, ?E4, ?Et, ?Ec; cbn; (done || lia)
          | right; split; [done|]; intros [_ H1 H2 H3]; rewrite ?E1, ?E2, ?E3, ?E4, ?Et, ?Ec in *; cbn in *;
            first [by specialize (H1 eq_refl) | by specialize (H3 eq_refl) | specialize (H2 eq_refl); lia] ].
Qed.

(** *** Why a call fails *)

(** A callee that makes a new object, or charges it, has failed. *)
Definition callee_fails (uf : Z) : Prop :=
  copy_fs_struct E = None \/ (exists e, dup_fd E = inl e) \/ (exists e, unshare_userns E uf = inl e) \/
  (exists e, unshare_nsproxy_namespaces E uf = inl e) \/ set_cred_ucounts E <> 0.

Lemma unshare_fs_fails uf s e n s' : unshare_fs uf s = Ok ((e, n), s') -> e <> 0 -> copy_fs_struct E = None.
Proof.
  unfold unshare_fs. mrun. intros H He. destruct (copy_fs_struct E); [|done]. by repeat (case_match; simplify_eq).
Qed.

Lemma unshare_fd_fails uf s e n s' : unshare_fd uf s = Ok ((e, n), s') -> e <> 0 -> exists e, dup_fd E = inl e.
Proof.
  unfold unshare_fd. mrun. intros H He. destruct (dup_fd E); [eauto|]. by repeat (case_match; simplify_eq).
Qed.

Lemma new_user_ns_fails uf s e n s' : new_user_ns uf s = Ok ((e, n), s') -> e <> 0 -> exists e, unshare_userns E uf = inl e.
Proof.
  unfold new_user_ns. mrun. intros H He. destruct (unshare_userns E uf) as [|[]]; [eauto|by simplify_eq..].
Qed.

Lemma new_namespaces_fails uf s e n s' :
  new_namespaces uf s = Ok ((e, n), s') -> e <> 0 -> exists e, unshare_nsproxy_namespaces E uf = inl e.
Proof.
  unfold new_namespaces. mrun. intros H He. destruct (unshare_nsproxy_namespaces E uf) as [|[]]; [eauto|by simplify_eq..].
Qed.

(** A failure that left the state alone. *)
Ltac unshare_fails := eexists _, _; split; [reflexivity|split; [done|intros _; split; [by left|]]].


(** [unshare_files], used by exec, always returns: an error leaves the state
    as it was; otherwise the descriptor table is the caller's alone, its reference
    has stayed or moved, and nothing else has changed. *)
Theorem unshare_files_spec s :
  uwf s -> env_ok s ->
  exists err s', unshare_files s = Ok (err, s') /\ (err <> 0 -> s' = s) /\
    (err = 0 -> alone_in (cur_files s') (files_count s') /\
       moved (cur_files s) (files_count s) (cur_files s') (files_count s') /\
       s' = with_files (cur_files s') (files_count s') s).
Proof.
  intros W O. unfold unshare_files.
  destruct (unshare_fd_ok CLONE_FILES s W O) as (e & nd & H2 & Fd & Ed & Ad & Md).
  specialize (H2 None). rewrite added_none in H2. rewrite (bind_ok _ _ _ _ _ H2). cbv beta iota.
  destruct nd as [new|].
  2: { eexists _, _. split; [reflexivity|]. rewrite added_none. split; [done|]. intros ->. split_and!.
       - by apply Ad.
       - by left.
       - by destruct s. }
  destruct (Z.eqb_spec e 0) as [->|He]; [|by specialize (Ed He)]. cbn [negb].
  destruct (Md ltac:(done)) as (f & n & Hf & Hn & H1).
  destruct (switched_ex (cur_files s) (Some new) (files_count s) Fd) as [m Hs].
  { intros _. exists f, n. split_and!; [done..|lia]. }
  pose proof (release_files_ok s (with_files (Some new) (<[new := 1]> (files_count s)) s) _ _ O Hs eq_refl) as Hr.
  eexists _, _. split.
  - unfold get, modify. do 4 (erewrite bind_ok by reflexivity). erewrite bind_ok; [reflexivity|].
    etrans; [|exact Hr]. f_equal. cbn. unfold with_lock, with_files. cbn. by rewrite (wf_lock s W).
  - split; [done|]. intros _. cbn. split_and!; [|by apply (switched_moved _ (Some new))|done].
    intros g [= <-]. by eapply switched_new.
Qed.

End Unshare.

(** ** Examples *)

(** A caller that shares everything with one other task. *)
Definition shared2 : ustate :=
  Ust (Some 1) {[1 := 2]} (Some 1) {[1 := 2]} 1 {[1 := 2]} 1 {[1 := 2]} false false false.

(** Callees that make object 9 of each kind, with the charge [ucounts]. *)
Definition env9 (ucounts : Z) : unshare_env :=
  UnshareEnv true 1 true (Some 9) (inr 9)
    (fun uf => inr (if hasb uf CLONE_NEWUSER then Some 9 else None))
    (fun uf => inr (if hasb uf CLONE_NEWNS then Some 9 else None))
    ucounts put_ref (fun m f => Ok (delete f m)).

Lemma shared2_wf : uwf shared2.
Proof. split; cbn; try (intros ? [= <-]); try done; exists 2; split; done. Qed.

Lemma env9_ok u : env_ok (env9 u) shared2.
Proof.
  split; cbn; try done.
  - by intros new [= <-].
  - intros uf. by destruct (hasb uf CLONE_NEWUSER).
  - intros uf. by destruct (hasb uf CLONE_NEWNS).
Qed.


Lemma unshare_files_spec_witness :
  exists err s', unshare_files (env9 0) shared2 = Ok (err, s') /\ (err <> 0 -> s' = shared2) /\
    (err = 0 -> alone_in (cur_files s') (files_count s') /\
       moved (cur_files shared2) (files_count shared2) (cur_files s') (files_count s') /\
       s' = with_files (cur_files s') (files_count s') shared2).
Proof. exact (unshare_files_spec _ _ shared2_wf (env9_ok 0)). Defined.

(** Success: objects 9 are the caller's own, objects 1 keep their other user. *)
Example unshare_ok_run :
  ksys_unshare (env9 0) (Z.lor CLONE_NEWUSER (Z.lor CLONE_FILES CLONE_NEWNS)) shared2 =
    Ok (0, Ust (Some 9) {[1 := 1; 9 := 1]} (Some 9) {[1 := 1; 9 := 1]} 9 {[1 := 1; 9 := 1]}
               9 {[1 := 1; 9 := 1]} false false false).
Proof. vm_compute. reflexivity. Qed.

(** The leak: new namespaces that nobody holds survive the failed call. *)
Example unshare_leaks_namespaces :
  ksys_unshare (env9 (- Errno.EAGAIN)) (Z.lor CLONE_NEWUSER CLONE_NEWNS) shared2 =
    Ok (- Errno.EAGAIN, with_ns 1 {[1 := 2; 9 := 1]} shared2).
Proof. vm_compute. reflexivity. Qed.
