(* ===== verification/ProcTree.v ===== *)
(** * ProcTree: walking the process tree

    Models [walk_process_tree] of [kernel/fork.c], a depth-first walk over the
    children of all threads of a process that keeps no stack: it finds its way
    back through [real_parent] and [group_leader].  The two nested loops with
    their jumps [down], [up] and [out] are a machine over cursors into the lists
    of the tasks ([wstep]); the reference is a recursive walk over the tree of
    processes ([dfs]). *)

From Stdlib Require Import ZArith Lia.
From stdpp Require Import base list gmap.
From S2P Require Import Prelude.

(** The fields of a task the walk reads; [threads] is the list [for_each_thread]
    follows from the task's signal structure. *)
Record ptask := Ptask {
  group_leader : Z;
  threads : list Z;
  children : list Z;
  real_parent : Z
}.

Section Walk.
Context {D : Type} (visitor : Z -> D -> Z * D) (ts : gmap Z ptask).

Definition field {A} (f : ptask -> A) (p : Z) : res A := res_of_opt Dangling (f <$> ts !! p).

(** Where the code is: at the test of the outer loop, at the test of the inner
    loop, or at [out]. *)
Inductive wpos :=
  | Threads (leader : Z) (parent : option Z)
  | Children (leader parent : Z) (child : option Z)
  | Out.

(** From one loop test to the next. *)
Definition wstep (top : Z) (w : wpos) (d : D) : res (wpos * D) :=
  match w with
  | Threads leader (Some parent) =>
      cs ← field children parent; Ok (Children leader parent (head cs), d)
  | Threads leader None =>
      if negb (leader =? top) then
        let child := leader in
        parent ← field real_parent child;
        leader ← field group_leader parent;
        cs ← field children parent;
        Ok (Children leader parent (next_of cs child), d)
      else Ok (Out, d)
  | Children leader parent (Some child) =>
      let '(r, d) := visitor child d in
      if negb (r =? 0) then
        if r <? 0 then Ok (Out, d)
        else
          let leader := child in
          ps ← field threads leader;
          Ok (Threads leader (head ps), d)
      else
        cs ← field children parent;
        Ok (Children leader parent (next_of cs child), d)
  | Children leader parent None =>
      ps ← field threads leader;
      Ok (Threads leader (next_of ps parent), d)
  | Out => Ok (Out, d)
  end.

Fixpoint run (fuel : nat) (top : Z) (w : wpos) (d : D) : res (wpos * D) :=
  match fuel with
  | O => Ok (w, d)
  | S fuel' => '(w, d) ← wstep top w d; run fuel' top w d
  end.

(** The whole function; [tasklist_lock] counts the readers. *)
Definition walk_process_tree (fuel : nat) (top : Z) (d : D) : M Z D :=
  _ ← modify (fun tasklist_lock => tasklist_lock + 1);
  top ← lift (field group_leader top);
  ps ← lift (field threads top);
  '(w, d) ← lift (run fuel top (Threads top (head ps)) d);
  match w with
  | Out => _ ← modify (fun tasklist_lock => tasklist_lock - 1); mret d
  | _ => abort OutOfFuel
  end.

(** ** The tree *)

(** A process: its leader and, for each of its threads, the children that thread
    forked. *)
Inductive proc := Proc (leader : Z) (groups : list (Z * list proc)).

Definition pleader (p : proc) : Z := match p with Proc l _ => l end.

(** The recursive walk: the data, and whether the visitor asked to stop. *)
Fixpoint dfs (p : proc) (d : D) : D * bool :=
  match p with
  | Proc _ groups =>
      (fix over_groups gs d :=
         match gs with
         | [] => (d, false)
         | (_, ks) :: gs' =>
             let '(d, stop) :=
               (fix over_kids ks d :=
                  match ks with
                  | [] => (d, false)
                  | k :: ks' =>
                      let '(r, d) := visitor (pleader k) d in
                      if r <? 0 then (d, true)
                      else if r =? 0 then over_kids ks' d
                      else let '(d, stop) := dfs k d in
                           if stop then (d, true) else over_kids ks' d
                  end) ks d in
             if stop then (d, true) else over_groups gs' d
         end) groups d
  end.

(** The same, one list at a time. *)
Fixpoint dfs_kids (ks : list proc) (d : D) : D * bool :=
  match ks with
  | [] => (d, false)
  | k :: ks' =>
      let '(r, d) := visitor (pleader k) d in
      if r <? 0 then (d, true)
      else if r =? 0 then dfs_kids ks' d
      else let '(d, stop) := dfs k d in if stop then (d, true) else dfs_kids ks' d
  end.

Fixpoint dfs_groups (gs : list (Z * list proc)) (d : D) : D * bool :=
  match gs with
  | [] => (d, false)
  | (_, ks) :: gs' => let '(d, stop) := dfs_kids ks d in if stop then (d, true) else dfs_groups gs' d
  end.

Lemma dfs_unfold l gs d : dfs (Proc l gs) d = dfs_groups gs d.
Proof. reflexivity. Qed.

(** Steps the machine needs for a process, from its first loop test to the end of
    its outer loop. *)
Fixpoint cost (p : proc) : nat :=
  match p with
  | Proc _ groups =>
      (fix over_groups gs := match gs with
        | [] => 0
        | (_, ks) :: gs' =>
            2 + (fix over_kids ks := match ks with [] => 0 | k :: ks' => 2 + cost k + over_kids ks' end) ks
              + over_groups gs'
        end) groups
  end%nat.

Fixpoint cost_kids (ks : list proc) : nat :=
  match ks with [] => 0 | k :: ks' => 2 + cost k + cost_kids ks' end%nat.
Fixpoint cost_groups (gs : list (Z * list proc)) : nat :=
  match gs with [] => 0 | (_, ks) :: gs' => 2 + cost_kids ks + cost_groups gs' end%nat.

Lemma cost_unfold l gs : cost (Proc l gs) = cost_groups gs.
Proof. reflexivity. Qed.

(** [p] is laid out in the tasks: threads and children in list order, each child
    pointing back at the thread that forked it, and [top] below no process. *)
Inductive rep (top : Z) : proc -> Prop :=
  | rep_proc l gs x :
      ts !! l = Some x -> threads x = gs.*1 -> NoDup gs.*1 ->
      Forall (rep_group top l) gs -> rep top (Proc l gs)
with rep_group (top : Z) : Z -> Z * list proc -> Prop :=
  | rep_thread l t ks x :
      ts !! t = Some x -> group_leader x = l -> children x = pleader <$> ks -> NoDup (pleader <$> ks) ->
      Forall (fun k => pleader k <> top /\
                exists y, ts !! pleader k = Some y /\ real_parent y = t /\ rep top k) ks ->
      rep_group top l (t, ks).

(** Induction on processes, through both lists. *)
Lemma proc_tree_ind (P : proc -> Prop) :
  (forall l gs, Forall (fun g => Forall P (snd g)) gs -> P (Proc l gs)) -> forall p, P p.
Proof.
  intros H. fix IH 1. intros [l gs]. apply H.
  induction gs as [|[t ks] gs IHgs]; constructor; [|exact IHgs].
  cbn. induction ks as [|k ks IHks]; constructor; [apply IH|exact IHks].
Qed.

(** ** The machine follows the recursion *)

Lemma run_app n1 n2 top w d :
  run (n1 + n2) top w d = ('(w, d) ← run n1 top w d; run n2 top w d).
Proof.
  revert w d. induction n1 as [|n1 IH]; intros w d; cbn; [done|].
  destruct (wstep top w d) as [[w1 d1]|]; cbn; [apply IH|done].
Qed.

(** [w] with [d] gets to [w'] with [d'] in at most [n] steps. *)
Definition gets (top : Z) (n : nat) (w : wpos) (d : D) (w' : wpos) (d' : D) : Prop :=
  exists k, (k <= n)%nat /\ run k top w d = Ok (w', d').

Lemma gets_refl top n w d : gets top n w d w d.
Proof. exists 0%nat. split; [lia|done]. Qed.

Lemma gets_step top n w d w1 d1 w' d' :
  wstep top w d = Ok (w1, d1) -> gets top n w1 d1 w' d' -> gets top (S n) w d w' d'.
Proof. intros H (k & Hk & Hr). exists (S k). split; [lia|]. cbn. by rewrite H. Qed.

Lemma gets_trans top n1 n2 w d w1 d1 w' d' :
  gets top n1 w d w1 d1 -> gets top n2 w1 d1 w' d' -> gets top (n1 + n2) w d w' d'.
Proof.
  intros (k1 & H1 & R1) (k2 & H2 & R2). exists (k1 + k2)%nat. split; [lia|].
  rewrite run_app, R1. exact R2.
Qed.

Lemma gets_le top n n' w d w' d' : (n <= n')%nat -> gets top n w d w' d' -> gets top n' w d w' d'.
Proof. intros H (k & Hk & Hr). exists k. split; [lia|done]. Qed.

(** Where a walk that may have been stopped is. *)
Definition at_end (stop : bool) (w : wpos) : wpos := if stop then Out else w.

Definition follows (top : Z) (p : proc) : Prop :=
  forall d x, rep top p -> ts !! pleader p = Some x ->
    let '(d', stop) := dfs p d in
    gets top (cost p) (Threads (pleader p) (head (threads x))) d (at_end stop (Threads (pleader p) None)) d'.

Lemma field_ok {A} (f : ptask -> A) p x : ts !! p = Some x -> field f p = Ok (f x).
Proof. intros H. unfold field. by rewrite H. Qed.

Lemma kids_follow top l t x pre ks d :
  ts !! t = Some x -> group_leader x = l -> children x = pleader <$> (pre ++ ks) ->
  NoDup (pleader <$> (pre ++ ks)) ->
  Forall (fun k => pleader k <> top /\ exists y, ts !! pleader k = Some y /\ real_parent y = t /\ rep top k) ks ->
  Forall (follows top) ks ->
  let '(d', stop) := dfs_kids ks d in
  gets top (cost_kids ks) (Children l t (head (pleader <$> ks))) d (at_end stop (Children l t None)) d'.
Proof.
  intros Hx Hl Hc Hnd Hks Hf. revert pre d Hc Hnd.
  induction ks as [|k ks IH]; intros pre d Hc Hnd; [apply gets_refl|].
  apply Forall_cons in Hks as [(Htop & y & Hy & Hrp & Hrep) Hks]. apply Forall_cons in Hf as [Hk Hf].
  assert (next_of (children x) (pleader k) = head (pleader <$> ks)) as Hnext.
  { rewrite Hc, fmap_app. rewrite fmap_app in Hnd. by apply next_of_mid. }
  specialize (IH Hks Hf (pre ++ [k])). rewrite <- app_assoc in IH. specialize (fun d => IH d Hc Hnd).
  cbn [dfs_kids cost_kids fmap list_fmap head].
  destruct (visitor (pleader k) d) as [r d1] eqn:Hv.
  destruct (Z.ltb_spec r 0) as [Hneg|Hpos]; [|destruct (Z.eqb_spec r 0) as [H0|H0]].
  - eapply gets_le; [|eapply gets_step; [|apply (gets_refl top 0)]]; [lia|].
    cbn. rewrite Hv. destruct (Z.eqb_spec r 0); [lia|]. by rewrite (proj2 (Z.ltb_lt _ _) Hneg).
  - specialize (IH d1). destruct (dfs_kids ks d1) as [d' stop].
    eapply gets_le; [|eapply gets_step; [|exact IH]]; [lia|].
    cbn. rewrite Hv, H0. cbn. rewrite (field_ok children t x Hx). cbn. by rewrite Hnext.
  - assert (wstep top (Children l t (Some (pleader k))) d = Ok (Threads (pleader k) (head (threads y)), d1)) as Hdown.
    { cbn. rewrite Hv. destruct (Z.eqb_spec r 0); [done|]. cbn.
      rewrite (proj2 (Z.ltb_ge _ _) Hpos), (field_ok threads _ y Hy). done. }
    specialize (Hk d1 y Hrep Hy). destruct (dfs k d1) as [d2 [|]].
    + eapply gets_le; [|eapply gets_step; [exact Hdown|exact Hk]]. lia.
    + specialize (IH d2). destruct (dfs_kids ks d2) as [d' stop].
      eapply gets_le; [|eapply gets_step; [exact Hdown|eapply gets_trans; [exact Hk|eapply gets_step; [|exact IH]]]]; [lia|].
      cbn. destruct (Z.eqb_spec (pleader k) top); [done|]. cbn.
      rewrite (field_ok real_parent _ y Hy), Hrp. cbn. rewrite (field_ok group_leader t x Hx), Hl. cbn.
      rewrite (field_ok children t x Hx). cbn. by rewrite Hnext.
Qed.

Lemma groups_follow top l x pre gs d :
  ts !! l = Some x -> threads x = (pre ++ gs).*1 -> NoDup (pre ++ gs).*1 ->
  Forall (rep_group top l) gs -> Forall (fun g => Forall (follows top) (snd g)) gs ->
  let '(d', stop) := dfs_groups gs d in
  gets top (cost_groups gs) (Threads l (head gs.*1)) d (at_end stop (Threads l None)) d'.
Proof.
  intros Hx Ht Hnd Hr Hf. revert pre d Ht Hnd.
  induction gs as [|[t ks] gs IH]; intros pre d Ht Hnd; [apply gets_refl|].
  apply Forall_cons in Hr as [Hg Hr]. apply Forall_cons in Hf as [Hk Hf].
  inversion Hg as [? ? ? y Hy Hgl Hc Hcn Hks]; subst.
  pose proof (kids_follow top (group_leader y) t y [] ks d Hy eq_refl Hc Hcn Hks Hk) as Hkids.
  specialize (IH Hr Hf (pre ++ [(t, ks)])). rewrite <- app_assoc in IH. specialize (fun d => IH d Ht Hnd).
  cbn [dfs_groups cost_groups].
  assert (wstep top (Threads (group_leader y) (head ((t, ks) :: gs).*1)) d
          = Ok (Children (group_leader y) t (head (pleader <$> ks)), d)) as Hin.
  { cbn. rewrite (field_ok children t y Hy), Hc. done. }
  destruct (dfs_kids ks d) as [d1 [|]].
  - eapply gets_le; [|eapply gets_step; [exact Hin|exact Hkids]]. lia.
  - specialize (IH d1). destruct (dfs_groups gs d1) as [d' stop].
    eapply gets_le; [|eapply gets_step; [exact Hin|eapply gets_trans; [exact Hkids|eapply gets_step; [|exact IH]]]]; [lia|].
    cbn [at_end wstep]. rewrite (field_ok threads _ x Hx), Ht. rewrite fmap_app in Hnd |- *.
    cbn [mbind res_bind]. do 3 f_equal. exact (next_of_mid pre.*1 t gs.*1 Hnd).
Qed.

Lemma proc_follows top p : follows top p.
Proof.
  induction p as [l gs Hgs] using proc_tree_ind. intros d x Hr Hx. rewrite dfs_unfold, cost_unfold. cbn [pleader] in *.
  inversion Hr as [? ? y Hy Ht Hnd Hall]; subst. rewrite Hy in Hx. injection Hx as ->.
  rewrite Ht. by apply (groups_follow top l x []).
Qed.

(** Once it is out the machine stays there. *)
Lemma run_out n top d : run n top Out d = Ok (Out, d).
Proof. induction n; [done|]. cbn. exact IHn. Qed.

Lemma walk_dfs top leader p fuel d n :
  (exists x, ts !! top = Some x /\ group_leader x = leader) ->
  pleader p = leader -> rep leader p -> (cost p < fuel)%nat ->
  walk_process_tree fuel top d n = Ok (fst (dfs p d), n).
Proof.
  intros (x & Hx & Hl) Hp Hr Hf. assert (exists y, ts !! leader = Some y) as [y Hy].
  { subst leader. revert Hp. destruct Hr as [l gs y Hy]. intros <-. by exists y. }
  unfold walk_process_tree. unfold mbind, M_bind, modify, lift.
  rewrite (field_ok group_leader top x Hx), Hl, (field_ok threads leader y Hy).
  pose proof (proc_follows leader p d y Hr) as H. rewrite Hp in H. specialize (H Hy).
  destruct (dfs p d) as [d' stop]. destruct H as (k & Hk & Hrun).
  replace fuel with (k + S (fuel - k - 1))%nat by lia. rewrite run_app, Hrun. cbn [res_bind mbind].
  assert (run (S (fuel - k - 1)) leader (at_end stop (Threads leader None)) d' = Ok (Out, d')) as ->.
  { destruct stop; cbn [at_end]; [apply run_out|]. cbn. rewrite Z.eqb_refl. cbn. apply run_out. }
  cbn. by rewrite Z.add_simpl_r.
Qed.

(** C15: the walk without a stack is the recursive walk: for every process tree laid
    out in the tasks and every visitor it ends, within the number of steps given
    by the tree, with the data the recursive walk computes, in the same order of
    calls, and with the task list unlocked. *)
Theorem walk_is_dfs top leader p fuel d n :
  (exists x, ts !! top = Some x /\ group_leader x = leader) ->
  pleader p = leader -> rep leader p -> (cost p < fuel)%nat ->
  walk_process_tree fuel top d n = Ok (fst (dfs p d), n).
Proof. apply walk_dfs. Qed.

End Walk.

(** ** Visiting everything *)

(** A visitor that notes the process and always descends. *)
Definition note (child : Z) (seen : list Z) : Z * list Z := (1, seen ++ [child]).

(** The descendants of a process in the order of the recursion. *)
Fixpoint descendants (p : proc) : list Z :=
  match p with
  | Proc _ groups =>
      (fix over_groups gs := match gs with
        | [] => []
        | (_, ks) :: gs' =>
            (fix over_kids ks := match ks with
               | [] => []
               | k :: ks' => pleader k :: descendants k ++ over_kids ks'
               end) ks ++ over_groups gs'
        end) groups
  end.

Definition descendants_kids (ks : list proc) : list Z := ks ≫= fun k => pleader k :: descendants k.

Lemma descendants_unfold l gs : descendants (Proc l gs) = gs ≫= fun g => descendants_kids (snd g).
Proof.
  cbn. induction gs as [|[t ks] gs IH]; [done|]. cbn. by rewrite IH.
Qed.

Lemma dfs_note p seen : dfs note p seen = (seen ++ descendants p, false).
Proof.
  revert seen. induction p as [l gs Hgs] using proc_tree_ind. intros seen.
  rewrite dfs_unfold, descendants_unfold. revert seen.
  induction Hgs as [|[t ks] gs Hks _ IH]; intros seen; cbn; [by rewrite app_nil_r|].
  assert (dfs_kids note ks seen = (seen ++ descendants_kids ks, false)) as ->.
  { cbn in Hks. revert seen. induction Hks as [|k ks Hk _ IHk]; intros seen; cbn; [by rewrite app_nil_r|].
    rewrite Hk, IHk. cbn. by rewrite <- !app_assoc. }
  rewrite IH. by rewrite <- app_assoc.
Qed.

(** A visitor that always descends is called once for every descendant, parents
    before their children. *)
Theorem walk_visits_all ts top leader p fuel n :
  (exists x, ts !! top = Some x /\ group_leader x = leader) ->
  pleader p = leader -> rep ts leader p -> (cost p < fuel)%nat ->
  walk_process_tree note ts fuel top [] n = Ok (descendants p, n).
Proof.
  intros Ht Hp Hr Hf. rewrite (walk_dfs note ts top leader p fuel [] n Ht Hp Hr Hf).
  by rewrite dfs_note.
Qed.

(** ** Witnesses *)

(** A process 1 with threads 1 and 2; 1 forked 10, 2 forked 20 and 30; 20 forked 21. *)
Definition tree0 : proc :=
  Proc 1 [(1, [Proc 10 [(10, [])]]); (2, [Proc 20 [(20, [Proc 21 [(21, [])]])]; Proc 30 [(30, [])]])].

Definition tasks0 : gmap Z ptask := list_to_map [
  (1, Ptask 1 [1; 2] [10] 0); (2, Ptask 1 [1; 2] [20; 30] 0);
  (10, Ptask 10 [10] [] 1); (20, Ptask 20 [20] [21] 2); (21, Ptask 21 [21] [] 20); (30, Ptask 30 [30] [] 2) ].

Lemma tree0_rep : rep tasks0 1 tree0.
Proof.
  repeat first
    [ eapply rep_proc; [vm_compute; reflexivity|reflexivity|cbn|]
    | eapply rep_thread; [vm_compute; reflexivity|reflexivity|reflexivity|cbn|]
    | apply List.Forall_nil | apply List.Forall_cons
    | apply NoDup_nil_2 | apply NoDup_cons_2; [set_solver by lia|]
    | split; [cbn; lia|eexists; split; [vm_compute; reflexivity|split; [reflexivity|]]] ].
Qed.

Lemma walk_is_dfs_witness :
  walk_process_tree note tasks0 100 2 [] 0 = Ok ([10; 20; 21; 30], 0).
Proof.
  exact (walk_is_dfs note tasks0 2 1 tree0 100 [] 0
           (ex_intro _ (Ptask 1 [1; 2] [20; 30] 0) (conj eq_refl eq_refl)) eq_refl tree0_rep ltac:(cbn; lia)).
Defined.
