(* ===== verification/Mm.v ===== *)
(** * Mm: address spaces

    Models the life of an [mm_struct] in [kernel/fork.c]: [mm_init], [mm_alloc],
    [dup_mmap], [dup_mm], [mmput], [__mmput], [__mmdrop], the executable file of
    an address space and the ways to get hold of another task's address space.

    Everything that is counted (references to files, policies, namespaces and
    modules, denied writes, entries of reverse mappings, committed pages, live
    objects) is a counter of the state; the counters an address space accounts
    for are its holdings [mm_hold].  The theorems say by how much each counter
    moves. *)

From Stdlib Require Import ZArith Lia.
From stdpp Require Import base list gmap.
From S2P Require Import Prelude.

(** ** Data *)

Definition PAGE_SHIFT : Z := 12.
Definition VM_SHARED : Z := 0x8.
Definition VM_LOCKED : Z := 0x2000.
Definition VM_DONTCOPY : Z := 0x20000.
Definition VM_LOCKONFAULT : Z := 0x80000.
Definition VM_ACCOUNT : Z := 0x100000.
Definition VM_WIPEONFORK : Z := 0x2000000.

Record vma := Vma {
  vm_start : Z; vm_end : Z; vm_flags : Z;
  vm_file : option Z; vm_policy : option Z;
  anon_vma : bool;          (** has anonymous pages *)
  vm_mm : Z
}.

Definition vma_pages (v : vma) : Z := Z.shiftr (vm_end v - vm_start v) PAGE_SHIFT.

(** The fields of [struct mm_struct] that decide what is shared and released.
    [mmap] is the list linked by [vm_next]. *)
Record mm := Mm {
  mm_users : Z; mm_count : Z;
  mmap : list vma; map_count : Z; total_vm : Z; locked_vm : Z; hiwater_vm : Z;
  exe_file : option Z; binfmt : option Z; user_ns : Z;
  mm_flags : Z; def_flags : Z; owner : option Z;
  mmlist : bool             (** on the list of swapped address spaces *)
}.

Inductive counter :=
  | CFile (f : Z)           (** f_count *)
  | CWrite (i : Z)          (** i_writecount of an inode: negative when writing is denied *)
  | CMapped (i : Z)         (** areas in the i_mmap tree *)
  | CWritable (i : Z)       (** i_mmap_writable *)
  | CPolicy (p : Z) | CUserNs (n : Z) | CModule (b : Z)
  | CCommit                 (** committed pages *)
  | CVma | CAnon | CPgd | CContext
  | CUprobe.                (** readers of the uprobe semaphore *)

#[global] Instance counter_eq_dec : EqDecision counter.
Proof. solve_decision. Defined.

Inductive lock := LMmap (m : Z) | LTask (t : Z) | LExecUpdate (t : Z).

#[global] Instance lock_eq_dec : EqDecision lock.
Proof. solve_decision. Defined.

Record kst := Kst { mms : gmap Z mm; ctr : counter -> Z; locks : list lock }.

(** What the callees outside this file answer.  The answers of the loop of
    [dup_mmap] are indexed by the number of the area. *)
Record mm_env := MmEnv {
  f_inode : Z -> Z; f_path : Z -> Z;
  mmf_init_mask : Z; vm_init_def_mask : Z; default_dump_filter : Z;
  allocate_mm : option Z; pgd_alloc : bool; init_new_context : Z;
  mmap_lock_killed : bool; ksm_fork : Z; khugepaged_fork : Z;
  fatal_signal_pending : nat -> bool; vm_enough_memory : nat -> Z; vm_area_alloc : nat -> bool;
  vma_dup_policy : nat -> Z; dup_userfaultfd : nat -> Z; anon_vma_fork : nat -> Z;
  copy_page_range : nat -> Z; arch_dup_mmap : Z; try_module_get : bool;
  exit_mmap : Z -> M kst unit
}.

(** ** Counters and locks *)

(** [n] at [c] and nothing elsewhere. *)
Definition at_ (c : counter) (n : Z) : counter -> Z := fun c' => if decide (c' = c) then n else 0.
Definition bump (c : counter) (n : Z) (g : counter -> Z) : counter -> Z := fun c' => g c' + at_ c n c'.

Definition add (c : counter) (n : Z) : M kst unit :=
  modify (fun s => Kst (mms s) (bump c n (ctr s)) (locks s)).

Definition acquire (l : lock) : M kst unit := fun s =>
  if decide (l ∈ locks s) then Fault Deadlock else Ok (tt, Kst (mms s) (ctr s) (l :: locks s)).
Definition release (l : lock) : M kst unit :=
  modify (fun s => Kst (mms s) (ctr s) (filter (.≠ l) (locks s))).

(** The address space [id] must be live. *)
Definition get_mm (id : Z) : M kst mm := s ← get; lift (res_of_opt Dangling (mms s !! id)).
Definition put_mm (id : Z) (m : mm) : M kst unit :=
  modify (fun s => Kst (<[id := m]> (mms s)) (ctr s) (locks s)).

(** References to files: the last one frees the file. *)
Definition get_file (f : Z) : M kst unit := s ← get;
  if ctr s (CFile f) <=? 0 then abort Dangling else add (CFile f) 1.
Definition fput (f : Z) : M kst unit := s ← get;
  if ctr s (CFile f) <=? 0 then abort Dangling else add (CFile f) (- 1).
Definition get_file_rcu (f : Z) : M kst bool := s ← get;
  if ctr s (CFile f) <=? 0 then mret false else _ ← add (CFile f) 1; mret true.

(** Record updates *)

Definition set_users n (m : mm) := Mm n (mm_count m) (mmap m) (map_count m) (total_vm m) (locked_vm m)
  (hiwater_vm m) (exe_file m) (binfmt m) (user_ns m) (mm_flags m) (def_flags m) (owner m) (mmlist m).
Definition set_count n (m : mm) := Mm (mm_users m) n (mmap m) (map_count m) (total_vm m) (locked_vm m)
  (hiwater_vm m) (exe_file m) (binfmt m) (user_ns m) (mm_flags m) (def_flags m) (owner m) (mmlist m).
Definition set_areas vs n t (m : mm) := Mm (mm_users m) (mm_count m) vs n t (locked_vm m)
  (hiwater_vm m) (exe_file m) (binfmt m) (user_ns m) (mm_flags m) (def_flags m) (owner m) (mmlist m).
Definition set_exe f (m : mm) := Mm (mm_users m) (mm_count m) (mmap m) (map_count m) (total_vm m) (locked_vm m)
  (hiwater_vm m) f (binfmt m) (user_ns m) (mm_flags m) (def_flags m) (owner m) (mmlist m).
Definition set_binfmt b (m : mm) := Mm (mm_users m) (mm_count m) (mmap m) (map_count m) (total_vm m) (locked_vm m)
  (hiwater_vm m) (exe_file m) b (user_ns m) (mm_flags m) (def_flags m) (owner m) (mmlist m).
Definition set_owner o (m : mm) := Mm (mm_users m) (mm_count m) (mmap m) (map_count m) (total_vm m) (locked_vm m)
  (hiwater_vm m) (exe_file m) (binfmt m) (user_ns m) (mm_flags m) (def_flags m) o (mmlist m).
Definition set_hiwater h (m : mm) := Mm (mm_users m) (mm_count m) (mmap m) (map_count m) (total_vm m) (locked_vm m)
  h (exe_file m) (binfmt m) (user_ns m) (mm_flags m) (def_flags m) (owner m) (mmlist m).
Definition set_mmlist b (m : mm) := Mm (mm_users m) (mm_count m) (mmap m) (map_count m) (total_vm m) (locked_vm m)
  (hiwater_vm m) (exe_file m) (binfmt m) (user_ns m) (mm_flags m) (def_flags m) (owner m) b.
Definition set_user_ns n (m : mm) := Mm (mm_users m) (mm_count m) (mmap m) (map_count m) (total_vm m) (locked_vm m)
  (hiwater_vm m) (exe_file m) (binfmt m) n (mm_flags m) (def_flags m) (owner m) (mmlist m).

Definition opt_do (f : Z -> M kst unit) (o : option Z) : M kst unit :=
  match o with Some x => f x | None => mret tt end.

Section Mm.
Context (E : mm_env).

(** ** The executable file *)

Definition deny_write_access (f : Z) : M kst bool := s ← get;
  if 0 <? ctr s (CWrite (f_inode E f)) then mret false else _ ← add (CWrite (f_inode E f)) (- 1); mret true.
Definition allow_write_access (f : Z) : M kst unit := add (CWrite (f_inode E f)) 1.

Definition get_mm_exe_file (id : Z) : M kst (option Z) :=
  m ← get_mm id;
  match exe_file m with
  | None => mret None
  | Some f => b ← get_file_rcu f; mret (if (b : bool) then Some f else None)
  end.

Definition dup_mm_exe_file (id oldid : Z) : M kst unit :=
  f ← get_mm_exe_file oldid;
  m ← get_mm id;
  _ ← put_mm id (set_exe f m);
  opt_do (fun f => _ ← deny_write_access f; mret tt) f.

Definition set_mm_exe_file (id : Z) (new_exe_file : option Z) : M kst Z :=
  m ← get_mm id;
  let old_exe_file := exe_file m in
  ok ← (match new_exe_file with
        | None => mret true
        | Some f => b ← deny_write_access f; if (b : bool) then _ ← get_file f; mret true else mret false
        end);
  if negb ok then mret (- Errno.EACCES)
  else
    _ ← put_mm id (set_exe new_exe_file m);
    _ ← opt_do (fun f => _ ← allow_write_access f; fput f) old_exe_file;
    mret 0.

(** Does an area map a file with the path of [f]? *)
Fixpoint maps_path (vs : list vma) (f : Z) : bool :=
  match vs with
  | [] => false
  | v :: vs => match vm_file v with
               | None => maps_path vs f
               | Some g => (f_path E g =? f_path E f) || maps_path vs f
               end
  end.

Definition replace_mm_exe_file (id : Z) (new_exe_file : Z) : M kst Z :=
  old ← get_mm_exe_file id;
  ret ← (match old with
         | None => mret 0
         | Some f =>
             _ ← acquire (LMmap id);
             m ← get_mm id;
             let ret := if maps_path (mmap m) f then - Errno.EBUSY else 0 in
             _ ← release (LMmap id);
             _ ← fput f;
             mret ret
         end);
  if negb (ret =? 0) then mret ret
  else
    ok ← deny_write_access new_exe_file;
    if negb ok then mret (- Errno.EACCES)
    else
      _ ← get_file new_exe_file;
      m ← get_mm id;
      _ ← put_mm id (set_exe (Some new_exe_file) m);
      match exe_file m with
      | None => mret 0
      | Some f =>
          _ ← acquire (LMmap id);
          _ ← allow_write_access f;
          _ ← fput f;
          _ ← release (LMmap id);
          mret 0
      end.

(** ** Copying the areas *)

(** The copy of an area that [vm_area_dup] and the assignments after it make. *)
Definition dup_vma (id : Z) (v : vma) : vma :=
  Vma (vm_start v) (vm_end v) (Z.ldiff (vm_flags v) (Z.lor VM_LOCKED VM_LOCKONFAULT)) (vm_file v) (vm_policy v)
      (if hasb (vm_flags v) VM_WIPEONFORK then false else anon_vma v) id.

(** The labels before [out]. *)
Definition fail_nomem (charge : Z) : M kst (option Z) :=
  _ ← add CCommit (- charge); mret (Some (- Errno.ENOMEM)).
Definition fail_nomem_policy (charge : Z) : M kst (option Z) :=
  _ ← add CVma (- 1); fail_nomem charge.
Definition fail_nomem_anon_vma_fork (tmp : vma) (charge : Z) : M kst (option Z) :=
  _ ← opt_do (fun p => add (CPolicy p) (- 1)) (vm_policy tmp); fail_nomem_policy charge.

(** The file of a new area: one reference and one entry in the share list. *)
Definition map_file (tmp : vma) : M kst unit :=
  match vm_file tmp with
  | None => mret tt
  | Some f =>
      _ ← get_file f;
      _ ← (if hasb (vm_flags tmp) VM_SHARED then add (CWritable (f_inode E f)) 1 else mret tt);
      add (CMapped (f_inode E f)) 1
  end.

(** The new area goes to the end of the list. *)
Definition link_vma (id : Z) (tmp : vma) : M kst unit :=
  m ← get_mm id;
  put_mm id (set_areas (mmap m ++ [tmp]) (map_count m + 1) (total_vm m) m).

(** One turn of the loop: the next one follows, or [Some retval] goes to [out]. *)
Definition dup_area (id : Z) (i : nat) (mpnt : vma) : M kst (option Z) :=
  if hasb (vm_flags mpnt) VM_DONTCOPY then
    m ← get_mm id;
    _ ← put_mm id (set_areas (mmap m) (map_count m) (total_vm m - vma_pages mpnt) m);
    mret None
  else if fatal_signal_pending E i then mret (Some (- Errno.EINTR))
  else
    let accounted := hasb (vm_flags mpnt) VM_ACCOUNT in
    if accounted && negb (vm_enough_memory E i =? 0) then fail_nomem 0
    else
      let charge := if accounted then vma_pages mpnt else 0 in
      _ ← (if accounted then add CCommit charge else mret tt);
      if negb (vm_area_alloc E i) then fail_nomem charge
      else
        _ ← add CVma 1;
        let tmp := dup_vma id mpnt in
        if negb (vma_dup_policy E i =? 0) then fail_nomem_policy charge
        else
          _ ← opt_do (fun p => add (CPolicy p) 1) (vm_policy tmp);
          if negb (dup_userfaultfd E i =? 0) then fail_nomem_anon_vma_fork tmp charge
          else if negb (hasb (vm_flags tmp) VM_WIPEONFORK) && negb (anon_vma_fork E i =? 0)
          then fail_nomem_anon_vma_fork tmp charge
          else
            _ ← (if anon_vma tmp then add CAnon 1 else mret tt);
            _ ← map_file tmp;
            _ ← link_vma id tmp;
            let retval := if hasb (vm_flags tmp) VM_WIPEONFORK then 0 else copy_page_range E i in
            mret (if negb (retval =? 0) then Some retval else None).

Fixpoint dup_areas (id : Z) (i : nat) (vs : list vma) : M kst Z :=
  match vs with
  | [] => mret (arch_dup_mmap E)
  | mpnt :: vs' =>
      r ← dup_area id i mpnt;
      match r with Some retval => mret retval | None => dup_areas id (S i) vs' end
  end.

(** With both locks held, up to [out]. *)
Definition dup_mmap_locked (id oldid : Z) : M kst Z :=
  _ ← dup_mm_exe_file id oldid;
  om ← get_mm oldid;
  m ← get_mm id;
  _ ← put_mm id (set_areas (mmap m) (map_count m) (total_vm om) m);
  if negb (ksm_fork E =? 0) then mret (ksm_fork E)
  else if negb (khugepaged_fork E =? 0) then mret (khugepaged_fork E)
  else dup_areas id 0 (mmap om).

Definition dup_mmap (id oldid : Z) : M kst Z :=
  _ ← add CUprobe 1;
  retval ← (if mmap_lock_killed E then mret (- Errno.EINTR)
    else
      _ ← acquire (LMmap oldid);
      _ ← acquire (LMmap id);
      retval ← dup_mmap_locked id oldid;
      _ ← release (LMmap id);
      _ ← release (LMmap oldid);
      mret retval);
  _ ← add CUprobe (- 1);
  mret retval.

(** ** Creation *)

Definition free_mm (id : Z) : M kst unit :=
  modify (fun s => Kst (delete id (mms s)) (ctr s) (locks s)).

(** [mm_init] on the (zeroed or copied) structure of the task [p]; the flags come
    from the address space [current_mm] of the caller, if it has one. *)
Definition init_fields (m : mm) (p : Z) (curmm : option mm) : mm :=
  Mm 1 1 [] 0 (total_vm m) 0 (hiwater_vm m) None (binfmt m) (user_ns m)
     (match curmm with Some c => Z.land (mm_flags c) (mmf_init_mask E) | None => default_dump_filter E end)
     (match curmm with Some c => Z.land (def_flags c) (vm_init_def_mask E) | None => 0 end)
     (Some p) false.

Definition mm_init (id : Z) (p : Z) (ns : Z) (current_mm : option Z) : M kst bool :=
  m ← get_mm id;
  curmm ← (match current_mm with Some c => cm ← get_mm c; mret (Some cm) | None => mret None end);
  _ ← put_mm id (init_fields m p curmm);
  if negb (pgd_alloc E) then _ ← free_mm id; mret false           (* fail_nopgd *)
  else
    _ ← add CPgd 1;
    if negb (init_new_context E =? 0) then                          (* fail_nocontext *)
      _ ← add CPgd (- 1); _ ← free_mm id; mret false
    else
      _ ← add CContext 1;
      _ ← add (CUserNs ns) 1;
      m ← get_mm id;
      _ ← put_mm id (set_user_ns ns m);
      mret true.

Definition zero_mm : mm := Mm 0 0 [] 0 0 0 0 None None 0 0 0 None false.

Definition mm_alloc (p : Z) (ns : Z) (current_mm : option Z) : M kst (option Z) :=
  match allocate_mm E with
  | None => mret None
  | Some id =>
      _ ← put_mm id zero_mm;
      ok ← mm_init id p ns current_mm;
      mret (if (ok : bool) then Some id else None)
  end.

(** ** Release *)

Definition init_mm : Z := 0.

Definition __mmdrop (id : Z) : M kst unit :=
  if id =? init_mm then abort BugOn
  else
    m ← get_mm id;
    _ ← add CPgd (- 1);
    _ ← add CContext (- 1);
    _ ← add (CUserNs (user_ns m)) (- 1);
    free_mm id.

(** One reference to the structure less, as in [mmdrop_async] but at once. *)
Definition mmdrop (id : Z) : M kst unit :=
  m ← get_mm id;
  _ ← put_mm id (set_count (mm_count m - 1) m);
  if mm_count m - 1 =? 0 then __mmdrop id else mret tt.

Definition __mmput (id : Z) : M kst unit :=
  m ← get_mm id;
  if negb (mm_users m =? 0) then abort BugOn
  else
    _ ← exit_mmap E id;
    _ ← set_mm_exe_file id None;
    m ← get_mm id;
    _ ← (if mmlist m then put_mm id (set_mmlist false m) else mret tt);
    _ ← opt_do (fun b => add (CModule b) (- 1)) (binfmt m);
    mmdrop id.

Definition mmput (id : Z) : M kst unit :=
  m ← get_mm id;
  _ ← put_mm id (set_users (mm_users m - 1) m);
  if mm_users m - 1 =? 0 then __mmput id else mret tt.

(** ** Duplication *)

Definition dup_mm_fail (id : Z) : M kst (option Z) :=               (* free_pt *)
  m ← get_mm id;
  _ ← put_mm id (set_owner None (set_binfmt None m));
  _ ← mmput id;
  mret None.

Definition dup_mm (tsk : Z) (oldid : Z) (current_mm : option Z) : M kst (option Z) :=
  match allocate_mm E with
  | None => mret None
  | Some id =>
      om ← get_mm oldid;
      _ ← put_mm id om;
      ok ← mm_init id tsk (user_ns om) current_mm;
      if negb ok then mret None
      else
        err ← dup_mmap id oldid;
        if negb (err =? 0) then dup_mm_fail id
        else
          m ← get_mm id;
          _ ← put_mm id (set_hiwater (total_vm m) m);
          match binfmt m with
          | None => mret (Some id)
          | Some b => if negb (try_module_get E) then dup_mm_fail id
                      else _ ← add (CModule b) 1; mret (Some id)
          end
  end.

(** ** Another task's address space *)

(** The task: its number, its address space and whether it is a kernel thread. *)
Record mtask := MTask { t_id : Z; t_mm : option Z; t_kthread : bool }.

Definition get_task_exe_file (t : mtask) : M kst (option Z) :=
  _ ← acquire (LTask (t_id t));
  f ← (match t_mm t with
       | Some id => if negb (t_kthread t) then get_mm_exe_file id else mret None
       | None => mret None
       end);
  _ ← release (LTask (t_id t));
  mret f.

Definition mmget (id : Z) : M kst unit := m ← get_mm id; put_mm id (set_users (mm_users m + 1) m).

Definition get_task_mm (t : mtask) : M kst (option Z) :=
  _ ← acquire (LTask (t_id t));
  r ← (match t_mm t with
       | Some id => if t_kthread t then mret None else _ ← mmget id; mret (Some id)
       | None => mret None
       end);
  _ ← release (LTask (t_id t));
  mret r.

(** [may_access] is the answer of [ptrace_may_access], [killed] that of
    [down_read_killable]. *)
Definition mm_access (t : mtask) (current_mm : option Z) (killed : Z) (may_access : bool) : M kst (Z + option Z) :=
  if negb (killed =? 0) then mret (inl killed)
  else
    _ ← acquire (LExecUpdate (t_id t));
    mm ← get_task_mm t;
    r ← (match mm with
         | Some id =>
             if negb (bool_decide (Some id = current_mm)) && negb may_access
             then _ ← mmput id; mret (inl (- Errno.EACCES)) else mret (inr (Some id))
         | None => mret (inr None)
         end);
    _ ← release (LExecUpdate (t_id t));
    mret r.

(** ** Holdings *)

Definition file_hold (sh : bool) (o : option Z) (c : counter) : Z :=
  match o with
  | None => 0
  | Some f => at_ (CFile f) 1 c + (if sh then at_ (CWritable (f_inode E f)) 1 c else 0) +
              at_ (CMapped (f_inode E f)) 1 c
  end.

Definition vma_hold (v : vma) (c : counter) : Z :=
  at_ CVma 1 c + (if hasb (vm_flags v) VM_ACCOUNT then at_ CCommit (vma_pages v) c else 0) +
  match vm_policy v with Some p => at_ (CPolicy p) 1 c | None => 0 end +
  (if anon_vma v then at_ CAnon 1 c else 0) + file_hold (hasb (vm_flags v) VM_SHARED) (vm_file v) c.

Definition areas_hold (vs : list vma) (c : counter) : Z := foldr (fun v n => vma_hold v c + n) 0 vs.

Definition exe_hold (o : option Z) (c : counter) : Z :=
  match o with Some f => at_ (CFile f) 1 c + at_ (CWrite (f_inode E f)) (- 1) c | None => 0 end.

(** What an address space with users holds. *)
Definition mm_hold (m : mm) (c : counter) : Z :=
  areas_hold (mmap m) c + exe_hold (exe_file m) c +
  match binfmt m with Some b => at_ (CModule b) 1 c | None => 0 end +
  at_ CPgd 1 c + at_ CContext 1 c + at_ (CUserNs (user_ns m)) 1 c.

(** The counters move by [h]; nothing else changes. *)
Definition shifted (h : counter -> Z) (s s' : kst) : Prop :=
  mms s' = mms s /\ locks s' = locks s /\ forall c, ctr s' c = ctr s c + h c.

Lemma at_opp c n c' : at_ c (- n) c' = - at_ c n c'.
Proof. unfold at_. by case_decide. Qed.

Lemma at_ne c n c' : c' <> c -> at_ c n c' = 0.
Proof. intros H. unfold at_. by rewrite decide_False. Qed.

Lemma at_nonneg c n c' : 0 <= n -> 0 <= at_ c n c'.
Proof. unfold at_. case_decide; lia. Qed.

Lemma areas_hold_app vs ws c : areas_hold (vs ++ ws) c = areas_hold vs c + areas_hold ws c.
Proof. induction vs as [|v vs IH]; cbn; [done|]. fold (areas_hold (vs ++ ws) c) (areas_hold vs c). lia. Qed.

Lemma vma_hold_file v f : 0 <= vma_hold v (CFile f).
Proof.
  unfold vma_hold, file_hold. rewrite !(at_ne _ _ (CFile f)) by done.
  destruct (vm_policy v); rewrite ?(at_ne (CPolicy _)) by done;
    destruct (hasb (vm_flags v) VM_ACCOUNT), (anon_vma v), (hasb (vm_flags v) VM_SHARED);
    destruct (vm_file v) as [g|]; rewrite ?(at_ne (CWritable _)), ?(at_ne (CMapped _)) by done; try lia;
    pose proof (at_nonneg (CFile g) 1 (CFile f)); lia.
Qed.

(** *** Rules *)

Lemma runs_add c n s Q : Q tt (Kst (mms s) (bump c n (ctr s)) (locks s)) -> runs (add c n) s Q.
Proof. intros H. by eexists _, _. Qed.

Lemma runs_get_mm id s m Q : mms s !! id = Some m -> Q m s -> runs (get_mm id) s Q.
Proof. intros H HQ. exists m, s. split; [|done]. unfold get_mm. mrun. by rewrite H. Qed.

Lemma runs_put_mm id m s Q : Q tt (Kst (<[id := m]> (mms s)) (ctr s) (locks s)) -> runs (put_mm id m) s Q.
Proof. intros H. by eexists _, _. Qed.

Lemma runs_get_file f s Q :
  0 < ctr s (CFile f) -> Q tt (Kst (mms s) (bump (CFile f) 1 (ctr s)) (locks s)) -> runs (get_file f) s Q.
Proof.
  intros H HQ. eexists _, _. split; [|exact HQ]. unfold get_file. mrun. by rewrite (proj2 (Z.leb_gt _ _)) by lia.
Qed.

Lemma runs_fput f s Q :
  0 < ctr s (CFile f) -> Q tt (Kst (mms s) (bump (CFile f) (- 1) (ctr s)) (locks s)) -> runs (fput f) s Q.
Proof.
  intros H HQ. eexists _, _. split; [|exact HQ]. unfold fput. mrun. by rewrite (proj2 (Z.leb_gt _ _)) by lia.
Qed.

Lemma runs_opt_add (g : Z -> counter) n o s Q :
  (forall s', shifted (fun c => match o with Some x => at_ (g x) n c | None => 0 end) s s' -> Q tt s') ->
  runs (opt_do (fun x => add (g x) n) o) s Q.
Proof.
  intros H. destruct o as [x|]; eexists _, _; (split; [reflexivity|]); apply H; split_and!; try done.
  intros c. lia.
Qed.

Lemma runs_if_add (b : bool) k n s Q :
  (forall s', shifted (fun c => if b then at_ k n c else 0) s s' -> Q tt s') ->
  runs (if b then add k n else mret tt) s Q.
Proof.
  intros H. destruct b; eexists _, _; (split; [reflexivity|]); apply H; split_and!; try done.
  intros c. lia.
Qed.

Lemma map_file_ok v s :
  (forall f, vm_file v = Some f -> 0 < ctr s (CFile f)) ->
  runs (map_file v) s (fun _ s' => shifted (file_hold (hasb (vm_flags v) VM_SHARED) (vm_file v)) s s').
Proof.
  intros H. unfold map_file. destruct (vm_file v) as [f|].
  2: { apply runs_ret. split_and!; try done. intros c. cbn. lia. }
  apply runs_bind, runs_get_file; [by apply H|]. apply runs_bind, runs_if_add. intros s' (E1 & E2 & E3).
  apply runs_add. split_and!; cbn in *; [done..|]. intros c. unfold bump. rewrite E3. unfold bump. lia.
Qed.

(** *** Labels and one turn of the loop *)

Lemma fail_nomem_ok charge s :
  runs (fail_nomem charge) s (fun r s' => r = Some (- Errno.ENOMEM) /\ shifted (fun c => - at_ CCommit charge c) s s').
Proof.
  unfold fail_nomem. apply runs_bind, runs_add, runs_ret. split; [done|]. split_and!; [done..|].
  intros c. cbn. unfold bump. by rewrite at_opp.
Qed.

Lemma fail_nomem_policy_ok charge s :
  runs (fail_nomem_policy charge) s (fun r s' => r = Some (- Errno.ENOMEM) /\
    shifted (fun c => - at_ CCommit charge c - at_ CVma 1 c) s s').
Proof.
  unfold fail_nomem_policy. apply runs_bind, runs_add. eapply runs_mono; [apply fail_nomem_ok|].
  intros r s' (-> & E1 & E2 & E3). split; [done|]. split_and!; [done..|].
  intros c. rewrite E3. cbn. unfold bump. rewrite (at_opp CVma 1). lia.
Qed.

Definition policy_hold (o : option Z) (c : counter) : Z :=
  match o with Some p => at_ (CPolicy p) 1 c | None => 0 end.

Lemma fail_nomem_anon_vma_fork_ok v charge s :
  runs (fail_nomem_anon_vma_fork v charge) s (fun r s' => r = Some (- Errno.ENOMEM) /\
    shifted (fun c => - at_ CCommit charge c - at_ CVma 1 c - policy_hold (vm_policy v) c) s s').
Proof.
  unfold fail_nomem_anon_vma_fork. apply runs_bind, runs_opt_add. intros s1 (F1 & F2 & F3).
  eapply runs_mono; [apply fail_nomem_policy_ok|].
  intros r s' (-> & E1 & E2 & E3). split; [done|]. split_and!; [congruence..|].
  intros c. rewrite E3, F3. unfold policy_hold. destruct (vm_policy v) as [p|]; [rewrite (at_opp (CPolicy p) 1)|]; lia.
Qed.

(** How a turn of the loop ends. *)
Inductive turn (id : Z) (v : vma) (m : mm) (s : kst) : option Z -> kst -> Prop :=
  | turn_skip s' :
      hasb (vm_flags v) VM_DONTCOPY = true ->
      mms s' = <[id := set_areas (mmap m) (map_count m) (total_vm m - vma_pages v) m]> (mms s) ->
      locks s' = locks s -> (forall c, ctr s' c = ctr s c) -> turn id v m s None s'
  | turn_fail e s' : hasb (vm_flags v) VM_DONTCOPY = false -> e <> 0 -> shifted (fun _ => 0) s s' ->
      turn id v m s (Some e) s'
  | turn_copy r s' :
      hasb (vm_flags v) VM_DONTCOPY = false -> r <> Some 0 ->
      mms s' = <[id := set_areas (mmap m ++ [dup_vma id v]) (map_count m + 1) (total_vm m) m]> (mms s) ->
      locks s' = locks s -> (forall c, ctr s' c = ctr s c + vma_hold (dup_vma id v) c) ->
      turn id v m s r s'.

Lemma dup_vma_hold id v c :
  vma_hold (dup_vma id v) c =
    at_ CVma 1 c + (if hasb (vm_flags v) VM_ACCOUNT then at_ CCommit (vma_pages v) c else 0) +
    policy_hold (vm_policy v) c + (if anon_vma (dup_vma id v) then at_ CAnon 1 c else 0) +
    file_hold (hasb (vm_flags (dup_vma id v)) VM_SHARED) (vm_file v) c.
Proof. unfold vma_hold. cbn [dup_vma vm_flags]. by rewrite (hasb_ldiff _ _ VM_ACCOUNT). Qed.

(** The committed pages of an area, as [dup_area] charges them. *)
Lemma at_charge (b : bool) n c :
  (if b then at_ CCommit (if b then n else 0) c else 0) = at_ CCommit (if b then n else 0) c.
Proof. destruct b; [done|]. unfold at_. by case_decide. Qed.

Lemma shifted_trans h g s s1 s2 :
  shifted h s s1 -> shifted g s1 s2 -> shifted (fun c => h c + g c) s s2.
Proof.
  intros (E1 & E2 & E3) (F1 & F2 & F3). split_and!; [congruence..|]. intros c. rewrite F3, E3. lia.
Qed.

Lemma shifted_ext h g s s' : shifted h s s' -> (forall c, h c = g c) -> shifted g s s'.
Proof. intros (E1 & E2 & E3) H. split_and!; [done..|]. intros c. by rewrite E3, H. Qed.

Lemma shifted_refl s : shifted (fun _ => 0) s s.
Proof. split_and!; try done. intros; lia. Qed.

Lemma runs_add_shift c n s Q : (forall s', shifted (at_ c n) s s' -> Q tt s') -> runs (add c n) s Q.
Proof. intros H. apply runs_add, H. by split_and!. Qed.

(** A failure that gave back what was taken. *)
Lemma turn_undo id v m s s1 s2 h g e :
  hasb (vm_flags v) VM_DONTCOPY = false -> e <> 0 ->
  shifted h s s1 -> shifted g s1 s2 -> (forall c, h c + g c = 0) -> turn id v m s (Some e) s2.
Proof.
  intros D He H1 H2 H. apply turn_fail; [done..|]. by eapply shifted_ext; [eapply shifted_trans|].
Qed.

(** From [vma_dup_policy] on: the area is allocated and charged. *)
Lemma link_vma_ok id v m s s1 (r : option Z) h :
  mms s !! id = Some m -> hasb (vm_flags v) VM_DONTCOPY = false -> r <> Some 0 ->
  (forall f, vm_file v = Some f -> 0 < ctr s1 (CFile f)) ->
  shifted h s s1 ->
  (forall c, h c + (if anon_vma (dup_vma id v) then at_ CAnon 1 c else 0) +
             file_hold (hasb (vm_flags (dup_vma id v)) VM_SHARED) (vm_file v) c = vma_hold (dup_vma id v) c) ->
  runs (_ ← (if anon_vma (dup_vma id v) then add CAnon 1 else mret tt);
        _ ← map_file (dup_vma id v); _ ← link_vma id (dup_vma id v); mret r) s1 (turn id v m s).
Proof.
  intros Hm D Hr Hf H1 H. apply runs_bind, runs_if_add. intros s2 H2.
  apply runs_bind. eapply runs_mono; [apply map_file_ok|].
  { intros f Hv. destruct H2 as (_ & _ & ->). specialize (Hf f Hv).
    destruct (anon_vma _); [rewrite at_ne by done|]; lia. }
  intros [] s3 H3. cbn beta in H3. pose proof (shifted_trans _ _ _ _ _ (shifted_trans _ _ _ _ _ H1 H2) H3) as (E1 & E2 & E3).
  unfold link_vma. apply runs_bind, runs_bind, (runs_get_mm _ _ m); [by rewrite E1|].
  apply runs_put_mm, runs_ret. apply turn_copy; cbn; [done..|by rewrite E1|done|].
  intros c. rewrite E3. cbn beta. rewrite <- H. cbn [vm_file dup_vma]. lia.
Qed.

Lemma dup_area_tail id i v m s s1 charge :
  mms s !! id = Some m -> hasb (vm_flags v) VM_DONTCOPY = false ->
  (forall f, vm_file v = Some f -> 0 < ctr s (CFile f)) ->
  charge = (if hasb (vm_flags v) VM_ACCOUNT then vma_pages v else 0) ->
  shifted (fun c => at_ CCommit charge c + at_ CVma 1 c) s s1 ->
  runs (let tmp := dup_vma id v in
        if negb (vma_dup_policy E i =? 0) then fail_nomem_policy charge
        else
          _ ← opt_do (fun p => add (CPolicy p) 1) (vm_policy tmp);
          if negb (dup_userfaultfd E i =? 0) then fail_nomem_anon_vma_fork tmp charge
          else if negb (hasb (vm_flags tmp) VM_WIPEONFORK) && negb (anon_vma_fork E i =? 0)
          then fail_nomem_anon_vma_fork tmp charge
          else
            _ ← (if anon_vma tmp then add CAnon 1 else mret tt);
            _ ← map_file tmp;
            _ ← link_vma id tmp;
            let retval := if hasb (vm_flags tmp) VM_WIPEONFORK then 0 else copy_page_range E i in
            mret (if negb (retval =? 0) then Some retval else None)) s1 (turn id v m s).
Proof.
  intros Hm D Hf Hch H1. cbv zeta. destruct (negb (vma_dup_policy E i =? 0)).
  { eapply runs_mono; [apply fail_nomem_policy_ok|]. intros r s' (-> & Hs).
    eapply turn_undo; [done|done|exact H1|exact Hs|]. intros c. cbn beta. lia. }
  apply runs_bind, runs_opt_add. intros s2 H2. pose proof (shifted_trans _ _ _ _ _ H1 H2) as H12.
  destruct (negb (dup_userfaultfd E i =? 0)).
  { eapply runs_mono; [apply fail_nomem_anon_vma_fork_ok|]. intros r s' (-> & Hs).
    eapply turn_undo; [done|done|exact H12|exact Hs|]. intros c. unfold policy_hold. lia. }
  destruct (negb (hasb _ VM_WIPEONFORK) && _).
  { eapply runs_mono; [apply fail_nomem_anon_vma_fork_ok|]. intros r s' (-> & Hs).
    eapply turn_undo; [done|done|exact H12|exact Hs|]. intros c. unfold policy_hold. lia. }
  eapply link_vma_ok; [done|done| | |exact H12|].
  - set (x := if hasb _ _ then 0 else _). destruct (Z.eqb_spec x 0); cbn; congruence.
  - intros f Hv. destruct H12 as (_ & _ & ->). specialize (Hf f Hv). cbn [dup_vma vm_policy].
    destruct (vm_policy v); rewrite ?at_ne by done; lia.
  - intros c. rewrite dup_vma_hold. subst charge. unfold policy_hold. cbn [dup_vma vm_policy].
    rewrite <- at_charge. destruct (hasb (vm_flags v) VM_ACCOUNT); lia.
Qed.

Lemma dup_area_ok id i v m s :
  mms s !! id = Some m -> (forall f, vm_file v = Some f -> 0 < ctr s (CFile f)) ->
  runs (dup_area id i v) s (turn id v m s).
Proof.
  intros Hm Hf. unfold dup_area. destruct (hasb (vm_flags v) VM_DONTCOPY) eqn:D.
  { apply runs_bind, (runs_get_mm _ _ m); [done|]. apply runs_bind, runs_put_mm, runs_ret. by apply turn_skip. }
  destruct (fatal_signal_pending E i).
  { apply runs_ret. apply turn_fail; [done..|]. apply shifted_refl. }
  cbv zeta. set (ac := hasb (vm_flags v) VM_ACCOUNT). destruct (ac && _).
  { eapply runs_mono; [apply fail_nomem_ok|]. intros r s' (-> & Hs).
    eapply turn_undo; [done|done|apply shifted_refl|exact Hs|]. intros c. unfold at_. case_decide; lia. }
  apply runs_bind, runs_if_add. intros s1 H1.
  eapply shifted_ext in H1; [|intros c; apply at_charge].
  destruct (vm_area_alloc E i); cbn [negb].
  2: { eapply runs_mono; [apply fail_nomem_ok|]. intros r s' (-> & Hs).
       eapply turn_undo; [done|done|exact H1|exact Hs|]. intros c. cbn beta. lia. }
  apply runs_bind, runs_add_shift. intros s2 H2.
  apply dup_area_tail; [done..|]. exact (shifted_trans _ _ _ _ _ H1 H2).
Qed.

(** *** The loop *)

Definition copies (id : Z) (vs : list vma) : list vma :=
  map (dup_vma id) (filter (fun v => hasb (vm_flags v) VM_DONTCOPY = false) vs).

(** The pages of the areas that are not copied. *)
Definition dropped (vs : list vma) : Z :=
  foldr (fun v n => (if hasb (vm_flags v) VM_DONTCOPY then vma_pages v else 0) + n) 0 vs.

Lemma copies_cons id v vs :
  copies id (v :: vs) = (if hasb (vm_flags v) VM_DONTCOPY then [] else [dup_vma id v]) ++ copies id vs.
Proof.
  unfold copies. rewrite filter_cons. destruct (hasb (vm_flags v) VM_DONTCOPY) eqn:D.
  - by rewrite decide_False.
  - by rewrite decide_True.
Qed.

(** [m] with the areas of a part [vs] of the old list. *)
Definition with_copies (id : Z) (vs : list vma) (m : mm) : mm :=
  set_areas (mmap m ++ copies id vs) (map_count m + Z.of_nat (length (copies id vs))) (total_vm m - dropped vs) m.

Lemma with_copies_nil id m : with_copies id [] m = m.
Proof. unfold with_copies. cbn. rewrite app_nil_r, Z.add_0_r, Z.sub_0_r. by destruct m. Qed.

Definition copied (id : Z) (vs : list vma) (m : mm) (s s' : kst) : Prop :=
  mms s' = <[id := with_copies id vs m]> (mms s) /\ locks s' = locks s /\
  forall c, ctr s' c = ctr s c + areas_hold (copies id vs) c.

Lemma copied_nil id m s s' : mms s !! id = Some m -> shifted (fun _ => 0) s s' -> copied id [] m s s'.
Proof.
  intros Hm (E1 & E2 & E3). split_and!; [|done|by intros c; rewrite E3].
  by rewrite with_copies_nil, E1, insert_id.
Qed.

(** A turn that continues, followed by the rest. *)
Lemma copied_cons id v vs m s s1 s2 :
  turn id v m s None s1 ->
  copied id vs (with_copies id [v] m) s1 s2 -> copied id (v :: vs) m s s2.
Proof.
  intros Ht (E1 & E2 & E3). unfold with_copies in E1. rewrite (copies_cons id v []), app_nil_r in E1.
  unfold copied, with_copies. rewrite copies_cons. cbn in E1 |- *.
  inversion Ht as [s' D M L C|?|r s' D Hr M L C]; subst; rewrite D in *; cbn in *.
  - rewrite E1, M, insert_insert_eq, app_nil_r, !Z.add_0_r. split_and!; [|congruence|].
    + unfold set_areas. cbn. do 2 f_equal. unfold dropped. lia.
    + intros c. rewrite E3. by rewrite C.
  - rewrite E1, M, insert_insert_eq, <- (app_assoc (mmap m)). split_and!; [|congruence|].
    + unfold set_areas. cbn. do 2 f_equal; unfold dropped; lia.
    + intros c. rewrite E3, C. unfold areas_hold. lia.
Qed.

Lemma turn_next id v m s s1 : turn id v m s None s1 -> mms s1 !! id = Some (with_copies id [v] m).
Proof.
  intros Ht. unfold with_copies. rewrite copies_cons, app_nil_r. cbn.
  inversion Ht as [s' D M L C|?|r s' D Hr M L C]; subst; rewrite M, lookup_insert_eq, D; cbn;
    rewrite ?app_nil_r, ?Z.add_0_r, ?Z.sub_0_r; done.
Qed.

Lemma turn_files id v m s r s' f : turn id v m s r s' -> ctr s (CFile f) <= ctr s' (CFile f).
Proof.
  intros [? D M L C|? ? D He (_ & _ & C)|? ? D Hr M L C]; rewrite C; [lia..|].
  pose proof (vma_hold_file (dup_vma id v) f). lia.
Qed.

Lemma dup_areas_ok id vs : forall i m s,
  mms s !! id = Some m -> (forall v f, v ∈ vs -> vm_file v = Some f -> 0 < ctr s (CFile f)) ->
  runs (dup_areas id i vs) s (fun r s' => exists k, copied id (take k vs) m s s' /\ (r = 0 -> take k vs = vs)).
Proof.
  induction vs as [|v vs IH]; intros i m s Hm Hf; cbn [dup_areas].
  { apply runs_ret. exists 0%nat. split; [|done]. apply copied_nil; [done|apply shifted_refl]. }
  apply runs_bind. eapply runs_mono; [apply dup_area_ok; [done|set_solver]|]. intros r s1 Ht.
  destruct r as [e|].
  - apply runs_ret. inversion Ht as [|? ? D He Hs|? ? D Hr M L C]; subst.
    + exists 0%nat. split; [by apply copied_nil|done].
    + exists 1%nat. split; [|congruence]. cbn [take]. rewrite take_0. unfold copied, with_copies.
      rewrite copies_cons, D. cbn. rewrite D. split_and!; [|done|].
      * rewrite M. do 2 f_equal. cbn. lia.
      * intros c. rewrite C. unfold areas_hold. cbn. lia.
  - eapply runs_mono; [eapply IH; [by eapply turn_next|]|].
    + intros w f Hw Hwf. pose proof (turn_files _ _ _ _ _ _ f Ht). specialize (Hf w f ltac:(set_solver) Hwf). lia.
    + intros r s2 (k & Hc & Hr). exists (S k). cbn [take]. split; [by eapply copied_cons|].
      intros Hz. by rewrite (Hr Hz).
Qed.

(** *** The executable file and the locks *)

Lemma runs_acquire l s Q : l ∉ locks s -> Q tt (Kst (mms s) (ctr s) (l :: locks s)) -> runs (acquire l) s Q.
Proof. intros H HQ. eexists _, _. split; [|exact HQ]. unfold acquire. by rewrite decide_False. Qed.

Lemma runs_release l ls s Q :
  locks s = l :: ls -> l ∉ ls -> Q tt (Kst (mms s) (ctr s) ls) -> runs (release l) s Q.
Proof.
  intros H Hl HQ. eexists _, _. split; [reflexivity|]. rewrite H, filter_cons, decide_False by (intros X; by apply X).
  assert (filter (.≠ l) ls = ls) as ->; [|done]. clear H HQ. induction ls as [|x ls IH]; [done|].
  rewrite filter_cons, decide_True by set_solver. f_equal. apply IH. set_solver.
Qed.

(** The executable file is open and nobody writes to it. *)
Definition exe_ok (s : kst) (o : option Z) : Prop :=
  forall f, o = Some f -> 0 < ctr s (CFile f) /\ ctr s (CWrite (f_inode E f)) <= 0.

Lemma get_mm_exe_file_ok id m s :
  mms s !! id = Some m -> (forall f, exe_file m = Some f -> 0 < ctr s (CFile f)) ->
  runs (get_mm_exe_file id) s (fun r s' => r = exe_file m /\
    shifted (fun c => match exe_file m with Some f => at_ (CFile f) 1 c | None => 0 end) s s').
Proof.
  intros Hm Hx. unfold get_mm_exe_file. apply runs_bind, (runs_get_mm _ _ m); [done|].
  destruct (exe_file m) as [f|].
  2: { apply runs_ret. split; [done|apply shifted_refl]. }
  specialize (Hx f eq_refl).
  eexists _, _. split; [unfold get_file_rcu; mrun; by rewrite (proj2 (Z.leb_gt _ _)) by lia|].
  split; [done|]. by split_and!.
Qed.

Lemma runs_deny f s Q :
  ctr s (CWrite (f_inode E f)) <= 0 ->
  (forall s', shifted (at_ (CWrite (f_inode E f)) (- 1)) s s' -> Q true s') -> runs (deny_write_access f) s Q.
Proof.
  intros H HQ. eexists _, _. split; [unfold deny_write_access; mrun; by rewrite (proj2 (Z.ltb_ge _ _)) by lia|].
  apply HQ. by split_and!.
Qed.

Lemma dup_mm_exe_file_ok id oldid m om s :
  mms s !! id = Some m -> mms s !! oldid = Some om -> exe_ok s (exe_file om) ->
  runs (dup_mm_exe_file id oldid) s (fun _ s' =>
    mms s' = <[id := set_exe (exe_file om) m]> (mms s) /\ locks s' = locks s /\
    forall c, ctr s' c = ctr s c + exe_hold (exe_file om) c).
Proof.
  intros Hm Ho Hx. unfold dup_mm_exe_file. apply runs_bind.
  eapply runs_mono; [apply get_mm_exe_file_ok; [exact Ho|by intros f Hf; apply (Hx f Hf)]|].
  intros r s1 (-> & E1 & E2 & E3). apply runs_bind, (runs_get_mm _ _ m); [by rewrite E1|].
  apply runs_bind, runs_put_mm. destruct (exe_file om) as [f|]; cbn [opt_do].
  2: { apply runs_ret. cbn. rewrite E1, E2. split_and!; try done. }
  apply runs_bind, runs_deny.
  { cbn. rewrite E3, at_ne by done. destruct (Hx f eq_refl). lia. }
  intros s2 (F1 & F2 & F3). apply runs_ret. cbn in *. rewrite F1, F2, E1, E2. split_and!; [done..|].
  intros c. rewrite F3. cbn. rewrite E3. lia.
Qed.

(** ** dup_mmap *)

(** The parent's files are open. *)
Definition files_ok (s : kst) (m : mm) : Prop :=
  exe_ok s (exe_file m) /\ forall v f, v ∈ mmap m -> vm_file v = Some f -> 0 < ctr s (CFile f).

(** [m] before the loop of [dup_mmap]. *)
Definition start (om m : mm) : mm := set_areas [] 0 (total_vm om) (set_exe (exe_file om) m).

(** What [dup_mmap] leaves in the child: [m'] accounts for every counter that
    moved; the rest of the structure is as [m]. *)
Definition dup_mmap_post (id oldid : Z) (om m : mm) (s : kst) (r : Z) (s' : kst) : Prop :=
  exists m', mms s' = <[id := m']> (mms s) /\ locks s' = locks s /\
    (forall c, ctr s' c = ctr s c + areas_hold (mmap m') c + exe_hold (exe_file m') c) /\
    map_count m' = Z.of_nat (length (mmap m')) /\
    m' = set_areas (mmap m') (map_count m') (total_vm m') (set_exe (exe_file m') m) /\
    (exists k, mmap m' = copies id (take k (mmap om))) /\
    (r = 0 -> m' = with_copies id (mmap om) (start om m)).

Lemma dup_mmap_locked_ok id oldid om m s :
  mms s !! id = Some m -> mms s !! oldid = Some om -> id <> oldid -> mmap m = [] -> map_count m = 0 ->
  files_ok s om ->
  runs (dup_mmap_locked id oldid) s (dup_mmap_post id oldid om m s).
Proof.
  intros Hm Ho Hne Hmm Hmc [Hx Hf]. unfold dup_mmap_locked. apply runs_bind.
  eapply runs_mono; [by apply dup_mm_exe_file_ok|]. intros [] s1 (E1 & E2 & E3).
  apply runs_bind, (runs_get_mm _ _ om); [by rewrite E1, lookup_insert_ne|].
  apply runs_bind, (runs_get_mm _ _ (set_exe (exe_file om) m)); [by rewrite E1, lookup_insert_eq|].
  apply runs_bind, runs_put_mm. cbn [mmap map_count set_exe]. rewrite Hmm, Hmc. fold (start om m).
  assert (forall r, r <> 0 -> dup_mmap_post id oldid om m s r (Kst (<[id := start om m]> (mms s1)) (ctr s1) (locks s1)))
    as Hearly.
  { intros r Hr. exists (start om m). cbn. rewrite E1, insert_insert_eq. split_and!; try done.
    - intros c. rewrite E3. unfold areas_hold. cbn. lia.
    - by exists 0%nat. }
  destruct (Z.eqb_spec (ksm_fork E) 0) as [_|Hk]; cbn [negb]; [|by apply runs_ret, Hearly].
  destruct (Z.eqb_spec (khugepaged_fork E) 0) as [_|Hk]; cbn [negb]; [|by apply runs_ret, Hearly].
  eapply runs_mono; [eapply dup_areas_ok; [apply lookup_insert_eq|]|].
  { intros v f Hv Hvf. cbn. rewrite E3. specialize (Hf v f Hv Hvf). unfold exe_hold.
    destruct (exe_file om) as [g|]; [|lia]. rewrite (at_ne (CWrite _)) by done.
    pose proof (at_nonneg (CFile g) 1 (CFile f)). lia. }
  intros r s2 (k & (F1 & F2 & F3) & Hr). cbn in F1, F2, F3.
  exists (with_copies id (take k (mmap om)) (start om m)). cbn. rewrite F1, E1, !insert_insert_eq.
  split_and!; [done|congruence| |done|done|by exists k|by intros ->; rewrite Hr].
  intros c. rewrite F3, E3. unfold areas_hold. lia.
Qed.

Lemma post_locks id oldid om m s ls r s' ls' :
  dup_mmap_post id oldid om m (Kst (mms s) (ctr s) ls) r s' ->
  dup_mmap_post id oldid om m (Kst (mms s) (ctr s) ls') r (Kst (mms s') (ctr s') ls').
Proof. intros (m' & ? & ? & ?). by exists m'. Qed.

Lemma dup_mmap_ok id oldid om m s :
  mms s !! id = Some m -> mms s !! oldid = Some om -> id <> oldid ->
  mmap m = [] -> map_count m = 0 -> exe_file m = None ->
  LMmap id ∉ locks s -> LMmap oldid ∉ locks s -> files_ok s om ->
  runs (dup_mmap id oldid) s (dup_mmap_post id oldid om m s).
Proof.
  intros Hm Ho Hne Hmm Hmc Hx L1 L2 Hok. unfold dup_mmap. apply runs_bind, runs_add.
  apply runs_bind. eapply (runs_mono _ _ (fun r s' => dup_mmap_post id oldid om m
    (Kst (mms s) (bump CUprobe 1 (ctr s)) (locks s)) r s')).
  2: { intros r s1 (m' & E1 & E2 & E3 & E4). apply runs_bind, runs_add, runs_ret. exists m'. cbn in *.
       split_and!; [done|done| |apply E4..]. intros c. unfold bump at 1. rewrite E3. unfold bump.
       rewrite (at_opp CUprobe 1). lia. }
  destruct (mmap_lock_killed E).
  { apply runs_ret. exists m. cbn. rewrite insert_id, Hmm, Hmc, Hx by done. split_and!; try done.
    - intros c. unfold areas_hold. cbn. lia.
    - destruct m; cbn in *; by subst.
    - by exists 0%nat. }
  apply runs_bind, runs_acquire; [done|]. apply runs_bind, runs_acquire; [cbn; set_solver|]. cbn.
  apply runs_bind. eapply runs_mono; [apply (dup_mmap_locked_ok id oldid om m); [done..|]|].
  { destruct Hok as [Ha Hb]. split.
    - intros f Hf. cbn. unfold bump. rewrite !at_ne by done. specialize (Ha f Hf). lia.
    - intros v f Hv Hvf. cbn. unfold bump. rewrite at_ne by done. specialize (Hb v f Hv Hvf). lia. }
  intros r s1 Hp. pose proof Hp as (_ & _ & Hl & _). cbn in Hl.
  apply runs_bind. eapply runs_release; [exact Hl|set_solver|].
  apply runs_bind. eapply runs_release; [reflexivity|done|].
  apply runs_ret. exact (post_locks _ _ _ _ (Kst (mms s) (bump CUprobe 1 (ctr s)) []) _ _ _ _ Hp).
Qed.

(** ** Release *)

(** The counters cover the files that [m] holds. *)
Definition covered (s : kst) (m : mm) : Prop :=
  forall f, areas_hold (mmap m) (CFile f) + exe_hold (exe_file m) (CFile f) <= ctr s (CFile f).

(** [exit_mmap] gives back what the areas hold and touches nothing else. *)
Definition exit_mmap_releases : Prop := forall id m s,
  mms s !! id = Some m -> covered s m ->
  runs (exit_mmap E id) s (fun _ s' => exists vs n t, mms s' = <[id := set_areas vs n t m]> (mms s) /\
    locks s' = locks s /\ forall c, ctr s' c = ctr s c - areas_hold (mmap m) c).

(** What goes with the last user, and with the last reference. *)
Definition users_hold (m : mm) (c : counter) : Z :=
  areas_hold (mmap m) c + exe_hold (exe_file m) c +
  match binfmt m with Some b => at_ (CModule b) 1 c | None => 0 end.
Definition struct_hold (m : mm) (c : counter) : Z := at_ CPgd 1 c + at_ CContext 1 c + at_ (CUserNs (user_ns m)) 1 c.

Lemma mm_hold_split m c : mm_hold m c = users_hold m c + struct_hold m c.
Proof. unfold mm_hold, users_hold, struct_hold. lia. Qed.

(** [m] without users: what [__mmput] leaves of it. *)
Definition torn_down (m m' : mm) : Prop :=
  mm_users m' = 0 /\ mm_count m' = mm_count m - 1 /\ exe_file m' = None /\ mmlist m' = false /\
  user_ns m' = user_ns m.

Definition mmdrop_post (id : Z) (m : mm) (s s' : kst) : Prop :=
  locks s' = locks s /\
  if mm_count m =? 1 then
    mms s' = delete id (mms s) /\ forall c, ctr s' c = ctr s c - struct_hold m c
  else mms s' = <[id := set_count (mm_count m - 1) m]> (mms s) /\ forall c, ctr s' c = ctr s c.

Lemma mmdrop_ok id m s :
  mms s !! id = Some m -> id <> init_mm -> runs (mmdrop id) s (fun _ => mmdrop_post id m s).
Proof.
  intros Hm Hi. unfold mmdrop. apply runs_bind, (runs_get_mm _ _ m); [done|]. apply runs_bind, runs_put_mm.
  replace (mm_count m - 1 =? 0) with (mm_count m =? 1) by (destruct (Z.eqb_spec (mm_count m) 1),
    (Z.eqb_spec (mm_count m - 1) 0); lia || done).
  unfold mmdrop_post. destruct (mm_count m =? 1); [|by apply runs_ret].
  unfold __mmdrop. destruct (Z.eqb_spec id init_mm); [done|].
  apply runs_bind. eapply runs_get_mm; [apply lookup_insert_eq|].
  apply runs_bind, runs_add. apply runs_bind, runs_add. apply runs_bind, runs_add.
  eexists _, _. split; [reflexivity|]. cbn. split_and!; [done|by rewrite delete_insert_eq|].
  intros c. unfold bump, struct_hold. rewrite (at_opp CPgd 1), (at_opp CContext 1), (at_opp (CUserNs _) 1). lia.
Qed.

(** Dropping the executable file cannot fail. *)
Lemma drop_exe_ok id m s :
  mms s !! id = Some m -> (forall f, exe_file m = Some f -> 0 < ctr s (CFile f)) ->
  runs (set_mm_exe_file id None) s (fun r s' => r = 0 /\ mms s' = <[id := set_exe None m]> (mms s) /\
    locks s' = locks s /\ forall c, ctr s' c = ctr s c - exe_hold (exe_file m) c).
Proof.
  intros Hm Hx. unfold set_mm_exe_file. apply runs_bind, (runs_get_mm _ _ m); [done|]. cbv zeta.
  apply runs_bind, runs_ret. cbn [negb]. apply runs_bind, runs_put_mm. apply runs_bind.
  destruct (exe_file m) as [f|]; cbn [opt_do].
  2: { apply runs_ret, runs_ret. cbn. split_and!; try done. intros; lia. }
  unfold allow_write_access. apply runs_bind, runs_add. apply runs_fput.
  { cbn. unfold bump. rewrite at_ne by done. specialize (Hx f eq_refl). lia. }
  apply runs_ret. cbn. split_and!; try done. intros c. unfold bump.
  rewrite (at_opp (CFile f) 1), (at_opp (CWrite (f_inode E f)) 1). lia.
Qed.

Definition __mmput_post (id : Z) (m : mm) (s s' : kst) : Prop :=
  locks s' = locks s /\
  if mm_count m =? 1 then
    mms s' = delete id (mms s) /\ forall c, ctr s' c = ctr s c - mm_hold m c
  else (exists m', mms s' = <[id := m']> (mms s) /\ torn_down m m') /\
       forall c, ctr s' c = ctr s c - users_hold m c.

Lemma __mmput_ok id m s :
  exit_mmap_releases -> mms s !! id = Some m -> id <> init_mm -> mm_users m = 0 -> covered s m ->
  runs (__mmput id) s (fun _ => __mmput_post id m s).
Proof.
  intros Hex Hm Hi Hu Hc. unfold __mmput. apply runs_bind, (runs_get_mm _ _ m); [done|]. rewrite Hu. cbn [negb Z.eqb].
  apply runs_bind. eapply runs_mono; [by eapply Hex|]. intros [] s1 (vs & n & t & E1 & E2 & E3).
  apply runs_bind. eapply runs_mono; [eapply drop_exe_ok; [by rewrite E1, lookup_insert_eq|]|].
  { intros f Hf. cbn in Hf. rewrite E3. specialize (Hc f). rewrite Hf in Hc. unfold exe_hold in Hc.
    rewrite (at_ne (CWrite _)) in Hc by done. unfold at_ in Hc. rewrite decide_True in Hc by done. lia. }
  intros r s2 (_ & F1 & F2 & F3). rewrite E1, insert_insert_eq in F1. cbn in F3.
  apply runs_bind. eapply runs_get_mm; [by rewrite F1, lookup_insert_eq|].
  set (m1 := set_exe None (set_areas vs n t m)) in *.
  apply runs_bind. apply (runs_mono _ _ (fun _ s' => mms s' = <[id := set_mmlist false m1]> (mms s) /\
    locks s' = locks s2 /\ ctr s' = ctr s2)).
  { destruct (mmlist m1) eqn:Hl; [apply runs_put_mm|apply runs_ret]; cbn.
    - by rewrite F1, insert_insert_eq.
    - rewrite F1. split_and!; try done. f_equal. destruct m1; cbn in *; by subst. }
  intros [] s3 (G1 & G2 & G3). apply runs_bind, runs_opt_add. intros s4 (H1 & H2 & H3).
  eapply runs_mono; [eapply mmdrop_ok; [by rewrite H1, G1, lookup_insert_eq|done]|].
  intros [] s5 (L & R). cbn in R, H3. unfold __mmput_post.
  assert (forall c, ctr s4 c = ctr s c - users_hold m c) as Hu4.
  { intros c. rewrite H3, G3, F3, E3. unfold users_hold. destruct (binfmt m) as [b|]; [rewrite (at_opp (CModule b) 1)|]; lia. }
  split; [congruence|]. rewrite H1, G1 in R. destruct (mm_count m =? 1), R as [R1 R2].
  - rewrite R1, delete_insert_eq. split; [done|]. intros c. rewrite R2, Hu4, mm_hold_split.
    unfold struct_hold. cbn. lia.
  - split; [|intros c; by rewrite R2, Hu4]. rewrite R1, insert_insert_eq. eexists. split; [done|]. by split_and!.
Qed.

Lemma mmput_ok id m s :
  exit_mmap_releases -> mms s !! id = Some m -> id <> init_mm -> covered s m ->
  runs (mmput id) s (fun _ s' =>
    if mm_users m =? 1 then __mmput_post id m s s'
    else s' = Kst (<[id := set_users (mm_users m - 1) m]> (mms s)) (ctr s) (locks s)).
Proof.
  intros Hex Hm Hi Hc. unfold mmput. apply runs_bind, (runs_get_mm _ _ m); [done|]. apply runs_bind, runs_put_mm.
  destruct (Z.eqb_spec (mm_users m) 1) as [Hu|Hu]; destruct (Z.eqb_spec (mm_users m - 1) 0); try lia;
    [|by apply runs_ret].
  eapply runs_mono; [apply (__mmput_ok id (set_users (mm_users m - 1) m)); [done|apply lookup_insert_eq|done|cbn; lia|exact Hc]|].
  intros [] s' (L & R). cbn in L, R. split; [done|]. destruct (mm_count m =? 1), R as [R1 R2].
  - by rewrite R1, delete_insert_eq.
  - split; [|done]. destruct R1 as (m' & R1 & R3). exists m'. by rewrite R1, insert_insert_eq.
Qed.

(** [mmput] always returns.  Another user left: only [mm_users] moves.  The
    last user: every area, the executable file and the module of the binary
    format are given back, and with the last reference also page directory,
    context, user namespace and the structure itself; nothing else moves. *)
Theorem mmput_spec id m s :
  exit_mmap_releases -> mms s !! id = Some m -> id <> init_mm -> covered s m ->
  runs (mmput id) s (fun _ s' =>
    if mm_users m =? 1 then __mmput_post id m s s'
    else s' = Kst (<[id := set_users (mm_users m - 1) m]> (mms s)) (ctr s) (locks s)).
Proof. apply mmput_ok. Qed.

(** ** Duplication *)

(** The address space of the caller, if it has one, is live. *)
Definition current_ok (s : kst) (current_mm : option Z) : Prop :=
  forall c, current_mm = Some c -> exists m, mms s !! c = Some m.

(** [mm_init] makes a structure with one user, no areas and no executable, or
    frees it. *)
Definition init_post (id p ns : Z) (m : mm) (current_mm : option Z) (s : kst) (ok : bool) (s' : kst) : Prop :=
  locks s' = locks s /\
  if ok then mms s' = <[id := set_user_ns ns (init_fields m p (current_mm ≫= fun c => mms s !! c))]> (mms s) /\
             forall c, ctr s' c = ctr s c + at_ CPgd 1 c + at_ CContext 1 c + at_ (CUserNs ns) 1 c
  else mms s' = delete id (mms s) /\ forall c, ctr s' c = ctr s c.

Lemma mm_init_ok id p ns current_mm m s :
  mms s !! id = Some m -> current_ok s current_mm ->
  runs (mm_init id p ns current_mm) s (init_post id p ns m current_mm s).
Proof.
  intros Hm Hcur. unfold mm_init. apply runs_bind, (runs_get_mm _ _ m); [done|]. apply runs_bind.
  apply (runs_mono _ _ (fun o s' => o = (current_mm ≫= fun c => mms s !! c) /\ s' = s)).
  { destruct current_mm as [c|]; [|by apply runs_ret]. destruct (Hcur c eq_refl) as [cm Hcm].
    apply runs_bind, (runs_get_mm _ _ cm); [done|]. apply runs_ret. cbn. by rewrite Hcm. }
  intros o s1 [-> ->]. apply runs_bind, runs_put_mm. destruct (pgd_alloc E); cbn [negb].
  2: { eexists _, _. split; [reflexivity|]. split; [done|]. cbn. by rewrite delete_insert_eq. }
  apply runs_bind, runs_add. destruct (init_new_context E =? 0); cbn [negb].
  2: { eexists _, _. split; [reflexivity|]. split; [done|]. cbn. rewrite delete_insert_eq. split; [done|].
       intros c. unfold bump. rewrite (at_opp CPgd 1). lia. }
  apply runs_bind, runs_add. apply runs_bind, runs_add. apply runs_bind.
  eapply runs_get_mm; [apply lookup_insert_eq|]. apply runs_bind, runs_put_mm, runs_ret.
  split; [done|]. cbn. rewrite insert_insert_eq. split; [done|]. intros c. unfold bump. lia.
Qed.

(** The failure label of [dup_mm] undoes everything. *)
Lemma dup_mm_fail_ok id m s :
  exit_mmap_releases -> mms s !! id = Some m -> id <> init_mm -> covered s m -> mm_users m = 1 -> mm_count m = 1 ->
  runs (dup_mm_fail id) s (fun r s' => r = None /\ mms s' = delete id (mms s) /\ locks s' = locks s /\
    forall c, ctr s' c = ctr s c - mm_hold (set_binfmt None m) c).
Proof.
  intros Hex Hm Hi Hc Hu Hn. unfold dup_mm_fail. apply runs_bind, (runs_get_mm _ _ m); [done|].
  apply runs_bind, runs_put_mm. apply runs_bind.
  eapply runs_mono; [eapply mmput_ok; [done|apply lookup_insert_eq|done|exact Hc]|].
  intros [] s' H. apply runs_ret. cbn in H. rewrite Hu in H. cbn in H. destruct H as (L & R). cbn in L, R.
  rewrite Hn in R. cbn in R. destruct R as [R1 R2]. by rewrite R1, delete_insert_eq.
Qed.

(** The child that [dup_mm] makes. *)
Definition dup_of (id tsk : Z) (om : mm) (cm : option mm) : mm :=
  let m := with_copies id (mmap om) (start om (set_user_ns (user_ns om) (init_fields om tsk cm))) in
  set_hiwater (total_vm m) m.

Definition dup_mm_post (tsk : Z) (om : mm) (current_mm : option Z) (s : kst) (r : option Z) (s' : kst) : Prop :=
  locks s' = locks s /\
  match r with
  | None => mms s' = mms s /\ forall c, ctr s' c = ctr s c
  | Some id =>
      let m' := dup_of id tsk om (current_mm ≫= fun c => mms s !! c) in
      allocate_mm E = Some id /\ mms s' = <[id := m']> (mms s) /\ forall c, ctr s' c = ctr s c + mm_hold m' c
  end.

(** A half-made child [m'] under [id], with what it holds besides a module. *)
Definition partial_child (id : Z) (m' : mm) (s s2 : kst) : Prop :=
  mms s2 = <[id := m']> (mms s) /\ locks s2 = locks s /\ mm_users m' = 1 /\ mm_count m' = 1 /\
  forall c, ctr s2 c = ctr s c + mm_hold (set_binfmt None m') c.

Lemma partial_covered id m' s s2 :
  partial_child id m' s s2 -> (forall f, 0 <= ctr s (CFile f)) -> covered s2 m'.
Proof.
  intros (_ & _ & _ & _ & H) Hp f. rewrite H. unfold mm_hold. cbn. rewrite !(at_ne _ 1 (CFile f)) by done.
  specialize (Hp f). unfold areas_hold. lia.
Qed.

Lemma dup_mm_undo id m' s s2 tsk om cur :
  exit_mmap_releases -> partial_child id m' s s2 -> (forall f, 0 <= ctr s (CFile f)) ->
  id <> init_mm -> mms s !! id = None ->
  runs (dup_mm_fail id) s2 (dup_mm_post tsk om cur s).
Proof.
  intros Hex Hp Hf Hi Hn. pose proof Hp as (E1 & E2 & E3 & E4 & E5).
  eapply runs_mono; [eapply dup_mm_fail_ok; [done|by rewrite E1, lookup_insert_eq|done| |done|done]|].
  { by eapply partial_covered. }
  intros r s' (-> & F1 & F2 & F3). split; [congruence|]. split; [by rewrite F1, E1, delete_insert_id|].
  intros c. rewrite F3, E5. lia.
Qed.

(** The first half of [dup_mm]: the structure is initialised. *)
Lemma dup_mm_init id tsk oldid om current_mm s :
  mms s !! id = None -> mms s !! oldid = Some om -> current_ok s current_mm ->
  runs (_ ← put_mm id om; mm_init id tsk (user_ns om) current_mm) s
    (init_post id tsk (user_ns om) om current_mm s).
Proof.
  intros Hn Ho Hc. assert (forall c cm, mms s !! c = Some cm -> <[id := om]> (mms s) !! c = Some cm) as Hl.
  { intros c cm H. rewrite lookup_insert_ne; congruence. }
  apply runs_bind, runs_put_mm. eapply runs_mono; [apply (mm_init_ok _ _ _ _ om); [apply lookup_insert_eq|]|].
  { intros c Hcm. destruct (Hc c Hcm) as [cm H]. cbn. eauto. }
  intros [] s' (L & R1 & R2); split; cbn in *; try done.
  - rewrite R1, insert_insert_eq. split; [|done]. destruct current_mm as [c|]; [|done]. cbn.
    destruct (Hc c eq_refl) as [cm H]. by rewrite (Hl _ _ H), H.
  - by rewrite R1, delete_insert_eq, delete_id.
Qed.

(** The second half, after [dup_mmap] returned. *)
Lemma dup_mm_tail id tsk om cur s s2 m' err :
  exit_mmap_releases -> partial_child id m' s s2 -> (forall f, 0 <= ctr s (CFile f)) ->
  id <> init_mm -> mms s !! id = None -> allocate_mm E = Some id ->
  (err = 0 -> set_hiwater (total_vm m') m' = dup_of id tsk om (cur ≫= fun c => mms s !! c)) ->
  runs (if negb (err =? 0) then dup_mm_fail id
        else
          m ← get_mm id;
          _ ← put_mm id (set_hiwater (total_vm m) m);
          match binfmt m with
          | None => mret (Some id)
          | Some b => if negb (try_module_get E) then dup_mm_fail id
                      else _ ← add (CModule b) 1; mret (Some id)
          end) s2 (dup_mm_post tsk om cur s).
Proof.
  intros Hex Hp Hf Hi Hn Ha He. destruct (Z.eqb_spec err 0) as [Hz|]; cbn [negb].
  2: { by eapply dup_mm_undo. }
  specialize (He Hz). pose proof Hp as (E1 & E2 & E3 & E4 & E5).
  apply runs_bind, (runs_get_mm _ _ m'); [by rewrite E1, lookup_insert_eq|]. apply runs_bind, runs_put_mm.
  unfold dup_mm_post. destruct (binfmt m') as [b|] eqn:Eb.
  - destruct (try_module_get E); cbn [negb].
    + apply runs_bind, runs_add, runs_ret. cbn. rewrite <- He. split_and!; [done..|by rewrite E1, insert_insert_eq|].
      intros c. unfold bump. rewrite E5. unfold mm_hold. cbn. rewrite Eb. lia.
    + eapply (dup_mm_undo _ (set_hiwater (total_vm m') m')); [done| |done|done|done].
      split_and!; cbn; try done. by rewrite E1, insert_insert_eq.
  - apply runs_ret. cbn. rewrite <- He. split_and!; [done..|by rewrite E1, insert_insert_eq|].
    intros c. rewrite E5. unfold mm_hold. cbn. rewrite Eb. lia.
Qed.

(** C8: [dup_mm] always returns.  On success the child is one user's structure
    with a copy of every area that is to be copied, the parent's executable
    file, binary format and namespace and the caller's flags, and every counter
    has grown by exactly what the child holds; on failure nothing is left: the
    address spaces, all counters and the locks are as before. *)
Theorem dup_mm_spec tsk oldid current_mm om s :
  exit_mmap_releases -> mms s !! oldid = Some om -> current_ok s current_mm -> files_ok s om ->
  (forall f, 0 <= ctr s (CFile f)) -> LMmap oldid ∉ locks s ->
  (forall id, allocate_mm E = Some id -> mms s !! id = None /\ id <> init_mm /\ LMmap id ∉ locks s) ->
  runs (dup_mm tsk oldid current_mm) s (dup_mm_post tsk om current_mm s).
Proof.
  intros Hex Ho Hc [Hx Hf] Hpos Hl Hal. unfold dup_mm. destruct (allocate_mm E) as [id|] eqn:Ea.
  2: { by apply runs_ret. }
  destruct (Hal id eq_refl) as (Hn & Hi & Hl2). apply runs_bind, (runs_get_mm _ _ om); [done|].
  apply runs_assoc, runs_bind. eapply runs_mono; [by apply (dup_mm_init id tsk oldid om)|].
  intros ok s1 (L1 & P1). destruct ok; cbn [negb] in P1 |- *; destruct P1 as [P1 P2].
  2: { apply runs_ret. split; [done|]. by rewrite P1, delete_id. }
  set (m0 := set_user_ns _ _) in P1. assert (id <> oldid) as Hne by congruence.
  apply runs_bind. eapply runs_mono; [apply (dup_mmap_ok id oldid om m0); try done|].
  - by rewrite P1, lookup_insert_eq.
  - by rewrite P1, lookup_insert_ne.
  - by rewrite L1.
  - by rewrite L1.
  - assert (forall f, ctr s1 (CFile f) = ctr s (CFile f)) as E1 by (intros f; rewrite P2, !at_ne by done; lia).
    assert (forall i, ctr s1 (CWrite i) = ctr s (CWrite i)) as E2 by (intros i; rewrite P2, !at_ne by done; lia).
    split; [intros f Hf'; rewrite E1, E2; by apply Hx|intros v f; rewrite E1; apply Hf].
  - intros err s2 (m' & F1 & F2 & F3 & F4 & F5 & _ & F6).
    eapply (dup_mm_tail id tsk om current_mm s s2 m'); try done; [|by intros Hz; rewrite (F6 Hz)].
    split_and!; [by rewrite F1, P1, insert_insert_eq|congruence|by rewrite F5|by rewrite F5|].
    intros c. rewrite F3, P2. unfold mm_hold. cbn. rewrite F5. cbn. unfold areas_hold. lia.
Qed.

(** ** Changing the executable file *)

(** The executable file of [m] becomes [new]. *)
Definition exe_changed (id : Z) (m : mm) (new : option Z) (s s' : kst) : Prop :=
  mms s' = <[id := set_exe new m]> (mms s) /\ locks s' = locks s /\
  forall c, ctr s' c = ctr s c + exe_hold new c - exe_hold (exe_file m) c.

Definition unmoved (s s' : kst) : Prop := mms s' = mms s /\ locks s' = locks s /\ forall c, ctr s' c = ctr s c.

Lemma runs_deny_write f s Q :
  (if 0 <? ctr s (CWrite (f_inode E f)) then Q false s
   else forall s', shifted (at_ (CWrite (f_inode E f)) (- 1)) s s' -> Q true s') ->
  runs (deny_write_access f) s Q.
Proof.
  destruct (Z.ltb_spec 0 (ctr s (CWrite (f_inode E f)))); intros H'; [|by apply runs_deny].
  exists false, s. split; [|done]. unfold deny_write_access. mrun. by rewrite (proj2 (Z.ltb_lt _ _)).
Qed.

(** Releasing the old file once the new one is in place. *)
Lemma release_exe_ok (o : option Z) s :
  (forall f, o = Some f -> 0 < ctr s (CFile f)) ->
  runs (opt_do (fun f => _ ← allow_write_access f; fput f) o) s (fun _ => shifted (fun c => - exe_hold o c) s).
Proof.
  intros Hx. destruct o as [f|]; cbn [opt_do]; [|apply runs_ret, shifted_refl].
  unfold allow_write_access. apply runs_bind, runs_add, runs_fput.
  { cbn. unfold bump. rewrite at_ne by done. specialize (Hx f eq_refl). lia. }
  split_and!; try done. intros c. cbn. unfold bump. rewrite (at_opp (CFile f) 1), (at_opp (CWrite (f_inode E f)) 1). lia.
Qed.

Lemma at_self c n : at_ c n c = n.
Proof. unfold at_. by rewrite decide_True. Qed.

(** The file is open for writing somewhere. *)
Definition written (s : kst) (o : option Z) : bool :=
  match o with Some f => 0 <? ctr s (CWrite (f_inode E f)) | None => false end.

(** [set_mm_exe_file], used by exec: it fails only when the new file is open for
    writing, and then changes nothing. *)
Lemma set_mm_exe_file_ok id m new s :
  mms s !! id = Some m -> (forall f, exe_file m = Some f -> 0 < ctr s (CFile f)) ->
  (forall f, new = Some f -> 0 < ctr s (CFile f)) ->
  runs (set_mm_exe_file id new) s (fun r s' =>
    if written s new then r = - Errno.EACCES /\ s' = s else r = 0 /\ exe_changed id m new s s').
Proof.
  intros Hm Hx Hn. unfold set_mm_exe_file. apply runs_bind, (runs_get_mm _ _ m); [done|]. cbv zeta.
  apply runs_bind. apply (runs_mono _ _ (fun ok s1 => if written s new then ok = false /\ s1 = s
    else ok = true /\ shifted (exe_hold new) s s1)).
  { destruct new as [f|]; cbn [written]; [|by apply runs_ret; split; [|apply shifted_refl]].
    apply runs_bind, runs_deny_write. destruct (0 <? _); [by apply runs_ret|]. intros s1 (E1 & E2 & E3).
    apply runs_bind, runs_get_file; [rewrite E3, at_ne by done; specialize (Hn f eq_refl); lia|].
    apply runs_ret. split; [done|]. split_and!; [done..|]. intros c. cbn. unfold bump. rewrite E3. lia. }
  intros ok s1. destruct (written s new); [intros [-> ->]; by apply runs_ret|]. intros [-> (E1 & E2 & E3)].
  cbn [negb]. apply runs_bind, runs_put_mm. apply runs_bind.
  eapply runs_mono; [apply release_exe_ok|].
  { intros f Hf. cbn. rewrite E3. specialize (Hx f Hf). unfold exe_hold. destruct new as [g|]; [|lia].
    rewrite (at_ne (CWrite _)) by done. pose proof (at_nonneg (CFile g) 1 (CFile f)). lia. }
  intros [] s2 (F1 & F2 & F3). apply runs_ret. cbn in *. split; [done|]. split_and!; [congruence..|].
  intros c. rewrite F3, E3. lia.
Qed.

(** The first half of [replace_mm_exe_file]: the old file must not be mapped. *)
Lemma exe_mapped_ok id m s :
  mms s !! id = Some m -> (forall f, exe_file m = Some f -> 0 < ctr s (CFile f)) -> LMmap id ∉ locks s ->
  runs (old ← get_mm_exe_file id;
        match old with
        | None => mret 0
        | Some f =>
            _ ← acquire (LMmap id); m ← get_mm id;
            let ret := if maps_path (mmap m) f then - Errno.EBUSY else 0 in
            _ ← release (LMmap id); _ ← fput f; mret ret
        end) s
    (fun r s' => unmoved s s' /\
       r = match exe_file m with Some f => if maps_path (mmap m) f then - Errno.EBUSY else 0 | None => 0 end).
Proof.
  intros Hm Hx Hl. apply runs_bind. eapply runs_mono; [by apply get_mm_exe_file_ok|].
  intros o s1 (-> & E1 & E2 & E3). destruct (exe_file m) as [f|].
  2: { apply runs_ret. split; [|done]. split_and!; try done. intros c. rewrite E3. lia. }
  apply runs_bind, runs_acquire; [by rewrite E2|]. apply runs_bind, (runs_get_mm _ _ m); [by rewrite <- Hm, <- E1|].
  cbv zeta. apply runs_bind. eapply runs_release; [reflexivity|by rewrite E2|].
  apply runs_bind, runs_fput; [cbn; rewrite E3, at_self; specialize (Hx f eq_refl); lia|].
  apply runs_ret. split; [|done]. cbn. split_and!; [done..|]. intros c. cbn. unfold bump. rewrite E3, (at_opp (CFile f) 1). lia.
Qed.

(** [replace_mm_exe_file] always returns: -EBUSY, with nothing changed, when
    an area still maps a file with the path of the old executable; -EACCES, with
    nothing changed, when the new file is open for writing; otherwise the new
    file is the executable, write access to it is denied and one reference to it
    is held, and the old file has lost exactly that. *)
Theorem replace_mm_exe_file_spec id m new s :
  mms s !! id = Some m -> (forall f, exe_file m = Some f -> 0 < ctr s (CFile f)) -> 0 < ctr s (CFile new) ->
  LMmap id ∉ locks s ->
  runs (replace_mm_exe_file id new) s (fun r s' =>
    if match exe_file m with Some f => maps_path (mmap m) f | None => false end
    then r = - Errno.EBUSY /\ unmoved s s'
    else if written s (Some new) then r = - Errno.EACCES /\ unmoved s s'
    else r = 0 /\ exe_changed id m (Some new) s s').
Proof.
  intros Hm Hx Hn Hl. unfold replace_mm_exe_file. apply runs_assoc, runs_bind.
  eapply runs_mono; [by apply (exe_mapped_ok id m)|]. intros r s1 ((E1 & E2 & E3) & ->).
  destruct (match exe_file m with Some f => maps_path (mmap m) f | None => false end) eqn:Hb.
  { destruct (exe_file m); [|done]. rewrite Hb. cbn. by apply runs_ret. }
  replace (match exe_file m with Some f => if maps_path (mmap m) f then - Errno.EBUSY else 0 | None => 0 end)
    with 0 by (destruct (exe_file m); [by rewrite Hb|done]). cbn [negb Z.eqb].
  apply runs_bind, runs_deny_write. rewrite E3. cbn [written].
  destruct (0 <? ctr s (CWrite (f_inode E new))); [by apply runs_ret|].
  intros s2 (F1 & F2 & F3). cbn [negb]. apply runs_bind, runs_get_file; [rewrite F3, at_ne, E3 by done; lia|].
  apply runs_bind, (runs_get_mm _ _ m); [cbn; congruence|]. apply runs_bind, runs_put_mm. cbn.
  destruct (exe_file m) as [f|] eqn:Hf.
  2: { apply runs_ret. split; [done|]. unfold exe_changed. cbn. rewrite Hf. split_and!; [congruence..|].
       intros c. unfold bump. rewrite F3, E3. cbn. lia. }
  apply runs_bind, runs_acquire; [cbn; congruence|]. unfold allow_write_access.
  apply runs_bind, runs_add. apply runs_bind, runs_fput.
  { cbn. unfold bump. rewrite (at_ne (CWrite _)), F3, (at_ne (CWrite _)), E3 by done.
    pose proof (at_nonneg (CFile new) 1 (CFile f)). specialize (Hx f eq_refl). lia. }
  apply runs_bind. eapply runs_release; [reflexivity|cbn; congruence|]. apply runs_ret. split; [done|].
  unfold exe_changed. cbn. rewrite Hf. split_and!; [congruence..|].
  intros c. cbn. unfold bump. rewrite F3, E3, (at_opp (CFile f) 1), (at_opp (CWrite (f_inode E f)) 1). lia.
Qed.

(** ** Another task's address space *)

Lemma mmput_other id m s :
  mms s !! id = Some m -> mm_users m <> 1 ->
  runs (mmput id) s (fun _ s' => s' = Kst (<[id := set_users (mm_users m - 1) m]> (mms s)) (ctr s) (locks s)).
Proof.
  intros Hm Hu. unfold mmput. apply runs_bind, (runs_get_mm _ _ m); [done|]. apply runs_bind, runs_put_mm.
  destruct (Z.eqb_spec (mm_users m - 1) 0); [lia|]. by apply runs_ret.
Qed.

Lemma get_task_mm_ok t s :
  (forall id, t_mm t = Some id -> exists m, mms s !! id = Some m) -> LTask (t_id t) ∉ locks s ->
  runs (get_task_mm t) s (fun r s' => locks s' = locks s /\ ctr s' = ctr s /\
    match r with
    | None => mms s' = mms s /\ (t_mm t = None \/ t_kthread t = true)
    | Some id => t_mm t = Some id /\ t_kthread t = false /\
        exists m, mms s !! id = Some m /\ mms s' = <[id := set_users (mm_users m + 1) m]> (mms s)
    end).
Proof.
  intros Ht Hl. unfold get_task_mm. apply runs_bind, runs_acquire; [done|].
  destruct (t_mm t) as [id|] eqn:Em, (t_kthread t) eqn:Ek;
    try (apply runs_bind, runs_ret, runs_bind; eapply runs_release; [done..|]; apply runs_ret; cbn; by auto).
  destruct (Ht id eq_refl) as [m Hm]. unfold mmget.
  apply runs_bind, runs_bind, runs_bind, (runs_get_mm _ _ m); [done|]. apply runs_put_mm, runs_ret.
  apply runs_bind. eapply runs_release; [done..|]. apply runs_ret. cbn. split_and!; eauto.
Qed.

(** [mm_access] always returns.  A caller that may look at the task, or shares
    its address space, gets it with one more user; one that may not gets -EACCES,
    and a task without an address space of its own gives NULL, with users and
    counters as before; the locks are free again. *)
Theorem mm_access_spec t current_mm killed may s :
  (forall id, t_mm t = Some id -> exists m, mms s !! id = Some m /\ 0 < mm_users m) ->
  LTask (t_id t) ∉ locks s -> LExecUpdate (t_id t) ∉ locks s ->
  runs (mm_access t current_mm killed may) s (fun r s' =>
    locks s' = locks s /\ ctr s' = ctr s /\
    match r with
    | inl e => mms s' = mms s /\ (e = killed /\ killed <> 0 \/ e = - Errno.EACCES /\ may = false)
    | inr None => mms s' = mms s /\ (t_mm t = None \/ t_kthread t = true)
    | inr (Some id) => t_mm t = Some id /\ t_kthread t = false /\ (may = true \/ current_mm = Some id) /\
        exists m, mms s !! id = Some m /\ mms s' = <[id := set_users (mm_users m + 1) m]> (mms s)
    end).
Proof.
  intros Ht L1 L2. unfold mm_access. destruct (Z.eqb_spec killed 0) as [_|Hk]; cbn [negb].
  2: { apply runs_ret. split_and!; try done. by left. }
  apply runs_bind, runs_acquire; [done|]. apply runs_bind.
  eapply runs_mono; [apply get_task_mm_ok; [by intros id H; destruct (Ht id H) as (m & ? & _); eauto|set_solver]|].
  cbn. intros r s1 (E1 & E2 & E3). destruct r as [id|].
  2: { apply runs_bind, runs_ret, runs_bind. eapply runs_release; [done..|]. apply runs_ret. by cbn. }
  destruct E3 as (Hid & Hk & m & Hm & E3). destruct (negb _ && negb may) eqn:Eb.
  - apply runs_bind, runs_bind. eapply runs_mono; [eapply mmput_other; [by rewrite E3, lookup_insert_eq|]|].
    { cbn. destruct (Ht id Hid) as (m' & Hm' & Hu). rewrite Hm in Hm'. injection Hm' as ->. lia. }
    intros [] s2 ->. apply runs_ret, runs_bind. eapply runs_release; [done..|]. apply runs_ret. cbn.
    apply andb_true_iff in Eb as [_ Hmay]. destruct may; [done|]. split_and!; try done; [|by right].
    rewrite E3, insert_insert_eq. apply insert_id. rewrite Hm. destruct m. unfold set_users. cbn. repeat f_equal. lia.
  - apply runs_bind, runs_ret, runs_bind. eapply runs_release; [done..|]. apply runs_ret. cbn.
    split_and!; try done; [|by exists m]. apply andb_false_iff in Eb as [Eb|Eb].
    + right. apply negb_false_iff, bool_decide_eq_true in Eb. done.
    + left. by destruct may.
Qed.

End Mm.

(** ** Examples *)

(** Callees that succeed, except where the arguments say otherwise: [pol] answers
    [vma_dup_policy] and [module] [try_module_get]. *)
Definition env_base (pol : nat -> Z) (module : bool) (ex : Z -> M kst unit) : mm_env :=
  MmEnv (fun f => f) (fun f => f) 0x7ff 0 0x33 (Some 2) true 0 false 0 0
    (fun _ => false) (fun _ => 0) (fun _ => true) pol (fun _ => 0) (fun _ => 0) (fun _ => 0) 0 module ex.

(** An [exit_mmap] that gives back what the areas hold. *)
Definition exit_ref (id : Z) : M kst unit := fun s =>
  match mms s !! id with
  | None => Fault Dangling
  | Some m => Ok (tt, Kst (<[id := set_areas [] 0 0 m]> (mms s))
      (fun c => ctr s c - areas_hold (env_base (fun _ => 0) true (fun _ => mret tt)) (mmap m) c) (locks s))
  end.

Definition env_mm (pol : nat -> Z) (module : bool) : mm_env := env_base pol module exit_ref.

Lemma env_mm_exit pol module : exit_mmap_releases (env_mm pol module).
Proof.
  intros id m s Hm _. eexists _, _. split; [cbn; unfold exit_ref; rewrite Hm; reflexivity|].
  exists [], 0, 0. by split_and!.
Qed.

(** A program text, a private area that is not copied, an accounted heap. *)
Definition areas3 : list vma :=
  [Vma 0x400000 0x402000 VM_LOCKED (Some 7) None false 1;
   Vma 0x500000 0x501000 VM_DONTCOPY None None true 1;
   Vma 0x600000 0x604000 VM_ACCOUNT None (Some 5) true 1].

Definition mm1 : mm := Mm 1 1 areas3 3 7 0 7 (Some 7) (Some 4) 3 0xff 0 (Some 10) false.

Definition s1 : kst :=
  Kst {[1 := mm1]} (fun c => match c with
    | CFile 7 => 3 | CWrite 7 => -1 | CMapped 7 => 1 | CPolicy 5 => 1 | CUserNs 3 => 2 | CModule 4 => 1
    | CCommit => 4 | CVma => 3 | CAnon => 2 | CPgd => 1 | CContext => 1 | _ => 0 end) [].

Lemma s1_files e : f_inode e 7 = 7 -> files_ok e s1 mm1.
Proof.
  intros Hi. split.
  - intros f [= <-]. cbn. by rewrite Hi.
  - intros v f Hv Hf. cbn in Hv. unfold areas3 in Hv. rewrite !elem_of_cons in Hv.
    destruct Hv as [->|[->|[->|Hv]]]; cbn in Hf; [by injection Hf as <-|done..|by apply elem_of_nil in Hv].
Qed.

Lemma s1_pos f : 0 <= ctr s1 (CFile f).
Proof. cbn. destruct f as [|p|p]; try done. do 4 (destruct p; try done). Qed.

Lemma mmput_spec_witness :
  runs (mmput (env_mm (fun _ => 0) true) 1) s1 (fun _ s' =>
    if mm_users mm1 =? 1 then __mmput_post (env_mm (fun _ => 0) true) 1 mm1 s1 s'
    else s' = Kst (<[1 := set_users (mm_users mm1 - 1) mm1]> (mms s1)) (ctr s1) (locks s1)).
Proof.
  apply mmput_spec; [apply env_mm_exit|reflexivity|done|].
  intros f. unfold areas_hold, exe_hold. cbn. unfold vma_hold, file_hold. cbn.
  rewrite !(at_ne (CPolicy _)), !(at_ne CVma), !(at_ne CCommit), !(at_ne CAnon), !(at_ne (CMapped _)), !(at_ne (CWrite _)) by done.
  unfold at_. destruct (decide (CFile f = CFile 7)) as [[= ->]|_]; [done|].
  etrans; [|exact (s1_pos f)]. by vm_compute.
Defined.

Lemma dup_mm_spec_witness :
  runs (dup_mm (env_mm (fun _ => 0) true) 11 1 (Some 1)) s1
    (dup_mm_post (env_mm (fun _ => 0) true) 11 mm1 (Some 1) s1).
Proof.
  apply (dup_mm_spec _ 11 1 (Some 1) mm1 s1); [apply env_mm_exit|reflexivity| |by apply s1_files|apply s1_pos| |].
  - intros c [= <-]. by exists mm1.
  - cbn. set_solver.
  - intros id [= <-]. split_and!; [done|done|]. cbn. set_solver.
Defined.

Lemma replace_mm_exe_file_spec_witness :
  runs (replace_mm_exe_file (env_mm (fun _ => 0) true) 1 7) s1 (fun r s' =>
    if match exe_file mm1 with Some f => maps_path (env_mm (fun _ => 0) true) (mmap mm1) f | None => false end
    then r = - Errno.EBUSY /\ unmoved s1 s'
    else if written (env_mm (fun _ => 0) true) s1 (Some 7) then r = - Errno.EACCES /\ unmoved s1 s'
    else r = 0 /\ exe_changed (env_mm (fun _ => 0) true) 1 mm1 (Some 7) s1 s').
Proof.
  apply replace_mm_exe_file_spec; [reflexivity| |done|cbn; set_solver]. by intros f [= <-].
Defined.

Lemma mm_access_spec_witness :
  runs (mm_access (env_mm (fun _ => 0) true) (MTask 10 (Some 1) false) None 0 false) s1 (fun r s' =>
    locks s' = locks s1 /\ ctr s' = ctr s1 /\
    match r with
    | inl e => mms s' = mms s1 /\ (e = 0 /\ 0 <> 0 \/ e = - Errno.EACCES /\ false = false)
    | inr None => mms s' = mms s1 /\ (Some 1 = None \/ false = true)
    | inr (Some id) => Some 1 = Some id /\ false = false /\ (false = true \/ None = Some id) /\
        exists m, mms s1 !! id = Some m /\ mms s' = <[id := set_users (mm_users m + 1) m]> (mms s1)
    end).
Proof.
  apply (mm_access_spec _ (MTask 10 (Some 1) false)); [|cbn; set_solver..]. intros id [= <-]. by exists mm1.
Defined.

(** The child of the example, and the counters that moved. *)
Example dup_mm_run :
  match dup_mm (env_mm (fun _ => 0) true) 11 1 (Some 1) s1 with
  | Ok (Some id, s') => (id, map_count <$> mms s' !! 2, total_vm <$> mms s' !! 2,
      map (ctr s') [CFile 7; CWrite 7; CMapped 7; CPolicy 5; CCommit; CVma; CModule 4; CPgd])
  | _ => (0, None, None, [])
  end = (2, Some 2, Some 6, [5; -2; 2; 2; 8; 5; 2; 2]).
Proof. vm_compute. reflexivity. Qed.

(** The second copied area fails: all counters are back. *)
Example dup_mm_run_fails :
  match dup_mm (env_mm (fun i => if (i =? 2)%nat then - Errno.ENOMEM else 0) true) 11 1 (Some 1) s1 with
  | Ok (None, s') => (mms s' !! 2, map (ctr s') [CFile 7; CWrite 7; CMapped 7; CPolicy 5; CCommit; CVma; CModule 4; CPgd])
  | _ => (None, [])
  end = (None, [3; -1; 1; 1; 4; 3; 1; 1]).
Proof. vm_compute. reflexivity. Qed.
