(* ===== verification/MmLife.v ===== *)
(** * MmLife: users and references of an address space, concurrently

    The atomic steps of [mmput], [mmput_async], [mmdrop_async] and their work
    functions in [kernel/fork.c], interleaved in any order by any number of
    holders.  The counts are [atomic_t]: 32-bit integers that wrap around.  A holder of a use may take another use or a reference and may put
    its use; a holder of a reference may take another or drop its own.  The two
    deferred paths share the work item [async_put_work] of the structure. *)

From Stdlib Require Import ZArith Lia.
From stdpp Require Import base list relations.
From S2P Require Import Prelude.

(** ** The shared structure *)

Inductive work := WNone | WPut | WDrop.

Record life := Life {
  users : Z; count : Z;
  async_put_work : work;
  in_mmput : bool;           (** some thread runs __mmput *)
  in_mmdrop : bool;          (** some thread runs __mmdrop *)
  torn : nat;                (** how often the areas were torn down *)
  freed : bool
}.

(** Every operation reads the structure: it must not be freed. *)
Definition live (l : life) (r : res life) : res life := if freed l then Fault Dangling else r.

Definition mmget (l : life) : res life :=
  live l (Ok (Life (s32 (users l + 1)) (count l) (async_put_work l) (in_mmput l) (in_mmdrop l) (torn l) (freed l))).
Definition mmgrab (l : life) : res life :=
  live l (Ok (Life (users l) (s32 (count l + 1)) (async_put_work l) (in_mmput l) (in_mmdrop l) (torn l) (freed l))).

(** The start of [__mmput]: VM_BUG_ON(mm_users). *)
Definition __mmput (l : life) : res life :=
  if negb (users l =? 0) then Fault BugOn
  else if in_mmput l then Fault BugOn
  else Ok (Life (users l) (count l) (async_put_work l) true (in_mmdrop l) (torn l) (freed l)).

Definition __mmdrop (l : life) : res life :=
  if in_mmdrop l then Fault BugOn
  else Ok (Life (users l) (count l) (async_put_work l) (in_mmput l) true (torn l) (freed l)).

(** INIT_WORK and schedule_work: a queued item must not be initialised again. *)
Definition schedule (w : work) (l : life) : res life :=
  match async_put_work l with
  | WNone => Ok (Life (users l) (count l) w (in_mmput l) (in_mmdrop l) (torn l) (freed l))
  | _ => Fault BugOn
  end.

(** atomic_dec_and_test on each count. *)
Definition dec_users (l : life) : life :=
  Life (s32 (users l - 1)) (count l) (async_put_work l) (in_mmput l) (in_mmdrop l) (torn l) (freed l).
Definition dec_count (l : life) : life :=
  Life (users l) (s32 (count l - 1)) (async_put_work l) (in_mmput l) (in_mmdrop l) (torn l) (freed l).

Definition mmput (l : life) : res life := live l
  (let l := dec_users l in if users l =? 0 then __mmput l else Ok l).
Definition mmput_async (l : life) : res life := live l
  (let l := dec_users l in if users l =? 0 then schedule WPut l else Ok l).
Definition mmdrop (l : life) : res life := live l
  (let l := dec_count l in if count l =? 0 then __mmdrop l else Ok l).
Definition mmdrop_async (l : life) : res life := live l
  (let l := dec_count l in if count l =? 0 then schedule WDrop l else Ok l).

(** The work function of the queued item: [mmput_async_fn] or [mmdrop_async_fn]. *)
Definition run_work (l : life) : res life := live l
  (let l0 := Life (users l) (count l) WNone (in_mmput l) (in_mmdrop l) (torn l) (freed l) in
   match async_put_work l with
   | WPut => __mmput l0
   | WDrop => __mmdrop l0
   | WNone => Ok l
   end).

(** The end of [__mmput]: the areas are gone, the users' reference is dropped. *)
Definition end_mmput (l : life) : res life := live l
  (mmdrop (Life (users l) (count l) (async_put_work l) false (in_mmdrop l) (S (torn l)) (freed l))).
(** The end of [__mmdrop]: free_mm. *)
Definition end_mmdrop (l : life) : res life := live l
  (Ok (Life (users l) (count l) (async_put_work l) (in_mmput l) false (torn l) true)).

(** ** Interleavings *)

(** [hu] uses and [hc] references are held. *)
Record system := Sys { hu : nat; hc : nat; mm_ : life }.

Inductive lstep : system -> res life * (nat * nat) -> Prop :=
  | step_mmget u c l : (0 < u)%nat -> lstep (Sys u c l) (mmget l, (S u, c))
  | step_mmgrab_u u c l : (0 < u)%nat -> lstep (Sys u c l) (mmgrab l, (u, S c))
  | step_mmgrab_c u c l : (0 < c)%nat -> lstep (Sys u c l) (mmgrab l, (u, S c))
  | step_mmput u c l : lstep (Sys (S u) c l) (mmput l, (u, c))
  | step_mmput_async u c l : lstep (Sys (S u) c l) (mmput_async l, (u, c))
  | step_mmdrop u c l : lstep (Sys u (S c) l) (mmdrop l, (u, c))
  | step_mmdrop_async u c l : lstep (Sys u (S c) l) (mmdrop_async l, (u, c))
  | step_work u c l : async_put_work l <> WNone -> lstep (Sys u c l) (run_work l, (u, c))
  | step_end_mmput u c l : in_mmput l = true -> lstep (Sys u c l) (end_mmput l, (u, c))
  | step_end_mmdrop u c l : in_mmdrop l = true -> lstep (Sys u c l) (end_mmdrop l, (u, c)).

Inductive sstep : system -> system -> Prop :=
  | sstep_intro s l u c : lstep s (Ok l, (u, c)) -> sstep s (Sys u c l).

(** What [mm_init] makes: one use, one reference of all uses together. *)
Definition init : system := Sys 1 0 (Life 1 1 WNone false false 0 false).

(** ** The phases *)

Inductive phase : system -> Prop :=
  | ph_used u c a b : (0 < u)%nat -> a = s32 (Z.of_nat u) -> b = s32 (Z.of_nat c + 1) ->
      phase (Sys u c (Life a b WNone false false 0 false))
  | ph_queued u c a b : u = 0%nat -> a = 0 -> b = s32 (Z.of_nat c + 1) ->
      phase (Sys u c (Life a b WPut false false 0 false))
  | ph_tearing u c a b : u = 0%nat -> a = 0 -> b = s32 (Z.of_nat c + 1) ->
      phase (Sys u c (Life a b WNone true false 0 false))
  | ph_torn u c a b : u = 0%nat -> a = 0 -> (0 < c)%nat -> b = s32 (Z.of_nat c) ->
      phase (Sys u c (Life a b WNone false false 1 false))
  | ph_drop_queued u c a b : u = 0%nat -> a = 0 -> c = 0%nat -> b = 0 ->
      phase (Sys u c (Life a b WDrop false false 1 false))
  | ph_dropping u c a b : u = 0%nat -> a = 0 -> c = 0%nat -> b = 0 ->
      phase (Sys u c (Life a b WNone false true 1 false))
  | ph_freed : phase (Sys 0 0 (Life 0 0 WNone false false 1 true)).

(** Few enough holders for the counts, [mm_count] counting all uses as one more. *)
Definition small (s : system) : Prop := Z.of_nat (hu s) < 2 ^ 32 /\ Z.of_nat (hc s) + 1 < 2 ^ 32.

(** A step to a state with few enough holders. *)
Definition bstep (s s' : system) : Prop := sstep s s' /\ small s'.

Lemma s32_shift x d : s32 (s32 x + d) = s32 (x + d).
Proof.
  unfold swrap. set (h := 2 ^ (32 - 1)).
  replace ((x + h) mod 2 ^ 32 - h + d + h) with ((x + h) mod 2 ^ 32 + d) by lia.
  rewrite Zplus_mod_idemp_l. do 2 f_equal. lia.
Qed.

Lemma s32_zero x : 0 <= x < 2 ^ 32 -> s32 x = 0 -> x = 0.
Proof.
  unfold swrap. intros Hx H. destruct (Z.lt_ge_cases x (2 ^ (32 - 1))).
  - rewrite Z.mod_small in H; lia.
  - replace (x + 2 ^ (32 - 1)) with (x - 2 ^ (32 - 1) + 1 * 2 ^ 32) in H by lia.
    rewrite Z.mod_add, Z.mod_small in H; lia.
Qed.

Create HintDb mmlife.
#[export] Hint Constructors phase : mmlife.

(** A count after one more and after one less. *)
Lemma count_up n : s32 (s32 (Z.of_nat n) + 1) = s32 (Z.of_nat (S n)).
Proof. rewrite s32_shift. f_equal. lia. Qed.
Lemma count_down n : s32 (s32 (Z.of_nat (S n)) - 1) = s32 (Z.of_nat n).
Proof. unfold Z.sub. rewrite s32_shift. f_equal. lia. Qed.
Lemma count_up1 n : s32 (s32 (Z.of_nat n + 1) + 1) = s32 (Z.of_nat (S n) + 1).
Proof. rewrite s32_shift. f_equal. lia. Qed.
Lemma count_end n : s32 (s32 (Z.of_nat n + 1) - 1) = s32 (Z.of_nat n).
Proof. unfold Z.sub. rewrite s32_shift. f_equal. lia. Qed.

Hint Rewrite count_up count_down count_up1 count_end : mmlife.

Ltac side := first [ lia | done | f_equal; lia ].
Ltac phase_done :=
  first [ apply ph_used; side | apply ph_queued; side | apply ph_tearing; side
        | apply ph_torn; side | apply ph_drop_queued; side
        | apply ph_dropping; side | apply ph_freed ].

(** An enabled step from a phase returns and leads to a phase. *)
Lemma phase_step s r u c : phase s -> small s -> lstep s (r, (u, c)) -> exists l, r = Ok l /\ phase (Sys u c l).
Proof.
  intros Hp [Hsu Hsc] Hs. inversion Hp; subst; cbn in Hsu, Hsc; inversion Hs; subst; try lia; try done;
    unfold mmget, mmgrab, mmput, mmput_async, mmdrop, mmdrop_async, run_work, end_mmput, end_mmdrop,
      mmdrop, live, __mmput, __mmdrop, schedule, dec_users, dec_count; cbn -[swrap];
    autorewrite with mmlife;
    repeat (match goal with |- context [?a =? 0] => destruct (Z.eqb_spec a 0) as [E|E] end; cbn -[swrap];
            try (apply s32_zero in E; lia); try lia);
    (eexists; split; [reflexivity|]);
    try (match goal with E : s32 _ = 0 |- _ => pose proof E as E0; apply s32_zero in E0; [|lia] end);
    try (match goal with E : s32 (Z.of_nat ?n) <> 0 |- _ =>
           assert (n <> 0%nat) by (intros ->; by apply E) end);
    phase_done.
Qed.

Lemma phase_reachable s s' : phase s -> small s -> rtc bstep s s' -> phase s' /\ small s'.
Proof.
  intros Hp Hsm Hr. induction Hr as [|s s1 s2 [Hs Hb] _ IH]; [done|]. apply IH; [|done].
  inversion Hs as [? l u c Hl]; subst.
  destruct (phase_step _ _ _ _ Hp Hsm Hl) as (l' & [= <-] & H). done.
Qed.

Lemma init_phase : phase init /\ small init.
Proof. split; [by apply ph_used; [lia|..]|split; cbn; lia]. Qed.

(** C10: in every interleaving in which fewer than 2^32 uses and fewer than 2^32 - 1
    references are held at any time, no operation of a holder, no deferred work and
    no end of a release touches a freed structure, hits a BUG_ON or initialises the
    shared work item while it is queued; the areas are torn down at most once and
    never while a use is held; the structure is freed only when no use and no
    reference is held and the areas are gone.  The counts wrap around at 32 bits:
    [mm_users_wraps] below shows what one more holder would do. *)
Theorem mm_life_safe s :
  rtc bstep init s ->
  (forall r g, lstep s (r, g) -> is_ok r = true) /\ (torn (mm_ s) <= 1)%nat /\
  ((0 < hu s)%nat -> torn (mm_ s) = 0%nat /\ in_mmput (mm_ s) = false /\ freed (mm_ s) = false) /\
  ((0 < hc s)%nat -> freed (mm_ s) = false /\ in_mmdrop (mm_ s) = false) /\
  (freed (mm_ s) = true -> hu s = 0%nat /\ hc s = 0%nat /\ torn (mm_ s) = 1%nat).
Proof.
  intros Hr. destruct (phase_reachable _ _ (proj1 init_phase) (proj2 init_phase) Hr) as [Hp Hsm]. split.
  - intros r [u c] Hs. by destruct (phase_step _ _ _ _ Hp Hsm Hs) as (l & -> & _).
  - destruct Hp; cbn; split_and!; try lia; try done.
Qed.

(** With 2^32 + 1 holders the count reads 1, and a put by one of them tears the
    areas down under all others. *)
Example mm_users_wraps c t :
  mmput (Life (s32 (2 ^ 32 + 1)) c WNone false false t false) = Ok (Life 0 c WNone true false t false).
Proof. reflexivity. Qed.

(** The last use was put by [mmput_async]. *)
Definition queued : system := Sys 0 0 (Life 0 1 WPut false false 0 false).

Lemma queued_reached : rtc bstep init queued.
Proof.
  apply rtc_once. split; [|split; cbn; lia]. apply (sstep_intro _ (Life 0 1 WPut false false 0 false)).
  exact (step_mmput_async 0 0 (Life 1 1 WNone false false 0 false)).
Qed.

Lemma mm_life_safe_witness :
  (forall r g, lstep queued (r, g) -> is_ok r = true) /\ (torn (mm_ queued) <= 1)%nat /\
  ((0 < hu queued)%nat -> torn (mm_ queued) = 0%nat /\ in_mmput (mm_ queued) = false /\ freed (mm_ queued) = false) /\
  ((0 < hc queued)%nat -> freed (mm_ queued) = false /\ in_mmdrop (mm_ queued) = false) /\
  (freed (mm_ queued) = true -> hu queued = 0%nat /\ hc queued = 0%nat /\ torn (mm_ queued) = 1%nat).
Proof. apply (mm_life_safe queued). exact queued_reached. Defined.

(** *** The end *)

(** How many steps are left when nothing is held. *)
Definition rank (l : life) : nat :=
  if freed l then 0 else if in_mmdrop l then 1 else
  match async_put_work l with WPut => 3 | _ => 2 end.

Definition unheld (s : system) : Prop := hu s = 0%nat /\ hc s = 0%nat.

Lemma unheld_small s : unheld s -> small s.
Proof. intros [Hu Hc]. split; [rewrite Hu|rewrite Hc]; cbn; lia. Qed.

Lemma unheld_step s s' : phase s -> unheld s -> sstep s s' -> unheld s' /\ (rank (mm_ s') < rank (mm_ s))%nat.
Proof.
  intros Hp [Hu Hc] Hs. inversion Hs as [? l u c Hl]; subst.
  inversion Hp; subst; cbn in *; subst; try lia; inversion Hl; subst; cbn in *; try lia; try done;
    unfold run_work, end_mmput, end_mmdrop, mmdrop, live in *; cbn in *; simplify_eq; cbn; (split; [done|lia]).
Qed.

Lemma unheld_runs n : forall s s', phase s -> unheld s -> nsteps sstep n s s' ->
  phase s' /\ unheld s' /\ (n + rank (mm_ s') <= rank (mm_ s))%nat.
Proof.
  induction n as [|n IH]; intros s s' Hp Hu Hn; inversion Hn as [|? ? s1 ? H1 H2]; subst; [done|].
  destruct (unheld_step _ _ Hp Hu H1) as [Hu1 Hlt].
  destruct (IH s1 s') as (Hp' & Hu' & Hle); [|done..|split_and!; [done..|lia]].
  eapply phase_reachable; [exact Hp|by apply unheld_small|apply rtc_once; split; [done|by apply unheld_small]].
Qed.

Lemma phase_moves s r g : phase s -> small s -> lstep s (r, g) -> exists s', sstep s s'.
Proof.
  intros Hp Hsm Hs. destruct g as [u c]. destruct (phase_step _ _ _ _ Hp Hsm Hs) as (l & -> & _).
  by exists (Sys u c l).
Qed.

Lemma unheld_progress s : phase s -> unheld s -> freed (mm_ s) = false -> exists s', sstep s s'.
Proof.
  intros Hp Hun Hf. pose proof (unheld_small _ Hun) as Hsm. destruct Hun as [Hu Hc].
  inversion Hp; subst; cbn in *; subst; try lia; try done; (eapply phase_moves; [exact Hp|exact Hsm|]).
  - by apply step_work.
  - by apply step_end_mmput.
  - by apply step_work.
  - by apply step_end_mmdrop.
Qed.

(** Once the last use and the last reference are given up, whoever does it and
    in whichever of the two ways, at most three more steps are possible, and when
    none is possible the structure is freed: nothing leaks. *)
Theorem mm_life_ends s :
  rtc bstep init s -> hu s = 0%nat -> hc s = 0%nat ->
  forall n s', nsteps sstep n s s' ->
    (n <= 3)%nat /\ ((forall s2, ~ sstep s' s2) -> freed (mm_ s') = true).
Proof.
  intros Hr Hu Hc n s' Hn.
  destruct (phase_reachable _ _ (proj1 init_phase) (proj2 init_phase) Hr) as [Hp _].
  destruct (unheld_runs n s s' Hp (conj Hu Hc) Hn) as (Hp' & Hu' & Hle). split.
  - assert (rank (mm_ s) <= 3)%nat; [|lia]. unfold rank. by repeat case_match; lia.
  - intros Hstuck. destruct (freed (mm_ s')) eqn:Hf; [done|].
    destruct (unheld_progress s' Hp' Hu' Hf) as [s2 H2]. by destruct (Hstuck s2).
Qed.

Lemma mm_life_ends_witness :
  (0 <= 3)%nat /\ ((forall s2, ~ sstep queued s2) -> freed (mm_ queued) = true).
Proof. apply (mm_life_ends queued); [exact queued_reached|done|done|constructor]. Defined.
