(* ===== verification/MmContext.v ===== *)
(** * MmContext: the architecture's part of an address space

    Models [mm_context_t] of [arch/x86/include/asm/mmu.h] and the operations of
    [arch/x86/include/asm/mmu_context.h]: setting up and destroying a context,
    inheriting it over [fork], the width of a process and the check of protection
    keys.  The local descriptor table is managed elsewhere; what the operations rely
    on is the class [LdtOps].

    The life of contexts is a step relation whose moves call these operations in the
    order [kernel/fork.c] and exec do: [dup_mm] copies the structure, initialises the
    context and duplicates the areas; [mm_alloc] starts from zeros; the last user
    tears the areas down before the context is destroyed. *)

From Stdlib Require Import ZArith Lia.
From stdpp Require Import base list gmap relations.
From S2P Require Import Prelude.

(** ** Data *)

Definition MM_CONTEXT_UPROBE_IA32 : Z := 1.
Definition MM_CONTEXT_HAS_VSYSCALL : Z := 2.

(** [mm_context_t].  The lock and the semaphore are free when initialised and are not
    taken by the operations here; [ldt] is the table pointed to. *)
Record mm_context_t := Ctx {
  ctx_id : Z; tlb_gen : Z; next_trim_cpumask : Z;
  ldt : option Z; flags : Z;
  vdso : Z; vdso_image : Z; vtask : Z;
  perf_rdpmc_allowed : Z;
  pkey_allocation_map : Z; execute_only_pkey : Z
}.

(** [INIT_MM_CONTEXT], for [init_mm]; all other fields are zero. *)
Definition INIT_MM_CONTEXT : mm_context_t := Ctx 1 0 0 None 0 0 0 0 0 0 0.

(** A structure cleared by [mm_alloc]. *)
Definition zero_context : mm_context_t := Ctx 0 0 0 None 0 0 0 0 0 0 0.

Definition set_ldt (l : option Z) (c : mm_context_t) : mm_context_t :=
  Ctx (ctx_id c) (tlb_gen c) (next_trim_cpumask c) l (flags c) (vdso c) (vdso_image c) (vtask c)
      (perf_rdpmc_allowed c) (pkey_allocation_map c) (execute_only_pkey c).
Definition set_pkeys (m e : Z) (c : mm_context_t) : mm_context_t :=
  Ctx (ctx_id c) (tlb_gen c) (next_trim_cpumask c) (ldt c) (flags c) (vdso c) (vdso_image c) (vtask c)
      (perf_rdpmc_allowed c) m e.
Definition set_fresh (id gen trim : Z) (c : mm_context_t) : mm_context_t :=
  Ctx id gen trim (ldt c) (flags c) (vdso c) (vdso_image c) (vtask c)
      (perf_rdpmc_allowed c) (pkey_allocation_map c) (execute_only_pkey c).

(** What [ldt.c] promises: duplicating gives a table of its own, none where there is
    none, or fails; the tables are those allocated and not yet freed. *)
Class LdtOps := {
  ldt_dup_context : option Z -> list Z -> option (option Z * list Z);
  ldt_dup_none ls : ldt_dup_context None ls = Some (None, ls);
  ldt_dup_some l ls r : ldt_dup_context (Some l) ls = Some r -> exists l', r = (Some l', l' :: ls) /\ l' ∉ ls
}.

(** The configuration: [X86_FEATURE_OSPKE] with its kernel option,
    [CONFIG_MODIFY_LDT_SYSCALL], [CONFIG_IA32_EMULATION] and the clock. *)
Record arch_config := ArchConfig { ospke : bool; modify_ldt : bool; ia32_emulation : bool; hz : Z }.

Section Operations.
Context `{LdtOps} (g : arch_config).

(** *** Initialisation *)

Definition init_new_context_ldt (c : mm_context_t) : mm_context_t := if modify_ldt g then set_ldt None c else c.

(** [atomic64_inc_return (&last_mm_ctx_id)] gives the new number. *)
Definition init_new_context (jiffies last_mm_ctx_id : Z) (c : mm_context_t) : Z * mm_context_t :=
  let last := u64 (last_mm_ctx_id + 1) in
  let c := set_fresh last 0 (u64 (jiffies + hz g)) c in
  let c := if ospke g then set_pkeys 1 (-1) c else c in
  (last, init_new_context_ldt c).

(** *** Over fork *)

Definition arch_dup_pkeys (oldmm mm : mm_context_t) : mm_context_t :=
  if negb (ospke g) then mm else set_pkeys (pkey_allocation_map oldmm) (execute_only_pkey oldmm) mm.

(** Zero or an error, the new context, and the tables. *)
Definition arch_dup_mmap (oldmm mm : mm_context_t) (ldts : list Z) : Z * mm_context_t * list Z :=
  let mm := arch_dup_pkeys oldmm mm in
  if modify_ldt g then
    match ldt_dup_context (ldt oldmm) ldts with
    | Some (l, ldts) => (0, set_ldt l mm, ldts)
    | None => (- Errno.ENOMEM, mm, ldts)
    end
  else (0, mm, ldts).

(** *** The end *)

(** [destroy_context_ldt] frees the table and forgets it. *)
Definition destroy_context (c : mm_context_t) (ldts : list Z) : mm_context_t * list Z :=
  if modify_ldt g then (set_ldt None c, match ldt c with Some l => filter (fun x => x <> l) ldts | None => ldts end)
  else (c, ldts).

(** *** Questions *)

Definition is_64bit_mm (x86_64 : bool) (c : mm_context_t) : bool :=
  if x86_64 then negb (ia32_emulation g) || negb (hasb (flags c) MM_CONTEXT_UPROBE_IA32) else false.

Definition arch_vma_access_permitted (vma_is_foreign : bool) (pkru_allows : bool -> bool) (write execute foreign : bool) : bool :=
  if execute then true
  else if foreign || vma_is_foreign then true
  else pkru_allows write.
End Operations.

(** ** Lives *)

(** The contexts of the address spaces that exist, the counter, the tables allocated
    and the numbers given out so far. *)
Record world := World {
  contexts : gmap Z mm_context_t; last_mm_ctx_id : Z; ldts : list Z; given : list Z
}.

Inductive move :=
  | Exec (id jiffies : Z)              (** [mm_alloc] for a new program *)
  | Fork (old id jiffies : Z)          (** [dup_mm] *)
  | ModifyLdt (id : Z) (l : Z)         (** the system call installs a first table *)
  | Exit (id : Z).                     (** the last reference is dropped *)

Section Lives.
Context `{LdtOps} (g : arch_config).

Definition do_move (m : move) (w : world) : option world :=
  match m with
  | Exec id jiffies =>
      match contexts w !! id with
      | Some _ => None
      | None =>
          let '(last, c) := init_new_context g jiffies (last_mm_ctx_id w) zero_context in
          Some (World (<[id := c]> (contexts w)) last (ldts w) (ctx_id c :: given w))
      end
  | Fork old id jiffies =>
      match contexts w !! old, contexts w !! id with
      | Some oldmm, None =>
          let '(last, c) := init_new_context g jiffies (last_mm_ctx_id w) oldmm in
          let '(err, c, ls) := arch_dup_mmap g oldmm c (ldts w) in
          if bool_decide (old = 0) then None
          else if err =? 0 then Some (World (<[id := c]> (contexts w)) last ls (ctx_id c :: given w))
          else Some (World (contexts w) last (snd (destroy_context g c ls)) (ctx_id c :: given w))
      | _, _ => None
      end
  | ModifyLdt id l =>
      match contexts w !! id with
      | Some c =>
          if modify_ldt g && bool_decide (ldt c = None) && bool_decide (l ∉ ldts w) then
            Some (World (<[id := set_ldt (Some l) c]> (contexts w)) (last_mm_ctx_id w) (l :: ldts w) (given w))
          else None
      | None => None
      end
  | Exit id =>
      match contexts w !! id with
      | Some c =>
          if bool_decide (id = 0) then None
          else Some (World (delete id (contexts w)) (last_mm_ctx_id w) (snd (destroy_context g c (ldts w))) (given w))
      | None => None
      end
  end.

Definition ctx_step (w w' : world) : Prop := exists m, do_move m w = Some w'.

(** At boot there is [init_mm] with number 1, the last one given out; it is never
    duplicated, since kernel threads have no address space of their own, nor freed. *)
Definition boot : world := World {[ 0 := INIT_MM_CONTEXT ]} 1 [] [1].
End Lives.

(** ** Ownership *)

(** At most one context has a given value of a field. *)
Definition one_owner (f : mm_context_t -> option Z) (cs : gmap Z mm_context_t) : Prop :=
  forall id id' c c' v, cs !! id = Some c -> cs !! id' = Some c' -> f c = Some v -> f c' = Some v -> id = id'.

Definition owned (f : mm_context_t -> option Z) (cs : gmap Z mm_context_t) (v : Z) : Prop :=
  exists id c, cs !! id = Some c /\ f c = Some v.

Lemma one_owner_insert f cs id c :
  one_owner f cs ->
  (forall v, f c = Some v -> forall id' c', cs !! id' = Some c' -> id' <> id -> f c' <> Some v) ->
  one_owner f (<[id := c]> cs).
Proof.
  intros Ho Hc i i' d d' v Hi Hi' Hv Hv'.
  apply lookup_insert_Some in Hi as [[<- <-]|[Hn Hi]]; apply lookup_insert_Some in Hi' as [[<- <-]|[Hn' Hi']];
    [done|exfalso; by eapply Hc..|]. by eapply Ho.
Qed.

Lemma one_owner_fresh f cs id c :
  one_owner f cs -> (forall v, f c = Some v -> ~ owned f cs v) -> one_owner f (<[id := c]> cs).
Proof.
  intros Ho Hc. apply one_owner_insert; [done|]. intros v Hv id' c' Hl _ Hf. apply (Hc v Hv). by exists id', c'.
Qed.

Lemma one_owner_delete f cs id : one_owner f cs -> one_owner f (delete id cs).
Proof. intros Ho i i' d d' v [_ Hi]%lookup_delete_Some [_ Hi']%lookup_delete_Some. by eapply Ho. Qed.

Lemma ctx_owned_insert f cs id c v :
  cs !! id = None -> owned f (<[id := c]> cs) v <-> f c = Some v \/ owned f cs v.
Proof.
  intros Hn. split.
  - intros (i & d & [[<- <-]|[_ Hi]]%lookup_insert_Some & Hv); [by left|]. right. by exists i, d.
  - intros [Hv|(i & d & Hi & Hv)]; [exists id, c; by rewrite lookup_insert_eq|]. exists i, d. split; [|done].
    rewrite lookup_insert_ne; [done|]. intros ->. naive_solver.
Qed.

Lemma ctx_owned_delete f cs id c v :
  one_owner f cs -> cs !! id = Some c -> owned f (delete id cs) v <-> owned f cs v /\ f c <> Some v.
Proof.
  intros Ho Hc. split.
  - intros (i & d & [Hne Hi]%lookup_delete_Some & Hv). split; [by exists i, d|]. intros Hf. apply Hne. by eapply Ho.
  - intros [(i & d & Hi & Hv) Hf]. exists i, d. split; [|done]. rewrite lookup_delete_ne; [done|]. naive_solver.
Qed.

(** ** The invariant *)

Definition number (c : mm_context_t) : option Z := Some (ctx_id c).

Record ctx_inv (g : arch_config) (n : nat) (w : world) : Prop := CtxInv {
  inv_last : 1 <= last_mm_ctx_id w <= 1 + Z.of_nat n;
  inv_given : NoDup (given w) /\ Forall (fun x => 1 <= x <= last_mm_ctx_id w) (given w);
  inv_live : forall id c, contexts w !! id = Some c -> ctx_id c ∈ given w;
  inv_numbers : one_owner number (contexts w);
  inv_ldts : NoDup (ldts w) /\ one_owner ldt (contexts w) /\ (forall l, l ∈ ldts w <-> owned ldt (contexts w) l);
  inv_ldt_off : modify_ldt g = false -> forall id c, contexts w !! id = Some c -> ldt c = None;
  inv_pkey : ospke g = true -> forall id c, contexts w !! id = Some c -> id <> 0 -> Z.testbit (pkey_allocation_map c) 0 = true
}.

(** A number is given out, whatever becomes of it. *)
Lemma inv_number g n w : ctx_inv g n w ->
  ctx_inv g (S n) (World (contexts w) (last_mm_ctx_id w + 1) (ldts w) (last_mm_ctx_id w + 1 :: given w)).
Proof.
  intros I. destruct (inv_given _ _ _ I) as [Hd Hf]. pose proof (inv_last _ _ _ I). split; cbn; try apply I; [lia|..].
  - split.
    + constructor; [|done]. intros Hin. rewrite Forall_forall in Hf. specialize (Hf _ Hin). cbn in Hf. lia.
    + constructor; [lia|]. eapply Forall_impl; [exact Hf|]. cbn. lia.
  - intros id c Hc. apply elem_of_cons. right. by apply (inv_live _ _ _ I id).
Qed.

(** A new context with the number just given out and a table of its own, if any. *)
Lemma inv_add g n w id c :
  ctx_inv g n w -> contexts w !! id = None -> head (given w) = Some (ctx_id c) ->
  ~ owned number (contexts w) (ctx_id c) ->
  (forall l, ldt c = Some l -> modify_ldt g = true /\ l ∉ ldts w) ->
  (ospke g = true -> id <> 0 -> Z.testbit (pkey_allocation_map c) 0 = true) ->
  ctx_inv g n (World (<[id := c]> (contexts w)) (last_mm_ctx_id w)
                 (match ldt c with Some l => l :: ldts w | None => ldts w end) (given w)).
Proof.
  intros I Hid Hg Hn Hl Hp. destruct (inv_ldts _ _ _ I) as (Hd & Ho & Hl2). split; cbn; try apply I.
  - intros i d [[<- <-]|[_ Hi]]%lookup_insert_Some; [|by apply (inv_live _ _ _ I i)].
    destruct (given w) as [|x l]; cbn in Hg; [done|]. injection Hg as ->. set_solver.
  - apply one_owner_fresh; [apply I|]. intros v [= <-]. done.
  - split; [|split].
    + destruct (ldt c) as [l|] eqn:E; [|done]. constructor; [by apply (Hl l)|done].
    + apply one_owner_fresh; [done|]. intros v Hv Hw. apply Hl2 in Hw. by apply (Hl v).
    + intros l. rewrite ctx_owned_insert, <- Hl2 by done. destruct (ldt c) as [l'|] eqn:E; set_solver.
  - intros Hm i d [[<- <-]|[_ Hi]]%lookup_insert_Some; [|by apply (inv_ldt_off _ _ _ I Hm i)].
    destruct (ldt c) as [l|] eqn:E; [|done]. destruct (Hl l eq_refl). congruence.
  - intros Ho2 i d [[<- <-]|[_ Hi]]%lookup_insert_Some; [by apply Hp|]. by apply (inv_pkey _ _ _ I Ho2).
Qed.

Lemma filter_ne_elem (l x : Z) (ls : list Z) : x ∈ filter (fun y => y <> l) ls <-> x ∈ ls /\ x <> l.
Proof. rewrite list_elem_of_filter. naive_solver. Qed.

Lemma inv_remove g n w id c :
  ctx_inv g n w -> contexts w !! id = Some c ->
  ctx_inv g n (World (delete id (contexts w)) (last_mm_ctx_id w) (snd (destroy_context g c (ldts w))) (given w)).
Proof.
  intros I Hc. destruct (inv_ldts _ _ _ I) as (Hd & Ho & Hl). split; cbn; try apply I.
  - intros i d [_ Hi]%lookup_delete_Some. by apply (inv_live _ _ _ I i).
  - apply one_owner_delete, I.
  - unfold destroy_context. destruct (modify_ldt g) eqn:E; cbn.
    + split; [destruct (ldt c); [by apply NoDup_filter|done]|]. split; [by apply one_owner_delete|].
      intros l. rewrite (ctx_owned_delete _ _ _ c) by done. rewrite <- Hl. destruct (ldt c) as [l'|]; [|naive_solver].
      rewrite filter_ne_elem. naive_solver.
    + split; [done|]. split; [by apply one_owner_delete|]. intros l. rewrite (ctx_owned_delete _ _ _ c) by done.
      rewrite <- Hl. rewrite (inv_ldt_off _ _ _ I E id c) by done. naive_solver.
  - intros Hm i d [_ Hi]%lookup_delete_Some. by apply (inv_ldt_off _ _ _ I Hm i).
  - intros Hm i d [_ Hi]%lookup_delete_Some. by apply (inv_pkey _ _ _ I Hm i).
Qed.

Lemma inv_install g n w id c l :
  ctx_inv g n w -> contexts w !! id = Some c -> modify_ldt g = true -> ldt c = None -> l ∉ ldts w ->
  ctx_inv g n (World (<[id := set_ldt (Some l) c]> (contexts w)) (last_mm_ctx_id w) (l :: ldts w) (given w)).
Proof.
  intros I Hc Hm Hn Hf. destruct (inv_ldts _ _ _ I) as (Hd & Ho & Hl). split; cbn; try apply I; [..|congruence|].
  - intros i d [[<- <-]|[_ Hi]]%lookup_insert_Some; [|by apply (inv_live _ _ _ I i)]. by apply (inv_live _ _ _ I id c).
  - apply one_owner_insert; [apply I|]. intros v Hv i d Hi Hne Hd2. apply Hne. by eapply (inv_numbers _ _ _ I).
  - split; [by constructor|]. split.
    + apply one_owner_fresh; [done|]. intros v [= <-] Hw. by apply Hf, Hl.
    + intros x. rewrite elem_of_cons, Hl. split.
      * intros [->|(i & d & Hi & Hx)]; [exists id, (set_ldt (Some l) c); by rewrite lookup_insert_eq|].
        exists i, d. rewrite lookup_insert_ne; [done|]. naive_solver.
      * intros (i & d & [[<- <-]|[_ Hi]]%lookup_insert_Some & Hx); [left; by injection Hx|]. right. by exists i, d.
  - intros Hp i d [[<- <-]|[_ Hi]]%lookup_insert_Some Hi0; [by apply (inv_pkey _ _ _ I Hp id c)|by apply (inv_pkey _ _ _ I Hp i)].
Qed.

Lemma inv_more g n w : ctx_inv g n w -> ctx_inv g (S n) w.
Proof. intros I. pose proof (inv_last _ _ _ I). split; try apply I. lia. Qed.

(** What [init_new_context] and [arch_dup_mmap] make. *)
Lemma init_new_context_spec g j last c :
  0 <= last -> last + 1 < 2 ^ 64 ->
  exists c', init_new_context g j last c = (last + 1, c') /\ ctx_id c' = last + 1 /\ tlb_gen c' = 0 /\
    flags c' = flags c /\ vdso c' = vdso c /\ vdso_image c' = vdso_image c /\ vtask c' = vtask c /\
    (ospke g = true -> pkey_allocation_map c' = 1 /\ execute_only_pkey c' = -1) /\
    (modify_ldt g = true \/ ldt c = None -> ldt c' = None).
Proof.
  intros H0 H1. unfold init_new_context. rewrite uwrap_small by (unfold is_u; lia). eexists. split; [reflexivity|].
  unfold init_new_context_ldt. destruct (modify_ldt g), (ospke g); cbn; naive_solver.
Qed.

Lemma arch_dup_mmap_spec `{LdtOps} g old c ls :
  ldt c = None -> (modify_ldt g = false -> ldt old = None) ->
  exists err c' ls', arch_dup_mmap g old c ls = (err, c', ls') /\
    ctx_id c' = ctx_id c /\ tlb_gen c' = tlb_gen c /\ flags c' = flags c /\ vdso c' = vdso c /\ vdso_image c' = vdso_image c /\
    vtask c' = vtask c /\
    (ospke g = true -> pkey_allocation_map c' = pkey_allocation_map old /\ execute_only_pkey c' = execute_only_pkey old) /\
    ls' = match ldt c' with Some l => l :: ls | None => ls end /\
    (forall l, ldt c' = Some l -> modify_ldt g = true /\ l ∉ ls) /\
    (err = 0 /\ (ldt c' = None <-> ldt old = None) \/ err = - Errno.ENOMEM /\ ldt c' = None).
Proof.
  intros Hc Ho. unfold arch_dup_mmap, arch_dup_pkeys. destruct (modify_ldt g) eqn:E; cbn.
  - destruct (ldt old) as [l|] eqn:El.
    + destruct (ldt_dup_context (Some l) ls) as [[l' ls']|] eqn:D.
      * destruct (ldt_dup_some l ls _ D) as (l2 & [= -> ->] & Hn). eexists _, _, _. split; [reflexivity|].
        destruct (ospke g); cbn; naive_solver.
      * eexists _, _, _. split; [reflexivity|]. destruct (ospke g); cbn; rewrite ?Hc; naive_solver.
    + rewrite ldt_dup_none. eexists _, _, _. split; [reflexivity|]. destruct (ospke g); cbn; naive_solver.
  - specialize (Ho eq_refl). eexists _, _, _. split; [reflexivity|]. destruct (ospke g); cbn; rewrite ?Hc, ?Ho; naive_solver.
Qed.

(** A number just given out belongs to no context yet. *)
Lemma number_unused g n w : ctx_inv g n w -> ~ owned number (contexts w) (last_mm_ctx_id w + 1).
Proof.
  intros I (id & c & Hc & [= Hn]). apply (inv_live _ _ _ I) in Hc. rewrite Hn in Hc.
  destruct (inv_given _ _ _ I) as [_ Hf]. rewrite Forall_forall in Hf. specialize (Hf _ Hc). cbn in Hf. lia.
Qed.

Section Runs.
Context `{LdtOps} (g : arch_config).

Lemma ctx_boot_inv : ctx_inv g 0 boot.
Proof.
  assert (forall id c, contexts boot !! id = Some c -> id = 0 /\ c = INIT_MM_CONTEXT) as Hb.
  { intros id c Hc. cbn in Hc. apply lookup_singleton_Some in Hc as [<- <-]. done. }
  split; cbn.
  - lia.
  - split; [apply NoDup_singleton|repeat constructor; lia].
  - intros id c Hc. destruct (Hb id c Hc) as [-> ->]. set_solver.
  - intros i i' c c' v Hi Hi' _ _. destruct (Hb i c Hi), (Hb i' c' Hi'). congruence.
  - split; [constructor|]. split; [intros i i' c c' v Hi Hi' _ _; destruct (Hb i c Hi), (Hb i' c' Hi'); congruence|].
    intros l. split; [by intros ?%not_elem_of_nil|]. intros (i & c & Hi & Hl). destruct (Hb i c Hi) as [-> ->]. done.
  - intros _ i c Hi. destruct (Hb i c Hi) as [-> ->]. done.
  - intros _ i c Hi. destruct (Hb i c Hi). done.
Qed.

Lemma exec_inv n w id j w' :
  ctx_inv g n w -> last_mm_ctx_id w + 1 < 2 ^ 64 -> do_move g (Exec id j) w = Some w' -> ctx_inv g (S n) w'.
Proof.
  intros I Hb Hm. pose proof (inv_last _ _ _ I). cbn [do_move] in Hm. destruct (contexts w !! id) eqn:E; [done|].
  destruct (init_new_context_spec g j (last_mm_ctx_id w) zero_context) as (c & Hc & Hid & _ & _ & _ & _ & _ & Hp & Hl); [lia..|].
  rewrite Hc in Hm. injection Hm as <-. rewrite Hid. specialize (Hl (or_intror eq_refl)).
  pose proof (inv_add g _ _ id c (inv_number _ _ _ I) E) as Ha. cbn in Ha. rewrite Hid, Hl in Ha. apply Ha; [done|..].
  - by apply (number_unused g n).
  - done.
  - intros Ho _. by destruct (Hp Ho) as [-> _].
Qed.

Lemma fork_inv n w old id j w' :
  ctx_inv g n w -> last_mm_ctx_id w + 1 < 2 ^ 64 -> do_move g (Fork old id j) w = Some w' -> ctx_inv g (S n) w'.
Proof.
  intros I Hb Hm. pose proof (inv_last _ _ _ I). cbn [do_move] in Hm.
  destruct (contexts w !! old) as [om|] eqn:Eo; [|done]. destruct (contexts w !! id) eqn:E; [done|].
  destruct (init_new_context_spec g j (last_mm_ctx_id w) om) as (c & Hc & Hid & _ & _ & _ & _ & _ & _ & Hl); [lia..|].
  assert (modify_ldt g = false -> ldt om = None) as Hoff by (intros Hf; by apply (inv_ldt_off _ _ _ I Hf old)).
  assert (ldt c = None) as Hn by (apply Hl; destruct (modify_ldt g); auto).
  destruct (arch_dup_mmap_spec g om c (ldts w) Hn Hoff)
    as (err & c' & ls & Hd & Hid' & _ & _ & _ & _ & _ & Hp & -> & Hf & He).
  rewrite Hc in Hm. cbn in Hm. rewrite Hd in Hm. destruct (bool_decide_reflect (old = 0)); [done|].
  destruct He as [[-> _]|[-> Hnone]]; cbn in Hm; injection Hm as <-; rewrite Hid', Hid.
  - pose proof (inv_add g _ _ id c' (inv_number _ _ _ I) E) as Ha. cbn in Ha. apply Ha.
    + by rewrite Hid', Hid.
    + rewrite Hid', Hid. by apply (number_unused g n).
    + done.
    + intros Ho _. destruct (Hp Ho) as [-> _]. by apply (inv_pkey _ _ _ I Ho old).
  - rewrite Hnone. unfold destroy_context. rewrite Hnone. destruct (modify_ldt g); by apply inv_number.
Qed.

Lemma step_inv n w w' :
  ctx_inv g n w -> last_mm_ctx_id w + 1 < 2 ^ 64 -> ctx_step g w w' -> ctx_inv g (S n) w'.
Proof.
  intros I Hb [m Hm]. destruct m as [id j|old id j|id l|id]; [by eapply exec_inv|by eapply fork_inv|..]; apply inv_more; cbn in Hm;
    destruct (contexts w !! id) as [c|] eqn:E; try done.
  - destruct (modify_ldt g) eqn:El; [|done]. destruct (bool_decide_reflect (ldt c = None)); [|done].
    destruct (bool_decide_reflect (l ∉ ldts w)); [|done]. injection Hm as <-. by apply inv_install.
  - destruct (bool_decide_reflect (id = 0)); [done|]. injection Hm as <-. by apply inv_remove.
Qed.

Lemma runs_inv n w : nsteps (ctx_step g) n boot w -> Z.of_nat n < 2 ^ 64 - 1 -> ctx_inv g n w.
Proof.
  revert w. induction n as [|n IH]; intros w Hr Hn; [inversion Hr; subst; exact ctx_boot_inv|].
  apply nsteps_inv_r in Hr as (v & Hr & Hs). assert (ctx_inv g n v) as I by (apply IH; [done|lia]).
  pose proof (inv_last _ _ _ I). eapply step_inv; [done|lia|done].
Qed.
End Runs.

(** ** Theorems *)

(** C28: a context number identifies an address space, is never used again and is
    never zero, as [mmu.h] promises, for any sequence of exec, fork, exit and LDT
    changes of less than 2^64 - 1 steps; every descriptor table belongs to exactly
    one context that exists, so that none is freed twice or lost; and with protection
    keys key 0 is allocated in every process. *)
Theorem contexts_sound `{LdtOps} g n w :
  nsteps (ctx_step g) n boot w -> Z.of_nat n < 2 ^ 64 - 1 ->
  NoDup (given w) /\ 0 ∉ given w /\
  (forall id c, contexts w !! id = Some c -> ctx_id c ∈ given w) /\
  (forall id id' c c', contexts w !! id = Some c -> contexts w !! id' = Some c' -> ctx_id c = ctx_id c' -> id = id') /\
  NoDup (ldts w) /\ one_owner ldt (contexts w) /\ (forall l, l ∈ ldts w <-> owned ldt (contexts w) l) /\
  (ospke g = true -> forall id c, contexts w !! id = Some c -> id <> 0 -> Z.testbit (pkey_allocation_map c) 0 = true).
Proof.
  intros Hr Hn. pose proof (runs_inv g n w Hr Hn) as I. destruct (inv_given _ _ _ I) as [Hd Hf].
  destruct (inv_ldts _ _ _ I) as (Hld & Ho & Hl). split; [done|]. split.
  { intros Hin. rewrite Forall_forall in Hf. specialize (Hf _ Hin). cbn in Hf. lia. }
  split; [apply I|]. split.
  { intros id id' c c' Hi Hi' He. eapply (inv_numbers _ _ _ I); [done..|]. unfold number. by f_equal. }
  split; [done|]. split; [done|]. split; [done|]. apply I.
Qed.

(** The bound is sharp: the next number after 2^64 - 1 would be zero. *)
Lemma number_wraps g j c : ctx_id (snd (init_new_context g j (2 ^ 64 - 1) c)) = 0.
Proof. unfold init_new_context, init_new_context_ldt. by destruct (modify_ldt g), (ospke g). Qed.

(** Over [fork] a child has the protection keys, the flags and the places of the vDSO
    and of the task area of its parent, a number and a generation of its own, and a
    descriptor table exactly if the parent has one; only memory for the table can be
    missing. *)
Theorem fork_context `{LdtOps} g j last old ls :
  0 <= last -> last + 1 < 2 ^ 64 -> (modify_ldt g = false -> ldt old = None) ->
  exists err c ls', arch_dup_mmap g old (snd (init_new_context g j last old)) ls = (err, c, ls') /\
    ctx_id c = last + 1 /\ tlb_gen c = 0 /\ flags c = flags old /\
    vdso c = vdso old /\ vdso_image c = vdso_image old /\ vtask c = vtask old /\
    (ospke g = true -> pkey_allocation_map c = pkey_allocation_map old /\ execute_only_pkey c = execute_only_pkey old) /\
    (err = 0 /\ (ldt c = None <-> ldt old = None) \/ err = - Errno.ENOMEM /\ ldt c = None).
Proof.
  intros H0 H1 Hoff. destruct (init_new_context_spec g j last old H0 H1) as (c & -> & Hid & Hg & Hfl & Hv & Hi & Ht & _ & Hl).
  assert (ldt c = None) as Hn by (apply Hl; destruct (modify_ldt g); auto).
  destruct (arch_dup_mmap_spec g old c ls Hn Hoff) as (err & c' & ls' & Hd & ? & ? & ? & ? & ? & ? & Hp & _ & _ & He).
  exists err, c', ls'. cbn [snd]. rewrite Hd. split; [done|]. repeat split; try congruence; try (by apply Hp); done.
Qed.

(** A process that is not the current one, and every instruction fetch, are outside
    the reach of protection keys; all other accesses are left to them. *)
Lemma access_permitted_cases foreign_vma allows write execute foreign :
  arch_vma_access_permitted foreign_vma allows write execute foreign =
  (execute || foreign || foreign_vma || allows write).
Proof. by destruct execute, foreign, foreign_vma. Qed.

(** *** Witnesses *)

(** Tables numbered upwards. *)
Definition next_table (ls : list Z) : Z := 1 + foldr Z.max 0 ls.

Lemma next_table_fresh ls : next_table ls ∉ ls.
Proof.
  assert (forall x, x ∈ ls -> x <= foldr Z.max 0 ls) as Hm.
  { induction ls as [|y ls IH]; cbn; intros x Hx; [by apply not_elem_of_nil in Hx|].
    apply elem_of_cons in Hx as [->|Hx]; [lia|]. specialize (IH x Hx). lia. }
  intros Hin. apply Hm in Hin. unfold next_table in Hin. lia.
Qed.

#[export] Program Instance counted_ldts : LdtOps := {|
  ldt_dup_context o ls := match o with None => Some (None, ls) | Some _ => Some (Some (next_table ls), next_table ls :: ls) end
|}.
Next Obligation. done. Qed.
Next Obligation. intros l ls r [= <-]. exists (next_table ls). split; [done|apply next_table_fresh]. Qed.

Definition x86_config : arch_config := ArchConfig true true true 250.

(** Exec, a table, a fork that duplicates it, and the parent's exit. *)
Definition after : world :=
  World {[ 0 := INIT_MM_CONTEXT; 8 := Ctx 3 0 350 (Some 6) 0 0 0 0 0 1 (-1) ]} 3 [6] [3; 2; 1].

Lemma contexts_sound_witness :
  nsteps (ctx_step x86_config) 4 boot after /\ NoDup (given after) /\ 0 ∉ given after /\
  (forall l, l ∈ ldts after <-> owned ldt (contexts after) l).
Proof.
  assert (nsteps (ctx_step x86_config) 4 boot after) as Hr.
  { eapply nsteps_l; [exists (Exec 7 0); vm_compute; reflexivity|].
    eapply nsteps_l; [exists (ModifyLdt 7 5); vm_compute; reflexivity|].
    eapply nsteps_l; [exists (Fork 7 8 100); vm_compute; reflexivity|].
    eapply nsteps_l; [exists (Exit 7); vm_compute; reflexivity|]. apply nsteps_O. }
  destruct (contexts_sound x86_config 4 after Hr ltac:(lia)) as (Hd & H0 & _ & _ & _ & _ & Hl & _). done.
Defined.
