(* ===== verification/TaskStruct.v ===== *)
(** * TaskStruct: kernel stacks and task structures

    Models the stack part of [kernel/fork.c] with CONFIG_VMAP_STACK and
    CONFIG_THREAD_INFO_IN_TASK: the per-cpu cache of stacks,
    [alloc_thread_stack_node], [free_thread_stack], [free_vm_stack_cache], the
    memory-cgroup charge of stacks, [dup_task_struct], [put_task_stack],
    [release_task_stack] and [free_task]; and the limits on the number of
    threads.  A stack is a number; the state says which stacks exist, which of
    their pages are charged and whether they hold data of an earlier task. *)

From Stdlib Require Import ZArith Lia.
From stdpp Require Import base list gmap.
From S2P Require Import Prelude.

(** ** State *)

Definition PAGE_SIZE : Z := 4096.
Definition THREAD_SIZE : Z := 4 * PAGE_SIZE.
Definition STACK_PAGES : nat := Z.to_nat (THREAD_SIZE / PAGE_SIZE).
Definition NR_CACHED_STACKS : nat := 2.

Record vm_stack := VmStack {
  charged : list bool;      (** per page: charged to a memory cgroup *)
  dirty : bool              (** holds data of an earlier task *)
}.

(** The fields of [struct task_struct] set here. *)
Record ttask := TTask {
  stack : option Z; stack_vm_area : option Z; stack_refcount : Z;
  usage : Z; rcu_users : Z; task_dead : bool;
  seccomp_filter : option Z; pf_kthread : bool
}.

Record tst := Tst {
  cached_stacks : list (option Z);
  vms : gmap Z vm_stack;
  tasks : gmap Z ttask;
  nr_kernel_stack_kb : Z
}.

(** Answers of the allocators and the architecture. *)
Record tenv := TEnv {
  vmalloc : option Z;                (** a new stack *)
  charge_page : nat -> Z;
  alloc_task_struct : option Z;
  uninit_task : ttask;               (** what the allocator left in it *)
  arch_dup : Z; scs_prepare : Z
}.

Definition set_cached c (s : tst) := Tst c (vms s) (tasks s) (nr_kernel_stack_kb s).
Definition set_vms v (s : tst) := Tst (cached_stacks s) v (tasks s) (nr_kernel_stack_kb s).
Definition set_tasks t (s : tst) := Tst (cached_stacks s) (vms s) t (nr_kernel_stack_kb s).
Definition add_kb k (s : tst) := Tst (cached_stacks s) (vms s) (tasks s) (nr_kernel_stack_kb s + k).

Definition get_task (t : Z) : M tst ttask := s ← get; lift (res_of_opt Dangling (tasks s !! t)).
Definition put_task (t : Z) (k : ttask) : M tst unit := modify (fun s => set_tasks (<[t := k]> (tasks s)) s).
Definition get_vm (v : Z) : M tst vm_stack := s ← get; lift (res_of_opt Dangling (vms s !! v)).
Definition put_vm (v : Z) (x : vm_stack) : M tst unit := modify (fun s => set_vms (<[v := x]> (vms s)) s).
Definition vfree (v : Z) : M tst unit := _ ← get_vm v; modify (fun s => set_vms (delete v (vms s)) s).

Definition set_stack (o : option Z) (k : ttask) : ttask :=
  TTask o o (stack_refcount k) (usage k) (rcu_users k) (task_dead k) (seccomp_filter k) (pf_kthread k).
Definition set_refcount (n : Z) (k : ttask) : ttask :=
  TTask (stack k) (stack_vm_area k) n (usage k) (rcu_users k) (task_dead k) (seccomp_filter k) (pf_kthread k).
Definition set_counts (u r : Z) (k : ttask) : ttask :=
  TTask (stack k) (stack_vm_area k) (stack_refcount k) u r (task_dead k) None (pf_kthread k).

Section TaskStruct.
Context (E : tenv).

(** ** Stacks *)

(** Take the first cached stack: this_cpu_xchg on each slot in turn. *)
Fixpoint take_slot (c : list (option Z)) : option (Z * list (option Z)) :=
  match c with
  | [] => None
  | Some v :: c => Some (v, None :: c)
  | None :: c => match take_slot c with Some (v, c') => Some (v, None :: c') | None => None end
  end.

Definition alloc_thread_stack_node (t : Z) : M tst (option Z) :=
  s ← get;
  match take_slot (cached_stacks s) with
  | Some (v, c) =>
      _ ← put (set_cached c s);
      x ← get_vm v;
      _ ← put_vm v (VmStack (charged x) false);                     (* memset *)
      k ← get_task t;
      _ ← put_task t (set_stack (Some v) k);
      mret (Some v)
  | None =>
      match vmalloc E with
      | None => mret None
      | Some v =>
          _ ← put_vm v (VmStack (replicate STACK_PAGES false) false);
          k ← get_task t;
          _ ← put_task t (set_stack (Some v) k);
          mret (Some v)
      end
  end.

(** Put a stack into the first empty slot: this_cpu_cmpxchg on each in turn. *)
Fixpoint put_slot (v : Z) (c : list (option Z)) : option (list (option Z)) :=
  match c with
  | [] => None
  | None :: c => Some (Some v :: c)
  | Some w :: c => match put_slot v c with Some c' => Some (Some w :: c') | None => None end
  end.

Definition free_thread_stack (t : Z) : M tst unit :=
  k ← get_task t;
  match stack_vm_area k with
  | None => abort NullDeref         (* no stack of this configuration lacks its area *)
  | Some v =>
      x ← get_vm v;
      _ ← put_vm v (VmStack (map (fun _ => false) (charged x)) (dirty x));
      s ← get;
      match put_slot v (cached_stacks s) with
      | Some c => put (set_cached c s)
      | None => vfree v
      end
  end.

(** The hotplug callback: the cache of a cpu that goes away is emptied. *)
Fixpoint free_slots (c : list (option Z)) : M tst (list (option Z)) :=
  match c with
  | [] => mret []
  | None :: c => c' ← free_slots c; mret (None :: c')
  | Some v :: c => _ ← vfree v; c' ← free_slots c; mret (None :: c')
  end.

Definition free_vm_stack_cache : M tst Z :=
  s ← get; c ← free_slots (cached_stacks s); _ ← modify (set_cached c); mret 0.

(** Charging stops at the first failure; pages are charged in order. *)
Fixpoint charge_pages (i : nat) (ps : list bool) : Z * list bool :=
  match ps with
  | [] => (0, [])
  | p :: ps =>
      if negb (charge_page E i =? 0) then (charge_page E i, p :: ps)
      else let (r, ps') := charge_pages (S i) ps in (r, true :: ps')
  end.

Definition memcg_charge_kernel_stack (t : Z) : M tst Z :=
  k ← get_task t;
  match stack_vm_area k with
  | None => mret 0
  | Some v =>
      x ← get_vm v;
      if negb (bool_decide (length (charged x) = STACK_PAGES)) then abort BugOn
      else
        let (r, ps) := charge_pages 0 (charged x) in
        _ ← put_vm v (VmStack ps (dirty x));
        mret r
  end.

Definition account_kernel_stack (t : Z) (account : Z) : M tst unit :=
  _ ← get_task t; modify (add_kb (account * (THREAD_SIZE / 1024))).

(** ** Task structures *)

Definition free_task_struct (t : Z) : M tst unit :=
  _ ← get_task t; modify (fun s => set_tasks (delete t (tasks s)) s).

Definition dup_free_stack (t : Z) : M tst (option Z) :=              (* free_stack *)
  _ ← free_thread_stack t; _ ← free_task_struct t; mret None.

Definition dup_task_struct (orig : Z) : M tst (option Z) :=
  match alloc_task_struct E with
  | None => mret None
  | Some t =>
      _ ← put_task t (uninit_task E);
      st ← alloc_thread_stack_node t;
      match st with
      | None => _ ← free_task_struct t; mret None                    (* free_tsk *)
      | Some v =>
          r ← memcg_charge_kernel_stack t;
          if negb (r =? 0) then dup_free_stack t
          else
            o ← get_task orig;
            _ ← put_task t (set_refcount 1 (set_stack (Some v) o));
            if negb (arch_dup E =? 0) then dup_free_stack t
            else if negb (scs_prepare E =? 0) then dup_free_stack t
            else
              x ← get_vm v;
              _ ← put_vm v (VmStack (charged x) true);               (* set_task_stack_end_magic *)
              k ← get_task t;
              _ ← put_task t (set_counts 1 2 k);
              _ ← account_kernel_stack t 1;
              mret (Some t)
      end
  end.

Definition release_task_stack (t : Z) : M tst unit :=
  k ← get_task t;
  if negb (task_dead k) then mret tt                                 (* better to leak *)
  else
    _ ← account_kernel_stack t (- 1);
    _ ← free_thread_stack t;
    k ← get_task t;
    put_task t (set_stack None k).

Definition put_task_stack (t : Z) : M tst unit :=
  k ← get_task t;
  _ ← put_task t (set_refcount (stack_refcount k - 1) k);
  if stack_refcount k - 1 =? 0 then release_task_stack t else mret tt.

(** The result says whether a kthread structure is released too. *)
Definition free_task (t : Z) : M tst bool :=
  k ← get_task t; _ ← free_task_struct t; mret (pf_kthread k).

(** ** The pool of stacks *)

(** Every stack that exists is in the cache or owned, once; cached stacks are not
    charged. *)
Record pool (own : list Z) (s : tst) : Prop := {
  pool_slots : length (cached_stacks s) = NR_CACHED_STACKS;
  pool_once : NoDup (omap id (cached_stacks s) ++ own);
  pool_exists v : v ∈ omap id (cached_stacks s) ++ own <-> is_Some (vms s !! v);
  pool_pages v x : vms s !! v = Some x -> length (charged x) = STACK_PAGES;
  pool_uncharged v x : v ∈ omap id (cached_stacks s) -> vms s !! v = Some x ->
                       charged x = replicate STACK_PAGES false
}.

#[export] Instance pool_perm : Proper ((≡ₚ) ==> eq ==> iff) pool.
Proof.
  intros o1 o2 Ho s _ <-. split; intros [A B C D F]; split; try done; [by rewrite <- Ho|intros v; by rewrite <- Ho|
    by rewrite Ho|intros v; by rewrite Ho].
Qed.

(** The pool does not look at the tasks. *)
Lemma pool_tasks own s t kb : pool own s -> pool own (Tst (cached_stacks s) (vms s) t kb).
Proof. intros [A B C D F]. by split. Qed.

Lemma take_slot_perm c v c' :
  take_slot c = Some (v, c') -> omap id c ≡ₚ v :: omap id c' /\ length c' = length c.
Proof.
  revert v c'. induction c as [|[w|] c IH]; intros v c' H; cbn in H; [done|by injection H as <- <-|].
  destruct (take_slot c) as [[w d]|]; [|done]. injection H as <- <-. cbn. destruct (IH w d eq_refl) as [-> ->]. done.
Qed.

Lemma put_slot_perm v c c' :
  put_slot v c = Some c' -> omap id c' ≡ₚ v :: omap id c /\ length c' = length c.
Proof.
  revert c'. induction c as [|[w|] c IH]; intros c' H; cbn in H; [done| |by injection H as <-].
  destruct (put_slot v c) as [d|]; [|done]. injection H as <-. cbn. destruct (IH d eq_refl) as [-> ->].
  split; [apply Permutation_swap|done].
Qed.

(** Changing the contents of an existing stack. *)
Lemma pool_update own s v x :
  pool own s -> is_Some (vms s !! v) -> length (charged x) = STACK_PAGES ->
  (v ∈ omap id (cached_stacks s) -> charged x = replicate STACK_PAGES false) ->
  pool own (set_vms (<[v := x]> (vms s)) s).
Proof.
  intros [A B C D F] Hv Hx Hu. split; cbn; try done.
  - intros w. rewrite C, lookup_insert_is_Some'. naive_solver.
  - intros w y. rewrite lookup_insert_Some. naive_solver.
  - intros w y Hw. rewrite lookup_insert_Some. naive_solver.
Qed.

(** A cached stack becomes owned, and back. *)
Lemma pool_take own s v c :
  pool own s -> take_slot (cached_stacks s) = Some (v, c) -> pool (v :: own) (set_cached c s).
Proof.
  intros [A B C D F] H. destruct (take_slot_perm _ _ _ H) as [Hp Hl].
  assert (omap id c ++ v :: own ≡ₚ omap id (cached_stacks s) ++ own) as Hq by (rewrite Hp; cbn; by rewrite Permutation_middle).
  split; cbn; [congruence|by rewrite Hq|intros w; by rewrite Hq|done|].
  intros w x Hw. apply F. rewrite Hp. by right.
Qed.

Lemma pool_put own s v c x :
  pool (v :: own) s -> put_slot v (cached_stacks s) = Some c ->
  vms s !! v = Some x -> charged x = replicate STACK_PAGES false -> pool own (set_cached c s).
Proof.
  intros [A B C D F] H Hx Hu. destruct (put_slot_perm _ _ _ H) as [Hp Hl].
  assert (omap id c ++ own ≡ₚ omap id (cached_stacks s) ++ v :: own) as Hq by (rewrite Hp; cbn; by rewrite Permutation_middle).
  split; cbn; [congruence|by rewrite Hq|intros w; by rewrite Hq|done|].
  intros w y. rewrite Hp, elem_of_cons. intros [->|Hw] Hy; [congruence|by eapply F].
Qed.

(** New stacks and stacks that go away. *)
Lemma pool_new own s v :
  pool own s -> vms s !! v = None ->
  pool (v :: own) (set_vms (<[v := VmStack (replicate STACK_PAGES false) false]> (vms s)) s).
Proof.
  intros [A B C D F] Hv. assert (v ∉ omap id (cached_stacks s) ++ own) as Hn.
  { intros H. apply C in H. rewrite Hv in H. by destruct H. }
  split; cbn; [done| | | |].
  - rewrite <- Permutation_middle. by constructor.
  - intros w. rewrite <- Permutation_middle, elem_of_cons, C, lookup_insert_is_Some'. naive_solver.
  - intros w x. rewrite lookup_insert_Some. intros [[_ <-]|[_ H]]; [done|by eapply D].
  - intros w x Hw. rewrite lookup_insert_Some. intros [[_ <-]|[_ H]]; [done|by eapply F].
Qed.

Lemma pool_vfree own s v : pool (v :: own) s -> pool own (set_vms (delete v (vms s)) s).
Proof.
  intros [A B C D F]. rewrite <- Permutation_middle in B. apply NoDup_cons in B as [Hn B]. split; cbn; try done.
  - intros w. specialize (C w). rewrite <- Permutation_middle, elem_of_cons in C. rewrite lookup_delete_is_Some.
    split; [|naive_solver]. intros Hw. split; [congruence|]. apply C. by right.
  - intros w x. rewrite lookup_delete_Some. intros [_ H]. by eapply D.
  - intros w x Hw. rewrite lookup_delete_Some. intros [_ H]. by eapply F.
Qed.

(** *** Rules *)

Lemma runs_get_task t s k Q : tasks s !! t = Some k -> Q k s -> runs (get_task t) s Q.
Proof. intros H HQ. exists k, s. split; [|done]. unfold get_task. mrun. by rewrite H. Qed.

Lemma runs_get_vm v s x Q : vms s !! v = Some x -> Q x s -> runs (get_vm v) s Q.
Proof. intros H HQ. exists x, s. split; [|done]. unfold get_vm. mrun. by rewrite H. Qed.

Lemma runs_modify (f : tst -> tst) s Q : Q tt (f s) -> runs (modify f) s Q.
Proof. intros H. by eexists _, _. Qed.

Lemma runs_get (s : tst) Q : Q s s -> runs get s Q.
Proof. intros H. by eexists _, _. Qed.

Lemma runs_put (s s' : tst) (Q : unit -> tst -> Prop) : Q tt s' -> runs (put s') s Q.
Proof. intros H. by eexists _, _. Qed.

(** *** Operations on stacks *)

(** A new owner gets a stack that is clean, uncharged and nobody else's. *)
Lemma alloc_thread_stack_ok own s t k :
  pool own s -> tasks s !! t = Some k -> (forall v, vmalloc E = Some v -> vms s !! v = None) ->
  runs (alloc_thread_stack_node t) s (fun r s' => nr_kernel_stack_kb s' = nr_kernel_stack_kb s /\
    match r with
    | None => s' = s
    | Some v => pool (v :: own) s' /\ vms s' !! v = Some (VmStack (replicate STACK_PAGES false) false) /\
                tasks s' = <[t := set_stack (Some v) k]> (tasks s)
    end).
Proof.
  intros Hp Hk Hv. unfold alloc_thread_stack_node. apply runs_bind, runs_get.
  destruct (take_slot (cached_stacks s)) as [[v c]|] eqn:Et.
  - pose proof (pool_take _ _ _ _ Hp Et) as Hp'. apply runs_bind, runs_put.
    assert (v ∈ omap id (cached_stacks s)) as Hin by (destruct (take_slot_perm _ _ _ Et) as [-> _]; by left).
    destruct (proj1 (pool_exists _ _ Hp v)) as [x Hx]; [set_solver|].
    apply runs_bind, (runs_get_vm _ _ x); [done|]. apply runs_bind, runs_modify.
    apply runs_bind, (runs_get_task _ _ k); [done|]. apply runs_bind, runs_modify, runs_ret. cbn.
    rewrite (pool_uncharged _ _ Hp v x Hin Hx), lookup_insert_eq. split_and!; try done.
    apply (pool_tasks _ (set_vms (<[v := VmStack (replicate STACK_PAGES false) false]> (vms s)) (set_cached c s))).
    by apply (pool_update _ (set_cached c s)).
  - destruct (vmalloc E) as [v|]; [|by apply runs_ret]. specialize (Hv v eq_refl).
    apply runs_bind, runs_modify. apply runs_bind, (runs_get_task _ _ k); [done|].
    apply runs_bind, runs_modify, runs_ret. cbn. rewrite lookup_insert_eq. split_and!; try done.
    apply (pool_tasks _ (set_vms _ s)). by apply pool_new.
Qed.

Lemma charge_pages_ok ps : forall i r ps',
  charge_pages i ps = (r, ps') -> length ps' = length ps /\ (r = 0 -> ps' = replicate (length ps) true).
Proof.
  induction ps as [|p ps IH]; intros i r ps' H; cbn in H; [by injection H as <- <-|].
  destruct (Z.eqb_spec (charge_page E i) 0) as [|Hc]; cbn in H; [|by injection H as <- <-].
  destruct (charge_pages (S i) ps) as [r1 ps1] eqn:E1. injection H as <- <-.
  destruct (IH _ _ _ E1) as [H1 H2]. cbn. split; [by rewrite H1|]. intros Hr. by rewrite H2.
Qed.

Lemma memcg_charge_ok own s t k v :
  pool (v :: own) s -> tasks s !! t = Some k -> stack_vm_area k = Some v ->
  runs (memcg_charge_kernel_stack t) s (fun r s' => pool (v :: own) s' /\ tasks s' = tasks s /\
    nr_kernel_stack_kb s' = nr_kernel_stack_kb s /\
    exists x, vms s' !! v = Some x /\ (r = 0 -> charged x = replicate STACK_PAGES true)).
Proof.
  intros Hp Hk Hv. unfold memcg_charge_kernel_stack. apply runs_bind, (runs_get_task _ _ k); [done|]. rewrite Hv.
  destruct (proj1 (pool_exists _ _ Hp v)) as [x Hx]; [set_solver|].
  apply runs_bind, (runs_get_vm _ _ x); [done|]. pose proof (pool_pages _ _ Hp v x Hx) as Hl.
  rewrite bool_decide_eq_true_2 by done. cbn [negb]. destruct (charge_pages 0 (charged x)) as [r ps] eqn:Ec.
  destruct (charge_pages_ok _ _ _ _ Ec) as [H1 H2]. apply runs_bind, runs_modify, runs_ret. cbn.
  split_and!; try done; [|by exists (VmStack ps (dirty x)); rewrite lookup_insert_eq, <- Hl].
  apply pool_update; cbn; [done|by eexists|congruence|]. intros Hin. pose proof (pool_once _ _ Hp) as Hn.
  apply NoDup_app in Hn as (_ & Hn & _). destruct (Hn v Hin). by left.
Qed.

Lemma free_thread_stack_ok own s t k v :
  pool (v :: own) s -> tasks s !! t = Some k -> stack_vm_area k = Some v ->
  runs (free_thread_stack t) s (fun _ s' => pool own s' /\ tasks s' = tasks s /\
    nr_kernel_stack_kb s' = nr_kernel_stack_kb s).
Proof.
  intros Hp Hk Hv. unfold free_thread_stack. apply runs_bind, (runs_get_task _ _ k); [done|]. rewrite Hv.
  destruct (proj1 (pool_exists _ _ Hp v)) as [x Hx]; [set_solver|].
  apply runs_bind, (runs_get_vm _ _ x); [done|]. pose proof (pool_pages _ _ Hp v x Hx) as Hl.
  assert (map (fun _ => false) (charged x) = replicate STACK_PAGES false) as ->.
  { rewrite <- Hl. clear. induction (charged x); cbn; congruence. }
  apply runs_bind, runs_modify. apply runs_bind, runs_get. cbn.
  set (s1 := set_vms (<[v := VmStack (replicate STACK_PAGES false) (dirty x)]> (vms s)) s).
  assert (pool (v :: own) s1) as Hp1 by (by apply pool_update; [|eexists| |]).
  destruct (put_slot v (cached_stacks s)) as [c|] eqn:Ep.
  - apply runs_put. split_and!; try done. eapply (pool_put own s1); [done..|apply lookup_insert_eq|done].
  - unfold vfree. apply runs_bind. eapply runs_get_vm; [apply lookup_insert_eq|]. apply runs_modify.
    split_and!; try done. by apply (pool_vfree own s1).
Qed.

(** *** Task structures *)

(** The failure label gives stack and structure back. *)
Lemma dup_free_stack_ok own s s0 t k v :
  pool (v :: own) s -> tasks s !! t = Some k -> stack_vm_area k = Some v ->
  delete t (tasks s) = tasks s0 -> nr_kernel_stack_kb s = nr_kernel_stack_kb s0 ->
  runs (dup_free_stack t) s (fun r s' => r = None /\ pool own s' /\ tasks s' = tasks s0 /\
    nr_kernel_stack_kb s' = nr_kernel_stack_kb s0).
Proof.
  intros Hp Hk Hv Hd Hkb. unfold dup_free_stack. apply runs_bind.
  eapply runs_mono; [by eapply free_thread_stack_ok|]. intros [] s1 (Hp1 & Ht & Hn).
  unfold free_task_struct. apply runs_bind, runs_bind, (runs_get_task _ _ k); [by rewrite Ht|].
  apply runs_modify, runs_ret. cbn. rewrite Ht, Hd. split_and!; try done; [by apply pool_tasks|congruence].
Qed.

Definition dup_task_post (own : list Z) (o : ttask) (s : tst) (r : option Z) (s' : tst) : Prop :=
  match r with
  | None => pool own s' /\ tasks s' = tasks s /\ nr_kernel_stack_kb s' = nr_kernel_stack_kb s
  | Some t => exists v x, alloc_task_struct E = Some t /\ pool (v :: own) s' /\
      tasks s' = <[t := set_counts 1 2 (set_refcount 1 (set_stack (Some v) o))]> (tasks s) /\
      vms s' !! v = Some x /\ charged x = replicate STACK_PAGES true /\
      nr_kernel_stack_kb s' = nr_kernel_stack_kb s + THREAD_SIZE / 1024
  end.

(** From [arch_dup_task_struct] on: [t] owns the charged stack [v]. *)
Lemma dup_task_tail own s s1 orig o t v x :
  pool (v :: own) s1 -> tasks s !! t = None -> tasks s !! orig = Some o ->
  tasks s1 = <[t := set_stack (Some v) (uninit_task E)]> (tasks s) ->
  vms s1 !! v = Some x -> charged x = replicate STACK_PAGES true ->
  nr_kernel_stack_kb s1 = nr_kernel_stack_kb s -> alloc_task_struct E = Some t ->
  runs (o ← get_task orig;
        _ ← put_task t (set_refcount 1 (set_stack (Some v) o));
        if negb (arch_dup E =? 0) then dup_free_stack t
        else if negb (scs_prepare E =? 0) then dup_free_stack t
        else
          x ← get_vm v;
          _ ← put_vm v (VmStack (charged x) true);
          k ← get_task t;
          _ ← put_task t (set_counts 1 2 k);
          _ ← account_kernel_stack t 1;
          mret (Some t)) s1 (dup_task_post own o s).
Proof.
  intros Hp Ht Ho Hts Hx Hc Hkb Ha. apply runs_bind, (runs_get_task _ _ o).
  { rewrite Hts, lookup_insert_ne; [done|congruence]. }
  apply runs_bind, runs_modify. rewrite Hts, insert_insert_eq.
  set (s2 := set_tasks _ s1). assert (pool (v :: own) s2) as Hp2 by (by apply pool_tasks).
  assert (runs (dup_free_stack t) s2 (dup_task_post own o s)) as Hfail.
  { eapply runs_mono; [eapply (dup_free_stack_ok own s2 s t); [done|apply lookup_insert_eq|done| |done]|].
    - cbn. by rewrite delete_insert_id.
    - by intros r s' (-> & ?). }
  destruct (negb (arch_dup E =? 0)); [done|]. destruct (negb (scs_prepare E =? 0)); [done|].
  apply runs_bind, (runs_get_vm _ _ x); [done|]. apply runs_bind, runs_modify.
  apply runs_bind. eapply runs_get_task; [apply lookup_insert_eq|]. apply runs_bind, runs_modify.
  unfold account_kernel_stack. apply runs_bind, runs_bind. eapply runs_get_task; [apply lookup_insert_eq|].
  apply runs_modify, runs_ret. exists v, (VmStack (charged x) true). cbn.
  rewrite insert_insert_eq, lookup_insert_eq, Hkb. split_and!; try done.
  apply (pool_tasks _ (set_vms (<[v := VmStack (charged x) true]> (vms s2)) s2)).
  apply pool_update; [done|by eexists| |].
  - cbn. rewrite Hc. apply length_replicate.
  - intros Hin. pose proof (pool_once _ _ Hp2) as Hn. apply NoDup_app in Hn as (_ & Hn & _). destruct (Hn v Hin). by left.
Qed.

Lemma dup_task_struct_ok own s orig o :
  pool own s -> tasks s !! orig = Some o ->
  (forall t, alloc_task_struct E = Some t -> tasks s !! t = None) ->
  (forall v, vmalloc E = Some v -> vms s !! v = None) ->
  runs (dup_task_struct orig) s (dup_task_post own o s).
Proof.
  intros Hp Ho Ht Hv. unfold dup_task_struct. destruct (alloc_task_struct E) as [t|] eqn:Ea; [|by apply runs_ret].
  specialize (Ht t eq_refl). apply runs_bind, runs_modify. apply runs_bind.
  eapply runs_mono; [eapply (alloc_thread_stack_ok own); [by apply pool_tasks|apply lookup_insert_eq|done]|].
  cbn. intros r s1 (Hkb & Hr). destruct r as [v|].
  2: { subst s1. unfold free_task_struct. apply runs_bind, runs_bind. eapply runs_get_task; [apply lookup_insert_eq|].
       apply runs_modify, runs_ret. cbn. rewrite delete_insert_id by done. split_and!; try done. by apply (pool_tasks own s). }
  destruct Hr as (Hp1 & Hx & Hts). rewrite insert_insert_eq in Hts.
  apply runs_bind. eapply runs_mono; [eapply memcg_charge_ok; [done|by rewrite Hts, lookup_insert_eq|done]|].
  intros r s2 (Hp2 & Ht2 & Hk2 & x & Hx2 & Hc). destruct (Z.eqb_spec r 0) as [Hr|]; cbn [negb].
  - apply (dup_task_tail own s s2 orig o t v x); auto; congruence.
  - eapply runs_mono; [eapply (dup_free_stack_ok own s2 s t); [done|by rewrite Ht2, Hts, lookup_insert_eq|done| |congruence]|].
    + by rewrite Ht2, Hts, delete_insert_id.
    + by intros r' s' (-> & ?).
Qed.

(** Dropping a reference to a stack; the last one releases it if the task is
    dead. *)
Lemma put_task_stack_ok own s t k v :
  pool (v :: own) s -> tasks s !! t = Some k -> stack_vm_area k = Some v ->
  runs (put_task_stack t) s (fun _ s' =>
    if (stack_refcount k =? 1) && task_dead k then
      pool own s' /\ tasks s' = <[t := set_stack None (set_refcount 0 k)]> (tasks s) /\
      nr_kernel_stack_kb s' = nr_kernel_stack_kb s - THREAD_SIZE / 1024
    else pool (v :: own) s' /\ tasks s' = <[t := set_refcount (stack_refcount k - 1) k]> (tasks s) /\
      nr_kernel_stack_kb s' = nr_kernel_stack_kb s).
Proof.
  intros Hp Hk Hv. unfold put_task_stack. apply runs_bind, (runs_get_task _ _ k); [done|].
  apply runs_bind, runs_modify. set (s1 := set_tasks _ s). assert (pool (v :: own) s1) as Hp1 by (by apply pool_tasks).
  replace (stack_refcount k - 1 =? 0) with (stack_refcount k =? 1) by (destruct (Z.eqb_spec (stack_refcount k) 1),
    (Z.eqb_spec (stack_refcount k - 1) 0); lia || done).
  destruct (Z.eqb_spec (stack_refcount k) 1) as [Hr|]; cbn [andb]; [|by apply runs_ret].
  unfold release_task_stack. apply runs_bind. eapply runs_get_task; [apply lookup_insert_eq|]. cbn [task_dead set_refcount].
  destruct (task_dead k); cbn [negb]; [|by apply runs_ret].
  unfold account_kernel_stack. apply runs_bind, runs_bind. eapply runs_get_task; [apply lookup_insert_eq|].
  apply runs_modify. apply runs_bind.
  eapply runs_mono; [eapply (free_thread_stack_ok own); [by apply (pool_tasks _ s1)|apply lookup_insert_eq|done]|].
  cbn. intros [] s2 (Hp2 & Ht2 & Hk2). apply runs_bind. eapply runs_get_task; [by rewrite Ht2, lookup_insert_eq|].
  apply runs_modify. cbn. rewrite Ht2, insert_insert_eq, Hk2, Hr. split_and!; [by apply pool_tasks|done|lia].
Qed.

(** *** Emptying the cache *)

Definition no_slots : list (option Z) := replicate NR_CACHED_STACKS None.

Lemma free_slots_ok c : forall own s,
  pool (omap id c ++ own) (set_cached no_slots s) ->
  runs (free_slots c) s (fun c' s' => c' = replicate (length c) None /\ pool own (set_cached no_slots s') /\
    tasks s' = tasks s /\ nr_kernel_stack_kb s' = nr_kernel_stack_kb s).
Proof.
  induction c as [|[v|] c IH]; intros own s Hp; cbn [free_slots].
  - by apply runs_ret.
  - destruct (proj1 (pool_exists _ _ Hp v)) as [x Hx]; [cbn; set_solver|]. unfold vfree.
    apply runs_bind, runs_bind, (runs_get_vm _ _ x); [done|]. apply runs_modify.
    apply runs_bind. eapply runs_mono; [apply (IH own); by apply (pool_vfree _ (set_cached no_slots s))|].
    intros c' s' (-> & H & Ht & Hk). by apply runs_ret.
  - apply runs_bind. eapply runs_mono; [by apply (IH own)|]. intros c' s' (-> & ?). by apply runs_ret.
Qed.

Lemma free_vm_stack_cache_ok own s :
  pool own s ->
  runs free_vm_stack_cache s (fun r s' => r = 0 /\ pool own s' /\ omap id (cached_stacks s') = [] /\
    tasks s' = tasks s /\ nr_kernel_stack_kb s' = nr_kernel_stack_kb s).
Proof.
  intros Hp. unfold free_vm_stack_cache. apply runs_bind, runs_get. apply runs_bind.
  eapply runs_mono; [apply (free_slots_ok _ own)|].
  { destruct Hp as [A B C D F]. split; cbn; try done. by intros v x H%elem_of_nil. }
  rewrite (pool_slots _ _ Hp). intros c' s' (-> & Hp' & Ht & Hk). apply runs_bind, runs_modify, runs_ret. by split_and!.
Qed.

End TaskStruct.


(** ** All tasks together *)

(** The stacks of the tasks. *)
Definition owned (m : gmap Z ttask) : list Z := omap (fun p => stack_vm_area p.2) (map_to_list m).

Definition opt_list (o : option Z) : list Z := match o with Some v => [v] | None => [] end.

Lemma owned_insert m t k : m !! t = None -> owned (<[t := k]> m) ≡ₚ opt_list (stack_vm_area k) ++ owned m.
Proof.
  intros H. unfold owned. rewrite map_to_list_insert by done. cbn. by destruct (stack_vm_area k).
Qed.

Lemma owned_split m t k : m !! t = Some k -> owned m ≡ₚ opt_list (stack_vm_area k) ++ owned (delete t m).
Proof.
  intros H. rewrite <- (insert_delete_id m t k H) at 1. apply owned_insert, lookup_delete_eq.
Qed.

Lemma owned_replace m t k : owned (<[t := k]> m) ≡ₚ opt_list (stack_vm_area k) ++ owned (delete t m).
Proof. rewrite <- insert_delete_eq. apply owned_insert, lookup_delete_eq. Qed.

(** What can happen to the tasks: creation with any outcome of the allocators,
    one reference to a stack taken or dropped, death, the end of a structure
    whose stack is gone, and a cpu that goes away. *)
Inductive tstep : tst -> tst -> Prop :=
  | t_dup E orig s r s' :
      is_Some (tasks s !! orig) ->
      (forall t, alloc_task_struct E = Some t -> tasks s !! t = None) ->
      (forall v, vmalloc E = Some v -> vms s !! v = None) ->
      dup_task_struct E orig s = Ok (r, s') -> tstep s s'
  | t_get t k s : tasks s !! t = Some k -> stack_vm_area k <> None ->
      tstep s (set_tasks (<[t := set_refcount (stack_refcount k + 1) k]> (tasks s)) s)
  | t_put t k s s' : tasks s !! t = Some k -> stack_vm_area k <> None ->
      put_task_stack t s = Ok (tt, s') -> tstep s s'
  | t_die t k s : tasks s !! t = Some k ->
      tstep s (set_tasks (<[t := TTask (stack k) (stack_vm_area k) (stack_refcount k) (usage k) (rcu_users k) true
                                        (seccomp_filter k) (pf_kthread k)]> (tasks s)) s)
  | t_free t k s b s' : tasks s !! t = Some k -> stack_vm_area k = None ->
      free_task t s = Ok (b, s') -> tstep s s'
  | t_hotplug s r s' : free_vm_stack_cache s = Ok (r, s') -> tstep s s'.

(** The initial task has a stack of its own. *)
Definition boot (t v : Z) (k : ttask) : tst :=
  Tst no_slots {[v := VmStack (replicate STACK_PAGES true) true]} {[t := set_stack (Some v) k]} (THREAD_SIZE / 1024).

Definition stacks_ok (s : tst) : Prop :=
  pool (owned (tasks s)) s /\ nr_kernel_stack_kb s = THREAD_SIZE / 1024 * Z.of_nat (length (owned (tasks s))).

Lemma boot_ok t v k : stacks_ok (boot t v k).
Proof.
  unfold stacks_ok, boot, owned. cbn [tasks nr_kernel_stack_kb]. rewrite map_to_list_singleton. cbn. split; [|done].
  split; cbn; [done|apply NoDup_singleton| | |by intros w x H%elem_of_nil].
  - intros w. rewrite elem_of_cons, elem_of_nil, lookup_singleton_is_Some. naive_solver.
  - intros w x. rewrite lookup_singleton_Some. by intros [_ <-].
Qed.

(** A change of one task that leaves its stack alone. *)
Lemma same_stack_ok t k k' s :
  stacks_ok s -> tasks s !! t = Some k -> stack_vm_area k' = stack_vm_area k ->
  stacks_ok (set_tasks (<[t := k']> (tasks s)) s).
Proof.
  intros [Hp Hn] Hk Hv. unfold stacks_ok. cbn.
  assert (owned (<[t := k']> (tasks s)) ≡ₚ owned (tasks s)) as Ho.
  { rewrite owned_replace, Hv. symmetry. by apply owned_split. }
  split; [|by rewrite Hn, Ho]. rewrite Ho. by apply (pool_tasks _ s).
Qed.

Lemma tstep_ok s s' : stacks_ok s -> tstep s s' -> stacks_ok s'.
Proof.
  intros [Hp Hn] Hs. inversion Hs as [E orig ? r ? [o Ho] Ht Hv Hr|t k ? Hk Hv|t k ? ? Hk Hv Hr|t k ? Hk|
    t k ? b ? Hk Hv Hr|? r ? Hr]; subst.
  - destruct (dup_task_struct_ok E _ s orig o Hp Ho Ht Hv) as (r' & s2 & Hr' & H). rewrite Hr in Hr'.
    injection Hr' as <- <-. destruct r as [t|]; cbn in H.
    + destruct H as (v & x & Ha & Hp' & Hts & _ & _ & Hkb). unfold stacks_ok. rewrite Hts, Hkb, Hn.
      rewrite owned_insert by auto. cbn. split; [done|]. lia.
    + destruct H as (Hp' & Hts & Hkb). unfold stacks_ok. by rewrite Hts, Hkb.
  - by apply (same_stack_ok t k).
  - destruct (stack_vm_area k) as [v|] eqn:Ev; [|done].
    pose proof (owned_split _ _ _ Hk) as Ho. rewrite Ev in Ho. cbn in Ho.
    rewrite Ho in Hp. destruct (put_task_stack_ok _ _ _ _ _ Hp Hk Ev) as (u & s2 & Hr' & H).
    rewrite Hr in Hr'. injection Hr' as _ <-. unfold stacks_ok. rewrite Ho in Hn. cbn [length] in Hn.
    destruct ((stack_refcount k =? 1) && task_dead k); destruct H as (Hp' & Hts & Hkb); rewrite Hts, Hkb, Hn, owned_replace; cbn.
    + split; [done|]. lia.
    + rewrite Ev. split; [done|]. cbn. lia.
  - by apply (same_stack_ok t k).
  - unfold free_task, free_task_struct, get_task in Hr. mrun. rewrite Hk in Hr. mrun. rewrite Hk in Hr. injection Hr as _ <-.
    pose proof (owned_split _ _ _ Hk) as Ho. rewrite Hv in Ho. cbn in Ho. unfold stacks_ok. cbn. rewrite <- Ho.
    split; [|done]. by apply (pool_tasks _ s).
  - destruct (free_vm_stack_cache_ok _ _ Hp) as (r' & s2 & Hr' & _ & Hp' & _ & Hts & Hkb). rewrite Hr in Hr'.
    injection Hr' as <- <-. unfold stacks_ok. by rewrite Hts, Hkb.
Qed.

Lemma stacks_reachable s s' : stacks_ok s -> rtc tstep s s' -> stacks_ok s'.
Proof. intros H Hr. induction Hr as [|s1 s2 s3 Hs _ IH]; [done|]. by eapply IH, tstep_ok. Qed.

(** C14: whatever happens from boot on, every kernel stack that exists is in one
    slot of the cache or belongs to one task, and to one only, so that no two
    tasks share a stack and none is lost; cached stacks are charged to nobody;
    the kernel stack statistics count exactly the stacks of the tasks; and
    creating a task or dropping a stack always returns. *)
Theorem stacks_exclusive t v k s :
  rtc tstep (boot t v k) s ->
  pool (owned (tasks s)) s /\ nr_kernel_stack_kb s = THREAD_SIZE / 1024 * Z.of_nat (length (owned (tasks s))) /\
  (forall E orig, is_Some (tasks s !! orig) ->
     (forall t, alloc_task_struct E = Some t -> tasks s !! t = None) ->
     (forall v, vmalloc E = Some v -> vms s !! v = None) -> is_ok (dup_task_struct E orig s) = true) /\
  (forall t k, tasks s !! t = Some k -> stack_vm_area k <> None -> is_ok (put_task_stack t s) = true).
Proof.
  intros Hr. destruct (stacks_reachable _ _ (boot_ok t v k) Hr) as [Hp Hn]. split_and!; [done..| |].
  - intros E orig [o Ho] Ht Hv. by destruct (dup_task_struct_ok E _ s orig o Hp Ho Ht Hv) as (r & s' & -> & _).
  - intros t' k' Hk Hs. destruct (stack_vm_area k') as [w|] eqn:Ev; [|done].
    rewrite (owned_split _ _ _ Hk), Ev in Hp. by destruct (put_task_stack_ok _ _ _ _ _ Hp Hk Ev) as (r & s' & -> & _).
Qed.

(** [dup_task_struct] either makes a copy of the task with a stack of its own,
    all of whose pages are charged, one reference to it, one usage and two RCU
    users and no seccomp filter; or it fails and tasks and statistics are as they
    were: the structure is freed and the stack is cached or freed. *)
Theorem dup_task_struct_spec E own s orig o :
  pool own s -> tasks s !! orig = Some o ->
  (forall t, alloc_task_struct E = Some t -> tasks s !! t = None) ->
  (forall v, vmalloc E = Some v -> vms s !! v = None) ->
  runs (dup_task_struct E orig) s (dup_task_post E own o s).
Proof. apply dup_task_struct_ok. Qed.

(** *** Examples *)

Definition task0 : ttask := TTask None None 1 1 2 false None false.

(** Allocators that succeed; [fail] is the first page that cannot be charged. *)
Definition tenv5 (fail : option nat) : tenv :=
  TEnv (Some 50) (fun i => if bool_decide (fail = Some i) then - Errno.ENOMEM else 0) (Some 5)
       (TTask (Some 99) (Some 98) 7 7 7 true (Some 97) true) 0 0.

Lemma dup_task_struct_spec_witness :
  runs (dup_task_struct (tenv5 (Some 2%nat)) 1) (boot 1 40 task0)
    (dup_task_post (tenv5 (Some 2%nat)) [40] (set_stack (Some 40) task0) (boot 1 40 task0)).
Proof.
  apply dup_task_struct_spec; [|done|by intros t [= <-]|by intros v [= <-]].
  destruct (boot_ok 1 40 task0) as [H _]. exact H.
Defined.

Lemma stacks_exclusive_witness :
  exists s, rtc tstep (boot 1 40 task0) s /\ s <> boot 1 40 task0 /\
  pool (owned (tasks s)) s /\ nr_kernel_stack_kb s = THREAD_SIZE / 1024 * Z.of_nat (length (owned (tasks s))) /\
  (forall E orig, is_Some (tasks s !! orig) ->
     (forall t, alloc_task_struct E = Some t -> tasks s !! t = None) ->
     (forall v, vmalloc E = Some v -> vms s !! v = None) -> is_ok (dup_task_struct E orig s) = true) /\
  (forall t k, tasks s !! t = Some k -> stack_vm_area k <> None -> is_ok (put_task_stack t s) = true).
Proof.
  assert (exists s, rtc tstep (boot 1 40 task0) s /\ s <> boot 1 40 task0) as (s & Hr & Hne).
  { eexists. split; [apply rtc_once, (t_get 1 (set_stack (Some 40) task0)); done|]. intros H.
    apply (f_equal (fun s => stack_refcount <$> tasks s !! 1)) in H. done. }
  exists s. split; [done|]. split; [done|]. exact (stacks_exclusive 1 40 task0 s Hr).
Defined.

(** A failed charge: the uncharged stack is in the cache and the next task gets it. *)
Example failed_charge_caches :
  match dup_task_struct (tenv5 (Some 2%nat)) 1 (boot 1 40 task0) with
  | Ok (r, s) => (r, cached_stacks s, charged <$> vms s !! 50, nr_kernel_stack_kb s)
  | Fault _ => (None, [], None, 0)
  end = (None, [Some 50; None], Some [false; false; false; false], 16).
Proof. vm_compute. reflexivity. Qed.
