(* ===== verification/TaskLife.v ===== *)
(** * TaskLife: what a task shares, from its creation to its release

    Models the ends of a task's life in [kernel/fork.c]: what [copy_process] takes for
    a child ([copy_sighand], [copy_signal], [copy_seccomp]) and gives back when it
    fails, [__cleanup_sighand], [put_signal_struct], [free_signal_struct],
    [mmdrop_async], [__put_task_struct], [free_task] and [delayed_free_task].  Signal
    structures, signal handlers and seccomp filters are counted; tasks are created,
    exit, are looked at by others and released in any order.

    The calls into other files are moves of the environment: taking and dropping a
    reference to a task, installing a filter, the memory killer marking a victim, and
    the exit of a task, of which the calls back into [fork.c] are kept. *)

From Stdlib Require Import ZArith Lia.
From stdpp Require Import base list gmap fin_maps.
From S2P Require Import Prelude.

(** ** State *)

Definition CLONE_SIGHAND : Z := 0x800.
Definition CLONE_THREAD : Z := 0x10000.
Definition SECCOMP_MODE_DISABLED : Z := 0.
Definition SECCOMP_MODE_STRICT : Z := 1.
Definition SECCOMP_MODE_FILTER : Z := 2.

(** A child that [copy_process] is working on, with its creator and the flags; a
    running task; one that has exited; one whose zombie was reaped. *)
Inductive stage := Embryo (creator clone_flags : Z) | Running | Exited | Reaped.

Record task := Task {
  stage_ : stage; usage : Z; extra : nat;      (** references held by others *)
  signal : Z; sighand : option Z;
  mode : Z; sc_filter : option Z;              (** [seccomp] *)
  no_new_privs : bool; syscall_work_seccomp : bool
}.

Record signal_struct := SignalStruct { sigcnt : Z; oom_mm : option Z }.

(** The references to an address space, and how many of them are not from here. *)
Record mm := Mm { mm_count : Z; others : nat }.

Record kst := Kst {
  tasks : gmap Z task; signals : gmap Z signal_struct; sighands : gmap Z Z; filters : gmap Z Z;
  mms : gmap Z mm; work : list Z;              (** [async_put_work] queued *)
  dying : gmap Z task                          (** left to RCU or to the profiler *)
}.

Definition set_tasks x (s : kst) := Kst x (signals s) (sighands s) (filters s) (mms s) (work s) (dying s).
Definition set_signals x (s : kst) := Kst (tasks s) x (sighands s) (filters s) (mms s) (work s) (dying s).
Definition set_sighands x (s : kst) := Kst (tasks s) (signals s) x (filters s) (mms s) (work s) (dying s).
Definition set_filters x (s : kst) := Kst (tasks s) (signals s) (sighands s) x (mms s) (work s) (dying s).
Definition set_mms x w (s : kst) := Kst (tasks s) (signals s) (sighands s) (filters s) x w (dying s).
Definition set_dying x (s : kst) := Kst (tasks s) (signals s) (sighands s) (filters s) (mms s) (work s) x.

Definition get_task (t : Z) : M kst task := s ← get; lift (res_of_opt Dangling (tasks s !! t)).
Definition put_task (t : Z) (k : task) : M kst unit := modify (fun s => set_tasks (<[t := k]> (tasks s)) s).

(** [refcount_inc], and [refcount_dec_and_test] with the object freed at zero. *)
Definition ref_inc (cs : gmap Z Z) (v : Z) : res (gmap Z Z) :=
  match cs !! v with Some n => Ok (<[v := n + 1]> cs) | None => Fault Dangling end.
Definition ref_dec (cs : gmap Z Z) (v : Z) : res (gmap Z Z) :=
  match cs !! v with
  | Some n => Ok (if n - 1 =? 0 then delete v cs else <[v := n - 1]> cs)
  | None => Fault Dangling
  end.

(** ** Release *)

Definition __cleanup_sighand (v : Z) : M kst unit :=
  s ← get; cs ← lift (ref_dec (sighands s) v); put (set_sighands cs s).

(** [INIT_WORK] of a queued item would be a bug. *)
Definition mmdrop_async (m : Z) : M kst unit :=
  s ← get; x ← lift (res_of_opt Dangling (mms s !! m));
  let n := mm_count x - 1 in
  if n =? 0 then
    if bool_decide (m ∈ work s) then abort BugOn
    else put (set_mms (<[m := Mm n (others x)]> (mms s)) (m :: work s) s)
  else put (set_mms (<[m := Mm n (others x)]> (mms s)) (work s) s).

Definition free_signal_struct (sig : Z) : M kst unit :=
  s ← get; x ← lift (res_of_opt Dangling (signals s !! sig));
  _ ← (match oom_mm x with Some m => mmdrop_async m | None => mret tt end);
  modify (fun s => set_signals (delete sig (signals s)) s).

Definition put_signal_struct (sig : Z) : M kst unit :=
  s ← get; x ← lift (res_of_opt Dangling (signals s !! sig));
  let n := sigcnt x - 1 in
  _ ← put (set_signals (<[sig := SignalStruct n (oom_mm x)]> (signals s)) s);
  if n =? 0 then free_signal_struct sig else mret tt.

Definition has_exited (k : task) : bool := match stage_ k with Exited | Reaped => true | _ => false end.

(** [WARN_ON_ONCE (tsk->seccomp.filter)]. *)
Definition free_task (k : task) : M kst unit :=
  match sc_filter k with Some _ => abort BugOn | None => mret tt end.

(** Warnings are bugs here too; [handoff] is the answer of [profile_handoff_task]. *)
Definition __put_task_struct (t : Z) (handoff : bool) : M kst unit :=
  k ← get_task t;
  if negb (has_exited k) then abort BugOn
  else if negb (usage k =? 0) then abort BugOn
  else
    _ ← put_signal_struct (signal k);
    _ ← modify (fun s => set_tasks (delete t (tasks s)) s);
    if handoff then modify (fun s => set_dying (<[t := k]> (dying s)) s) else free_task k.

Definition delayed_free_task (memcg : bool) (t : Z) (k : task) : M kst unit :=
  _ ← modify (fun s => set_tasks (delete t (tasks s)) s);
  if memcg then modify (fun s => set_dying (<[t := k]> (dying s)) s) else free_task k.

(** [put_task_struct]: the last reference releases the structure. *)
Definition set_usage (n : Z) (x : nat) (st : stage) (k : task) : task :=
  Task st n x (signal k) (sighand k) (mode k) (sc_filter k) (no_new_privs k) (syscall_work_seccomp k).
Definition put_task_struct (t : Z) (x : nat) (st : stage) (handoff : bool) : M kst unit :=
  k ← get_task t;
  let n := usage k - 1 in
  _ ← put_task t (set_usage n x st k);
  if n =? 0 then __put_task_struct t handoff else mret tt.

(** ** Creation *)

Definition CLONE_thread (cf : Z) : bool := hasb cf CLONE_THREAD.
Definition CLONE_sighand (cf : Z) : bool := hasb cf CLONE_SIGHAND.

(** Shares the handlers, or allocates [fresh] ones; [None] without memory. *)
Definition copy_sighand (cf : Z) (parent : task) (fresh : option Z) : M kst (option Z) :=
  if CLONE_sighand cf then
    match sighand parent with
    | Some v => s ← get; cs ← lift (ref_inc (sighands s) v); _ ← put (set_sighands cs s); mret (Some v)
    | None => abort Dangling
    end
  else match fresh with
       | Some v => _ ← modify (fun s => set_sighands (<[v := 1]> (sighands s)) s); mret (Some v)
       | None => mret None
       end.

(** A thread has its creator's structure, without a reference so far. *)
Definition copy_signal (cf : Z) (parent : task) (fresh : option Z) : M kst (option Z) :=
  if CLONE_thread cf then mret (Some (signal parent))
  else match fresh with
       | Some v => _ ← modify (fun s => set_signals (<[v := SignalStruct 1 None]> (signals s)) s); mret (Some v)
       | None => mret None
       end.

(** [get_seccomp_filter (current)] and the copy. *)
Definition copy_seccomp (parent p : task) : M kst task :=
  _ ← (match sc_filter parent with
       | Some f => s ← get; cs ← lift (ref_inc (filters s) f); put (set_filters cs s)
       | None => mret tt
       end);
  mret (Task (stage_ p) (usage p) (extra p) (signal p) (sighand p) (mode parent) (sc_filter parent)
          (no_new_privs p || no_new_privs parent)
          (syscall_work_seccomp p || negb (mode parent =? SECCOMP_MODE_DISABLED))).

(** The structure as [dup_task_struct] leaves it. *)
Definition dup_of (creator cf sig sh : Z) (parent : task) : task :=
  Task (Embryo creator cf) 1 0 sig (Some sh) (mode parent) None (no_new_privs parent) (syscall_work_seccomp parent).

(** The first half of [copy_process]: either error label, or an embryo. *)
Definition begin_copy (memcg : bool) (t new cf : Z) (fresh_sh fresh_sig : option Z) : M kst unit :=
  k ← get_task t;
  osh ← copy_sighand cf k fresh_sh;
  match osh with
  | None => delayed_free_task memcg new (dup_of t cf (signal k) 0 k)          (* bad_fork_cleanup_fs *)
  | Some sh =>
      osig ← copy_signal cf k fresh_sig;
      match osig with
      | None =>                                                              (* bad_fork_cleanup_sighand *)
          _ ← __cleanup_sighand sh; delayed_free_task memcg new (dup_of t cf (signal k) sh k)
      | Some sig => put_task new (dup_of t cf sig sh k)
      end
  end.

(** [bad_fork_cleanup_signal] and what follows. *)
Definition fail_copy (memcg : bool) (new : Z) : M kst unit :=
  k ← get_task new;
  match stage_ k with
  | Embryo _ cf =>
      _ ← (if CLONE_thread cf then mret tt else free_signal_struct (signal k));
      _ ← (match sighand k with Some sh => __cleanup_sighand sh | None => abort Dangling end);
      delayed_free_task memcg new k
  | _ => mret tt
  end.

(** The part of [copy_process] that cannot fail. *)
Definition commit_copy (new : Z) : M kst unit :=
  k ← get_task new;
  match stage_ k with
  | Embryo t cf =>
      parent ← get_task t;
      k ← copy_seccomp parent k;
      _ ← (if CLONE_thread cf then
             s ← get; x ← lift (res_of_opt Dangling (signals s !! signal parent));
             put (set_signals (<[signal parent := SignalStruct (sigcnt x + 1) (oom_mm x)]> (signals s)) s)
           else mret tt);
      put_task new (set_usage (usage k) (extra k) Running k)
  | _ => mret tt
  end.

(** ** Moves *)

Inductive move :=
  | Begin (t new cf : Z) (fresh_sh fresh_sig : option Z) | FailCopy (new : Z) | Commit (new : Z)
  | Install (t : Z) (f : option Z)   (** seccomp (2) puts a task into filter mode with a first filter, or into strict mode *)
  | SetNnp (t : Z)                   (** prctl (PR_SET_NO_NEW_PRIVS) *)
  | OomMark (t m : Z)                (** the memory killer notes the address space of a victim *)
  | ExitTask (t : Z) | GetTask (t : Z) | PutTask (t : Z) (handoff : bool) | Reap (t : Z) (handoff : bool)
  | FreeLater (t : Z)                (** RCU or the profiler frees a structure *)
  | NewMm (m : Z) | MmDrop (m : Z)   (** others make an address space and drop their references *)
  | RunWork (m : Z).

Definition is_running (t : Z) (s : kst) : bool :=
  match tasks s !! t with Some k => match stage_ k with Running => true | _ => false end | None => false end.
Definition creating (t : Z) (k : task) : bool := match stage_ k with Embryo c _ => c =? t | _ => false end.
Definition no_embryo (t : Z) (s : kst) : bool := forallb (fun p => negb (creating t (snd p))) (map_to_list (tasks s)).
Definition unused {A} (v : Z) (g : gmap Z A) : bool := match g !! v with Some _ => false | None => true end.
Definition ok_fresh {A} (o : option Z) (g : gmap Z A) : bool := match o with Some v => unused v g | None => true end.

(** When a move can happen; otherwise it does nothing. *)
Definition enabled (m : move) (s : kst) : bool :=
  match m with
  | Begin t new cf fsh fsig =>
      is_running t s && unused new (tasks s) && unused new (dying s) &&
      (negb (CLONE_thread cf) || CLONE_sighand cf) &&           (* copy_process returns -EINVAL *)
      ok_fresh fsh (sighands s) && ok_fresh fsig (signals s)
  | FailCopy new | Commit new => match tasks s !! new with Some k => match stage_ k with Embryo _ _ => true | _ => false end | None => false end
  | SetNnp t => is_running t s
  | Install t f => is_running t s && ok_fresh f (filters s) &&
                   match tasks s !! t with Some k => bool_decide (sc_filter k = None) | None => false end
  | OomMark t m =>
      is_running t s && match tasks s !! t with
        | Some k => match signals s !! signal k with Some x => bool_decide (oom_mm x = None) | None => true end
        | None => false end &&
      match mms s !! m with Some x => (0 <? others x)%nat | None => false end
  | ExitTask t => is_running t s && no_embryo t s
  | GetTask t => match tasks s !! t with Some k => match stage_ k with Embryo _ _ => false | _ => true end | None => false end
  | PutTask t _ => match tasks s !! t with Some k => (0 <? extra k)%nat | None => false end
  | Reap t _ => match tasks s !! t with Some k => match stage_ k with Exited => true | _ => false end | None => false end
  | FreeLater t => negb (unused t (dying s))
  | NewMm m => unused m (mms s)
  | MmDrop m => match mms s !! m with Some x => (0 <? others x)%nat | None => false end
  | RunWork m => bool_decide (m ∈ work s)
  end.

Section Moves.
Context (memcg : bool).

(** [do_exit] and [release_task] as far as [fork.c] is concerned. *)
Definition exit_task (t : Z) : M kst unit :=
  k ← get_task t;
  _ ← (match sc_filter k with
       | Some f => s ← get; cs ← lift (ref_dec (filters s) f); put (set_filters cs s)
       | None => mret tt
       end);
  _ ← (match sighand k with Some sh => __cleanup_sighand sh | None => abort Dangling end);
  put_task t (Task Exited (usage k) (extra k) (signal k) None (mode k) None (no_new_privs k) (syscall_work_seccomp k)).

(** Setting a seccomp mode sets the flag that makes system calls be checked; it does
    not set [no_new_privs], which a privileged caller may leave unset. *)
Definition install (t : Z) (f : option Z) : M kst unit :=
  k ← get_task t;
  _ ← (match f with Some f => modify (fun s => set_filters (<[f := 1]> (filters s)) s) | None => mret tt end);
  put_task t (Task (stage_ k) (usage k) (extra k) (signal k) (sighand k)
                (match f with Some _ => SECCOMP_MODE_FILTER | None => SECCOMP_MODE_STRICT end) f (no_new_privs k) true).

Definition set_nnp (t : Z) : M kst unit :=
  k ← get_task t;
  put_task t (Task (stage_ k) (usage k) (extra k) (signal k) (sighand k) (mode k) (sc_filter k) true (syscall_work_seccomp k)).

Definition oom_mark (t m : Z) : M kst unit :=
  k ← get_task t; s ← get;
  x ← lift (res_of_opt Dangling (signals s !! signal k)); y ← lift (res_of_opt Dangling (mms s !! m));
  put (set_mms (<[m := Mm (mm_count y + 1) (others y)]> (mms s)) (work s)
         (set_signals (<[signal k := SignalStruct (sigcnt x) (Some m)]> (signals s)) s)).

(** [mmdrop] by others: the last one frees the structure at once. *)
Definition mm_drop (m : Z) : M kst unit :=
  s ← get; y ← lift (res_of_opt Dangling (mms s !! m));
  if mm_count y - 1 =? 0 then put (set_mms (delete m (mms s)) (work s) s)
  else put (set_mms (<[m := Mm (mm_count y - 1) (pred (others y))]> (mms s)) (work s) s).

(** [mmdrop_async_fn]. *)
Definition run_work (m : Z) : M kst unit :=
  s ← get; _ ← lift (res_of_opt Dangling (mms s !! m));
  put (set_mms (delete m (mms s)) (filter (fun x => x <> m) (work s)) s).

Definition do_move (m : move) : M kst unit :=
  s ← get;
  if negb (enabled m s) then mret tt
  else match m with
  | Begin t new cf fsh fsig => begin_copy memcg t new cf fsh fsig
  | FailCopy new => fail_copy memcg new
  | Commit new => commit_copy new
  | Install t f => install t f
  | SetNnp t => set_nnp t
  | OomMark t m => oom_mark t m
  | ExitTask t => exit_task t
  | GetTask t => k ← get_task t; put_task t (set_usage (usage k + 1) (S (extra k)) (stage_ k) k)
  | PutTask t handoff => k ← get_task t; put_task_struct t (pred (extra k)) (stage_ k) handoff
  | Reap t handoff => k ← get_task t; put_task_struct t (extra k) Reaped handoff
  | FreeLater t => k ← lift (res_of_opt Dangling (dying s !! t)); _ ← put (set_dying (delete t (dying s)) s); free_task k
  | NewMm m => put (set_mms (<[m := Mm 1 1]> (mms s)) (work s) s)
  | MmDrop m => mm_drop m
  | RunWork m => run_work m
  end.

Fixpoint do_moves (ms : list move) : M kst unit :=
  match ms with [] => mret tt | m :: ms => _ ← do_move m; do_moves ms end.
End Moves.

(** The first task. *)
Definition boot : kst :=
  Kst {[ 1 := Task Running 1 0 1 (Some 1) SECCOMP_MODE_DISABLED None false false ]} {[ 1 := SignalStruct 1 None ]} {[ 1 := 1 ]}
    ∅ ∅ [] ∅.

(** ** Counting references *)

Definition hit (o : option Z) (v : Z) : Z := if decide (o = Some v) then 1 else 0.

(** How many entries of a table refer to [v]. *)
Definition refs {A} (f : A -> option Z) (g : gmap Z A) (v : Z) : Z :=
  Z.of_nat (size (filter (fun p : Z * A => f p.2 = Some v) g)).

Lemma hit_some v : hit (Some v) v = 1.
Proof. unfold hit. by rewrite decide_True. Qed.

Lemma hit_none v : hit None v = 0.
Proof. unfold hit. by rewrite decide_False. Qed.

Section Refs.
Context {A : Type} (f : A -> option Z).
Implicit Types (g : gmap Z A).

Lemma refs_nonneg g v : 0 <= refs f g v.
Proof. unfold refs. lia. Qed.

Lemma refs_empty v : refs f ∅ v = 0.
Proof. unfold refs. by rewrite map_filter_empty, map_size_empty. Qed.

Lemma refs_insert g k x v : g !! k = None -> refs f (<[k := x]> g) v = refs f g v + hit (f x) v.
Proof.
  intros Hk. unfold refs, hit. case_decide as E.
  - rewrite map_filter_insert_True by done. rewrite map_size_insert_None; [lia|]. apply map_lookup_filter_None. by left.
  - rewrite map_filter_insert_False, delete_id by done. lia.
Qed.

Lemma refs_delete g k x v : g !! k = Some x -> refs f (delete k g) v = refs f g v - hit (f x) v.
Proof.
  intros Hk. rewrite <- (insert_delete_id g k x Hk) at 2. rewrite refs_insert by apply lookup_delete_eq. lia.
Qed.

Lemma refs_update g k x y v : g !! k = Some x -> refs f (<[k := y]> g) v = refs f g v - hit (f x) v + hit (f y) v.
Proof.
  intros Hk. rewrite <- insert_delete_eq. rewrite refs_insert by apply lookup_delete_eq. by rewrite (refs_delete _ _ x).
Qed.

Lemma refs_pos g k x v : g !! k = Some x -> f x = Some v -> 1 <= refs f g v.
Proof.
  intros Hk Hf. pose proof (refs_delete g k x v Hk). rewrite Hf, hit_some in H. pose proof (refs_nonneg (delete k g) v). lia.
Qed.

Lemma refs_found g v : refs f g v <> 0 -> exists k x, g !! k = Some x /\ f x = Some v.
Proof.
  intros H. destruct (decide (filter (fun p : Z * A => f p.2 = Some v) g = ∅)) as [E|E].
  - unfold refs in H. by rewrite E, map_size_empty in H.
  - apply map_choose in E as (k & x & Hx). apply map_lookup_filter_Some in Hx as [Hk Hf]. by exists k, x.
Qed.
End Refs.

(** A table of counters that are exact: an object exists while it is referred to. *)
Definition exact (cs : gmap Z Z) (r : Z -> Z) : Prop :=
  forall v, 0 <= r v /\ cs !! v = if r v =? 0 then None else Some (r v).

Lemma exact_ext cs r r' : (forall v, r v = r' v) -> exact cs r -> exact cs r'.
Proof. intros E H v. by rewrite <- E. Qed.

Lemma exact_lookup cs r v : exact cs r -> 0 < r v -> cs !! v = Some (r v).
Proof. intros H Hv. destruct (H v) as [_ ->]. by destruct (Z.eqb_spec (r v) 0); [lia|]. Qed.

Lemma exact_none cs r v : exact cs r -> cs !! v = None -> r v = 0.
Proof. intros H Hn. destruct (H v) as [_ E]. rewrite Hn in E. by destruct (Z.eqb_spec (r v) 0). Qed.

(** Storing a counter that is what it should be afterwards. *)
Lemma exact_set cs r r' v n :
  exact cs r -> 0 < n -> r' v = n -> (forall x, x <> v -> r' x = r x) -> exact (<[v := n]> cs) r'.
Proof.
  intros H Hn Hv Ho x. destruct (decide (x = v)) as [->|Hx].
  - rewrite lookup_insert_eq, Hv. split; [lia|]. by destruct (Z.eqb_spec n 0); [lia|].
  - rewrite lookup_insert_ne by done. rewrite (Ho x Hx). apply H.
Qed.

Lemma exact_delete cs r r' v :
  exact cs r -> r' v = 0 -> (forall x, x <> v -> r' x = r x) -> exact (delete v cs) r'.
Proof.
  intros H Hv Ho x. destruct (decide (x = v)) as [->|Hx].
  - by rewrite lookup_delete_eq, Hv.
  - rewrite lookup_delete_ne by done. rewrite (Ho x Hx). apply H.
Qed.

Lemma hit_other v x : x <> v -> hit (Some v) x = 0.
Proof. intros H. unfold hit. rewrite decide_False; [done|]. intros [= ?]. congruence. Qed.

Lemma exact_new cs r v : exact cs r -> cs !! v = None -> exact (<[v := 1]> cs) (fun x => r x + hit (Some v) x).
Proof.
  intros H Hn. apply exact_none with (1 := H) in Hn. eapply exact_set; [exact H|lia|cbn; rewrite hit_some; lia|].
  intros x Hx. cbn. rewrite hit_other by done. lia.
Qed.

Lemma ref_inc_ok cs r v : exact cs r -> 0 < r v ->
  exists cs', ref_inc cs v = Ok cs' /\ exact cs' (fun x => r x + hit (Some v) x).
Proof.
  intros H Hv. unfold ref_inc. rewrite (exact_lookup cs r v) by done. eexists. split; [done|].
  eapply exact_set; [exact H|lia|cbn; rewrite hit_some; lia|]. intros x Hx. cbn. rewrite hit_other by done. lia.
Qed.

Lemma ref_dec_ok cs r v : exact cs r -> 0 < r v ->
  exists cs', ref_dec cs v = Ok cs' /\ exact cs' (fun x => r x - hit (Some v) x).
Proof.
  intros H Hv. unfold ref_dec. rewrite (exact_lookup cs r v) by done. eexists. split; [done|].
  assert (forall x, x <> v -> r x - hit (Some v) x = r x) as Ho by (intros x Hx; rewrite hit_other by done; lia).
  destruct (Z.eqb_spec (r v - 1) 0).
  - apply (exact_delete cs r); [done| |done]. rewrite hit_some. lia.
  - apply (exact_set cs r); [done|lia| |done]. by rewrite hit_some.
Qed.

(** ** The invariant *)

(** The counted reference of a task to its signal structure: a thread under
    construction has none yet. *)
Definition c_signal (k : task) : option Z :=
  match stage_ k with Embryo _ cf => if CLONE_thread cf then None else Some (signal k) | _ => Some (signal k) end.

(** A seccomp mode is enforced: the task's system calls are checked. *)
Definition confined (k : task) : Prop := mode k <> SECCOMP_MODE_DISABLED -> syscall_work_seccomp k = true.

(** The creator of an embryo waits for it in its system call. *)
Definition creator_ok (ts : gmap Z task) (c cf : Z) (k : task) : Prop :=
  exists p, ts !! c = Some p /\ stage_ p = Running /\ (CLONE_thread cf = true -> signal k = signal p).

Definition task_ok (ts : gmap Z task) (k : task) : Prop :=
  confined k /\
  match stage_ k with
  | Embryo c cf => usage k = 1 /\ extra k = 0%nat /\ is_Some (sighand k) /\ sc_filter k = None /\ creator_ok ts c cf k
  | Running => usage k = Z.of_nat (extra k) + 1 /\ is_Some (sighand k)
  | Exited => usage k = Z.of_nat (extra k) + 1 /\ sighand k = None /\ sc_filter k = None
  | Reaped => usage k = Z.of_nat (extra k) /\ (0 < extra k)%nat /\ sighand k = None /\ sc_filter k = None
  end.

Definition tasks_ok (ts : gmap Z task) : Prop := forall t k, ts !! t = Some k -> task_ok ts k.

(** A child that is to be a process has its signal structure for itself. *)
Definition own (k : task) : Prop := match stage_ k with Embryo _ cf => CLONE_thread cf = false | _ => False end.
Definition alone (ts : gmap Z task) : Prop :=
  forall t t' k k', ts !! t = Some k -> own k -> ts !! t' = Some k' -> c_signal k' = Some (signal k) -> t' = t.

(** References to address spaces: [r] of them come from signal structures. *)
Definition mm_balance (ms : gmap Z mm) (w : list Z) (r : Z -> Z) : Prop :=
  (forall m, 0 <= r m /\ match ms !! m with Some y => mm_count y = Z.of_nat (others y) + r m | None => r m = 0 end) /\
  NoDup w /\ (forall m, m ∈ w <-> exists y, ms !! m = Some y /\ mm_count y = 0).

Record inv (s : kst) : Prop := Inv {
  i_signals : exact (sigcnt <$> signals s) (refs c_signal (tasks s));
  i_sighands : exact (sighands s) (refs sighand (tasks s));
  i_filters : exact (filters s) (refs sc_filter (tasks s));
  i_tasks : tasks_ok (tasks s);
  i_alone : alone (tasks s);
  i_mms : mm_balance (mms s) (work s) (refs oom_mm (signals s));
  i_dying : forall t k, dying s !! t = Some k -> sc_filter k = None
}.

(** *** Tasks *)

Lemma task_ok_mono ts ts' k :
  (forall c cf, stage_ k = Embryo c cf -> creator_ok ts c cf k -> creator_ok ts' c cf k) -> task_ok ts k -> task_ok ts' k.
Proof. intros H [Hc Hs]. split; [done|]. destruct (stage_ k) as [c cf| | |] eqn:E; [|done..]. naive_solver. Qed.

Lemma creator_insert ts t k' c cf k :
  (forall p, ts !! t = Some p -> stage_ p = Running -> stage_ k' = Running /\ signal k' = signal p) ->
  creator_ok ts c cf k -> creator_ok (<[t := k']> ts) c cf k.
Proof.
  intros H (p & Hp & Hr & Hs). destruct (decide (c = t)) as [->|Hne].
  - destruct (H p Hp Hr) as [H1 H2]. exists k'. rewrite lookup_insert_eq. split; [done|]. split; [done|]. by rewrite H2.
  - exists p. by rewrite lookup_insert_ne.
Qed.

(** Changing or adding a task without stopping it. *)
Lemma tasks_ok_insert ts t k :
  tasks_ok ts -> (forall p, ts !! t = Some p -> stage_ p = Running -> stage_ k = Running /\ signal k = signal p) ->
  task_ok ts k -> tasks_ok (<[t := k]> ts).
Proof.
  intros H Hr Hk t' k' Hl. apply (task_ok_mono ts); [intros c cf _; by apply creator_insert|].
  apply lookup_insert_Some in Hl as [[<- <-]|[_ Hl]]; [done|]. by apply (H t').
Qed.

Lemma creator_delete ts t c cf k :
  (forall p, ts !! t = Some p -> stage_ p <> Running) -> creator_ok ts c cf k -> creator_ok (delete t ts) c cf k.
Proof.
  intros H (p & Hp & Hr & Hs). exists p. rewrite lookup_delete_ne; [done|]. intros ->. by apply (H p Hp).
Qed.

Lemma tasks_ok_delete ts t :
  tasks_ok ts -> (forall p, ts !! t = Some p -> stage_ p <> Running) -> tasks_ok (delete t ts).
Proof.
  intros H Hr t' k Hl. apply lookup_delete_Some in Hl as [_ Hl].
  apply (task_ok_mono ts); [intros c cf _; by apply creator_delete|]. by apply (H t').
Qed.

Lemma alone_insert ts t k :
  alone ts ->
  (own k -> forall t' x, ts !! t' = Some x -> t' <> t -> c_signal x <> Some (signal k)) ->
  (forall t' x, ts !! t' = Some x -> t' <> t -> own x -> c_signal k <> Some (signal x)) -> alone (<[t := k]> ts).
Proof.
  intros H H1 H2 a b x y Hx Ho Hy Hc.
  apply lookup_insert_Some in Hx as [[<- <-]|[Ha Hx]]; apply lookup_insert_Some in Hy as [[<- <-]|[Hb Hy]]; [done|..].
  - exfalso. by apply (H1 Ho b y).
  - exfalso. by apply (H2 a x).
  - by eapply H.
Qed.

Lemma alone_update ts t k k' :
  alone ts -> ts !! t = Some k -> c_signal k' = c_signal k -> (own k' -> own k /\ signal k' = signal k) -> alone (<[t := k']> ts).
Proof.
  intros H Hk Hc Ho. apply alone_insert; [done|..].
  - intros Ho' t' x Hx Hne Hs. destruct (Ho Ho') as [? E]. rewrite E in Hs. apply Hne. by eapply (H t t' k x).
  - intros t' x Hx Hne Hox. rewrite Hc. intros Hs. apply Hne. symmetry. by eapply (H t' t x k).
Qed.

Lemma alone_delete ts t : alone ts -> alone (delete t ts).
Proof. intros H a b x y [_ Hx]%lookup_delete_Some Ho [_ Hy]%lookup_delete_Some. by eapply H. Qed.

Lemma own_counted k : own k -> c_signal k = Some (signal k).
Proof. unfold own, c_signal. destruct (stage_ k) as [c cf| | |]; [intros ->; done|done..]. Qed.

(** Without the child nobody refers to that structure. *)
Lemma alone_refs ts t k : alone ts -> ts !! t = Some k -> own k -> refs c_signal (delete t ts) (signal k) = 0.
Proof.
  intros H Hk Ho. destruct (decide (refs c_signal (delete t ts) (signal k) = 0)) as [|E]; [done|].
  apply refs_found in E as (t' & x & [Hne Hx]%lookup_delete_Some & Hc). exfalso. apply Hne. symmetry. by eapply H.
Qed.

(** *** Address spaces *)

Lemma balance_ext ms w r r' : (forall m, r m = r' m) -> mm_balance ms w r -> mm_balance ms w r'.
Proof. intros E (H & Hd & Hw). split; [|done]. intros m. rewrite <- E. apply H. Qed.

Lemma balance_live ms w r m : mm_balance ms w r -> 0 < r m -> exists y, ms !! m = Some y /\ mm_count y = Z.of_nat (others y) + r m /\ m ∉ w.
Proof.
  intros (H & Hd & Hw) Hr. specialize (H m) as [_ H]. destruct (ms !! m) as [y|] eqn:E; [|lia]. exists y.
  split; [done|]. split; [done|]. rewrite Hw. intros (y' & Hy & H0). simplify_eq. lia.
Qed.

Lemma mmdrop_async_ok ts sg sh fl ms w dy r m :
  mm_balance ms w r -> 0 < r m ->
  exists ms' w', mmdrop_async m (Kst ts sg sh fl ms w dy) = Ok (tt, Kst ts sg sh fl ms' w' dy) /\
    mm_balance ms' w' (fun x => r x - hit (Some m) x).
Proof.
  intros Hb Hr. destruct (balance_live ms w r m Hb Hr) as (y & Hy & Hc & Hn). destruct Hb as (H & Hd & Hw).
  assert (forall m', 0 <= r m' - hit (Some m) m' /\
            match <[m := Mm (mm_count y - 1) (others y)]> ms !! m' with
            | Some y => mm_count y = Z.of_nat (others y) + (r m' - hit (Some m) m') | None => r m' - hit (Some m) m' = 0 end) as Hm.
  { intros m'. destruct (decide (m' = m)) as [->|Hne].
    - rewrite hit_some, lookup_insert_eq. cbn. lia.
    - rewrite hit_other, lookup_insert_ne by done. specialize (H m'). rewrite Z.sub_0_r. done. }
  unfold mmdrop_async. mrun. rewrite Hy. cbn. destruct (Z.eqb_spec (mm_count y - 1) 0) as [E|E].
  - rewrite bool_decide_eq_false_2 by done. eexists _, _. split; [reflexivity|]. split; [exact Hm|]. split; [by constructor|].
    intros m'. rewrite elem_of_cons. destruct (decide (m' = m)) as [->|Hne].
    + rewrite lookup_insert_eq. split; [|by left]. intros _. eexists. split; [done|]. done.
    + rewrite lookup_insert_ne, <- Hw by done. naive_solver.
  - eexists _, _. split; [reflexivity|]. split; [exact Hm|]. split; [done|]. intros m'. destruct (decide (m' = m)) as [->|Hne].
    + rewrite lookup_insert_eq. split; [done|]. intros (y' & [= <-] & H0). done.
    + by rewrite lookup_insert_ne, <- Hw.
Qed.

(** *** Signal structures *)

Lemma free_signal_ok ts sg sh fl ms w dy sig x :
  sg !! sig = Some x -> mm_balance ms w (refs oom_mm sg) ->
  exists ms' w', free_signal_struct sig (Kst ts sg sh fl ms w dy) = Ok (tt, Kst ts (delete sig sg) sh fl ms' w' dy) /\
    mm_balance ms' w' (refs oom_mm (delete sig sg)).
Proof.
  intros Hx Hb. unfold free_signal_struct. mrun. rewrite Hx. cbn. destruct (oom_mm x) as [m|] eqn:E.
  - destruct (mmdrop_async_ok ts sg sh fl ms w dy (refs oom_mm sg) m Hb) as (ms' & w' & -> & Hb').
    { pose proof (refs_pos oom_mm sg sig x m Hx E). lia. }
    eexists _, _. split; [reflexivity|]. eapply balance_ext; [|exact Hb']. intros v. cbn. rewrite (refs_delete _ _ _ x) by done.
    by rewrite E.
  - eexists _, _. split; [reflexivity|]. eapply balance_ext; [|exact Hb]. intros v. rewrite (refs_delete _ _ _ x) by done.
    rewrite E, hit_none. lia.
Qed.

Lemma put_signal_ok ts sg sh fl ms w dy r sig :
  exact (sigcnt <$> sg) r -> 0 < r sig -> mm_balance ms w (refs oom_mm sg) ->
  exists sg' ms' w', put_signal_struct sig (Kst ts sg sh fl ms w dy) = Ok (tt, Kst ts sg' sh fl ms' w' dy) /\
    exact (sigcnt <$> sg') (fun x => r x - hit (Some sig) x) /\ mm_balance ms' w' (refs oom_mm sg').
Proof.
  intros He Hr Hb. pose proof (exact_lookup _ _ _ He Hr) as Hl. rewrite lookup_fmap in Hl.
  destruct (sg !! sig) as [x|] eqn:Hx; cbn in Hl; [|done]. injection Hl as Hn.
  assert (forall y, y <> sig -> r y - hit (Some sig) y = r y) as Ho by (intros y Hy; rewrite hit_other by done; lia).
  unfold put_signal_struct. mrun. rewrite Hx. cbn. set (sg1 := <[sig := SignalStruct (sigcnt x - 1) (oom_mm x)]> sg).
  assert (mm_balance ms w (refs oom_mm sg1)) as Hb1.
  { eapply balance_ext; [|exact Hb]. intros v. unfold sg1. rewrite (refs_update _ _ _ x) by done. cbn. lia. }
  destruct (Z.eqb_spec (sigcnt x - 1) 0) as [E|E].
  - destruct (free_signal_ok ts sg1 sh fl ms w dy sig (SignalStruct (sigcnt x - 1) (oom_mm x))) as (ms' & w' & Hf & Hb2);
      [by apply lookup_insert_eq|done|]. cbn in Hf. eexists _, _, _. split; [exact Hf|]. split; [|done].
    unfold sg1. rewrite delete_insert_eq, fmap_delete. apply (exact_delete _ r); [done| |done]. cbn. rewrite hit_some. lia.
  - eexists _, _, _. split; [reflexivity|]. split; [|done]. unfold sg1. rewrite fmap_insert. cbn.
    apply (exact_set _ r); [done|lia| |done]. rewrite hit_some. lia.
Qed.

(** ** The moves keep the invariant *)

Definition good (m : M kst unit) (s : kst) : Prop := exists s', m s = Ok (tt, s') /\ inv s'.

Lemma unused_none {A} v (g : gmap Z A) : unused v g = true -> g !! v = None.
Proof. unfold unused. by destruct (g !! v). Qed.

Lemma running_lookup t s : is_running t s = true -> exists k, tasks s !! t = Some k /\ stage_ k = Running.
Proof. unfold is_running. destruct (tasks s !! t) as [k|]; [|done]. destruct (stage_ k) eqn:E; try done. naive_solver. Qed.

(** A change of a task that keeps what it refers to. *)
Lemma inv_update s t k k' :
  inv s -> tasks s !! t = Some k -> c_signal k' = c_signal k -> sighand k' = sighand k -> sc_filter k' = sc_filter k ->
  (own k' -> own k /\ signal k' = signal k) ->
  tasks_ok (<[t := k']> (tasks s)) -> inv (set_tasks (<[t := k']> (tasks s)) s).
Proof.
  intros I Ht Hs Hh Hf Ho Hk. destruct I. split; cbn; try done; [..|by eapply alone_update]; eapply exact_ext; try eassumption; intros v;
    rewrite (refs_update _ _ _ k) by done; rewrite ?Hs, ?Hh, ?Hf; lia.
Qed.

Lemma delayed_free_ok memcg ts sg sh fl ms w dy t k :
  sc_filter k = None -> (forall t k, dy !! t = Some k -> sc_filter k = None) ->
  exists dy', delayed_free_task memcg t k (Kst ts sg sh fl ms w dy) = Ok (tt, Kst (delete t ts) sg sh fl ms w dy') /\
    forall t k, dy' !! t = Some k -> sc_filter k = None.
Proof.
  intros Hf Hd. unfold delayed_free_task, free_task. rewrite Hf. destruct memcg; mrun; eexists; (split; [reflexivity|]); [|done].
  intros t' k' [[<- <-]|[_ Hl]]%lookup_insert_Some; [done|]. by apply (Hd t').
Qed.

Lemma copy_sighand_ok ts sg sh fl ms w dy t k cf fsh hv :
  ts !! t = Some k -> sighand k = Some hv -> exact sh (refs sighand ts) -> ok_fresh fsh sh = true ->
  exists osh sh', copy_sighand cf k fsh (Kst ts sg sh fl ms w dy) = Ok (osh, Kst ts sg sh' fl ms w dy) /\
    match osh with Some v => exact sh' (fun x => refs sighand ts x + hit (Some v) x) | None => sh' = sh end.
Proof.
  intros Hk Hhv Hsh Hfh. unfold copy_sighand. rewrite Hhv. destruct (CLONE_sighand cf); cbn.
  - destruct (ref_inc_ok sh _ hv Hsh) as (cs & Hcs & Hx). { pose proof (refs_pos sighand ts t k hv Hk Hhv). lia. }
    mrun. rewrite Hcs. by eexists _, _.
  - destruct fsh as [v|]; mrun; [|by eexists _, _]. eexists _, _. split; [reflexivity|].
    apply exact_new; [done|]. by apply unused_none.
Qed.

(** Giving back the signal structure of a child that is not to be. *)
Lemma fail_signal_ok ts sg sh fl ms w dy new k c cf :
  ts !! new = Some k -> stage_ k = Embryo c cf -> exact (sigcnt <$> sg) (refs c_signal ts) -> alone ts ->
  mm_balance ms w (refs oom_mm sg) ->
  exists sg' ms' w',
    (if CLONE_thread cf then mret tt else free_signal_struct (signal k)) (Kst ts sg sh fl ms w dy) = Ok (tt, Kst ts sg' sh fl ms' w' dy) /\
    exact (sigcnt <$> sg') (refs c_signal (delete new ts)) /\ mm_balance ms' w' (refs oom_mm sg').
Proof.
  intros Hk Est Hs Ha Hm. destruct (CLONE_thread cf) eqn:Et.
  - eexists _, _, _. split; [reflexivity|]. split; [|done]. eapply exact_ext; [|exact Hs]. intros x.
    rewrite (refs_delete _ _ _ k) by done. unfold c_signal at 3. rewrite Est, Et, hit_none. lia.
  - assert (own k) as Ho by (unfold own; by rewrite Est). pose proof (own_counted k Ho) as Hc.
    pose proof (refs_pos c_signal ts new k (signal k) Hk Hc) as Hp.
    pose proof (exact_lookup _ _ (signal k) Hs ltac:(lia)) as Hl. rewrite lookup_fmap in Hl.
    destruct (sg !! signal k) as [x|] eqn:Hx; [|done].
    destruct (free_signal_ok ts sg sh fl ms w dy (signal k) x Hx Hm) as (ms' & w' & E & Hb).
    eexists _, _, _. split; [exact E|]. split; [|done]. rewrite fmap_delete. eapply exact_delete; [exact Hs|by apply alone_refs|].
    intros y Hy. rewrite (refs_delete _ _ _ k) by done. rewrite Hc, hit_other by done. lia.
Qed.

Lemma copy_seccomp_ok ts sg sh fl ms w dy t p k :
  ts !! t = Some p -> exact fl (refs sc_filter ts) ->
  exists fl' k', copy_seccomp p k (Kst ts sg sh fl ms w dy) = Ok (k', Kst ts sg sh fl' ms w dy) /\
    exact fl' (fun x => refs sc_filter ts x + hit (sc_filter p) x) /\
    k' = Task (stage_ k) (usage k) (extra k) (signal k) (sighand k) (mode p) (sc_filter p)
           (no_new_privs k || no_new_privs p) (syscall_work_seccomp k || negb (mode p =? SECCOMP_MODE_DISABLED)).
Proof.
  intros Hp Hf. unfold copy_seccomp. destruct (sc_filter p) as [f|] eqn:E; mrun.
  - destruct (ref_inc_ok fl _ f Hf) as (cs & -> & Hx). { pose proof (refs_pos sc_filter ts t p f Hp E). lia. }
    eexists _, _. by split.
  - eexists _, _. split; [reflexivity|]. split; [|done]. eapply exact_ext; [|exact Hf]. intros x. rewrite hit_none. lia.
Qed.

(** The reference of a new thread to its creator's signal structure. *)
Lemma join_group_ok ts sg sh fl ms w dy t p (thread : bool) :
  ts !! t = Some p -> stage_ p = Running -> exact (sigcnt <$> sg) (refs c_signal ts) -> mm_balance ms w (refs oom_mm sg) ->
  exists sg', (if thread then
             s ← get; x ← lift (res_of_opt Dangling (signals s !! signal p));
             put (set_signals (<[signal p := SignalStruct (sigcnt x + 1) (oom_mm x)]> (signals s)) s)
           else mret tt) (Kst ts sg sh fl ms w dy) = Ok (tt, Kst ts sg' sh fl ms w dy) /\
    exact (sigcnt <$> sg') (fun x => refs c_signal ts x + hit (if thread then Some (signal p) else None) x) /\
    mm_balance ms w (refs oom_mm sg').
Proof.
  intros Hp Hr Hs Hm. destruct thread; mrun.
  - assert (c_signal p = Some (signal p)) as Hc by (unfold c_signal; by rewrite Hr).
    pose proof (refs_pos c_signal ts t p _ Hp Hc) as Hpos. pose proof (exact_lookup _ _ (signal p) Hs ltac:(lia)) as Hl.
    rewrite lookup_fmap in Hl. destruct (sg !! signal p) as [x|] eqn:Hx; [|done]. cbn in Hl. injection Hl as Hn.
    eexists. split; [reflexivity|]. split.
    + rewrite fmap_insert. cbn. eapply exact_set; [exact Hs|lia|cbn; rewrite hit_some; lia|].
      intros y Hy. cbn. rewrite hit_other by done. lia.
    + eapply balance_ext; [|exact Hm]. intros m. rewrite (refs_update _ _ _ x) by done. cbn. lia.
  - eexists. split; [reflexivity|]. split; [|done]. eapply exact_ext; [|exact Hs]. intros x. rewrite hit_none. lia.
Qed.

(** An exiting task gives its filter back. *)
Lemma drop_filter_ok ts sg sh fl ms w dy t k :
  ts !! t = Some k -> exact fl (refs sc_filter ts) ->
  exists fl', (match sc_filter k with
       | Some f => s ← get; cs ← lift (ref_dec (filters s) f); put (set_filters cs s)
       | None => mret tt
       end) (Kst ts sg sh fl ms w dy) = Ok (tt, Kst ts sg sh fl' ms w dy) /\
    exact fl' (fun x => refs sc_filter ts x - hit (sc_filter k) x).
Proof.
  intros Hk Hf. destruct (sc_filter k) as [f|] eqn:E; mrun.
  - destruct (ref_dec_ok fl _ f Hf) as (cs & -> & Hx). { pose proof (refs_pos sc_filter ts t k f Hk E). lia. } by eexists.
  - eexists. split; [reflexivity|]. eapply exact_ext; [|exact Hf]. intros x. rewrite hit_none. lia.
Qed.

Section Moves.
Context (memcg : bool).

Lemma begin_good s t new cf fsh fsig :
  inv s -> enabled (Begin t new cf fsh fsig) s = true -> good (begin_copy memcg t new cf fsh fsig) s.
Proof.
  intros I He. destruct s as [ts sg sh fl ms w dy]. cbn [enabled] in He. rewrite !andb_true_iff in He.
  destruct He as (((((Hr & Hn) & _) & Hc) & Hfh) & Hfs). apply running_lookup in Hr as (k & Hk & Hst). cbn in Hk, Hn.
  apply unused_none in Hn. destruct (i_tasks _ I t k Hk) as [Hcf Hok]. rewrite Hst in Hok. destruct Hok as [_ [hv Hhv]].
  pose proof (i_sighands _ I) as Hsh. cbn in Hsh.
  destruct (copy_sighand_ok ts sg sh fl ms w dy t k cf fsh hv Hk Hhv Hsh Hfh) as (osh & sh' & Ecs & Hosh).
  unfold begin_copy, get_task, good. mrun. rewrite Hk. cbn. rewrite Ecs.
  destruct osh as [v|].
  2: { subst sh'. destruct (delayed_free_ok memcg ts sg sh fl ms w dy new (dup_of t cf (signal k) 0 k)) as (dy' & -> & Hd);
         [done|apply I|]. eexists. split; [reflexivity|]. rewrite (delete_id ts) by done. split; cbn; by try apply I. }
  unfold copy_signal. destruct (CLONE_thread cf) eqn:Et; [|destruct fsig as [u|]]; mrun.
  - eexists. split; [reflexivity|]. split; cbn; try apply I.
    + eapply exact_ext; [|apply I]. intros x. cbn. rewrite refs_insert by done. unfold c_signal at 3. cbn. rewrite Et, hit_none. lia.
    + eapply exact_ext; [|exact Hosh]. intros x. cbn. by rewrite refs_insert by done.
    + eapply exact_ext; [|apply I]. intros x. cbn. rewrite refs_insert by done. cbn. rewrite hit_none. lia.
    + apply tasks_ok_insert; [apply I|naive_solver|]. split; [exact Hcf|]. cbn. repeat split; [by eexists|]. by exists k.
    + apply alone_insert; [apply I|unfold own; cbn; congruence|]. intros t' x Hx Hne Ho. unfold c_signal. cbn. by rewrite Et.
  - apply unused_none in Hfs. cbn in Hfs. eexists. split; [reflexivity|]. split; cbn; try apply I.
    + eapply exact_ext; [|rewrite fmap_insert; apply exact_new; [apply I|by rewrite lookup_fmap, Hfs]].
      intros x. cbn. rewrite refs_insert by done. unfold c_signal at 3. cbn. by rewrite Et.
    + eapply exact_ext; [|exact Hosh]. intros x. cbn. by rewrite refs_insert by done.
    + eapply exact_ext; [|apply I]. intros x. cbn. rewrite refs_insert by done. cbn. rewrite hit_none. lia.
    + apply tasks_ok_insert; [apply I|naive_solver|]. split; [exact Hcf|]. cbn. repeat split; [by eexists|]. exists k. split; [done|]. split; [done|]. congruence.
    + assert (refs c_signal ts u = 0) as H0 by (eapply exact_none; [apply I|by rewrite lookup_fmap; cbn; rewrite Hfs]).
      apply alone_insert; [apply I|..].
      * intros _ t' x Hx Hne Hs. cbn in Hs. pose proof (refs_pos c_signal ts t' x u Hx Hs). lia.
      * intros t' x Hx Hne Ho Hs. unfold c_signal in Hs. cbn in Hs. rewrite Et in Hs. injection Hs as Hs.
        pose proof (refs_pos c_signal ts t' x _ Hx (own_counted x Ho)). rewrite <- Hs in *. lia.
    + eapply balance_ext; [|apply I]. intros m. cbn. rewrite refs_insert by done. cbn. rewrite hit_none. lia.
  - unfold __cleanup_sighand. mrun. destruct (ref_dec_ok sh' _ v Hosh) as (cs & -> & Hx).
    { pose proof (refs_nonneg sighand ts v). rewrite hit_some. lia. }
    cbn. destruct (delayed_free_ok memcg ts sg cs fl ms w dy new (dup_of t cf (signal k) v k)) as (dy' & Hf & Hd); [done|apply I|].
    unfold set_sighands. cbn. rewrite Hf. eexists. split; [reflexivity|]. rewrite (delete_id ts) by done. split; cbn; try apply I; [|done].
    eapply exact_ext; [|exact Hx]. intros x. cbn. lia.
Qed.

Lemma fail_good s new : inv s -> enabled (FailCopy new) s = true -> good (fail_copy memcg new) s.
Proof.
  intros I He. destruct s as [ts sg sh fl ms w dy]. cbn in He. destruct (ts !! new) as [k|] eqn:Hk; [|done].
  destruct (stage_ k) as [c cf| | |] eqn:Est; try done. clear He. destruct (i_tasks _ I new k Hk) as [_ Hok]. rewrite Est in Hok.
  destruct Hok as (_ & _ & [v Hv] & Hf & _).
  destruct (fail_signal_ok ts sg sh fl ms w dy new k c cf Hk Est (i_signals _ I) (i_alone _ I) (i_mms _ I)) as (sg' & ms' & w' & E1 & Hs & Hm).
  destruct (ref_dec_ok sh _ v (i_sighands _ I)) as (cs & Ecs & Hsh).
  { pose proof (refs_pos sighand ts new k v Hk Hv). cbn. lia. }
  destruct (delayed_free_ok memcg ts sg' cs fl ms' w' dy new k Hf (i_dying _ I)) as (dy' & Ef & Hd).
  unfold fail_copy, get_task, good. mrun. rewrite Hk. cbn. rewrite Est. mrun. rewrite E1, Hv. unfold __cleanup_sighand. mrun.
  rewrite Ecs. unfold set_sighands. cbn. rewrite Ef. eexists. split; [reflexivity|]. split; cbn; try done.
  - eapply exact_ext; [|exact Hsh]. intros x. cbn. rewrite (refs_delete _ _ _ k) by done. by rewrite Hv.
  - eapply exact_ext; [|apply I]. intros x. cbn. rewrite (refs_delete _ _ _ k) by done. rewrite Hf, hit_none. lia.
  - apply tasks_ok_delete; [apply I|]. intros p Hp. cbn in Hp. congruence.
  - apply alone_delete, I.
Qed.

Lemma commit_good s new : inv s -> enabled (Commit new) s = true -> good (commit_copy new) s.
Proof.
  intros I He. destruct s as [ts sg sh fl ms w dy]. cbn in He. destruct (ts !! new) as [k|] eqn:Hk; [|done].
  destruct (stage_ k) as [c cf| | |] eqn:Est; try done. clear He. destruct (i_tasks _ I new k Hk) as [_ Hok]. rewrite Est in Hok.
  destruct Hok as (Hu & Hx & [v Hv] & Hf & p & Hp & Hr & Hsig). cbn in Hp. destruct (i_tasks _ I c p Hp) as [Hcp _].
  destruct (copy_seccomp_ok ts sg sh fl ms w dy c p k Hp (i_filters _ I)) as (fl' & k' & Ec & Hfl & Hk').
  destruct (join_group_ok ts sg sh fl' ms w dy c p (CLONE_thread cf) Hp Hr (i_signals _ I) (i_mms _ I)) as (sg' & Ej & Hs & Hm).
  unfold commit_copy, get_task, good. mrun. rewrite Hk. cbn. rewrite Est. mrun. rewrite Hp. cbn. rewrite Ec. mrun.
  rewrite Ej. eexists. split; [reflexivity|]. subst k'.
  assert (c_signal k = if CLONE_thread cf then None else Some (signal k)) as Hck by (unfold c_signal; by rewrite Est).
  split; cbn; try apply I; try done.
  - eapply exact_ext; [|exact Hs]. intros x. cbn. rewrite (refs_update _ _ _ k) by done. rewrite Hck. unfold c_signal at 3. cbn.
    destruct (CLONE_thread cf) eqn:Et; rewrite ?hit_none; [rewrite (Hsig eq_refl)|]; lia.
  - eapply exact_ext; [|apply I]. intros x. cbn. rewrite (refs_update _ _ _ k) by done. cbn. lia.
  - eapply exact_ext; [|exact Hfl]. intros x. cbn. rewrite (refs_update _ _ _ k) by done. rewrite Hf, hit_none. cbn. lia.
  - apply tasks_ok_insert; [apply I|cbn; congruence|]. split; cbn; [|rewrite Hu, Hx; split; [done|by eexists]].
    intros Hmode. cbn in *.
    destruct (Z.eqb_spec (mode p) SECCOMP_MODE_DISABLED); [done|]. by rewrite !orb_true_r.
  - apply alone_insert; [apply I|done|]. intros t' x Hx' Hne Ho. unfold c_signal. cbn. intros [= Hs'].
    destruct (CLONE_thread cf) eqn:Et.
    + assert (c = t') as ->. { eapply (i_alone _ I t' c x p); try done. unfold c_signal. rewrite Hr. by rewrite <- Hsig, Hs'. }
      cbn in Hx'. unfold own in Ho. simplify_eq. by rewrite Hr in Ho.
    + apply Hne. symmetry. eapply (i_alone _ I t' new x k); try done. by rewrite Hck, Hs'.
Qed.

Lemma install_good s t f : inv s -> enabled (Install t f) s = true -> good (install t f) s.
Proof.
  intros I He. destruct s as [ts sg sh fl ms w dy]. cbn [enabled] in He. rewrite !andb_true_iff in He. destruct He as [[Hr Hn] He].
  apply running_lookup in Hr as (k & Hk & Hst). cbn in Hk, Hn, He. rewrite Hk in He.
  apply bool_decide_eq_true in He. destruct (i_tasks _ I t k Hk) as [_ Hok]. rewrite Hst in Hok.
  unfold install, get_task, good. mrun. rewrite Hk. destruct f as [f|]; mrun; (eexists; split; [reflexivity|]);
    (split; cbn; try apply I;
     [eapply exact_ext; [|apply I]; intros x; cbn; rewrite (refs_update _ _ _ k) by done; unfold c_signal; cbn; lia
     |eapply exact_ext; [|apply I]; intros x; cbn; rewrite (refs_update _ _ _ k) by done; cbn; lia
     |
     |apply tasks_ok_insert; [apply I|cbn; naive_solver|]; split; [done|]; cbn; by rewrite Hst
     |eapply alone_update; [apply I|exact Hk|done|]; unfold own; cbn; by rewrite Hst]).
  - apply unused_none in Hn.
    eapply exact_ext; [|apply (exact_new _ _ f (i_filters _ I)); done]. intros x. cbn. rewrite (refs_update _ _ _ k) by done. cbn.
    rewrite He, hit_none. lia.
  - eapply exact_ext; [|apply I]. intros x. cbn. rewrite (refs_update _ _ _ k) by done. cbn. rewrite He, hit_none. lia.
Qed.

Lemma set_nnp_good s t : inv s -> enabled (SetNnp t) s = true -> good (set_nnp t) s.
Proof.
  intros I He. destruct s as [ts sg sh fl ms w dy]. cbn [enabled] in He.
  apply running_lookup in He as (k & Hk & Hst). cbn in Hk. destruct (i_tasks _ I t k Hk) as [Hc Hok]. rewrite Hst in Hok.
  unfold set_nnp, get_task, good. mrun. rewrite Hk. cbn. eexists. split; [reflexivity|].
  split; cbn; try apply I.
  1-3: eapply exact_ext; [|apply I]; intros x; cbn; rewrite (refs_update _ _ _ k) by done; unfold c_signal; cbn; lia.
  - apply tasks_ok_insert; [apply I|cbn; naive_solver|]. split; [done|]. cbn. by rewrite Hst.
  - eapply alone_update; [apply I|exact Hk|done|]. unfold own. cbn. by rewrite Hst.
Qed.

Lemma oom_good s t m : inv s -> enabled (OomMark t m) s = true -> good (oom_mark t m) s.
Proof.
  intros I He. destruct s as [ts sg sh fl ms w dy]. cbn [enabled] in He. rewrite !andb_true_iff in He. destruct He as [[Hr Ho] Hm].
  apply running_lookup in Hr as (k & Hk & Hst). cbn in Hk, Ho, Hm. rewrite Hk in Ho.
  assert (c_signal k = Some (signal k)) as Hc by (unfold c_signal; by rewrite Hst).
  pose proof (refs_pos c_signal ts t k _ Hk Hc) as Hpos. pose proof (exact_lookup _ _ (signal k) (i_signals _ I) ltac:(cbn; lia)) as Hl.
  cbn in Hl. rewrite lookup_fmap in Hl. destruct (sg !! signal k) as [x|] eqn:Hx; [|done]. cbn in Hl. injection Hl as Hl.
  apply bool_decide_eq_true in Ho. destruct (ms !! m) as [y|] eqn:Hy; [|done]. assert (0 < others y)%nat as Hpo by (destruct (others y); [done|lia]).
  unfold oom_mark, get_task, good. mrun. rewrite Hk. cbn. rewrite Hx. cbn. rewrite Hy. cbn. eexists. split; [reflexivity|].
  destruct (i_mms _ I) as (Hb & Hd & Hw). cbn in Hb, Hd, Hw. pose proof (Hb m) as [Hnn Hbm]. rewrite Hy in Hbm.
  split; cbn; try apply I.
  - rewrite fmap_insert. cbn. apply (exact_set _ (refs c_signal ts)); [apply I|lia|done|done].
  - split; [|split; [done|]].
    + intros m'. rewrite (refs_update _ _ _ x) by done. cbn. rewrite Ho, hit_none. destruct (decide (m' = m)) as [->|Hne].
      * rewrite hit_some, lookup_insert_eq. cbn. lia.
      * rewrite hit_other, lookup_insert_ne by done. specialize (Hb m'). rewrite Z.add_0_r, Z.sub_0_r. done.
    + intros m'. rewrite Hw. destruct (decide (m' = m)) as [->|Hne].
      * rewrite lookup_insert_eq. split; intros (y' & Hy' & H0); simplify_eq; cbn in *; lia.
      * by rewrite lookup_insert_ne.
Qed.

Lemma exit_good s t : inv s -> enabled (ExitTask t) s = true -> good (exit_task t) s.
Proof.
  intros I He. destruct s as [ts sg sh fl ms w dy]. cbn [enabled] in He. rewrite andb_true_iff in He. destruct He as [Hr Hne].
  apply running_lookup in Hr as (k & Hk & Hst). cbn in Hk. destruct (i_tasks _ I t k Hk) as [Hcf Hok]. rewrite Hst in Hok.
  destruct Hok as [Hu [v Hv]].
  assert (forall t' k' cf, ts !! t' = Some k' -> stage_ k' <> Embryo t cf) as Hno.
  { intros t' k' cf Hk' Hs. unfold no_embryo in Hne. cbn in Hne. pose proof (proj1 (forallb_forall _ _) Hne (t', k')) as H.
    cbn in H. unfold creating in H. rewrite Hs, Z.eqb_refl in H. discriminate H. apply list_elem_of_In, elem_of_map_to_list. done. }
  destruct (drop_filter_ok ts sg sh fl ms w dy t k Hk (i_filters _ I)) as (fl' & Ef & Hf).
  destruct (ref_dec_ok sh _ v (i_sighands _ I)) as (cs & Ecs & Hsh).
  { pose proof (refs_pos sighand ts t k v Hk Hv). cbn. lia. }
  unfold exit_task, get_task, good. mrun. rewrite Hk. cbn. rewrite Ef, Hv. unfold __cleanup_sighand. mrun. rewrite Ecs.
  eexists. split; [reflexivity|]. split; cbn; try apply I.
  - eapply exact_ext; [|apply I]. intros x. cbn. rewrite (refs_update _ _ _ k) by done. unfold c_signal. cbn. rewrite Hst. lia.
  - eapply exact_ext; [|exact Hsh]. intros x. cbn. rewrite (refs_update _ _ _ k) by done. cbn. rewrite Hv, hit_none. lia.
  - eapply exact_ext; [|exact Hf]. intros x. cbn. rewrite (refs_update _ _ _ k) by done. cbn. rewrite hit_none. lia.
  - intros t' k' Hl. apply lookup_insert_Some in Hl as [[<- <-]|[Hne' Hl]]; [split; [exact Hcf|done]|].
    apply (task_ok_mono ts); [|by apply (i_tasks _ I t')]. intros c cf Hs (p & Hp & Hrp & Hsig). exists p.
    rewrite lookup_insert_ne; [done|]. intros ->. by apply (Hno t' k' cf).
  - eapply alone_update; [apply I|exact Hk| |done]. unfold c_signal. cbn. by rewrite Hst.
Qed.

Lemma get_good s t : inv s -> enabled (GetTask t) s = true ->
  good (k ← get_task t; put_task t (set_usage (usage k + 1) (S (extra k)) (stage_ k) k)) s.
Proof.
  intros I He. cbn in He. destruct (tasks s !! t) as [k|] eqn:Hk; [|done]. unfold good, get_task. mrun. rewrite Hk. cbn.
  eexists. split; [reflexivity|]. destruct (i_tasks _ I t k Hk) as [Hcf Hok].
  eapply inv_update; try done. apply tasks_ok_insert; [apply I|naive_solver|]. split; [exact Hcf|]. cbn.
  destruct (stage_ k); [done|..]; intuition lia.
Qed.

(** The last reference has gone. *)
Lemma release_good s t k k1 handoff :
  inv s -> tasks s !! t = Some k -> stage_ k <> Running -> c_signal k = Some (signal k1) -> sighand k = None ->
  sc_filter k = None -> sc_filter k1 = None -> has_exited k1 = true -> usage k1 = 0 ->
  good (__put_task_struct t handoff) (set_tasks (<[t := k1]> (tasks s)) s).
Proof.
  intros I Hk Hst Hc Hh Hf Hf1 He Hu. destruct s as [ts sg sh fl ms w dy]. cbn in Hk.
  destruct (put_signal_ok (<[t := k1]> ts) sg sh fl ms w dy _ (signal k1) (i_signals _ I)) as (sg' & ms' & w' & Ep & Hs & Hm);
    [cbn; pose proof (refs_pos c_signal ts t k _ Hk Hc); lia|apply I|].
  assert (inv (Kst (delete t ts) sg' sh fl ms' w' dy)) as I'.
  { split; cbn; try apply I; try done.
    - eapply exact_ext; [|exact Hs]. intros y. cbn. rewrite (refs_delete _ _ _ k) by done. by rewrite Hc.
    - eapply exact_ext; [|apply I]. intros y. cbn. rewrite (refs_delete _ _ _ k) by done. rewrite Hh, hit_none. lia.
    - eapply exact_ext; [|apply I]. intros y. cbn. rewrite (refs_delete _ _ _ k) by done. rewrite Hf, hit_none. lia.
    - apply tasks_ok_delete; [apply I|]. intros p Hp. cbn in Hp. by simplify_eq.
    - apply alone_delete, I. }
  unfold good, __put_task_struct, get_task. mrun. rewrite lookup_insert_eq. cbn. rewrite He, Hu. cbn. unfold set_tasks at 1. cbn.
  rewrite Ep. unfold set_tasks. cbn. rewrite delete_insert_eq. destruct handoff; [|unfold free_task; rewrite Hf1; by eexists].
  eexists. split; [reflexivity|]. split; cbn; try apply I'. intros t' k' [[<- <-]|[_ Hl]]%lookup_insert_Some; [done|].
  by apply (i_dying _ I t').
Qed.

(** Dropping a reference: the structure stays, or it goes with the last one. *)
Lemma put_task_good s t k x st handoff :
  inv s -> tasks s !! t = Some k -> stage_ k = st \/ stage_ k = Exited /\ st = Reaped -> (forall c cf, st <> Embryo c cf) ->
  (usage k - 1 = 0 -> st = Reaped) -> (usage k - 1 <> 0 -> task_ok (tasks s) (set_usage (usage k - 1) x st k)) ->
  good (put_task_struct t x st handoff) s.
Proof.
  intros I Hk Hst Hne H0 H1. unfold put_task_struct, get_task, good, put_task. mrun. rewrite Hk. cbn.
  assert (c_signal k = Some (signal k)) as Hc.
  { unfold c_signal. destruct Hst as [E|[E _]]; rewrite E; [|done]. destruct st; naive_solver. }
  destruct (Z.eqb_spec (usage k - 1) 0) as [E|E].
  - specialize (H0 E) as ->. destruct (i_tasks _ I t k Hk) as [_ Hok].
    apply (release_good s t k (set_usage (usage k - 1) x Reaped k)); try done;
      destruct Hst as [Hs|[Hs _]]; rewrite Hs in Hok; rewrite ?Hs; naive_solver.
  - eexists. split; [reflexivity|]. eapply inv_update; try done.
    + rewrite Hc. unfold c_signal. cbn. destruct st; naive_solver.
    + unfold own. cbn. destruct st; naive_solver.
    + apply tasks_ok_insert; [apply I| |by apply H1]. intros p Hp Hr. simplify_eq. destruct Hst as [<-|[Hs _]]; [done|congruence].
Qed.

Lemma put_good s t handoff : inv s -> enabled (PutTask t handoff) s = true ->
  good (k ← get_task t; put_task_struct t (pred (extra k)) (stage_ k) handoff) s.
Proof.
  intros I He. cbn in He. destruct (tasks s !! t) as [k|] eqn:Hk; [|done].
  assert (0 < extra k)%nat as Hx by (destruct (extra k); [done|lia]). destruct (i_tasks _ I t k Hk) as [Hcf Hok].
  assert (good (put_task_struct t (pred (extra k)) (stage_ k) handoff) s) as Hg.
  { apply (put_task_good s t k); [done|done|by left|..].
    - intros c cf Hs. rewrite Hs in Hok. lia.
    - intros H0. destruct (stage_ k); [lia..|done].
    - intros H0. split; [exact Hcf|]. cbn. destruct (stage_ k); [lia|..]; repeat split; try lia; intuition. }
  unfold good, get_task. mrun. by rewrite Hk.
Qed.

Lemma reap_good s t handoff : inv s -> enabled (Reap t handoff) s = true ->
  good (k ← get_task t; put_task_struct t (extra k) Reaped handoff) s.
Proof.
  intros I He. cbn in He. destruct (tasks s !! t) as [k|] eqn:Hk; [|done]. destruct (stage_ k) eqn:Hs; try done.
  destruct (i_tasks _ I t k Hk) as [Hcf Hok]. rewrite Hs in Hok.
  assert (good (put_task_struct t (extra k) Reaped handoff) s) as Hg.
  { apply (put_task_good s t k); [done|done|by right|done|done|]. intros H0. split; [exact Hcf|]. cbn. intuition lia. }
  unfold good, get_task. mrun. by rewrite Hk.
Qed.

Lemma mm_drop_good s m : inv s -> enabled (MmDrop m) s = true -> good (mm_drop m) s.
Proof.
  intros I He. cbn in He. destruct (mms s !! m) as [y|] eqn:Hy; [|done].
  assert (0 < others y)%nat as Ho by (destruct (others y); [done|lia]).
  destruct (i_mms _ I) as (Hb & Hd & Hw). pose proof (Hb m) as [Hnn Hbm]. rewrite Hy in Hbm.
  unfold mm_drop, good. mrun. rewrite Hy. cbn. destruct (Z.eqb_spec (mm_count y - 1) 0) as [E|E]; (eexists; split; [reflexivity|]);
    (split; cbn; try apply I; split; [|split; [done|]]); intros m'; try rewrite Hw; destruct (decide (m' = m)) as [->|Hne];
    rewrite ?lookup_delete_eq, ?lookup_insert_eq, ?lookup_delete_ne, ?lookup_insert_ne by done; try apply Hb; cbn; try done.
  - lia.
  - rewrite Hy. split; intros (y' & Hy' & H0); simplify_eq; lia.
  - lia.
  - rewrite Hy. split; intros (y' & Hy' & H0); simplify_eq; cbn in *; lia.
Qed.

Lemma run_work_good s m : inv s -> enabled (RunWork m) s = true -> good (run_work m) s.
Proof.
  intros I He. cbn in He. apply bool_decide_eq_true in He. destruct (i_mms _ I) as (Hb & Hd & Hw).
  destruct (proj1 (Hw m) He) as (y & Hy & H0). unfold run_work, good. mrun. rewrite Hy. cbn. eexists. split; [reflexivity|].
  split; cbn; try apply I. split; [|split; [by apply NoDup_filter|]]; intros m'.
  - destruct (decide (m' = m)) as [->|Hne]; [|rewrite lookup_delete_ne by done; apply Hb]. rewrite lookup_delete_eq.
    specialize (Hb m). rewrite Hy in Hb. lia.
  - rewrite list_elem_of_filter, Hw. destruct (decide (m' = m)) as [->|Hne]; [rewrite lookup_delete_eq; naive_solver|].
    rewrite lookup_delete_ne by done. naive_solver.
Qed.

Lemma new_mm_good s m : inv s -> enabled (NewMm m) s = true -> good (put (set_mms (<[m := Mm 1 1]> (mms s)) (work s) s)) s.
Proof.
  intros I He. cbn in He. apply unused_none in He. destruct (i_mms _ I) as (Hb & Hd & Hw). pose proof (Hb m) as [_ Hbm]. rewrite He in Hbm.
  unfold good. mrun. eexists. split; [reflexivity|]. split; cbn; try apply I. split; [|split; [done|]]; intros m'; try rewrite Hw;
    destruct (decide (m' = m)) as [->|Hne]; rewrite ?lookup_insert_eq, ?lookup_insert_ne by done; try apply Hb; cbn; try done; [lia|].
  rewrite He. split; intros (y' & Hy' & H0); by simplify_eq.
Qed.

Lemma free_later_good s t : inv s -> enabled (FreeLater t) s = true ->
  good (k ← lift (res_of_opt Dangling (dying s !! t)); _ ← put (set_dying (delete t (dying s)) s); free_task k) s.
Proof.
  intros I He. cbn in He. unfold unused in He. destruct (dying s !! t) as [k|] eqn:Hk; [|done]. unfold good, free_task. mrun.
  rewrite (i_dying _ I t k Hk). eexists. split; [reflexivity|]. split; cbn; try apply I.
  intros t' k' [_ Hl]%lookup_delete_Some. by apply (i_dying _ I t').
Qed.

Lemma move_good s m : inv s -> good (do_move memcg m) s.
Proof.
  intros I. unfold do_move, good. unfold mbind at 1, M_bind at 1, get at 1. destruct (enabled m s) eqn:He; cbn [negb]; [|by exists s].
  destruct m; [by apply begin_good|by apply fail_good|by apply commit_good|by apply install_good|by apply set_nnp_good|by apply oom_good|by apply exit_good
    |by apply get_good|by apply put_good|by apply reap_good|by apply free_later_good|by apply new_mm_good|by apply mm_drop_good|by apply run_work_good].
Qed.

Lemma moves_good ms : forall s, inv s -> good (do_moves memcg ms) s.
Proof.
  induction ms as [|m ms IH]; intros s I; [by exists s|]. destruct (move_good s m I) as (s1 & H1 & I1).
  destruct (IH s1 I1) as (s2 & H2 & I2). exists s2. split; [|done]. cbn [do_moves]. unfold mbind, M_bind. by rewrite H1.
Qed.
End Moves.

Lemma task_boot_inv : inv boot.
Proof.
  assert (forall (f : task -> option Z) v, refs f (tasks boot) v = hit (f (Task Running 1 0 1 (Some 1) SECCOMP_MODE_DISABLED None false false)) v) as Hr.
  { intros f v. unfold boot. cbn [tasks]. rewrite <- insert_empty, refs_insert by done. by rewrite refs_empty. }
  assert (exact {[1 := 1]} (fun v => hit (Some 1) v)) as H1.
  { intros v. destruct (decide (v = 1)) as [->|Hne]; [done|]. rewrite hit_other by done. split; [lia|].
    by rewrite lookup_singleton_ne by congruence. }
  split.
  - cbn [signals boot]. rewrite map_fmap_singleton. eapply exact_ext; [|exact H1]. intros v. by rewrite Hr.
  - eapply exact_ext; [|exact H1]. intros v. by rewrite Hr.
  - intros v. rewrite Hr. cbn. rewrite hit_none. split; [lia|]. by rewrite lookup_empty.
  - intros t k Hk. cbn in Hk. apply lookup_singleton_Some in Hk as [<- <-]. split; [by intros []|]. cbn. split; [done|by eexists].
  - intros t t' k k' Hk Ho. cbn in Hk. apply lookup_singleton_Some in Hk as [<- <-]. done.
  - split; [|split; [constructor|]].
    + intros m. cbn. rewrite <- insert_empty, refs_insert by done. rewrite refs_empty, lookup_empty. cbn. rewrite hit_none. lia.
    + intros m. cbn. rewrite lookup_empty. split; [by intros ?%not_elem_of_nil|naive_solver].
  - intros t k Hk. cbn in Hk. by rewrite lookup_empty in Hk.
Qed.

Lemma exact_refs_empty {A} cs (f : A -> option Z) : exact cs (refs f ∅) -> cs = ∅.
Proof. intros H. apply map_empty. intros v. destruct (H v) as [_ ->]. by rewrite refs_empty. Qed.

(** A child that is finished is in the seccomp state its creator is in at that
    moment, whatever was installed since it was begun. *)
Definition inherits (memcg : bool) (s : kst) (new c : Z) : Prop :=
  exists p k s', tasks s !! c = Some p /\ do_move memcg (Commit new) s = Ok (tt, s') /\
    tasks s' !! new = Some k /\ stage_ k = Running /\ mode k = mode p /\ sc_filter k = sc_filter p /\
    (no_new_privs p = true -> no_new_privs k = true).

Lemma commit_inherits memcg s new k0 c cf :
  inv s -> tasks s !! new = Some k0 -> stage_ k0 = Embryo c cf -> inherits memcg s new c.
Proof.
  intros I Hk Est. destruct s as [ts sg sh fl ms w dy]. cbn in Hk. destruct (i_tasks _ I new k0 Hk) as [_ Hok]. rewrite Est in Hok.
  destruct Hok as (_ & _ & _ & _ & p & Hp & Hr & _). cbn in Hp.
  destruct (copy_seccomp_ok ts sg sh fl ms w dy c p k0 Hp (i_filters _ I)) as (fl' & k' & Ec & _ & Hk').
  destruct (join_group_ok ts sg sh fl' ms w dy c p (CLONE_thread cf) Hp Hr (i_signals _ I) (i_mms _ I)) as (sg' & Ej & _).
  unfold inherits, do_move, commit_copy, get_task. cbn. mrun. rewrite Hk, Est. mrun. rewrite Hk. cbn. rewrite Est. mrun.
  rewrite Hp. cbn. rewrite Ec. mrun. rewrite Ej. subst k'.
  eexists p, _, _. split; [done|]. split; [reflexivity|]. cbn. rewrite lookup_insert_eq. split; [reflexivity|].
  cbn. split_and!; try done. intros ->. by rewrite orb_true_r.
Qed.

(** ** Theorems *)


(** A process with a filter creates a thread, the memory killer marks it, both exit
    and are released; the address space is freed by the work queue. *)
Example life_of_a_victim :
  do_moves true [Begin 1 2 0 (Some 2) (Some 2); Commit 2; Install 2 (Some 9); Begin 2 3 (CLONE_THREAD + CLONE_SIGHAND) None None; Commit 3;
                 NewMm 5; OomMark 2 5; MmDrop 5; GetTask 3; ExitTask 3; Reap 3 false; ExitTask 2; Reap 2 true; PutTask 3 false;
                 RunWork 5; FreeLater 2] boot = Ok (tt, boot).
Proof. vm_compute. reflexivity. Qed.
