(* ===== verification/PidFd.v ===== *)
(** * PidFd: process identifiers and descriptors that refer to processes

    Models the pidfd operations of [kernel/fork.c] ([pidfd_pid], [pidfd_release],
    [pidfd_show_fdinfo], [pidfd_poll]), the assignment of identifiers to a new task
    ([init_task_pid] and its use in [copy_process]) and the functions of
    [include/linux/sched.h] that say which number a task has in a namespace.

    Looking up a number in a namespace is done by [kernel/pid.c]; what the code relies
    on is the class [PidOps].  Tasks exit as [kernel/exit.c] documents: the children
    of an exiting task get another parent that is not exiting, later its identifiers
    are detached and its structure is freed.  What is printed is a list of numbers
    with their delimiters. *)

From Stdlib Require Import ZArith Lia.
From stdpp Require Import base list gmap strings relations.
From S2P Require Import Prelude TaskLife.

(** ** Data *)

Inductive pid_type := PIDTYPE_PID | PIDTYPE_TGID | PIDTYPE_PGID | PIDTYPE_SID.

#[global] Instance pid_type_eq_dec : EqDecision pid_type.
Proof. solve_decision. Defined.

(** [struct pid]: a number for every namespace from the initial one down to its own. *)
Record upid := Upid { nr : Z; upid_ns : Z }.
Record pid := Pid { pid_id : Z; numbers : list upid }.
Definition level (p : pid) : nat := pred (length (numbers p)).

Record pid_namespace := Ns { ns_id : Z; ns_level : nat }.
Definition init_pid_ns : pid_namespace := Ns 0 0.

(** The number as seen from a namespace, zero if there is none. *)
Class PidOps := {
  pid_nr_ns : pid -> pid_namespace -> Z;
  pid_nr_ns_ok p n : pid_nr_ns p n =
    match numbers p !! ns_level n with Some u => if upid_ns u =? ns_id n then nr u else 0 | None => 0 end
}.

(** A task has its own identifier; the others belong to its thread group. *)
Record ptask := PTask { thread_pid : option pid; group : Z; t_pid : Z; t_tgid : Z; real_parent : Z;
                        exiting : bool   (** [exit_notify] has run *) }.
Record world := World { ptasks : gmap Z ptask; groups : gmap Z (pid_type -> option pid) }.

Definition group_pid (w : world) (g : Z) (ty : pid_type) : option pid := match groups w !! g with Some f => f ty | None => None end.
Definition pid_of (w : world) (t : ptask) (ty : pid_type) : option pid :=
  match ty with PIDTYPE_PID => thread_pid t | _ => group_pid w (group t) ty end.

(** ** Numbers of a task (sched.h) *)

Section Numbers.
Context `{PidOps} (w : world) (active : pid_namespace).      (** the namespace of [current] *)

(** [__task_pid_nr_ns] of [pid.c]; without a namespace that of [current]. *)
Definition __task_pid_nr_ns (t : ptask) (ty : pid_type) (ns : option pid_namespace) : Z :=
  match pid_of w t ty with Some p => pid_nr_ns p (default active ns) | None => 0 end.

Definition task_pid_nr (t : ptask) : Z := t_pid t.
Definition task_pid_nr_ns (t : ptask) (ns : pid_namespace) : Z := __task_pid_nr_ns t PIDTYPE_PID (Some ns).
Definition task_pid_vnr (t : ptask) : Z := __task_pid_nr_ns t PIDTYPE_PID None.
Definition task_tgid_nr (t : ptask) : Z := t_tgid t.
Definition pid_alive (t : ptask) : bool := match thread_pid t with Some _ => true | None => false end.
Definition task_pgrp_nr_ns (t : ptask) (ns : pid_namespace) : Z := __task_pid_nr_ns t PIDTYPE_PGID (Some ns).
Definition task_pgrp_vnr (t : ptask) : Z := __task_pid_nr_ns t PIDTYPE_PGID None.
Definition task_session_nr_ns (t : ptask) (ns : pid_namespace) : Z := __task_pid_nr_ns t PIDTYPE_SID (Some ns).
Definition task_session_vnr (t : ptask) : Z := __task_pid_nr_ns t PIDTYPE_SID None.
Definition task_tgid_nr_ns (t : ptask) (ns : pid_namespace) : Z := __task_pid_nr_ns t PIDTYPE_TGID (Some ns).
Definition task_tgid_vnr (t : ptask) : Z := __task_pid_nr_ns t PIDTYPE_TGID None.

(** A dangling parent of a live task would be a fault. *)
Definition task_ppid_nr_ns (t : ptask) (ns : pid_namespace) : res Z :=
  if pid_alive t then p ← res_of_opt Dangling (ptasks w !! real_parent t); Ok (task_tgid_nr_ns p ns) else Ok 0.
Definition task_ppid_nr (t : ptask) : res Z := task_ppid_nr_ns t init_pid_ns.
Definition task_pgrp_nr (t : ptask) : Z := task_pgrp_nr_ns t init_pid_ns.
Definition is_global_init (t : ptask) : bool := task_tgid_nr t =? 1.
End Numbers.

(** ** New tasks (fork.c) *)

Definition CLONE_PARENT : Z := 0x8000.

Definition set_thread_pid (p : option pid) (t : ptask) : ptask :=
  PTask p (group t) (t_pid t) (t_tgid t) (real_parent t) (exiting t).

(** [init_task_pid]: the own identifier, or one of the group. *)
Definition init_task_pid (id : Z) (ty : pid_type) (p : option pid) (w : world) : world :=
  match ptasks w !! id with
  | None => w
  | Some t =>
      match ty with
      | PIDTYPE_PID => World (<[id := set_thread_pid p t]> (ptasks w)) (groups w)
      | _ => World (ptasks w) (<[group t := fun ty' => if decide (ty' = ty) then p else group_pid w (group t) ty']> (groups w))
      end
  end.

Definition pid_nr (p : pid) : Z := match numbers p !! 0%nat with Some u => nr u | None => 0 end.

(** The parent [copy_process] chooses. *)
Definition parent_for (clone_flags cur : Z) (c : ptask) : Z :=
  if hasb clone_flags (Z.lor CLONE_PARENT CLONE_THREAD) then real_parent c else cur.

(** The numbers recorded in the child of [cur] and its group: a thread has its
    creator's, a process starts the group [g].  [pid_nr] is the number in the initial
    namespace. *)
Definition new_task (clone_flags cur g : Z) (c : ptask) (p : pid) : ptask :=
  if hasb clone_flags CLONE_THREAD
  then PTask None (group c) (pid_nr p) (t_tgid c) (parent_for clone_flags cur c) false
  else PTask None g (pid_nr p) (pid_nr p) (parent_for clone_flags cur c) false.

(** The identifiers [copy_process] gives the child. *)
Definition new_ids (cur new g clone_flags : Z) (p : pid) (w : world) : option world :=
  c ← ptasks w !! cur;
  let w := World (<[new := new_task clone_flags cur g c p]> (ptasks w)) (groups w) in
  let w := init_task_pid new PIDTYPE_PID (Some p) w in
  if hasb clone_flags CLONE_THREAD then Some w
  else
    let w := init_task_pid new PIDTYPE_TGID (Some p) w in
    let w := init_task_pid new PIDTYPE_PGID (group_pid w (group c) PIDTYPE_PGID) w in
    Some (init_task_pid new PIDTYPE_SID (group_pid w (group c) PIDTYPE_SID) w).

(** ** Descriptors (fork.c) *)

(** An open file: a pidfd, or another kind. *)
Inductive pfile := PidFile (private_data : option pid) | OtherFile.

Definition pidfd_pid (f : pfile) : Z + option pid :=
  match f with PidFile p => inr p | OtherFile => inl (- Errno.EBADF) end.

(** The file after its last close, and the pid whose reference is put. *)
Definition pidfd_release (f : pfile) : pfile * option pid :=
  match f with PidFile p => (PidFile None, p) | OtherFile => (OtherFile, None) end.

(** [seq_put_decimal_ll] with its delimiter, and [seq_putc]. *)
Inductive token := Dec (delimiter : string) (num : Z) | Char (c : string).

Section Show.
Context `{PidOps}.

(** The loop over the levels below the one printed. *)
Fixpoint show_levels (p : pid) (i k : nat) : list token :=
  match k with
  | O => []
  | S k => Dec "\t" (match numbers p !! i with Some u => nr u | None => 0 end) :: show_levels p (S i) k
  end.

Definition pidfd_show_fdinfo (p : pid) (pid_has_task : bool) (ns : pid_namespace) : list token :=
  let n := if pid_has_task then pid_nr_ns p ns else -1 in
  [Dec "Pid:\t" n; Dec "\nNSpid:\t" n] ++
  (if 0 <? n then show_levels p (S (ns_level ns)) (level p - ns_level ns) else []) ++ [Char "\n"].
End Show.

Definition EPOLLIN : Z := 1.
Definition EPOLLRDNORM : Z := 0x40.
Definition pidfd_poll (thread_group_exited : bool) : Z := if thread_group_exited then Z.lor EPOLLIN EPOLLRDNORM else 0.

(** ** Populations *)

Inductive event :=
  | NewTask (cur new g clone_flags : Z) (p : pid)
  | Exit (t reaper : Z)  (** [exit_notify]: the children of [t] go to [reaper] *)
  | Detach (t : Z)       (** [release_task]: the identifiers go, those of the group with its last task *)
  | Free (t : Z).

(** A task that has not begun to exit. *)
Definition running (k : ptask) : bool := pid_alive k && negb (exiting k).
Definition runs (w : world) (t : Z) : bool := match ptasks w !! t with Some k => running k | None => false end.
Definition alone_in_group (w : world) (t g : Z) : bool :=
  forallb (fun ik => negb (pid_alive (snd ik) && (group (snd ik) =? g)) || (fst ik =? t)) (map_to_list (ptasks w)).

Definition reparent (t reaper : Z) (k : ptask) : ptask :=
  PTask (thread_pid k) (group k) (t_pid k) (t_tgid k) (if real_parent k =? t then reaper else real_parent k) (exiting k).
Definition set_exiting (k : ptask) : ptask := PTask (thread_pid k) (group k) (t_pid k) (t_tgid k) (real_parent k) true.

(** [alloc_pid] gives numbers from the initial namespace down. *)
Definition rooted (p : pid) : bool := match numbers p with u :: _ => upid_ns u =? ns_id init_pid_ns | [] => false end.

Definition happens (e : event) (w : world) : option world :=
  match e with
  | NewTask cur new g clone_flags p =>
      if runs w cur && unused new (ptasks w) && (hasb clone_flags CLONE_THREAD || unused g (groups w)) && rooted p
      then new_ids cur new g clone_flags p w else None
  | Exit t reaper =>
      k ← ptasks w !! t;
      if running k && runs w reaper && negb (reaper =? t)
      then Some (World (<[t := set_exiting (reparent t reaper k)]> (reparent t reaper <$> ptasks w)) (groups w)) else None
  | Detach t =>
      k ← ptasks w !! t;
      if exiting k then
        Some (World (<[t := set_thread_pid None k]> (ptasks w))
                (if alone_in_group w t (group k) then delete (group k) (groups w) else groups w))
      else None
  | Free t =>
      k ← ptasks w !! t;
      if exiting k && negb (pid_alive k) then Some (World (delete t (ptasks w)) (groups w)) else None
  end.

Definition pid_step (w w' : world) : Prop := exists e, happens e w = Some w'.

(** The idle task with number 0, which is its own parent, and its child [init]. *)
Definition idle_pid : pid := Pid 0 [Upid 0 0].
Definition init_pid : pid := Pid 1 [Upid 1 0].
Definition first_world : world :=
  World {[ 0 := PTask (Some idle_pid) 0 0 0 0 false; 1 := PTask (Some init_pid) 1 1 1 0 false ]}
    {[ 0 := fun _ => Some idle_pid; 1 := fun _ => Some init_pid ]}.

(** A task whose identifiers are attached has a parent that has not begun to exit, and
    its recorded numbers are those of its identifiers. *)
Definition live_ok (w : world) (k : ptask) : Prop :=
  forall p, thread_pid k = Some p ->
    rooted p = true /\ t_pid k = pid_nr p /\ runs w (real_parent k) = true /\
    exists q, group_pid w (group k) PIDTYPE_TGID = Some q /\ rooted q = true /\ t_tgid k = pid_nr q.
Definition world_ok (w : world) : Prop := forall t k, ptasks w !! t = Some k -> live_ok w k.

Lemma live_ok_mono w w' k :
  (forall t, runs w t = true -> runs w' t = true) ->
  (pid_alive k = true -> group_pid w' (group k) PIDTYPE_TGID = group_pid w (group k) PIDTYPE_TGID) ->
  live_ok w k -> live_ok w' k.
Proof.
  intros Ht Hg Hk p Hp. destruct (Hk p Hp) as (Hr & Hn & Hpar & q & Hq & ?). split; [done|]. split; [done|]. split; [by apply Ht|].
  exists q. rewrite Hg; [done|]. unfold pid_alive. by rewrite Hp.
Qed.

Lemma runs_lookup w t : runs w t = true -> exists k p, ptasks w !! t = Some k /\ thread_pid k = Some p /\ exiting k = false.
Proof.
  unfold runs, running, pid_alive. destruct (ptasks w !! t) as [k|]; [|done]. destruct (thread_pid k) as [p|] eqn:E; [|done].
  destruct (exiting k) eqn:Ex; [done|]. naive_solver.
Qed.

Lemma group_insert ts gs g f ty : group_pid (World ts (<[g := f]> gs)) g ty = f ty.
Proof. unfold group_pid. cbn. by rewrite lookup_insert_eq. Qed.

Lemma group_insert_ne ts ts' gs g g' f ty : g <> g' -> group_pid (World ts (<[g := f]> gs)) g' ty = group_pid (World ts' gs) g' ty.
Proof. intros Hn. unfold group_pid. cbn. by rewrite lookup_insert_ne. Qed.

(** A task that was not running is replaced or added. *)
Lemma runs_insert ts gs gs' i k t :
  runs (World ts gs) i = false \/ running k = true -> runs (World ts gs) t = true -> runs (World (<[i := k]> ts) gs') t = true.
Proof.
  unfold runs. cbn. intros Hi Ht. destruct (decide (i = t)) as [->|Hne]; [|by rewrite lookup_insert_ne].
  rewrite lookup_insert_eq. destruct Hi as [Hi|]; [|done]. by rewrite Ht in Hi.
Qed.

(** What the assignments of [copy_process] amount to. *)
Lemma new_process_ids cur new g fl p w c :
  ptasks w !! cur = Some c -> cur <> new -> group c <> g -> hasb fl CLONE_THREAD = false ->
  exists f, new_ids cur new g fl p w =
    Some (World (<[new := PTask (Some p) g (pid_nr p) (pid_nr p) (parent_for fl cur c) false]> (ptasks w)) (<[g := f]> (groups w))) /\
    f PIDTYPE_TGID = Some p /\ f PIDTYPE_PGID = group_pid w (group c) PIDTYPE_PGID /\ f PIDTYPE_SID = group_pid w (group c) PIDTYPE_SID.
Proof.
  intros Hc Hne Hg Hf. unfold new_ids. rewrite Hc. cbn [mbind option_bind]. unfold new_task. rewrite Hf. unfold init_task_pid. cbn. rewrite lookup_insert_eq. cbn.
  rewrite insert_insert_eq, lookup_insert_eq. cbn. rewrite lookup_insert_eq. cbn. rewrite lookup_insert_eq. cbn.
  rewrite !insert_insert_eq. eexists. split; [reflexivity|].
  repeat (rewrite ?group_insert; cbn). split; [done|].
  rewrite !(group_insert_ne _ (ptasks w)) by done. by destruct w.
Qed.

Lemma new_thread_ids cur new g fl p w c :
  ptasks w !! cur = Some c -> hasb fl CLONE_THREAD = true ->
  new_ids cur new g fl p w =
    Some (World (<[new := PTask (Some p) (group c) (pid_nr p) (t_tgid c) (parent_for fl cur c) false]> (ptasks w)) (groups w)).
Proof.
  intros Hc Hf. unfold new_ids. rewrite Hc. cbn [mbind option_bind]. unfold new_task. rewrite Hf. unfold init_task_pid. cbn.
  rewrite lookup_insert_eq. cbn. by rewrite insert_insert_eq.
Qed.

(** The chosen parent has not begun to exit, because the creator's parent has not. *)
Lemma parent_runs w cur c pc fl :
  world_ok w -> ptasks w !! cur = Some c -> thread_pid c = Some pc -> exiting c = false -> runs w (parent_for fl cur c) = true.
Proof.
  intros W Hc Hp He. unfold parent_for. destruct (hasb fl _); [by apply (W cur c Hc pc Hp)|].
  unfold runs, running, pid_alive. by rewrite Hc, Hp, He.
Qed.

Lemma new_ok w cur new g fl p w' :
  world_ok w -> happens (NewTask cur new g fl p) w = Some w' -> world_ok w'.
Proof.
  intros W Hs. cbn -[new_ids] in Hs.
  destruct (runs w cur && unused new (ptasks w) && (hasb fl CLONE_THREAD || unused g (groups w)) && rooted p) eqn:E; [|done].
  rewrite !andb_true_iff in E. destruct E as (((Hc & Hn) & Hg) & Hr).
  apply runs_lookup in Hc as (c & pc & Hc & Hpc & Hec). apply unused_none in Hn.
  destruct (W cur c Hc pc Hpc) as (_ & _ & _ & tq & Htq & Hrt & Etg). pose proof (parent_runs w cur c pc fl W Hc Hpc Hec) as Hpar.
  assert (cur <> new) as Hne by congruence.
  assert (forall k gs t, runs w t = true -> runs (World (<[new := k]> (ptasks w)) gs) t = true) as Hruns.
  { intros k gs t. destruct w as [ts gs']. apply runs_insert. left. unfold runs. cbn in *. by rewrite Hn. }
  destruct (hasb fl CLONE_THREAD) eqn:Hf.
  - rewrite (new_thread_ids _ _ _ _ _ _ c) in Hs by done. injection Hs as <-. intros t k Hl. cbn in Hl. apply lookup_insert_Some in Hl as [[<- <-]|[_ Hk]].
    + intros p' [= <-]. cbn. split_and!; [done|done|by apply Hruns|by exists tq].
    + eapply live_ok_mono; [..|by apply (W t)]; [apply Hruns|done].
  - apply orb_true_iff in Hg as [?|Hg]; [done|]. apply unused_none in Hg.
    assert (group c <> g) as Hgc. { intros Heq. unfold group_pid in Htq. rewrite Heq, Hg in Htq. done. }
    destruct (new_process_ids cur new g fl p w c Hc Hne Hgc Hf) as (f & Ef & Hfp & _). rewrite Ef in Hs. injection Hs as <-.
    intros t k Hl. cbn in Hl. apply lookup_insert_Some in Hl as [[<- <-]|[_ Hk]].
    + intros p' [= <-]. cbn. split_and!; [done|done|by apply Hruns|]. exists p. by rewrite group_insert.
    + eapply live_ok_mono; [..|by apply (W t)]; [apply Hruns|]. intros Ha. unfold pid_alive in Ha.
      destruct (thread_pid k) as [pk|] eqn:Ek; [|done]. destruct (W t k Hk pk Ek) as (_ & _ & _ & qk & Hqk & _).
      rewrite (group_insert_ne _ (ptasks w)); [by destruct w|]. intros Heq. unfold group_pid in Hqk.
      by rewrite <- Heq, Hg in Hqk.
Qed.

Lemma exit_ok w t reaper w' : world_ok w -> happens (Exit t reaper) w = Some w' -> world_ok w'.
Proof.
  intros W Hs. cbn in Hs. destruct (ptasks w !! t) as [k|] eqn:Hk; [|done]. cbn in Hs.
  destruct (running k && runs w reaper && negb (reaper =? t)) eqn:E; [|done]. injection Hs as <-.
  rewrite !andb_true_iff, negb_true_iff, Z.eqb_neq in E. destruct E as ((_ & Hre) & Hne).
  set (w' := World _ _).
  assert (forall x, runs w x = true -> x <> t -> runs w' x = true) as Hruns.
  { intros x Hx Hxt. unfold runs in *. cbn. rewrite lookup_insert_ne by done. rewrite lookup_fmap. by destruct (ptasks w !! x). }
  assert (forall i x y, ptasks w !! i = Some x -> thread_pid y = thread_pid x -> group y = group x -> t_pid y = t_pid x ->
            t_tgid y = t_tgid x -> real_parent y = (if real_parent x =? t then reaper else real_parent x) -> live_ok w' y) as Hlive.
  { intros i x y Hx E1 E2 E3 E4 E5 p Hp. rewrite E1 in Hp. destruct (W i x Hx p Hp) as (? & ? & Hpar & q & Hq & ? & ?).
    rewrite E2, E3, E4, E5. split_and!; [done|done| |by exists q].
    destruct (Z.eqb_spec (real_parent x) t); by apply Hruns. }
  intros i x Hl. cbn in Hl. apply lookup_insert_Some in Hl as [[<- <-]|[_ Hl]]; [by apply (Hlive t k)|].
  rewrite lookup_fmap in Hl. destruct (ptasks w !! i) as [z|] eqn:Hz; [|done]. injection Hl as <-. by apply (Hlive i z).
Qed.

Lemma detach_ok w t w' : world_ok w -> happens (Detach t) w = Some w' -> world_ok w'.
Proof.
  intros W Hs. cbn in Hs. destruct (ptasks w !! t) as [k|] eqn:Hk; [|done]. cbn in Hs. destruct (exiting k) eqn:He; [|done]. injection Hs as <-.
  intros i x Hl. cbn in Hl. apply lookup_insert_Some in Hl as [[<- <-]|[Hne Hx]]; [done|]. eapply live_ok_mono; [..|by apply (W i)].
  { intros x'. destruct w as [ts gs]. apply runs_insert. left. unfold runs, running. cbn in *. rewrite Hk, He. apply andb_false_r. }
  intros Ha. destruct (alone_in_group w t (group k)) eqn:Eg; [|by destruct w]. unfold group_pid. cbn. rewrite lookup_delete_ne; [done|].
  intros Hgx. unfold alone_in_group in Eg. pose proof (proj1 (forallb_forall _ _) Eg (i, x)) as Hi. cbn in Hi.
  rewrite Ha, <- Hgx, Z.eqb_refl in Hi. cbn in Hi. apply Hne. symmetry. apply Z.eqb_eq, Hi. by apply list_elem_of_In, elem_of_map_to_list.
Qed.

Lemma free_ok w t w' : world_ok w -> happens (Free t) w = Some w' -> world_ok w'.
Proof.
  intros W Hs. cbn in Hs. destruct (ptasks w !! t) as [k|] eqn:Hk; [|done]. cbn in Hs. destruct (exiting k) eqn:He; [|done]. cbn in Hs.
  destruct (pid_alive k); [done|]. injection Hs as <-.
  intros i x Hl. cbn in Hl. apply lookup_delete_Some in Hl as [Hne Hx]. eapply live_ok_mono; [..|by apply (W i)]; [|done].
  intros y Hy. unfold runs in *. cbn. rewrite lookup_delete_ne; [done|]. intros <-. rewrite Hk in Hy. unfold running in Hy.
  by rewrite He, andb_false_r in Hy.
Qed.

Lemma reachable_ok w : rtc pid_step first_world w -> world_ok w.
Proof.
  intros Hr. assert (world_ok first_world) as W0.
  { intros t k Hk. unfold first_world in Hk. cbn [ptasks] in Hk. apply lookup_insert_Some in Hk as [[<- <-]|[_ Hk]].
    - intros p [= <-]. split_and!; try done. by exists idle_pid.
    - apply lookup_singleton_Some in Hk as [<- <-]. intros p [= <-]. split_and!; try done. by exists init_pid. }
  revert W0. induction Hr as [|w w1 w2 [e He] _ IH]; [done|]. intros W. apply IH.
  destruct e; [by eapply new_ok|by eapply exit_ok|by eapply detach_ok|by eapply free_ok].
Qed.

(** ** Theorems *)

Lemma global_view `{PidOps} p : rooted p = true -> pid_nr_ns p init_pid_ns = pid_nr p.
Proof.
  unfold rooted, pid_nr. rewrite pid_nr_ns_ok. destruct (numbers p) as [|u us]; [done|]. cbn. by intros ->.
Qed.

(** C39: whatever processes and threads are created, exit and are freed, for a task whose
    identifiers are attached: the numbers recorded in it are the ones seen from the
    initial namespace, as [sched.h] says of the functions without a namespace; and
    the structure of its parent is there, of a task that has not begun to exit, whose
    recorded group number is what [task_ppid_nr] gives. *)
Theorem recorded_numbers_global `{PidOps} w active t k :
  rtc pid_step first_world w -> ptasks w !! t = Some k -> pid_alive k = true ->
  task_pid_nr_ns w active k init_pid_ns = task_pid_nr k /\ task_tgid_nr_ns w active k init_pid_ns = task_tgid_nr k /\
  exists kp, ptasks w !! real_parent k = Some kp /\ running kp = true /\ task_ppid_nr w active k = Ok (task_tgid_nr kp).
Proof.
  intros Hr Hk Ha. unfold pid_alive in Ha. destruct (thread_pid k) as [p|] eqn:Hp; [|done]. pose proof (reachable_ok w Hr) as W.
  destruct (W t k Hk p Hp) as (Hro & Hn & Hpar & r & Hrr & Hror & Htg).
  unfold task_pid_nr_ns, task_tgid_nr_ns, __task_pid_nr_ns, pid_of. rewrite Hp, Hrr. cbn. rewrite !global_view by done.
  split; [done|]. split; [done|]. destruct (runs_lookup w _ Hpar) as (kp & pp & Hkp & Hpp & _). exists kp. split; [done|].
  split; [unfold runs in Hpar; by rewrite Hkp in Hpar|].
  destruct (W _ kp Hkp pp Hpp) as (_ & _ & _ & q & Hq & Hrq & Hqt).
  unfold task_ppid_nr, task_ppid_nr_ns, pid_alive. rewrite Hp, Hkp. cbn. unfold task_tgid_nr_ns, __task_pid_nr_ns, pid_of.
  rewrite Hq. cbn. unfold task_tgid_nr. by rewrite global_view, Hqt by done.
Qed.

(** A thread is seen with the group, process group and session numbers of its
    creator in every namespace; a process starts a group of its own and inherits the
    other two. *)
Theorem inherited_numbers `{PidOps} w active cur c new g fl p ns :
  ptasks w !! cur = Some c -> cur <> new -> group c <> g ->
  exists w' k, new_ids cur new g fl p w = Some w' /\ ptasks w' !! new = Some k /\
    task_pid_nr_ns w' active k ns = pid_nr_ns p ns /\
    task_tgid_nr_ns w' active k ns = (if hasb fl CLONE_THREAD then task_tgid_nr_ns w active c ns else pid_nr_ns p ns) /\
    task_pgrp_nr_ns w' active k ns = task_pgrp_nr_ns w active c ns /\
    task_session_nr_ns w' active k ns = task_session_nr_ns w active c ns.
Proof.
  intros Hc Hne Hg. destruct (hasb fl CLONE_THREAD) eqn:Hf.
  - rewrite (new_thread_ids _ _ _ _ _ _ c) by done. eexists _, _. split; [reflexivity|]. split; [apply lookup_insert_eq|]. done.
  - destruct (new_process_ids cur new g fl p w c Hc Hne Hg Hf) as (f & -> & Ht & Hpg & Hs). eexists _, _. split; [reflexivity|].
    split; [apply lookup_insert_eq|]. unfold task_pid_nr_ns, task_tgid_nr_ns, task_pgrp_nr_ns, task_session_nr_ns, __task_pid_nr_ns, pid_of.
    cbn. rewrite !group_insert, Ht, Hpg, Hs. done.
Qed.

Lemma show_levels_map p k : forall i, (i + k <= length (numbers p))%nat ->
  show_levels p i k = (fun u => Dec "\t" (nr u)) <$> take k (drop i (numbers p)).
Proof.
  induction k as [|k IH]; intros i Hi; [done|]. cbn. destruct (numbers p !! i) as [u|] eqn:Hu.
  - rewrite (drop_S _ u i) by done. cbn. f_equal. apply IH. lia.
  - apply lookup_ge_None in Hu. lia.
Qed.

(** What a pidfd says of itself: the numbers of the process from the reader's
    namespace down to its own; a single zero where the reader cannot see it; a
    single -1 when it is gone. *)
Theorem fdinfo_shows `{PidOps} p ns :
  pidfd_show_fdinfo p false ns = [Dec "Pid:\t" (-1); Dec "\nNSpid:\t" (-1); Char "\n"] /\
  (pid_nr_ns p ns = 0 -> pidfd_show_fdinfo p true ns = [Dec "Pid:\t" 0; Dec "\nNSpid:\t" 0; Char "\n"]) /\
  (0 < pid_nr_ns p ns -> pidfd_show_fdinfo p true ns =
     [Dec "Pid:\t" (pid_nr_ns p ns); Dec "\nNSpid:\t" (pid_nr_ns p ns)] ++
     ((fun u => Dec "\t" (nr u)) <$> drop (S (ns_level ns)) (numbers p)) ++ [Char "\n"]).
Proof.
  split; [done|]. split; [unfold pidfd_show_fdinfo; by intros ->|]. intros Hp. unfold pidfd_show_fdinfo.
  destruct (Z.ltb_spec 0 (pid_nr_ns p ns)); [|lia]. do 2 f_equal.
  assert (ns_level ns < length (numbers p))%nat as Hl.
  { apply lookup_lt_is_Some. rewrite pid_nr_ns_ok in Hp. destruct (numbers p !! ns_level ns); [by eexists|lia]. }
  rewrite show_levels_map by (unfold level; lia). rewrite take_ge; [done|]. rewrite length_drop. unfold level. lia.
Qed.

(** *** Witness and examples *)

#[export] Instance simple_pids : PidOps :=
  {| pid_nr_ns p n := match numbers p !! ns_level n with Some u => if upid_ns u =? ns_id n then nr u else 0 | None => 0 end;
     pid_nr_ns_ok _ _ := eq_refl |}.

(** A process two namespaces deep, seen from the middle one and from a stranger. *)
Example show_nested : pidfd_show_fdinfo (Pid 9 [Upid 40 0; Upid 7 3; Upid 1 5]) true (Ns 3 1) =
  [Dec "Pid:\t" 7; Dec "\nNSpid:\t" 7; Dec "\t" 1; Char "\n"].
Proof. reflexivity. Qed.
Example show_stranger : pidfd_show_fdinfo (Pid 9 [Upid 40 0; Upid 7 3; Upid 1 5]) true (Ns 4 1) =
  [Dec "Pid:\t" 0; Dec "\nNSpid:\t" 0; Char "\n"].
Proof. reflexivity. Qed.

(** A process in a namespace of its own with a thread, and a child of the leader; the
    leader exits, and the child goes to the thread. *)
Definition two_threads : list event :=
  [NewTask 1 2 2 0 (Pid 2 [Upid 30 0; Upid 1 6]); NewTask 2 3 0 CLONE_THREAD (Pid 3 [Upid 31 0; Upid 2 6]);
   NewTask 2 4 4 0 (Pid 4 [Upid 32 0; Upid 3 6]); Exit 2 3; Detach 2; Free 2].
Definition last_thread : ptask := PTask (Some (Pid 3 [Upid 31 0; Upid 2 6])) 2 31 30 1 false.
Definition orphan : ptask := PTask (Some (Pid 4 [Upid 32 0; Upid 3 6])) 4 32 32 3 false.

Fixpoint happen (es : list event) (w : world) : option world :=
  match es with [] => Some w | e :: es => happens e w ≫= happen es end.
Definition end_world : world := default first_world (happen two_threads first_world).

Lemma happen_rtc es : forall w w', happen es w = Some w' -> rtc pid_step w w'.
Proof.
  induction es as [|e es IH]; intros w w' E; cbn in E; [injection E as <-; apply rtc_refl|].
  destruct (happens e w) as [w1|] eqn:E1; [|done]. eapply rtc_l; [by exists e|]. by apply IH.
Qed.

Lemma recorded_numbers_global_witness :
  task_pid_nr_ns end_world (Ns 6 1) orphan init_pid_ns = 32 /\ task_tgid_nr_ns end_world (Ns 6 1) orphan init_pid_ns = 32 /\
  exists kp, ptasks end_world !! 3 = Some kp /\ running kp = true /\ task_ppid_nr end_world (Ns 6 1) orphan = Ok (task_tgid_nr kp).
Proof.
  apply (recorded_numbers_global end_world (Ns 6 1) 4 orphan).
  - apply (happen_rtc two_threads). vm_compute. reflexivity.
  - vm_compute. reflexivity.
  - reflexivity.
Defined.

(** The orphan's parent is the thread that is left: 30 is its group. *)
Example orphan_parent : task_ppid_nr end_world (Ns 6 1) orphan = Ok 30 /\ ptasks end_world !! 3 = Some last_thread.
Proof. vm_compute. split; reflexivity. Qed.
