(* ===== verification/Threads.v ===== *)
(** * Threads: how many there are and may be

    Models [nr_processes], [set_max_threads], the limits that [fork_init] derives
    from it, and [sysctl_max_threads] of [kernel/fork.c], with C's unsigned long,
    u64 and int arithmetic written out. *)

From Stdlib Require Import ZArith Lia.
From stdpp Require Import base list.
From S2P Require Import Prelude TaskStruct.

(** ** Counting processes *)

(** [total] is an int, the counters are unsigned long: each addition is made in
    unsigned long and converted back. *)
Fixpoint nr_processes_loop (process_counts : list Z) (total : Z) : Z :=
  match process_counts with
  | [] => total
  | n :: ns => nr_processes_loop ns (s32 (u64 (total + n)))
  end.
Definition nr_processes (process_counts : list Z) : Z := nr_processes_loop process_counts 0.

Definition sum_list (l : list Z) : Z := foldr Z.add 0 l.

(** ** The limit *)

Definition MIN_THREADS : Z := 20.
Definition FUTEX_TID_MASK : Z := 0x3fffffff.
Definition MAX_THREADS : Z := FUTEX_TID_MASK.

(** Index of the highest bit, from one. *)
Definition fls64 (x : Z) : Z := if x =? 0 then 0 else Z.log2 x + 1.

Definition clamp (x lo hi : Z) : Z := Z.min (Z.max x lo) hi.

Definition set_max_threads (nr_pages max_threads_suggested : Z) : Z :=
  let threads :=
    if 64 <? fls64 nr_pages + fls64 PAGE_SIZE then MAX_THREADS
    else u64 (u64 nr_pages * u64 PAGE_SIZE) / u64 (u64 THREAD_SIZE * 8) in
  let threads := if max_threads_suggested <? threads then max_threads_suggested else threads in
  clamp threads MIN_THREADS MAX_THREADS.

(** The limits of the first task. *)
Record limits := Limits { max_threads : Z; rlim_nproc : Z; rlim_sigpending : Z; ucount_max : Z }.

Definition fork_init (nr_pages : Z) : limits :=
  let m := set_max_threads nr_pages MAX_THREADS in
  Limits m (m / 2) (m / 2) (m / 2).

(** [proc_dointvec_minmax] on a copy of the value: the result and the copy
    afterwards. *)
Definition sysctl_max_threads (proc : Z -> Z -> Z -> bool -> Z * Z) (write : bool) (cur : Z) : Z * Z :=
  let (ret, threads) := proc cur 1 MAX_THREADS write in
  if negb (ret =? 0) || negb write then (ret, cur) else (0, threads).

(** ** Theorems *)

Lemma s32_congr a b : a mod 2 ^ 32 = b mod 2 ^ 32 -> s32 a = s32 b.
Proof. intros H. unfold swrap. by rewrite <- Zplus_mod_idemp_l, H, Zplus_mod_idemp_l. Qed.

Lemma s32_mod a : s32 a mod 2 ^ 32 = a mod 2 ^ 32.
Proof.
  unfold swrap. rewrite Zminus_mod_idemp_l. f_equal. lia.
Qed.

Lemma u64_mod32 a : u64 a mod 2 ^ 32 = a mod 2 ^ 32.
Proof. unfold uwrap. apply Z.mod_mod_divide. exists (2 ^ 32). reflexivity. Qed.

Lemma nr_processes_loop_sum ns : forall total,
  nr_processes_loop (map (fun d => u64 d) ns) (s32 total) = s32 (total + sum_list ns).
Proof.
  induction ns as [|n ns IH]; intros total; cbn [nr_processes_loop map sum_list foldr]; [by rewrite Z.add_0_r|].
  rewrite (s32_congr (u64 _) (total + n)); [rewrite IH; f_equal; unfold sum_list; lia|].
  rewrite u64_mod32, <- Zplus_mod_idemp_l, s32_mod, <- Zplus_mod_idemp_r, u64_mod32.
  by rewrite Zplus_mod_idemp_r, Zplus_mod_idemp_l.
Qed.

(** [nr_processes] counts right although a process may be counted on one cpu
    and uncounted on another, so that the unsigned counter of a cpu wraps below
    zero: as long as the true total is an int, the result is the total. *)
Theorem nr_processes_correct (balance : list Z) :
  is_s 32 (sum_list balance) -> nr_processes (map (fun d => u64 d) balance) = sum_list balance.
Proof.
  intros H. unfold nr_processes. change 0 with (s32 0). rewrite nr_processes_loop_sum. cbn.
  by apply swrap_small.
Qed.

Lemma nr_processes_correct_witness :
  is_s 32 (sum_list [5; -3; 1]) /\ nr_processes (map (fun d => u64 d) [5; -3; 1]) = sum_list [5; -3; 1].
Proof. assert (is_s 32 (sum_list [5; -3; 1])) as H by done. split; [exact H|exact (nr_processes_correct _ H)]. Defined.

Lemma fls64_guard nr_pages :
  is_u 64 nr_pages -> (64 <? fls64 nr_pages + fls64 PAGE_SIZE) = (2 ^ 51 <=? nr_pages).
Proof.
  intros [H0 H1]. unfold fls64 at 1. change (fls64 PAGE_SIZE) with 13.
  destruct (Z.eqb_spec nr_pages 0) as [->|]; [done|].
  destruct (Z.leb_spec (2 ^ 51) nr_pages) as [Hle|Hlt].
  - apply Z.ltb_lt. pose proof (Z.log2_le_mono _ _ Hle) as Hl. rewrite Z.log2_pow2 in Hl by lia. lia.
  - apply Z.ltb_ge. pose proof (proj1 (Z.log2_lt_pow2 nr_pages 51 ltac:(lia)) Hlt). lia.
Qed.

(** C40: [set_max_threads] is the exact quotient of memory by eight times the size
    of a stack (with the sizes of x86-64), cut at the suggestion and then at the bounds, for every number of
    pages a machine word can hold: the test on the highest bits keeps the product
    from overflowing and the answer it gives instead is the one exact arithmetic
    would give. *)
Theorem set_max_threads_exact nr_pages suggested :
  is_u 64 nr_pages -> 0 <= suggested ->
  set_max_threads nr_pages suggested =
    clamp (Z.min (nr_pages * PAGE_SIZE / (THREAD_SIZE * 8)) suggested) MIN_THREADS MAX_THREADS.
Proof.
  intros Hn Hs. unfold set_max_threads. rewrite fls64_guard by done. destruct Hn as [H0 H1].
  change (u64 (u64 THREAD_SIZE * 8)) with 131072. change (THREAD_SIZE * 8) with 131072.
  change (u64 PAGE_SIZE) with 4096. change PAGE_SIZE with 4096. unfold clamp, MIN_THREADS.
  change MAX_THREADS with 1073741823. destruct (Z.leb_spec (2 ^ 51) nr_pages) as [Hle|Hlt].
  - assert (2 ^ 46 <= nr_pages * 4096 / 131072) by (apply Z.div_le_lower_bound; lia).
    destruct (Z.ltb_spec suggested 1073741823); lia.
  - rewrite (uwrap_small 64 nr_pages), uwrap_small by (unfold is_u; lia).
    destruct (Z.ltb_spec suggested (nr_pages * 4096 / 131072)); lia.
Qed.

Lemma set_max_threads_exact_witness :
  set_max_threads (2 ^ 63) 1000 =
    clamp (Z.min (2 ^ 63 * PAGE_SIZE / (THREAD_SIZE * 8)) 1000) MIN_THREADS MAX_THREADS.
Proof. apply set_max_threads_exact; [unfold is_u; lia|lia]. Defined.

(** The limits of the first task follow, and stay below the limit on threads. *)
Lemma fork_init_limits nr_pages :
  let l := fork_init nr_pages in
  MIN_THREADS <= max_threads l <= MAX_THREADS /\ 10 <= rlim_nproc l <= max_threads l /\
  rlim_sigpending l = rlim_nproc l /\ ucount_max l = rlim_nproc l.
Proof.
  cbn. unfold set_max_threads. set (x := if _ <? _ then _ else _).
  assert (MIN_THREADS <= clamp x MIN_THREADS MAX_THREADS <= MAX_THREADS) as H
    by (unfold clamp, MIN_THREADS, MAX_THREADS, FUTEX_TID_MASK; lia).
  split_and!; [lia..| | |done|done]; unfold MIN_THREADS in H; pose proof (Z.div_mod (clamp x MIN_THREADS MAX_THREADS) 2);
    pose proof (Z.mod_pos_bound (clamp x MIN_THREADS MAX_THREADS) 2); unfold MIN_THREADS in *; lia.
Qed.

(** The value stays within its bounds whatever is written, and changes only by a
    write that succeeds. *)
Lemma sysctl_max_threads_ok proc write cur :
  (forall c lo hi w r v, proc c lo hi w = (r, v) -> r = 0 -> lo <= v <= hi) ->
  1 <= cur <= MAX_THREADS ->
  let (ret, cur') := sysctl_max_threads proc write cur in
  1 <= cur' <= MAX_THREADS /\ (ret <> 0 \/ write = false -> cur' = cur).
Proof.
  intros Hp Hc. unfold sysctl_max_threads. destruct (proc cur 1 MAX_THREADS write) as [r v] eqn:E.
  destruct (Z.eqb_spec r 0) as [Hr|]; cbn; [|done]. destruct write; cbn; [|done].
  split; [by eapply Hp|naive_solver].
Qed.
