(* ===== verification/Sched.v ===== *)
(** * Sched: the inline part of include/linux/sched.h

    Models what [include/linux/sched.h] implements itself: the task states and
    their letters ([task_state_to_char]), the flag words of a task
    ([current_restore_flags], the atomic flags and their accessors), the
    restartable-sequence hooks ([rseq_fork] and the events), and the state macros
    with the two sleeping loops their comments prescribe.  The loops run against
    wake-ups of any kind as machines of single accesses: [try_to_wake_up] is not in
    the repository and is a class with the behaviour the comments state. *)

From Stdlib Require Import ZArith Lia Ascii.
From stdpp Require Import base list strings relations.
From S2P Require Import Prelude.

(** ** Task states *)

Definition TASK_RUNNING : Z := 0x0000.
Definition TASK_INTERRUPTIBLE : Z := 0x0001.
Definition TASK_UNINTERRUPTIBLE : Z := 0x0002.
Definition __TASK_STOPPED : Z := 0x0004.
Definition __TASK_TRACED : Z := 0x0008.
Definition EXIT_DEAD : Z := 0x0010.
Definition EXIT_ZOMBIE : Z := 0x0020.
Definition TASK_PARKED : Z := 0x0040.
Definition TASK_NOLOAD : Z := 0x0400.
Definition TASK_RTLOCK_WAIT : Z := 0x1000.
Definition TASK_IDLE : Z := Z.lor TASK_UNINTERRUPTIBLE TASK_NOLOAD.
Definition TASK_REPORT : Z :=
  Z.lor TASK_RUNNING (Z.lor TASK_INTERRUPTIBLE (Z.lor TASK_UNINTERRUPTIBLE (Z.lor __TASK_STOPPED
    (Z.lor __TASK_TRACED (Z.lor EXIT_DEAD (Z.lor EXIT_ZOMBIE TASK_PARKED)))))).
Definition TASK_REPORT_IDLE : Z := TASK_REPORT + 1.
Definition TASK_REPORT_MAX : Z := Z.shiftl TASK_REPORT_IDLE 1.

(** The position of the highest set bit, from one; zero for zero. *)
Definition fls (x : Z) : Z := if x =? 0 then 0 else Z.log2 x + 1.

Definition task_state_index (tsk_state exit_state : Z) : Z :=
  let state := Z.land (Z.lor tsk_state exit_state) TASK_REPORT in
  let state := if tsk_state =? TASK_IDLE then TASK_REPORT_IDLE else state in
  let state := if tsk_state =? TASK_RTLOCK_WAIT then TASK_UNINTERRUPTIBLE else state in
  fls state.

Definition state_char : list ascii := String.list_ascii_of_string "RSDTtXZPI".

Definition task_index_to_char (state : Z) : res ascii :=
  res_of_opt OutOfBounds (state_char !! Z.to_nat state).

Definition task_state_to_char (tsk_state exit_state : Z) : res ascii :=
  task_index_to_char (task_state_index tsk_state exit_state).

(** ** Flag words *)

(** [current->flags] has 32 bits, the arguments 64. *)
Definition current_restore_flags (orig_flags flags current_flags : Z) : Z :=
  let f := u32 (Z.land current_flags (u64 (Z.lnot flags))) in
  u32 (Z.lor f (Z.land orig_flags flags)).

(** The atomic flags, each with the accessors the header declares for it. *)
Inductive pfa :=
  | NO_NEW_PRIVS | SPREAD_PAGE | SPREAD_SLAB | SPEC_SSB_DISABLE
  | SPEC_SSB_FORCE_DISABLE | SPEC_IB_DISABLE | SPEC_IB_FORCE_DISABLE | SPEC_SSB_NOEXEC.

Definition pfa_bit (n : pfa) : Z :=
  match n with
  | NO_NEW_PRIVS => 0 | SPREAD_PAGE => 1 | SPREAD_SLAB => 2 | SPEC_SSB_DISABLE => 3
  | SPEC_SSB_FORCE_DISABLE => 4 | SPEC_IB_DISABLE => 5 | SPEC_IB_FORCE_DISABLE => 6 | SPEC_SSB_NOEXEC => 7
  end.

Definition TASK_PFA_TEST (n : pfa) (atomic_flags : Z) : bool := Z.testbit atomic_flags (pfa_bit n).
Definition TASK_PFA_SET (n : pfa) (atomic_flags : Z) : Z := Z.setbit atomic_flags (pfa_bit n).
Definition TASK_PFA_CLEAR (n : pfa) (atomic_flags : Z) : Z := Z.clearbit atomic_flags (pfa_bit n).

(** The accessors that exist: every flag can be set, not every flag cleared. *)
Definition clearable (n : pfa) : bool :=
  match n with
  | NO_NEW_PRIVS | SPEC_SSB_FORCE_DISABLE | SPEC_IB_FORCE_DISABLE => false
  | _ => true
  end.

Inductive pfa_step (f : Z) : Z -> Prop :=
  | pfa_set n : pfa_step f (TASK_PFA_SET n f)
  | pfa_clear n : clearable n = true -> pfa_step f (TASK_PFA_CLEAR n f).

(** ** Restartable sequences *)

Record rseq_task := RseqTask {
  rseq : ptr; rseq_sig : Z; rseq_event_mask : Z;
  notify_resume : bool      (** TIF_NOTIFY_RESUME *)
}.

Definition rseq_set_notify_resume (t : rseq_task) : rseq_task :=
  if negb (rseq t =? NULL) then RseqTask (rseq t) (rseq_sig t) (rseq_event_mask t) true else t.

(** [rseq_preempt] and [rseq_migrate], with the bit of the event. *)
Definition rseq_event (bit : Z) (t : rseq_task) : rseq_task :=
  rseq_set_notify_resume (RseqTask (rseq t) (rseq_sig t) (Z.setbit (rseq_event_mask t) bit) (notify_resume t)).

Definition rseq_execve (t : rseq_task) : rseq_task := RseqTask NULL 0 0 (notify_resume t).

Definition CLONE_VM : Z := 0x00000100.

Definition rseq_fork (current t : rseq_task) (clone_flags : Z) : rseq_task :=
  if hasb clone_flags CLONE_VM then RseqTask NULL 0 0 (notify_resume t)
  else RseqTask (rseq current) (rseq_sig current) (rseq_event_mask current) (notify_resume t).

(** ** Sleeping and waking

    What a wake-up with a mask of states does to a task, once it holds the task's
    [pi_lock]: it may write TASK_RUNNING to the state or to the saved state. *)

Inductive wake := WakeState | WakeSaved | WakeNone.

(** The comments' promise: a matching state is set running, and otherwise a
    wake-up is redirected to a matching saved state. *)
Class TryToWakeUp (ttwu : Z -> Z -> Z -> wake) : Prop := {
  ttwu_state mask state saved : hasb state mask = true -> ttwu mask state saved = WakeState;
  ttwu_saved mask state saved :
    hasb state mask = false -> hasb saved mask = true -> ttwu mask state saved = WakeSaved
}.

(** The simplest such function. *)
Definition ttwu_match (mask state saved : Z) : wake :=
  if hasb state mask then WakeState else if hasb saved mask then WakeSaved else WakeNone.

#[global] Instance ttwu_match_ok : TryToWakeUp ttwu_match.
Proof. split; unfold ttwu_match; intros mask state saved H; [by rewrite H|intros H2; by rewrite H, H2]. Qed.

(** Where the sleeper is while it acquires a sleeping lock. *)
Inductive rpc :=
  | RLock      (** current_save_and_set_rtlock_wait_state: take pi_lock *)
  | RSave      (** saved_state = __state *)
  | RSet       (** __state = TASK_RTLOCK_WAIT *)
  | RUnlock    (** release pi_lock *)
  | RTry       (** if (try_lock ()) break *)
  | RSched     (** schedule_rtlock () *)
  | RAgain     (** set_current_state (TASK_RTLOCK_WAIT) *)
  | RLock2     (** current_restore_rtlock_saved_state: take pi_lock *)
  | RRestore   (** __state = saved_state *)
  | RClear     (** saved_state = TASK_RUNNING *)
  | RUnlock2.  (** release pi_lock *)

(** The wait loop; a sleeping lock may be taken before the condition is read and
    again before the task sleeps. *)
Inductive spc :=
  | SSet                             (** set_current_state (TASK_UNINTERRUPTIBLE) *)
  | STest                            (** if (CONDITION) break *)
  | SSched                           (** schedule () *)
  | SEnd                             (** __set_current_state (TASK_RUNNING) *)
  | SDone
  | SRt (r : rpc) (tested : bool).   (** inside a lock operation, before or after the test *)

(** Who wakes: the one who made the condition true, the previous owner of the
    sleeping lock, or anybody else for any reason. *)
Inductive caller := CCond | CRt | CAny.

(** A wake-up in progress, from taking [pi_lock] to releasing it. *)
Inductive tpc := TIdle | TTest (c : caller) | TStore (c : caller) | TStoreSaved (c : caller) | TUnlock (c : caller).

Inductive owner := Sleeper | Waker.

Record sst := Sst {
  pc : spc; tw : tpc;
  __state : Z; saved_state : Z; pi_lock : option owner;
  condition : bool; cond_wake : bool;      (** made true; its wake-up is still to come *)
  rt_free : bool; rt_wake : bool           (** the sleeping lock, and a release's wake-up *)
}.

Definition set_pc p (s : sst) :=
  Sst p (tw s) (__state s) (saved_state s) (pi_lock s) (condition s) (cond_wake s) (rt_free s) (rt_wake s).
Definition set_tw t (s : sst) :=
  Sst (pc s) t (__state s) (saved_state s) (pi_lock s) (condition s) (cond_wake s) (rt_free s) (rt_wake s).
Definition set_state v (s : sst) :=
  Sst (pc s) (tw s) v (saved_state s) (pi_lock s) (condition s) (cond_wake s) (rt_free s) (rt_wake s).
Definition set_saved v (s : sst) :=
  Sst (pc s) (tw s) (__state s) v (pi_lock s) (condition s) (cond_wake s) (rt_free s) (rt_wake s).
Definition set_pi l (s : sst) :=
  Sst (pc s) (tw s) (__state s) (saved_state s) l (condition s) (cond_wake s) (rt_free s) (rt_wake s).
Definition set_cond c w (s : sst) :=
  Sst (pc s) (tw s) (__state s) (saved_state s) (pi_lock s) c w (rt_free s) (rt_wake s).
Definition set_rt f w (s : sst) :=
  Sst (pc s) (tw s) (__state s) (saved_state s) (pi_lock s) (condition s) (cond_wake s) f w.

(** The macros that only write the state; the barrier orders the write before the
    following read, as every access is here. *)
Definition set_current_state (v : Z) (s : sst) : sst := set_state v s.

Definition raw_spin_lock (w : owner) (s : sst) : option sst :=
  match pi_lock s with None => Some (set_pi (Some w) s) | Some _ => None end.

(** [schedule] and [schedule_rtlock] return once the task is running. *)
Definition schedule (s : sst) : option sst := if __state s =? TASK_RUNNING then Some s else None.

Definition resume (tested : bool) : spc := if tested then SSched else STest.

Definition rt_step (r : rpc) (tested : bool) (s : sst) : option sst :=
  match r with
  | RLock => set_pc (SRt RSave tested) <$> raw_spin_lock Sleeper s
  | RSave => Some (set_pc (SRt RSet tested) (set_saved (__state s) s))
  | RSet => Some (set_pc (SRt RUnlock tested) (set_state TASK_RTLOCK_WAIT s))
  | RUnlock => Some (set_pc (SRt RTry tested) (set_pi None s))
  | RTry => Some (set_pc (SRt (if rt_free s then RLock2 else RSched) tested) s)
  | RSched => set_pc (SRt RAgain tested) <$> schedule s
  | RAgain => Some (set_pc (SRt RTry tested) (set_current_state TASK_RTLOCK_WAIT s))
  | RLock2 => set_pc (SRt RRestore tested) <$> raw_spin_lock Sleeper s
  | RRestore => Some (set_pc (SRt RClear tested) (set_state (saved_state s) s))
  | RClear => Some (set_pc (SRt RUnlock2 tested) (set_saved TASK_RUNNING s))
  | RUnlock2 => Some (set_pc (resume tested) (set_pi None s))
  end.

(** One step of the sleeper; [lock] says whether it now has to acquire a sleeping
    lock first.  [None] when it has to wait. *)
Definition sleeper_step (lock : bool) (s : sst) : option sst :=
  match pc s with
  | SSet => Some (set_pc STest (set_current_state TASK_UNINTERRUPTIBLE s))
  | STest => if lock then Some (set_pc (SRt RLock false) s)
             else Some (set_pc (if condition s then SEnd else SSched) s)
  | SSched => if lock then Some (set_pc (SRt RLock true) s)
              else set_pc SSet <$> schedule s
  | SEnd => Some (set_pc SDone (set_current_state TASK_RUNNING s))
  | SDone => None
  | SRt r tested => rt_step r tested s
  end.

Section Machine.
Context (ttwu : Z -> Z -> Z -> wake).

Definition mask_of (c : caller) (any : Z) : Z :=
  match c with CCond => TASK_UNINTERRUPTIBLE | CRt => TASK_RTLOCK_WAIT | CAny => any end.

(** One step of a wake-up that has begun; [any] is the mask of one for another
    reason. *)
Definition wake_step (any : Z) (s : sst) : option sst :=
  match tw s with
  | TIdle => None
  | TTest c => Some (set_tw (match ttwu (mask_of c any) (__state s) (saved_state s) with
                             | WakeState => TStore c | WakeSaved => TStoreSaved c | WakeNone => TUnlock c
                             end) s)
  | TStore c => Some (set_tw (TUnlock c) (set_state TASK_RUNNING s))
  | TStoreSaved c => Some (set_tw (TUnlock c) (set_saved TASK_RUNNING s))
  | TUnlock _ => Some (set_tw TIdle (set_pi None s))
  end.

(** The beginning of a wake-up. *)
Definition wake_begin (c : caller) (s : sst) : option sst := set_tw (TTest c) <$> raw_spin_lock Waker s.

(** What may happen next, in any order: steps of the sleeper, of a wake-up under
    way, the beginning of one, the condition becoming true (once), the lock being
    taken and released by others. *)
Inductive move :=
  | MSleeper (lock : bool) | MWake (any : Z) | MAny | MCondition | MCondWake | MTake | MRelease | MRtWake.

Definition do_move (m : move) (s : sst) : option sst :=
  match m with
  | MSleeper lock => sleeper_step lock s
  | MWake any => wake_step any s
  | MAny => wake_begin CAny s
  | MCondition => if condition s then None else Some (set_cond true true s)
  | MCondWake => if cond_wake s then wake_begin CCond (set_cond (condition s) false s) else None
  | MTake => if rt_free s then Some (set_rt false (rt_wake s) s) else None
  | MRelease => if rt_free s then None else Some (set_rt true true s)
  | MRtWake => if rt_wake s then wake_begin CRt (set_rt (rt_free s) false s) else None
  end.

Definition sched_step (s s' : sst) : Prop := exists m, do_move m s = Some s'.

Fixpoint do_moves (ms : list move) (s : sst) : option sst :=
  match ms with [] => Some s | m :: ms => do_move m s ≫= do_moves ms end.

Lemma do_moves_rtc ms s s' : do_moves ms s = Some s' -> rtc sched_step s s'.
Proof.
  revert s. induction ms as [|m ms IH]; cbn; intros s H; [simplify_eq; apply rtc_refl|].
  destruct (do_move m s) as [s1|] eqn:E; [|done]. eapply rtc_l; [by exists m|by apply IH].
Qed.

Definition start (free : bool) : sst := Sst SSet TIdle TASK_RUNNING TASK_RUNNING None false false free false.

End Machine.

(** ** Invariant of the machine *)

(** The sleeper holds [pi_lock]; its state is in [saved_state]; it will sleep
    without reading the condition again. *)
Definition holds (p : spc) : bool :=
  match p with SRt (RSave | RSet | RUnlock | RRestore | RClear | RUnlock2) _ => true | _ => false end.
Definition window (p : spc) : bool :=
  match p with SRt (RUnlock | RTry | RSched | RAgain | RLock2 | RRestore) _ => true | _ => false end.
Definition watching (p : spc) : bool :=
  match p with SSched | SRt _ true => true | _ => false end.

(** The state that matters to the wait loop. *)
Definition eff (s : sst) : Z := if window (pc s) then saved_state s else __state s.

(** A store of TASK_RUNNING to that state is on its way. *)
Definition coming (s : sst) : Prop :=
  match tw s with TStore _ => window (pc s) = false | TStoreSaved _ => window (pc s) = true | _ => False end.

Definition lock_holder (s : sst) : option owner :=
  match tw s with TIdle => if holds (pc s) then Some Sleeper else None | _ => Some Waker end.

(** The saved state is in use only between saving and restoring. *)
Definition saved_ok (s : sst) : Prop :=
  match pc s with
  | SRt (RSet | RClear) _ => saved_state s = __state s
  | p => if window p then __state s = TASK_RTLOCK_WAIT \/ __state s = TASK_RUNNING else saved_state s = TASK_RUNNING
  end.

Definition cond_ok (s : sst) : Prop :=
  watching (pc s) = true -> condition s = true ->
  eff s = TASK_RUNNING \/ cond_wake s = true \/ tw s = TTest CCond \/ coming s.

Definition rt_ok (s : sst) : Prop :=
  match pc s with
  | SRt RSched _ => rt_free s = true ->
      __state s = TASK_RUNNING \/ rt_wake s = true \/ match tw s with TTest CRt | TStore _ => True | _ => False end
  | _ => True
  end.

Definition end_ok (s : sst) : Prop :=
  match pc s with SEnd => condition s = true | SDone => condition s = true /\ __state s = TASK_RUNNING | _ => True end.

Record sched_inv (s : sst) : Prop := {
  inv_lock : pi_lock s = lock_holder s;
  inv_excl : tw s <> TIdle -> holds (pc s) = false;
  inv_eff : eff s = TASK_UNINTERRUPTIBLE \/ eff s = TASK_RUNNING;
  inv_saved : saved_ok s;
  inv_cond : cond_ok s;
  inv_rt : rt_ok s;
  inv_end : end_ok s
}.

Ltac inv_unfold :=
  unfold cond_ok, rt_ok, end_ok, saved_ok, coming, lock_holder, eff, watching in *; cbn -[Z.eqb] in *.

(** Solves one case of the invariant after its program counters are known. *)
Ltac inv_case := inv_unfold; simplify_eq; split; inv_unfold; intuition congruence.

Section Invariant.
Context (ttwu : Z -> Z -> Z -> wake) `{!TryToWakeUp ttwu}.

Lemma sched_inv_start free : sched_inv (start free).
Proof. split; inv_unfold; naive_solver. Qed.

Lemma inv_sleeper lock s s' : sched_inv s -> sleeper_step lock s = Some s' -> sched_inv s'.
Proof.
  intros [Hl Hx He Hs Hc Hr Hd] H. destruct s as [p t st sv pi c cw rf rw].
  unfold sleeper_step, rt_step, raw_spin_lock, schedule, set_current_state, resume in H.
  destruct p as [| | | | |[] tested]; cbn -[Z.eqb] in H; repeat case_match; simplify_eq/=;
    repeat match goal with h : (_ =? _) = true |- _ => apply Z.eqb_eq in h; subst end.
  all: destruct t; inv_case.
Qed.

(** What the test of a wake-up decides: nothing is lost, because the store goes
    where the state that matters is. *)
Lemma ttwu_cond st sv :
  (st = TASK_UNINTERRUPTIBLE -> ttwu TASK_UNINTERRUPTIBLE st sv = WakeState) /\
  (st = TASK_RTLOCK_WAIT \/ st = TASK_RUNNING -> sv = TASK_UNINTERRUPTIBLE ->
   ttwu TASK_UNINTERRUPTIBLE st sv = WakeSaved).
Proof.
  split; [intros ->; by apply ttwu_state|].
  intros [->| ->] ->; by apply ttwu_saved.
Qed.

Lemma ttwu_rt sv : ttwu TASK_RTLOCK_WAIT TASK_RTLOCK_WAIT sv = WakeState.
Proof. by apply ttwu_state. Qed.

Lemma inv_test any c s :
  sched_inv s -> tw s = TTest c ->
  sched_inv (set_tw (match ttwu (mask_of c any) (__state s) (saved_state s) with
                     | WakeState => TStore c | WakeSaved => TStoreSaved c | WakeNone => TUnlock c end) s).
Proof.
  intros [Hl Hx He Hs Hc Hr Hd] Ht. destruct s as [p t st sv pi cd cw rf rw]. cbn in Ht. subst t.
  destruct (ttwu_cond st sv) as [T1 T2]. pose proof (ttwu_rt sv) as T3.
  split; cbn -[mask_of]; try done.
  - cbn in Hl. rewrite Hl. unfold lock_holder. cbn. clear. by destruct (ttwu _ _ _).
  - intros _. by apply Hx.
  - unfold cond_ok in *. cbn -[mask_of] in *. intros Hw Hcd. destruct (Hc Hw Hcd) as [?|[?|[[= ->]|[]]]]; auto.
    destruct He as [E|E]; [|auto]. do 3 right. unfold coming, eff, saved_ok in *. cbn in *.
    assert (Hn : holds p = false) by (apply Hx; done).
    destruct p as [| | | | |[] tested]; cbn in *; try discriminate;
      first [rewrite T1 by done; done|rewrite T2 by done; done].
  - unfold rt_ok in *. cbn -[mask_of] in *. destruct p as [| | | | |[] tested]; try done. intros Hf.
    destruct (Hr Hf) as [?|[?|?]]; auto. destruct c; try done. cbn.
    cbn in Hs. destruct Hs as [->| ->]; [rewrite T3|]; auto.
Qed.

(** A wake-up leaves the sleeper where it is; what it stores is TASK_RUNNING. *)
Lemma inv_wake any s s' : sched_inv s -> wake_step ttwu any s = Some s' -> sched_inv s'.
Proof.
  intros I H. unfold wake_step in H. destruct (tw s) as [|c|c|c|c] eqn:Ht; simplify_eq.
  { by apply inv_test. }
  all: destruct I as [Hl Hx He Hs Hc Hr Hd]; destruct s as [p t st sv pi cd cw rf rw]; cbn in Ht; subst t;
    destruct p as [| | | | |[] tested]; inv_case.
Qed.

Lemma inv_begin c s : sched_inv s -> pi_lock s = None -> sched_inv (set_tw (TTest c) (set_pi (Some Waker) s)).
Proof.
  intros [Hl Hx He Hs Hc Hr Hd] Hp. destruct s as [p t st sv pi cd cw rf rw]. cbn in Hp. subst pi.
  destruct t; [|discriminate..]. destruct p as [| | | | |[] tested]; inv_case.
Qed.

Lemma wake_begin_inv c s s' :
  wake_begin c s = Some s' -> pi_lock s = None /\ s' = set_tw (TTest c) (set_pi (Some Waker) s).
Proof. unfold wake_begin, raw_spin_lock. destruct (pi_lock s); naive_solver. Qed.

(** Taking note of a wake-up to come, or handing it over to the one that begins. *)
Lemma inv_hand_cond s : sched_inv s -> tw s = TTest CCond -> sched_inv (set_cond (condition s) false s).
Proof. intros [Hl Hx He Hs Hc Hr Hd] Ht. split; try done. intros _ _. auto. Qed.

Lemma inv_hand_rt s : sched_inv s -> tw s = TTest CRt -> sched_inv (set_rt (rt_free s) false s).
Proof.
  intros [Hl Hx He Hs Hc Hr Hd] Ht. split; try done. unfold rt_ok in *. cbn in *. rewrite Ht.
  destruct (pc s) as [| | | | |[] tested]; auto.
Qed.

Lemma inv_move s s' : sched_inv s -> sched_step ttwu s s' -> sched_inv s'.
Proof.
  intros I [m H]. destruct m as [lock|any| | | | | |]; cbn in H; try (case_match; simplify_eq).
  - by eapply inv_sleeper.
  - by eapply inv_wake.
  - apply wake_begin_inv in H as [Hp ->]. by apply inv_begin.
  - destruct I as [Hl Hx He Hs Hc Hr Hd]. split; try done.
    + intros _ _. cbn. auto.
    + unfold end_ok in *. cbn in *. destruct (pc s); naive_solver.
  - apply wake_begin_inv in H as [Hp ->]. by apply (inv_hand_cond _ (inv_begin CCond s I Hp)).
  - destruct I as [Hl Hx He Hs Hc Hr Hd]. split; try done.
    unfold rt_ok. cbn. destruct (pc s) as [| | | | |[] tested]; done.
  - destruct I as [Hl Hx He Hs Hc Hr Hd]. split; try done.
    unfold rt_ok. cbn. destruct (pc s) as [| | | | |[] tested]; auto.
  - apply wake_begin_inv in H as [Hp ->]. by apply (inv_hand_rt _ (inv_begin CRt s I Hp)).
Qed.

Lemma inv_reachable free s : rtc (sched_step ttwu) (start free) s -> sched_inv s.
Proof.
  intros H. assert (sched_inv (start free)) as I by apply sched_inv_start. revert I.
  induction H as [|s s1 s2 Hs _ IH]; [done|]. intros I. apply IH. by eapply inv_move.
Qed.
End Invariant.

(** ** Theorems *)

Fixpoint sleeper_run (n : nat) (s : sst) : option sst :=
  match n with
  | O => Some s
  | S n => match pc s with SDone => Some s | _ => sleeper_step false s ≫= sleeper_run n end
  end.

(** Nothing is under way: every wake-up that is owed has been made. *)
Definition settled (s : sst) : bool :=
  negb (cond_wake s) && negb (rt_wake s) && match tw s with TIdle => true | _ => false end.

Lemma settled_true s : settled s = true <-> cond_wake s = false /\ rt_wake s = false /\ tw s = TIdle.
Proof. unfold settled. destruct (cond_wake s), (rt_wake s), (tw s); naive_solver. Qed.

(** C20: no wake-up is lost.  Whatever the interleaving of the wait loop, the lock
    loop inside it, the task that makes the condition true, the owners of the lock
    and any other wake-ups: once the wake-ups owed have been made, a task asleep
    in [schedule] with its condition true has been set running, a task asleep
    for a lock that is free has been set running, and a task that left the loop
    saw its condition and has its state and saved state back to TASK_RUNNING. *)
Theorem no_lost_wakeup ttwu free s :
  TryToWakeUp ttwu -> rtc (sched_step ttwu) (start free) s ->
  (settled s = true -> pc s = SSched -> condition s = true -> __state s = TASK_RUNNING) /\
  (settled s = true -> forall b, pc s = SRt RSched b -> rt_free s = true -> __state s = TASK_RUNNING) /\
  (pc s = SDone -> condition s = true /\ __state s = TASK_RUNNING /\ saved_state s = TASK_RUNNING).
Proof.
  intros T H. apply inv_reachable in H as [Hl Hx He Hs Hc Hr Hd]; [|done]. rewrite settled_true.
  destruct s as [p t st sv pi c cw rf rw]. inv_unfold. split; [|split].
  - intros (-> & -> & ->) -> ->. naive_solver.
  - intros (-> & -> & ->) b -> ->. naive_solver.
  - intros ->. naive_solver.
Qed.

(** C25: the wait ends: when the condition is true, the lock is free and the
    wake-ups owed have been made, the sleeper returns from wherever it is in the
    two loops within sixteen steps of its own. *)
Theorem wait_returns ttwu free s :
  TryToWakeUp ttwu -> rtc (sched_step ttwu) (start free) s ->
  settled s = true -> condition s = true -> rt_free s = true ->
  exists s', sleeper_run 16 s = Some s' /\ pc s' = SDone.
Proof.
  intros T H. apply inv_reachable in H as [Hl Hx He Hs Hc Hr Hd]; [|done]. rewrite settled_true.
  intros (Hcw & Hrw & Ht) Hcd Hrf. destruct s as [p t st sv pi c cw rf rw]. cbn in Hcw, Hrw, Ht, Hcd, Hrf. subst.
  unfold cond_ok, rt_ok, end_ok, saved_ok, coming, lock_holder, eff, watching in *.
  destruct p as [| | | | |[] []]; cbn -[Z.eqb] in Hl, He, Hs, Hc, Hr, Hd; subst;
    repeat match goal with
    | h : true = true -> true = true -> _ |- _ => specialize (h eq_refl eq_refl)
    | h : true = true -> _ |- _ => specialize (h eq_refl)
    end.
  all: try (destruct Hr as [->|[?|[]]]; [|discriminate]).
  all: try (destruct Hc as [->|[?|[?|[]]]]; [|discriminate..]).
  all: eexists; split; [vm_compute; reflexivity|reflexivity].
Qed.

(** A run: the sleeper saw its condition false and now waits for a lock held by
    another; then the condition becomes true, its wake-up is made, the lock is
    released and its wake-up is made.  The first wake-up takes [n] steps. *)
Definition wakeup_in_lock (n : nat) : list move :=
  [MSleeper false; MSleeper false; MSleeper true] ++ replicate 5 (MSleeper false) ++
  [MCondition; MCondWake] ++ replicate n (MWake 0) ++ [MRelease; MRtWake; MWake 0; MWake 0; MWake 0].

Definition woken : sst := Sst (SRt RSched true) TIdle TASK_RUNNING TASK_RUNNING None true false true false.

Lemma woken_run : do_moves ttwu_match (wakeup_in_lock 3) (start false) = Some woken.
Proof. reflexivity. Qed.

Lemma no_lost_wakeup_witness :
  (settled woken = true -> pc woken = SSched -> condition woken = true -> __state woken = TASK_RUNNING) /\
  (settled woken = true -> forall b, pc woken = SRt RSched b -> rt_free woken = true -> __state woken = TASK_RUNNING) /\
  (pc woken = SDone -> condition woken = true /\ __state woken = TASK_RUNNING /\ saved_state woken = TASK_RUNNING).
Proof.
  apply (no_lost_wakeup ttwu_match false); [exact ttwu_match_ok|].
  apply (do_moves_rtc _ (wakeup_in_lock 3)). exact woken_run.
Defined.

Lemma wait_returns_witness : exists s', sleeper_run 16 woken = Some s' /\ pc s' = SDone.
Proof.
  apply (wait_returns ttwu_match false); [exact ttwu_match_ok| |reflexivity..].
  apply (do_moves_rtc _ (wakeup_in_lock 3)). exact woken_run.
Defined.

(** The redirection is needed: with wake-ups that look at the state only, the same
    run leaves the sleeper asleep for ever although its condition is true. *)
Definition ttwu_state_only (mask state _ : Z) : wake := if hasb state mask then WakeState else WakeNone.

Example wakeup_lost_without_redirection :
  do_moves ttwu_state_only (wakeup_in_lock 2 ++ replicate 7 (MSleeper false)) (start false) =
  Some (Sst SSched TIdle TASK_UNINTERRUPTIBLE TASK_RUNNING None true false true false).
Proof. reflexivity. Qed.

(** ** State letters *)

(** The letter of the highest reported bit, by name. *)
Definition report_letter (bits : Z) : ascii :=
  if hasb bits TASK_PARKED then "P"%char
  else if hasb bits EXIT_ZOMBIE then "Z"%char
  else if hasb bits EXIT_DEAD then "X"%char
  else if hasb bits __TASK_TRACED then "t"%char
  else if hasb bits __TASK_STOPPED then "T"%char
  else if hasb bits TASK_UNINTERRUPTIBLE then "D"%char
  else if hasb bits TASK_INTERRUPTIBLE then "S"%char
  else "R"%char.

Definition reported_ok (x : Z) : bool :=
  match task_index_to_char (fls x) with Ok c => bool_decide (c = report_letter x) | Fault _ => false end.

Lemma reported_all : forallb (fun n => reported_ok (Z.of_nat n)) (seq 0 128) = true.
Proof. vm_compute. reflexivity. Qed.

Lemma reported x : 0 <= x < 128 -> task_index_to_char (fls x) = Ok (report_letter x).
Proof.
  intros Hx. pose proof (proj1 (forallb_forall _ _) reported_all (Z.to_nat x)) as H.
  cbn beta in H. rewrite Z2Nat.id in H by lia. specialize (H ltac:(apply in_seq; lia)). unfold reported_ok in H.
  destruct (task_index_to_char (fls x)); [|done]. apply bool_decide_eq_true in H. by subst.
Qed.

Lemma land_report_range x : 0 <= Z.land x TASK_REPORT < 128.
Proof.
  change TASK_REPORT with (Z.ones 7). rewrite Z.land_ones by lia. apply Z.mod_pos_bound. lia.
Qed.

Lemma hasb_land_report x m : Z.land TASK_REPORT m = m -> hasb (Z.land x TASK_REPORT) m = hasb x m.
Proof. intros H. unfold hasb. by rewrite <- Z.land_assoc, H. Qed.

(** The two assertions made when the code is compiled. *)
Lemma state_table_fits : (exists k, TASK_REPORT_MAX = 2 ^ k) /\ 1 + Z.log2 TASK_REPORT_MAX = Z.of_nat (length state_char).
Proof. split; [by exists 8|reflexivity]. Qed.

(** Every task has a letter, the access to the table is in bounds, and the letter
    is that of the highest state reported, with the two states that are shown as
    something else; whatever else is set in the words. *)
Theorem state_letter_correct tsk_state exit_state :
  task_state_to_char tsk_state exit_state =
  Ok (if tsk_state =? TASK_RTLOCK_WAIT then "D"%char
      else if tsk_state =? TASK_IDLE then "I"%char
      else report_letter (Z.lor tsk_state exit_state)).
Proof.
  unfold task_state_to_char, task_state_index.
  destruct (tsk_state =? TASK_RTLOCK_WAIT); [reflexivity|]. destruct (tsk_state =? TASK_IDLE); [reflexivity|].
  rewrite reported by apply land_report_range. unfold report_letter. by rewrite !hasb_land_report.
Qed.

(** ** Flags *)

(** Restoring writes back the saved value of exactly the bits named. *)
Lemma restore_flags_bits orig flags cur n :
  0 <= n < 32 ->
  Z.testbit (current_restore_flags orig flags cur) n = if Z.testbit flags n then Z.testbit orig n else Z.testbit cur n.
Proof.
  intros Hn. unfold current_restore_flags, uwrap.
  rewrite Z.mod_pow2_bits_low by lia. rewrite Z.lor_spec, Z.mod_pow2_bits_low by lia.
  rewrite !Z.land_spec, Z.mod_pow2_bits_low by lia. rewrite Z.lnot_spec by lia.
  destruct (Z.testbit flags n), (Z.testbit orig n), (Z.testbit cur n); done.
Qed.

(** Changes to the bits named are undone, changes to others kept. *)
Lemma restore_flags_undoes orig flags cur :
  is_u 32 orig -> is_u 32 cur -> Z.ldiff cur flags = Z.ldiff orig flags ->
  current_restore_flags orig flags cur = orig.
Proof.
  intros Ho Hc He. apply Z.bits_inj'. intros n Hn. destruct (Z.lt_ge_cases n 32) as [Hl|Hl].
  - rewrite restore_flags_bits by lia. apply (f_equal (fun z => Z.testbit z n)) in He.
    rewrite !Z.ldiff_spec in He. destruct (Z.testbit flags n), (Z.testbit orig n), (Z.testbit cur n); done.
  - unfold current_restore_flags, uwrap. rewrite Z.mod_pow2_bits_high by lia.
    rewrite <- (Z.mod_small orig (2 ^ 32)) by exact Ho. by rewrite Z.mod_pow2_bits_high by lia.
Qed.

Lemma pfa_bit_inj n m : pfa_bit n = pfa_bit m -> n = m.
Proof. by destruct n, m. Qed.

Lemma pfa_test_set n m f : TASK_PFA_TEST n (TASK_PFA_SET m f) = (pfa_bit m =? pfa_bit n) || TASK_PFA_TEST n f.
Proof.
  unfold TASK_PFA_TEST, TASK_PFA_SET. by rewrite Z.setbit_eqb by (destruct m; cbn; lia).
Qed.

Lemma pfa_test_clear n m f :
  TASK_PFA_TEST n (TASK_PFA_CLEAR m f) = negb (pfa_bit m =? pfa_bit n) && TASK_PFA_TEST n f.
Proof.
  unfold TASK_PFA_TEST, TASK_PFA_CLEAR. by rewrite Z.clearbit_eqb, andb_comm.
Qed.

(** What a task gave up stays given up: through the accessors of the header, no
    sequence of changes clears no_new_privs or a forced mitigation. *)
Theorem given_up_for_good n f f' :
  clearable n = false -> rtc pfa_step f f' -> TASK_PFA_TEST n f = true -> TASK_PFA_TEST n f' = true.
Proof.
  intros Hn H. induction H as [|f f1 f2 Hs _ IH]; [done|]. intros Ht. apply IH.
  destruct Hs as [m|m Hm]; [rewrite pfa_test_set, Ht; by rewrite orb_true_r|].
  rewrite pfa_test_clear, Ht, andb_true_r. apply negb_true_iff, Z.eqb_neq. intros E.
  apply pfa_bit_inj in E. subst. congruence.
Qed.

(** ** Restartable sequences *)

(** A new thread in the same address space starts unregistered, a new process
    keeps its parent's registration with the events pending for it, and whoever is
    registered is told on its way to user space of every event recorded. *)
Theorem rseq_inherited current t fl bit :
  0 <= bit ->
  let c := rseq_fork current t fl in
  (hasb fl CLONE_VM = true -> rseq c = NULL /\ rseq_event_mask c = 0) /\
  (hasb fl CLONE_VM = false -> rseq c = rseq current /\ rseq_event_mask c = rseq_event_mask current) /\
  Z.testbit (rseq_event_mask (rseq_event bit c)) bit = true /\
  (rseq c <> NULL -> notify_resume (rseq_event bit c) = true) /\
  rseq (rseq_execve (rseq_event bit c)) = NULL.
Proof.
  intros Hb c. subst c. unfold rseq_fork, rseq_event, rseq_set_notify_resume. destruct (hasb fl CLONE_VM); cbn.
  - rewrite Z.setbit_eq by lia. naive_solver.
  - destruct (Z.eqb_spec (rseq current) NULL); cbn; rewrite ?Z.setbit_eq by lia; naive_solver.
Qed.
