(* ===== verification/TaskFlags.v ===== *)
(** * TaskFlags: the flag words of a task

    Models the per-process flags of [include/linux/sched.h] ([tsk->flags], not
    atomic) with the macros that change them and the changes [copy_process] makes,
    the thread flags ([thread_info], atomic), and the small predicates over them;
    also the two helpers of [include/linux/syscalls.h] that keep state.

    An update such as [flags |= x] is a load and a store.  The comment in sched.h
    says why no lock is needed: only the task itself writes its flags, or its
    tracer or creator while the task is not running.  [fstep] runs the loads and
    stores of any number of tasks under that rule, and [flag_updates_atomic] shows
    that they behave like atomic updates. *)

From Stdlib Require Import ZArith Lia.
From stdpp Require Import base gmap list relations.
From S2P Require Import Prelude.

(** ** Per process flags *)

Definition PF_VCPU : Z := 0x00000001.
Definition PF_IDLE : Z := 0x00000002.
Definition PF_EXITING : Z := 0x00000004.
Definition PF_IO_WORKER : Z := 0x00000010.
Definition PF_WQ_WORKER : Z := 0x00000020.
Definition PF_FORKNOEXEC : Z := 0x00000040.
Definition PF_MCE_PROCESS : Z := 0x00000080.
Definition PF_SUPERPRIV : Z := 0x00000100.
Definition PF_DUMPCORE : Z := 0x00000200.
Definition PF_SIGNALED : Z := 0x00000400.
Definition PF_MEMALLOC : Z := 0x00000800.
Definition PF_NPROC_EXCEEDED : Z := 0x00001000.
Definition PF_USED_MATH : Z := 0x00002000.
Definition PF_NOFREEZE : Z := 0x00008000.
Definition PF_FROZEN : Z := 0x00010000.
Definition PF_KSWAPD : Z := 0x00020000.
Definition PF_MEMALLOC_NOFS : Z := 0x00040000.
Definition PF_MEMALLOC_NOIO : Z := 0x00080000.
Definition PF_LOCAL_THROTTLE : Z := 0x00100000.
Definition PF_KTHREAD : Z := 0x00200000.
Definition PF_RANDOMIZE : Z := 0x00400000.
Definition PF_SWAPWRITE : Z := 0x00800000.
Definition PF_NO_SETAFFINITY : Z := 0x04000000.
Definition PF_MCE_EARLY : Z := 0x08000000.
Definition PF_MEMALLOC_PIN : Z := 0x10000000.
Definition PF_FREEZER_SKIP : Z := 0x40000000.
Definition PF_SUSPEND_TASK : Z := 0x80000000.

Definition PF_all : list Z :=
  [PF_VCPU; PF_IDLE; PF_EXITING; PF_IO_WORKER; PF_WQ_WORKER; PF_FORKNOEXEC; PF_MCE_PROCESS; PF_SUPERPRIV;
   PF_DUMPCORE; PF_SIGNALED; PF_MEMALLOC; PF_NPROC_EXCEEDED; PF_USED_MATH; PF_NOFREEZE; PF_FROZEN; PF_KSWAPD;
   PF_MEMALLOC_NOFS; PF_MEMALLOC_NOIO; PF_LOCAL_THROTTLE; PF_KTHREAD; PF_RANDOMIZE; PF_SWAPWRITE;
   PF_NO_SETAFFINITY; PF_MCE_EARLY; PF_MEMALLOC_PIN; PF_FREEZER_SKIP; PF_SUSPEND_TASK].

(** Each flag is one bit of a 32-bit word, and no two share one. *)
Theorem pf_flags_distinct :
  Forall (fun f => exists n, 0 <= n < 32 /\ f = 2 ^ n) PF_all /\ NoDup PF_all.
Proof.
  split.
  - repeat constructor;
      match goal with |- exists n, _ /\ ?f = _ => exists (Z.log2 f); split; [vm_compute; by split|reflexivity] end.
  - apply (bool_decide_eq_true_1 (NoDup PF_all)). vm_compute. reflexivity.
Qed.

(** *** Updates *)

(** One assignment: [flags |= m], [flags &= ~m], and [flags |= current->flags & m]. *)
Inductive fop := OrMask (m : Z) | AndNot (m : Z) | OrOwn (m : Z).

(** The new value of the word, given the flags of the task that executes it. *)
Definition apply_fop (op : fop) (own v : Z) : Z :=
  match op with
  | OrMask m => Z.lor v m
  | AndNot m => Z.ldiff v m
  | OrOwn m => Z.lor v (Z.land own m)
  end.

Definition apply_fops (ops : list fop) (own v : Z) : Z := fold_left (fun v op => apply_fop op own v) ops v.

Definition clear_stopped_child_used_math : list fop := [AndNot PF_USED_MATH].
Definition set_stopped_child_used_math : list fop := [OrMask PF_USED_MATH].
Definition conditional_stopped_child_used_math (condition : bool) : list fop :=
  [AndNot PF_USED_MATH; OrMask (if condition then PF_USED_MATH else 0)].
Definition copy_to_stopped_child_used_math : list fop := [AndNot PF_USED_MATH; OrOwn PF_USED_MATH].
Definition tsk_used_math (flags : Z) : Z := Z.land flags PF_USED_MATH.

(** What [copy_process] does to the flags of the child, and to those of the
    caller. *)
Definition fork_child_ops (io_thread : bool) : list fop :=
  (if io_thread then [OrMask PF_IO_WORKER] else []) ++
  [AndNot (Z.lor PF_SUPERPRIV (Z.lor PF_WQ_WORKER (Z.lor PF_IDLE PF_NO_SETAFFINITY))); OrMask PF_FORKNOEXEC].
Definition fork_caller_ops : list fop := [AndNot PF_NPROC_EXCEEDED].

Definition is_idle_task (flags : Z) : bool := hasb flags PF_IDLE.
Definition is_percpu_thread (smp : bool) (flags nr_cpus_allowed : Z) : bool :=
  if smp then hasb flags PF_NO_SETAFFINITY && (nr_cpus_allowed =? 1) else true.

Lemma hasb_pow2 f n : 0 <= n -> hasb f (2 ^ n) = Z.testbit f n.
Proof.
  intros Hn. unfold hasb. destruct (Z.testbit f n) eqn:E.
  - apply negb_true_iff, Z.eqb_neq. intros H0. assert (Z.testbit (Z.land f (2 ^ n)) n = true) as H.
    { by rewrite Z.land_spec, E, Z.pow2_bits_true. }
    by rewrite H0, Z.bits_0 in H.
  - apply negb_false_iff, Z.eqb_eq, Z.bits_inj'. intros k Hk. rewrite Z.land_spec, Z.bits_0, Z.pow2_bits_eqb by done.
    destruct (Z.eqb_spec n k) as [->|Hne]; [by rewrite E|by rewrite andb_false_r].
Qed.

(** The bits a mask names, as tests of single bits. *)
Lemma testbit_const (c n k : Z) : 0 <= n -> c = 2 ^ n -> Z.testbit c k = (n =? k).
Proof. intros Hn ->. by apply Z.pow2_bits_eqb. Qed.

Ltac pf_bits :=
  rewrite ?(testbit_const PF_USED_MATH 13), ?(testbit_const PF_IO_WORKER 4), ?(testbit_const PF_SUPERPRIV 8),
    ?(testbit_const PF_WQ_WORKER 5), ?(testbit_const PF_IDLE 1), ?(testbit_const PF_NO_SETAFFINITY 26),
    ?(testbit_const PF_FORKNOEXEC 6) by (lia || reflexivity).

(** The macros change that one bit, to the value their names say; the last returns
    0 or the flag, never 1. *)
Theorem used_math_macros own v k c :
  0 <= k ->
  Z.testbit (apply_fops clear_stopped_child_used_math own v) k = Z.testbit v k && negb (13 =? k) /\
  Z.testbit (apply_fops set_stopped_child_used_math own v) k = Z.testbit v k || (13 =? k) /\
  Z.testbit (apply_fops (conditional_stopped_child_used_math c) own v) k
    = (if 13 =? k then c else Z.testbit v k) /\
  Z.testbit (apply_fops copy_to_stopped_child_used_math own v) k
    = (if 13 =? k then Z.testbit own k else Z.testbit v k) /\
  (tsk_used_math v = 0 \/ tsk_used_math v = PF_USED_MATH).
Proof.
  intros Hk. unfold apply_fops. cbn [fold_left clear_stopped_child_used_math set_stopped_child_used_math
    conditional_stopped_child_used_math copy_to_stopped_child_used_math apply_fop].
  split_and!.
  - rewrite Z.ldiff_spec. by pf_bits.
  - rewrite Z.lor_spec. by pf_bits.
  - rewrite Z.lor_spec, Z.ldiff_spec. destruct c; rewrite ?Z.bits_0; pf_bits;
      destruct (13 =? k), (Z.testbit v k); done.
  - rewrite Z.lor_spec, Z.land_spec, Z.ldiff_spec. pf_bits. destruct (13 =? k), (Z.testbit v k), (Z.testbit own k); done.
  - unfold tsk_used_math. pose proof (hasb_pow2 v 13 ltac:(lia)) as H. unfold hasb in H.
    change (2 ^ 13) with PF_USED_MATH in H.
    destruct (Z.testbit v 13) eqn:E; [right|left; by apply negb_false_iff, Z.eqb_eq in H].
    apply Z.bits_inj'. intros j Hj. rewrite Z.land_spec. pf_bits.
    destruct (Z.eqb_spec 13 j) as [<-|]; [by rewrite E|by rewrite andb_false_r].
Qed.

(** A new task is marked as not having executed a program, and is no idle task, no
    workqueue worker and not bound to a processor, whatever its creator is; every
    other flag is the creator's, and it is an io worker if it was created as one. *)
Theorem fork_child_flags io own v k nr :
  0 <= k ->
  let c := apply_fops (fork_child_ops io) own v in
  Z.testbit c k =
    (if (k =? 8) || (k =? 5) || (k =? 1) || (k =? 26) then false
     else if k =? 6 then true else if k =? 4 then io || Z.testbit v k else Z.testbit v k) /\
  is_idle_task c = false /\ is_percpu_thread true c nr = false.
Proof.
  intros Hk c.
  assert (forall j, 0 <= j -> Z.testbit c j =
    (if (j =? 8) || (j =? 5) || (j =? 1) || (j =? 26) then false
     else if j =? 6 then true else if j =? 4 then io || Z.testbit v j else Z.testbit v j)) as Hb.
  { intros j Hj. unfold c, apply_fops, fork_child_ops.
    destruct io; cbn [app fold_left apply_fop]; rewrite !Z.lor_spec, Z.ldiff_spec, !Z.lor_spec; pf_bits;
      rewrite ?(Z.eqb_sym 8 j), ?(Z.eqb_sym 5 j), ?(Z.eqb_sym 1 j), ?(Z.eqb_sym 26 j), ?(Z.eqb_sym 6 j), ?(Z.eqb_sym 4 j);
      destruct (j =? 8) eqn:E8, (j =? 5) eqn:E5, (j =? 1) eqn:E1, (j =? 26) eqn:E26; cbn [orb negb];
      rewrite ?andb_false_r, ?andb_true_r; destruct (j =? 6) eqn:E6;
      rewrite ?Z.eqb_eq in *; try lia; destruct (j =? 4); by rewrite ?orb_false_r, ?orb_true_r. }
  split_and!; [by apply Hb|..]; unfold is_idle_task, is_percpu_thread.
  - change PF_IDLE with (2 ^ 1). by rewrite hasb_pow2, Hb by lia.
  - change PF_NO_SETAFFINITY with (2 ^ 26). by rewrite hasb_pow2, Hb by lia.
Qed.

(** ** Loads and stores of many tasks *)

(** A task runs, or is stopped (or not started) under a controller: its tracer, or
    the task that is creating it. *)
Inductive run_state := Active | Under (controller : Z).
#[global] Instance run_state_eq_dec : EqDecision run_state.
Proof. solve_decision. Defined.

(** The flags and the state of every task: what an observer sees. *)
Record tflags := TFlags { word : gmap Z Z; rstate : gmap Z run_state }.

(** An assignment between its load and its store. *)
Record midway := Midway { target : Z; what : fop; seen : Z; seen_own : Z }.

Record fstate := FState { shared : tflags; mid : gmap Z midway }.

(** Who may write the flags of [t]. *)
Definition may_write (a t : Z) (s : tflags) : bool :=
  bool_decide (rstate s !! a = Some Active) &&
  (bool_decide (a = t) || bool_decide (rstate s !! t = Some (Under a))).

Inductive fevent :=
| Load (a t : Z) (op : fop)
| Store (a : Z)
| Stop (t controller : Z)         (** a task stops itself, between assignments *)
| Resume (t : Z)                  (** by its controller, or a wake-up *)
| Fork (a c : Z)                  (** [dup_task_struct]: the child has the flags of its creator *)
| Exit (t : Z).

Definition idle_actor (a : Z) (s : fstate) : bool := bool_decide (mid s !! a = None).
Definition untouched (t : Z) (s : fstate) : bool := bool_decide (map_Forall (fun _ p => target p <> t) (mid s)).
Definition controls_none (a : Z) (s : tflags) : bool :=
  bool_decide (map_Forall (fun _ r => r <> Under a) (rstate s)).

Definition set_word (t v : Z) (s : tflags) : tflags := TFlags (<[t := v]> (word s)) (rstate s).
Definition set_rstate (t : Z) (r : run_state) (s : tflags) : tflags := TFlags (word s) (<[t := r]> (rstate s)).

Definition fdo (e : fevent) (s : fstate) : option fstate :=
  let g := shared s in
  match e with
  | Load a t op =>
      v ← word g !! t; own ← word g !! a;
      if may_write a t g && idle_actor a s then Some (FState g (<[a := Midway t op v own]> (mid s))) else None
  | Store a =>
      p ← mid s !! a;
      Some (FState (set_word (target p) (apply_fop (what p) (seen_own p) (seen p)) g) (delete a (mid s)))
  | Stop t c =>
      if bool_decide (rstate g !! t = Some Active) && idle_actor t s && negb (t =? c) then
        Some (FState (set_rstate t (Under c) g) (mid s)) else None
  | Resume t =>
      match rstate g !! t with
      | Some (Under _) => if untouched t s then Some (FState (set_rstate t Active g) (mid s)) else None
      | _ => None
      end
  | Fork a c =>
      v ← word g !! a;
      if bool_decide (rstate g !! a = Some Active) && idle_actor a s && bool_decide (rstate g !! c = None)
      then Some (FState (set_rstate c (Under a) (set_word c v g)) (mid s)) else None
  | Exit t =>
      if bool_decide (rstate g !! t = Some Active) && idle_actor t s && controls_none t g then
        Some (FState (TFlags (delete t (word g)) (delete t (rstate g))) (mid s)) else None
  end.

Definition fstep (s s' : fstate) : Prop := exists e, fdo e s = Some s'.

(** The same with atomic updates. *)
Inductive astep : tflags -> tflags -> Prop :=
| a_update a t op v own g :
    may_write a t g = true -> word g !! t = Some v -> word g !! a = Some own ->
    astep g (set_word t (apply_fop op own v) g)
| a_stop t c g : rstate g !! t = Some Active -> t <> c -> astep g (set_rstate t (Under c) g)
| a_resume t c g : rstate g !! t = Some (Under c) -> astep g (set_rstate t Active g)
| a_fork a c v g :
    rstate g !! a = Some Active -> word g !! a = Some v -> rstate g !! c = None ->
    astep g (set_rstate c (Under a) (set_word c v g))
| a_exit t g :
    rstate g !! t = Some Active -> controls_none t g = true ->
    astep g (TFlags (delete t (word g)) (delete t (rstate g))).

(** What was loaded is still there, and the right to write too. *)
Definition mid_ok (g : tflags) (a : Z) (p : midway) : Prop :=
  may_write a (target p) g = true /\ word g !! target p = Some (seen p) /\ word g !! a = Some (seen_own p).

Definition finv (s : fstate) : Prop := map_Forall (mid_ok (shared s)) (mid s).

Lemma may_write_spec a t g :
  may_write a t g = true <-> rstate g !! a = Some Active /\ (a = t \/ rstate g !! t = Some (Under a)).
Proof. unfold may_write. by rewrite andb_true_iff, orb_true_iff, !bool_decide_eq_true. Qed.

(** Two different tasks never have a right to the same word. *)
Lemma may_write_unique a b t g : may_write a t g = true -> may_write b t g = true -> a = b.
Proof. rewrite !may_write_spec. intros [H1 [->|H2]] [H3 [->|H4]]; congruence. Qed.

(** An assignment under way is not disturbed by changes elsewhere. *)
Lemma mid_ok_frame g g' a p :
  mid_ok g a p ->
  word g' !! a = word g !! a -> word g' !! target p = word g !! target p ->
  rstate g' !! a = rstate g !! a -> rstate g' !! target p = rstate g !! target p -> mid_ok g' a p.
Proof. intros (H1 & H2 & H3) E1 E2 E3 E4. unfold mid_ok. rewrite may_write_spec in *. by rewrite E1, E2, E3, E4. Qed.

(** The state of one task changes, on which no assignment under way depends. *)
Lemma mids_rstate g t r (ms : gmap Z midway) :
  map_Forall (mid_ok g) ms -> (forall a p, ms !! a = Some p -> a <> t /\ target p <> t) ->
  map_Forall (mid_ok (set_rstate t r g)) ms.
Proof.
  intros Hm Ht a p Hp. destruct (Ht a p Hp) as [H1 H2].
  apply (mid_ok_frame g); [by apply Hm|done|done|by apply lookup_insert_ne|by apply lookup_insert_ne].
Qed.

(** A store: the other assignments concern other words. *)
Lemma store_inv s a p :
  finv s -> mid s !! a = Some p ->
  finv (FState (set_word (target p) (apply_fop (what p) (seen_own p) (seen p)) (shared s)) (delete a (mid s))).
Proof.
  intros HI Hp b q. cbn. intros [Hne Hq]%lookup_delete_Some.
  destruct (HI a p Hp) as (Ha & _), (HI b q Hq) as (Hb & Hv & Ho).
  assert (target p <> b) as Hpb.
  { intros E. rewrite E in Ha. apply may_write_spec in Ha, Hb. destruct Ha as [_ [?|Ha]], Hb as [Hb _]; congruence. }
  assert (target p <> target q) as Hpq.
  { intros E. rewrite E in Ha. apply Hne. by eapply may_write_unique. }
  apply (mid_ok_frame (shared s)); [done|by apply lookup_insert_ne|by apply lookup_insert_ne|done|done].
Qed.

Lemma fstep_refines s s' :
  finv s -> fstep s s' -> finv s' /\ (shared s' = shared s \/ astep (shared s) (shared s')).
Proof.
  intros HI [e He]. destruct s as [g ms]. unfold finv in HI. cbn [shared mid] in HI.
  assert (forall t, rstate g !! t = Some Active -> ms !! t = None ->
            forall a p, ms !! a = Some p -> a <> t /\ target p <> t) as Hfree.
  { intros t Ht Hm a p Hp. destruct (HI a p Hp) as (Hw & _). apply may_write_spec in Hw as [_ Hw].
    split; [congruence|]. intros E. rewrite E in Hw. destruct Hw as [Ha|Hw]; [subst a; congruence|]. rewrite Ht in Hw. done. }
  destruct e as [a t op|a|t c|t|a c|t]; cbn in He; unfold mbind, option_bind in He;
    repeat (case_match; [|done]); unfold idle_actor, untouched in *; cbn in *;
    rewrite ?andb_true_iff, ?bool_decide_eq_true, ?negb_true_iff, ?Z.eqb_neq in *; destruct_and?; try (injection He as <-); cbn.
  - split; [|by left]. intros b q Hb. cbn in Hb. apply lookup_insert_Some in Hb as [[<- <-]|[Hne Hq]]; [done|by apply HI].
  - split; [by apply (store_inv (FState g ms))|right].
    match goal with H : ms !! a = Some ?p |- _ => destruct (HI a p H) as (H1 & H2 & H3) end.
    by eapply a_update.
  - split; [by apply mids_rstate; [|apply Hfree]|right]. by apply a_stop.
  - match goal with H : rstate g !! t = Some ?r |- _ => rename H into Ht; destruct r as [|c]; [done|] end.
    destruct (bool_decide _) eqn:Hu; [|done].
    apply bool_decide_eq_true in Hu. injection He as <-. cbn. split; [|right; by eapply a_resume].
    apply mids_rstate; [done|]. intros a p Hp. split; [|by apply (Hu a p)].
    destruct (HI a p Hp) as (Hw & _). apply may_write_spec in Hw as [Hw _]. congruence.
  - split; [|right; by apply a_fork]. intros b p Hp.
    assert (rstate g !! b <> None /\ rstate g !! target p <> None) as [Hb Ht].
    { destruct (HI b p Hp) as (Hw & _). apply may_write_spec in Hw as [Hb [<-|Ht]]; by rewrite ?Hb, ?Ht. }
    apply (mid_ok_frame g); [by apply HI|..]; apply lookup_insert_ne; congruence.
  - split; [|right; by apply a_exit]. intros b p Hp.
    assert (b <> t /\ target p <> t) as [Hb Ht] by by eapply Hfree.
    apply (mid_ok_frame g); [by apply HI|..]; by apply lookup_delete_ne.
Qed.

(** Loads and stores of any number of tasks, in any order that keeps the rule of
    sched.h, change the flags exactly as atomic updates do: no update is lost, and
    what a creator or a tracer does to a task that is not running is seen by it
    whole. *)
Theorem flag_updates_atomic g s : rtc fstep (FState g ∅) s -> rtc astep g (shared s).
Proof.
  assert (forall s0 s1, rtc fstep s0 s1 -> finv s0 -> rtc astep (shared s0) (shared s1)) as H.
  { induction 1 as [s0|s0 s1 s2 H1 _ IH]; intros HI; [constructor|].
    destruct (fstep_refines s0 s1 HI H1) as [HI' [E|Ha]]; [rewrite <- E; by apply IH|].
    eapply rtc_l; [done|by apply IH]. }
  intros Hr. by apply (H _ _ Hr), map_Forall_empty.
Qed.

(** Without the rule an update is lost: both tasks load before either stores. *)
Example lost_update :
  let v := 0 in
  let a := apply_fop (OrMask PF_USED_MATH) 0 v in
  let b := apply_fop (OrMask PF_FROZEN) 0 v in
  hasb a PF_USED_MATH = true /\ hasb b PF_USED_MATH = false.
Proof. by vm_compute. Qed.

(** ** Thread flags *)

(** [set_bit] and the like on [thread_info->flags]; each is one atomic access. *)
Definition set_tsk_thread_flag (flag ti : Z) : Z := Z.setbit ti flag.
Definition clear_tsk_thread_flag (flag ti : Z) : Z := Z.clearbit ti flag.
Definition test_tsk_thread_flag (flag ti : Z) : bool := Z.testbit ti flag.
Definition update_tsk_thread_flag (flag : Z) (value : bool) (ti : Z) : Z :=
  if value then set_tsk_thread_flag flag ti else clear_tsk_thread_flag flag ti.
Definition test_and_set_tsk_thread_flag (flag ti : Z) : bool * Z :=
  (test_tsk_thread_flag flag ti, set_tsk_thread_flag flag ti).
Definition test_and_clear_tsk_thread_flag (flag ti : Z) : bool * Z :=
  (test_tsk_thread_flag flag ti, clear_tsk_thread_flag flag ti).

Section ThreadFlags.
(** The numbers of the two flags, given by the architecture. *)
Context (TIF_NEED_RESCHED TIF_FSCHECK : Z) (Hne : TIF_NEED_RESCHED <> TIF_FSCHECK)
        (Hres : 0 <= TIF_NEED_RESCHED) (Hfs : 0 <= TIF_FSCHECK).

Definition set_tsk_need_resched (ti : Z) : Z := set_tsk_thread_flag TIF_NEED_RESCHED ti.
Definition clear_tsk_need_resched (ti : Z) : Z := clear_tsk_thread_flag TIF_NEED_RESCHED ti.
Definition test_tsk_need_resched (ti : Z) : bool := test_tsk_thread_flag TIF_NEED_RESCHED ti.

(** [dup_task_struct] copies the flags and clears this one. *)
Definition dup_thread_flags (ti : Z) : Z := clear_tsk_need_resched ti.

(** Operations on one flag leave the others alone, and a set and a clear are read
    back; a new task never starts with a pending reschedule. *)
Theorem thread_flags_separate flag f k ti b :
  0 <= flag -> 0 <= k ->
  test_tsk_thread_flag k (update_tsk_thread_flag flag b ti)
    = (if k =? flag then b else test_tsk_thread_flag k ti) /\
  (let '(old, ti') := test_and_set_tsk_thread_flag flag ti in
   old = test_tsk_thread_flag flag ti /\ (test_and_set_tsk_thread_flag flag ti').1 = true) /\
  (let '(old, ti') := test_and_clear_tsk_thread_flag flag ti in
   old = test_tsk_thread_flag flag ti /\ (test_and_clear_tsk_thread_flag flag ti').1 = false) /\
  test_tsk_need_resched (set_tsk_need_resched f) = true /\
  test_tsk_need_resched (dup_thread_flags f) = false.
Proof.
  intros Hf Hk. unfold test_tsk_need_resched, set_tsk_need_resched, dup_thread_flags, clear_tsk_need_resched,
    update_tsk_thread_flag, test_and_set_tsk_thread_flag, test_and_clear_tsk_thread_flag,
    test_tsk_thread_flag, set_tsk_thread_flag, clear_tsk_thread_flag.
  split_and!; cbn [fst]; rewrite ?Z.setbit_eq, ?Z.clearbit_eq by done; try done.
  destruct (Z.eqb_spec k flag) as [->|Hkf]; destruct b;
    rewrite ?Z.setbit_eq, ?Z.clearbit_eq, ?Z.setbit_neq, ?Z.clearbit_neq by (done || lia); done.
Qed.

(** *** Before the return to user mode (syscalls.h) *)

Record ustate := UState { uti : Z; uaccess_kernel : bool; sigkill : bool }.

(** [check] says whether the architecture has TIF_FSCHECK. *)
Definition addr_limit_user_check (check : bool) (u : ustate) : ustate :=
  if check && negb (test_tsk_thread_flag TIF_FSCHECK (uti u)) then u
  else
    let u := if uaccess_kernel u then UState (uti u) (uaccess_kernel u) true else u in
    if check then UState (clear_tsk_thread_flag TIF_FSCHECK (uti u)) (uaccess_kernel u) (sigkill u) else u.

(** No task goes back to user mode with the kernel's address limit unless it is
    being killed, given that a change of the limit raised the flag; and a task that
    was checked is not checked again until then. *)
Theorem no_kernel_limit_in_user check u :
  (check = true -> uaccess_kernel u = true -> test_tsk_thread_flag TIF_FSCHECK (uti u) = true) ->
  let u' := addr_limit_user_check check u in
  (uaccess_kernel u' = true -> sigkill u' = true) /\
  (check = true -> test_tsk_thread_flag TIF_FSCHECK (uti u') = false) /\
  (uaccess_kernel u = false -> sigkill u' = sigkill u).
Proof.
  intros Hv. unfold addr_limit_user_check. destruct check; cbn [andb].
  - destruct (test_tsk_thread_flag TIF_FSCHECK (uti u)) eqn:E; cbn [negb].
    + split_and!; [|intros _; apply Z.clearbit_eq|]; by destruct (uaccess_kernel u) eqn:Hk; cbn; rewrite ?Hk.
    + split_and!; [|done|done]. intros Hk. specialize (Hv eq_refl Hk). congruence.
  - by destruct (uaccess_kernel u) eqn:Hk; cbn; rewrite ?Hk.
Qed.

End ThreadFlags.

(** ** Small operations *)

(** [ksys_personality] of syscalls.h: all ones asks without changing. *)
Definition ksys_personality (personality current_personality : Z) : Z * Z :=
  (current_personality,
   if personality =? 0xffffffff then current_personality else personality).

(** Setting a personality and putting the old one back is no change, whatever is
    set in between; asking changes nothing. *)
Lemma personality_restores p old :
  old <> 0xffffffff ->
  ksys_personality (ksys_personality p old).1 (ksys_personality p old).2 = ((ksys_personality p old).2, old) /\
  ksys_personality 0xffffffff old = (old, old).
Proof. intros Ho. unfold ksys_personality. cbn [fst snd]. by rewrite (proj2 (Z.eqb_neq _ _) Ho). Qed.

(** [task_nice], with the priorities of the kernel: 100 to 139 are normal. *)
Definition DEFAULT_PRIO : Z := 120.
Definition task_nice (static_prio : Z) : Z := static_prio - DEFAULT_PRIO.

Lemma task_nice_range p : 100 <= p <= 139 <-> -20 <= task_nice p <= 19.
Proof. unfold task_nice, DEFAULT_PRIO. lia. Qed.

(** On one processor: a mask is accepted exactly when it has processor 0, and a task
    never owns a mask of its own, so duplicating cannot fail. *)
Definition set_cpus_allowed_ptr (new_mask : Z) : Z := if negb (Z.testbit new_mask 0) then - Errno.EINVAL else 0.
Definition dup_user_cpus_ptr (src_user_cpus_ptr : ptr) : Z :=
  if negb (src_user_cpus_ptr =? NULL) then - Errno.EINVAL else 0.
