(* ===== verification/OomAdj.v ===== *)
(** * OomAdj: processes that share memory have one score

    Models [copy_oom_score_adj] of [kernel/fork.c] and what it races with.  A new
    process copies its creator's [oom_score_adj] early ([copy_signal]), gets or
    shares an address space ([copy_mm]), becomes visible, and only then, under
    [oom_adj_mutex], marks a shared address space with MMF_MULTIPROCESS and copies
    the score again.  Meanwhile the score of any visible process may be written
    through [/proc].  The writer ([__set_oom_adj], fs/proc/base.c) is not in the
    repository: it is the class [OomWriter], whose laws say that it writes the
    process and, when the address space is marked and the process is no vfork
    child, all visible processes that use it, other than vfork children, kernel
    threads and the global init.  A vfork child is one whose [vfork_done] is set:
    [kernel_clone] sets it after [copy_process], and it is cleared when the child
    executes a program or when the waiting parent is killed. *)

From Stdlib Require Import ZArith Lia.
From stdpp Require Import base gmap list sets relations.
From S2P Require Import Prelude Fork.

(** ** Processes and forks under way *)

Record proc := Proc {
  p_mm : option Z;               (** [tsk->mm], [None] for a kernel thread *)
  oom_score_adj : Z; oom_score_adj_min : Z;
  vforked : bool;                (** [vfork_done] is set *)
  kthread : bool;                (** PF_KTHREAD *)
  global_init : bool;
  visible : bool;                (** on the task list *)
  aside : bool                   (** specification only: created with CLONE_VFORK, or
                                     to share the memory of a process that is aside,
                                     a kernel thread or the global init; until exec *)
}.

Definition exempt (x : proc) : bool := kthread x || global_init x.
Definition skipped (x : proc) : bool := vforked x || exempt x.

(** How far [copy_process] is with a child, or [kernel_clone] with one for which it
    will wait. *)
Inductive fstage := SignalCopied | MmCopied | Attached | Returned.
#[global] Instance fstage_eq_dec : EqDecision fstage.
Proof. solve_decision. Defined.

Record inflight := InFlight { parent : Z; cflags : Z; fstage_of : fstage }.

Record ost := Ost {
  procs : gmap Z proc;
  multi : gset Z;                (** address spaces with MMF_MULTIPROCESS *)
  forks : gmap Z inflight        (** by child *)
}.

Definition set_procs (ps : gmap Z proc) (s : ost) : ost := Ost ps (multi s) (forks s).

Definition set_adj (score min : Z) (x : proc) : proc :=
  Proc (p_mm x) score min (vforked x) (kthread x) (global_init x) (visible x) (aside x).
Definition set_mm (m : option Z) (x : proc) : proc :=
  Proc m (oom_score_adj x) (oom_score_adj_min x) (vforked x) (kthread x) (global_init x) (visible x) (aside x).
Definition set_visible (x : proc) : proc :=
  Proc (p_mm x) (oom_score_adj x) (oom_score_adj_min x) (vforked x) (kthread x) (global_init x) true (aside x).
Definition set_vforked (b : bool) (x : proc) : proc :=
  Proc (p_mm x) (oom_score_adj x) (oom_score_adj_min x) b (kthread x) (global_init x) (visible x) (aside x).

(** A new program: memory of its own, no kernel thread and no vfork child any more. *)
Definition exec_proc (m : Z) (x : proc) : proc :=
  Proc (Some m) (oom_score_adj x) (oom_score_adj_min x) false false (global_init x) (visible x) false.

(** ** The steps of a fork *)

Definition goes_aside (clone_flags : Z) (cur : proc) : bool :=
  hasb clone_flags CLONE_VFORK || (hasb clone_flags CLONE_VM && (aside cur || exempt cur)).

(** The part of [copy_signal] that concerns the score; [copy_process] has cleared
    [vfork_done], and the process is not on the task list yet. *)
Definition copy_signal_adj (clone_flags : Z) (cur : proc) : proc :=
  Proc None (oom_score_adj cur) (oom_score_adj_min cur) false (kthread cur) false false
    (goes_aside clone_flags cur).

(** [copy_mm]: nothing for a kernel thread, the same address space, or a new one. *)
Definition copy_mm_of (clone_flags fresh : Z) (cur : proc) : option Z :=
  match p_mm cur with
  | None => None
  | Some m => if hasb clone_flags CLONE_VM then Some m else Some fresh
  end.

Definition copy_oom_score_adj (clone_flags current tsk : Z) (s : ost) : option ost :=
  cur ← procs s !! current;
  p ← procs s !! tsk;
  match p_mm p with
  | None => Some s
  | Some m =>
      if negb (Z.land clone_flags (Z.lor CLONE_VM (Z.lor CLONE_THREAD CLONE_VFORK)) =? CLONE_VM) then Some s
      else
        let s := Ost (procs s) ({[m]} ∪ multi s) (forks s) in
        Some (set_procs (<[tsk := set_adj (oom_score_adj cur) (oom_score_adj_min cur) p]> (procs s)) s)
  end.

(** ** The writer *)

Class OomWriter := {
  set_oom_adj : Z -> Z -> ost -> gmap Z proc;
  (** Only scores are written. *)
  write_keeps t v s q x : procs s !! q = Some x ->
    exists score min, set_oom_adj t v s !! q = Some (set_adj score min x);
  write_none t v s q : procs s !! q = None -> set_oom_adj t v s !! q = None;
  (** The process gets the value. *)
  write_self t v s x : procs s !! t = Some x -> visible x = true ->
    oom_score_adj <$> set_oom_adj t v s !! t = Some v;
  (** So does every visible user of its marked address space that is not skipped,
      unless the process is a vfork child. *)
  write_group t v s x m q y :
    procs s !! t = Some x -> vforked x = false -> p_mm x = Some m -> m ∈ multi s ->
    procs s !! q = Some y -> p_mm y = Some m -> visible y = true -> skipped y = false ->
    oom_score_adj <$> set_oom_adj t v s !! q = Some v;
  (** Nobody else does. *)
  write_other t v s x q y :
    procs s !! t = Some x -> procs s !! q = Some y -> q <> t ->
    (forall m, vforked x = false -> p_mm x = Some m -> p_mm y = Some m -> m ∉ multi s) ->
    oom_score_adj <$> set_oom_adj t v s !! q = Some (oom_score_adj y)
}.

(** ** Events *)

Inductive oev :=
| Begin (p c clone_flags : Z)    (** a thread of [p] is in [copy_process] for [c] *)
| CopyMm (c fresh : Z)
| Attach (c : Z)
| Finish (c : Z)                 (** [copy_oom_score_adj] and return *)
| SetVfork (c : Z)               (** [kernel_clone] sets [vfork_done] *)
| ClearVfork (c : Z)             (** [wait_for_vfork_done] of a killed parent *)
| Undo (c : Z)                   (** an error before the child is attached *)
| WriteAdj (t v : Z)
| Exec (p fresh : Z)
| Exit (p : Z).

Definition fresh_mm (m : Z) (s : ost) : Prop := m ∉ multi s /\ map_Forall (fun _ x => p_mm x <> Some m) (procs s).
#[global] Instance fresh_mm_dec m s : Decision (fresh_mm m s).
Proof. unfold fresh_mm. apply _. Defined.

(** No thread of the process is inside [copy_process], and it is not a child that
    somebody is still creating. *)
Definition quiet_proc (p : Z) (s : ost) : Prop :=
  forks s !! p = None /\ map_Forall (fun _ f => parent f <> p) (forks s).
#[global] Instance quiet_proc_dec p s : Decision (quiet_proc p s).
Proof. unfold quiet_proc. apply _. Defined.

(** A created process forks a new one; threads are not new processes. *)
Definition may_fork (p c clone_flags : Z) (s : ost) : bool :=
  bool_decide (forks s !! p = None) && bool_decide (procs s !! c = None) &&
  negb (hasb clone_flags CLONE_THREAD).

Section Events.
Context `{OomWriter}.

Definition oom_do (e : oev) (s : ost) : option ost :=
  match e with
  | Begin p c fl =>
      x ← procs s !! p;
      if may_fork p c fl s then
        Some (Ost (<[c := copy_signal_adj fl x]> (procs s)) (multi s)
                (<[c := InFlight p fl SignalCopied]> (forks s)))
      else None
  | CopyMm c m =>
      f ← forks s !! c; x ← procs s !! c; cur ← procs s !! parent f;
      if bool_decide (fstage_of f = SignalCopied) && bool_decide (fresh_mm m s) then
        Some (Ost (<[c := set_mm (copy_mm_of (cflags f) m cur) x]> (procs s)) (multi s)
                (<[c := InFlight (parent f) (cflags f) MmCopied]> (forks s)))
      else None
  | Attach c =>
      f ← forks s !! c; x ← procs s !! c;
      if bool_decide (fstage_of f = MmCopied) then
        Some (Ost (<[c := set_visible x]> (procs s)) (multi s)
                (<[c := InFlight (parent f) (cflags f) Attached]> (forks s)))
      else None
  | Finish c =>
      f ← forks s !! c;
      if bool_decide (fstage_of f = Attached) then
        s' ← copy_oom_score_adj (cflags f) (parent f) c s;
        Some (Ost (procs s') (multi s')
                (if hasb (cflags f) CLONE_VFORK then <[c := InFlight (parent f) (cflags f) Returned]> (forks s')
                 else delete c (forks s')))
      else None
  | SetVfork c =>
      f ← forks s !! c; x ← procs s !! c;
      if bool_decide (fstage_of f = Returned) then
        Some (Ost (<[c := set_vforked true x]> (procs s)) (multi s) (delete c (forks s)))
      else None
  | ClearVfork c =>
      x ← procs s !! c;
      if vforked x then Some (set_procs (<[c := set_vforked false x]> (procs s)) s) else None
  | Undo c =>
      f ← forks s !! c;
      if bool_decide (fstage_of f = Attached \/ fstage_of f = Returned) then None
      else Some (Ost (delete c (procs s)) (multi s) (delete c (forks s)))
  | WriteAdj t v =>
      x ← procs s !! t;
      if visible x then Some (set_procs (set_oom_adj t v s) s) else None
  | Exec p m =>
      x ← procs s !! p;
      if bool_decide (quiet_proc p s) && bool_decide (fresh_mm m s) then
        Some (set_procs (<[p := exec_proc m x]> (procs s)) s)
      else None
  | Exit p =>
      if bool_decide (quiet_proc p s) then Some (set_procs (delete p (procs s)) s) else None
  end.

Definition oom_step (s s' : ost) : Prop := exists e, oom_do e s = Some s'.

(** ** The invariant *)

(** A process that is fully created and follows its group. *)
Definition settled (s : ost) (q : Z) (x : proc) : Prop :=
  procs s !! q = Some x /\ forks s !! q = None /\ aside x = false /\ exempt x = false.

Definition fork_ok (s : ost) (c : Z) (f : inflight) : Prop :=
  exists x px,
    procs s !! c = Some x /\ procs s !! parent f = Some px /\ forks s !! parent f = None /\
    vforked x = false /\ hasb (cflags f) CLONE_THREAD = false /\
    aside x = goes_aside (cflags f) px /\
    match fstage_of f with
    | SignalCopied => p_mm x = None
    | Attached => visible x = true
    | Returned => visible x = true /\ aside x = true
    | MmCopied => True
    end /\
    (fstage_of f <> SignalCopied ->
     if hasb (cflags f) CLONE_VM then p_mm x = p_mm px
     else forall q y m, procs s !! q = Some y -> p_mm y = Some m -> p_mm x = Some m -> q = c).

Record oinv (s : ost) : Prop := MkOinv {
  o_agree p q x y m : settled s p x -> settled s q y -> p_mm x = Some m -> p_mm y = Some m ->
                      oom_score_adj x = oom_score_adj y;
  o_multi p q x y m : settled s p x -> settled s q y -> p <> q -> p_mm x = Some m -> p_mm y = Some m ->
                      m ∈ multi s;
  o_aside q x : procs s !! q = Some x -> vforked x = true -> aside x = true;
  o_visible q x : procs s !! q = Some x -> forks s !! q = None -> visible x = true;
  o_forks c f : forks s !! c = Some f -> fork_ok s c f
}.

(** Processes, all created, none of which shares memory. *)
Definition separate (s : ost) : Prop :=
  forks s = ∅ /\ map_Forall (fun _ x => visible x = true /\ vforked x = false) (procs s) /\
  forall p q x y m, procs s !! p = Some x -> procs s !! q = Some y -> p_mm x = Some m -> p_mm y = Some m -> p = q.

Lemma separate_inv s : separate s -> oinv s.
Proof.
  intros (Hf & Hv & Hs). constructor.
  - intros p q x y m (Hp & _) (Hq & _) Hx Hy. rewrite (Hs p q x y m Hp Hq Hx Hy) in Hp. congruence.
  - intros p q x y m (Hp & _) (Hq & _) Hne Hx Hy. by destruct Hne; eapply Hs.
  - intros q x Hq. by rewrite (proj2 (Hv q x Hq)).
  - intros q x Hq _. by apply (Hv q).
  - intros c f. by rewrite Hf.
Qed.

(** The test of the flags in [copy_oom_score_adj]. *)
Lemma shares_iff f :
  (Z.land f (Z.lor CLONE_VM (Z.lor CLONE_THREAD CLONE_VFORK)) =? CLONE_VM)
  = hasb f CLONE_VM && negb (hasb f CLONE_THREAD) && negb (hasb f CLONE_VFORK).
Proof.
  rewrite !Z.land_lor_distr_r.
  change CLONE_VM with (2 ^ 8). change CLONE_THREAD with (2 ^ 16). change CLONE_VFORK with (2 ^ 14).
  rewrite !hasb_bit, !land_bit by lia.
  by destruct (Z.testbit f 8), (Z.testbit f 16), (Z.testbit f 14).
Qed.

(** *** Each event *)

(** A child under way is changed. *)
Lemma child_update s c x' f' :
  oinv s -> procs s !! c = None \/ is_Some (forks s !! c) ->
  (forall m, p_mm x' = Some m ->
     (exists x, procs s !! c = Some x /\ p_mm x = Some m) \/
     (exists q y, procs s !! q = Some y /\ forks s !! q = None /\ p_mm y = Some m) \/ fresh_mm m s) ->
  vforked x' = false ->
  fork_ok (Ost (<[c := x']> (procs s)) (multi s) (<[c := f']> (forks s))) c f' ->
  oinv (Ost (<[c := x']> (procs s)) (multi s) (<[c := f']> (forks s))).
Proof.
  intros HI Hc Hmm Hnv Hok.
  assert (forall q y, settled (Ost (<[c := x']> (procs s)) (multi s) (<[c := f']> (forks s))) q y -> settled s q y) as Hset.
  { intros q y (Hq & Hf & Hs). cbn in Hq, Hf. destruct (decide (q = c)) as [->|Hne]; [by rewrite lookup_insert_eq in Hf|].
    rewrite lookup_insert_ne in Hq by done; rewrite lookup_insert_ne in Hf by done. done. }
  constructor.
  - intros p q x y m Hp%Hset Hq%Hset. by eapply (o_agree _ HI).
  - intros p q x y m Hp%Hset Hq%Hset. by eapply (o_multi _ HI).
  - intros q y Hq Hvf. cbn in Hq. destruct (decide (q = c)) as [->|Hne].
    { rewrite lookup_insert_eq in Hq. injection Hq as <-. congruence. }
    rewrite lookup_insert_ne in Hq by done. by eapply (o_aside _ HI).
  - intros q y Hq Hf. cbn in Hq, Hf. destruct (decide (q = c)) as [->|Hne]; [by rewrite lookup_insert_eq in Hf|].
    rewrite lookup_insert_ne in Hq by done; rewrite lookup_insert_ne in Hf by done. by eapply (o_visible _ HI).
  - intros d f Hd. cbn in Hd. destruct (decide (d = c)) as [->|Hne].
    { rewrite lookup_insert_eq in Hd. injection Hd as <-. done. }
    rewrite lookup_insert_ne in Hd by done.
    destruct (o_forks _ HI d f Hd) as (x & px & Hx & Hpx & Hpf & H1 & H2 & H3 & H4 & H5).
    assert (parent f <> c) as Hpc by (intros E; rewrite E in Hpx, Hpf; destruct Hc as [Hc|[? Hc]]; congruence).
    exists x, px. cbn. rewrite !lookup_insert_ne by done. split_and!; [done..|].
    intros Hst. specialize (H5 Hst). destruct (hasb (cflags f) CLONE_VM); [done|].
    intros q y m Hq Hy Hxm. destruct (decide (q = c)) as [->|Hqc].
    + rewrite lookup_insert_eq in Hq. injection Hq as <-.
      destruct (Hmm m Hy) as [(z & Hz & Hzm)|[(q & z & Hz & Hzf & Hzm)|[_ Hfr]]].
      * by eapply H5.
      * assert (q = d) as -> by by eapply H5. congruence.
      * by destruct (Hfr d x Hx).
    + rewrite lookup_insert_ne in Hq by done. by eapply H5.
Qed.

Lemma begin_inv p c fl s x :
  oinv s -> procs s !! p = Some x -> may_fork p c fl s = true ->
  oinv (Ost (<[c := copy_signal_adj fl x]> (procs s)) (multi s) (<[c := InFlight p fl SignalCopied]> (forks s))).
Proof.
  intros HI Hp Hm. unfold may_fork in Hm. rewrite !andb_true_iff, !bool_decide_eq_true, !negb_true_iff in Hm.
  destruct Hm as [[Hf Hc] Ht]. apply child_update; [done|by left|by cbn|done|].
  assert (p <> c) as Hne by congruence. eexists _, x. cbn. rewrite !lookup_insert_eq, !lookup_insert_ne by done.
  by split_and!.
Qed.

Lemma copymm_inv c fresh f x cur s :
  oinv s -> forks s !! c = Some f -> procs s !! c = Some x -> procs s !! parent f = Some cur ->
  fstage_of f = SignalCopied -> fresh_mm fresh s ->
  oinv (Ost (<[c := set_mm (copy_mm_of (cflags f) fresh cur) x]> (procs s)) (multi s)
          (<[c := InFlight (parent f) (cflags f) MmCopied]> (forks s))).
Proof.
  intros HI Hf Hx Hcur Hst Hfr.
  destruct (o_forks _ HI c f Hf) as (x0 & px & Hx0 & Hpx & Hpf & H1 & H2 & H3 & _ & _).
  assert (x0 = x) as -> by congruence. assert (px = cur) as -> by congruence.
  assert (parent f <> c) as Hne by congruence.
  apply child_update; [done|right; by eexists| |done|].
  - cbn. unfold copy_mm_of. intros m. destruct (p_mm cur) as [o|] eqn:Ho; [|done].
    destruct (hasb (cflags f) CLONE_VM); intros [= <-]; right; [left|by right]. eauto.
  - eexists _, cur. cbn. rewrite !lookup_insert_eq, !lookup_insert_ne by done. split_and!; try done.
    intros _. unfold copy_mm_of. destruct (p_mm cur) as [o|] eqn:Ho; destruct (hasb (cflags f) CLONE_VM); try done.
    intros q y m Hq Hy [= <-]. destruct (decide (q = c)) as [->|Hqc]; [done|].
    rewrite lookup_insert_ne in Hq by done. by destruct (proj2 Hfr q y Hq).
Qed.

Lemma attach_inv c f x s :
  oinv s -> forks s !! c = Some f -> procs s !! c = Some x -> fstage_of f = MmCopied ->
  oinv (Ost (<[c := set_visible x]> (procs s)) (multi s)
          (<[c := InFlight (parent f) (cflags f) Attached]> (forks s))).
Proof.
  intros HI Hf Hx Hst.
  destruct (o_forks _ HI c f Hf) as (x0 & px & Hx0 & Hpx & Hpf & H1 & H2 & H3 & _ & H5).
  assert (x0 = x) as -> by congruence. assert (parent f <> c) as Hne by congruence.
  apply child_update; [done|right; by eexists| |done|].
  - intros m Hm. left. eauto.
  - eexists _, px. cbn. rewrite !lookup_insert_eq, !lookup_insert_ne by done. split_and!; try done.
    rewrite Hst in H5. specialize (H5 ltac:(done)). intros _. destruct (hasb (cflags f) CLONE_VM); [done|].
    intros q y m Hq Hy Hm. destruct (decide (q = c)) as [->|Hqc]; [done|].
    rewrite lookup_insert_ne in Hq by done. by eapply H5.
Qed.

(** A process or child disappears, or takes new memory of its own. *)
Lemma remove_inv q s :
  oinv s -> map_Forall (fun _ f => parent f <> q) (forks s) ->
  oinv (Ost (delete q (procs s)) (multi s) (delete q (forks s))).
Proof.
  intros HI Hq.
  assert (forall r y, settled (Ost (delete q (procs s)) (multi s) (delete q (forks s))) r y -> settled s r y) as Hset.
  { intros r y (Hr & Hf & Hs). cbn in Hr, Hf. destruct (decide (r = q)) as [->|Hne]; [by rewrite lookup_delete_eq in Hr|].
    rewrite lookup_delete_ne in Hr by done; by rewrite lookup_delete_ne in Hf by done. }
  constructor.
  - intros p r x y m Hp%Hset Hr%Hset. by eapply (o_agree _ HI).
  - intros p r x y m Hp%Hset Hr%Hset. by eapply (o_multi _ HI).
  - intros r y Hr. cbn in Hr. apply lookup_delete_Some in Hr as [_ Hr]. by eapply (o_aside _ HI).
  - intros r y Hr Hf. cbn in Hr, Hf. destruct (decide (r = q)) as [->|Hne]; [by rewrite lookup_delete_eq in Hr|].
    rewrite lookup_delete_ne in Hr by done; rewrite lookup_delete_ne in Hf by done. by eapply (o_visible _ HI).
  - intros d f Hd. cbn in Hd. apply lookup_delete_Some in Hd as [Hne Hd]. specialize (Hq d f Hd).
    destruct (o_forks _ HI d f Hd) as (x & px & Hx & Hpx & Hpf & H1 & H2 & H3 & H4 & H5).
    exists x, px. cbn. rewrite !lookup_delete_ne by done. split_and!; try done.
    intros Hst. specialize (H5 Hst). destruct (hasb (cflags f) CLONE_VM); [done|].
    intros r y m (_ & Hr)%lookup_delete_Some. by eapply H5.
Qed.

Lemma exec_keeps_scores p fresh x s :
  oinv s -> procs s !! p = Some x -> quiet_proc p s -> fresh_mm fresh s ->
  oinv (set_procs (<[p := exec_proc fresh x]> (procs s)) s).
Proof.
  intros HI Hp [Hf Hq] [Hm Hfr]. set (x' := exec_proc _ _).
  assert (forall r y, settled (set_procs (<[p := x']> (procs s)) s) r y ->
            (r = p /\ y = x') \/ (r <> p /\ settled s r y)) as Hset.
  { intros r y (Hr & Hfr' & Hs). cbn in Hr, Hfr'. destruct (decide (r = p)) as [->|Hne].
    - rewrite lookup_insert_eq in Hr. left. naive_solver.
    - rewrite lookup_insert_ne in Hr by done. right. by split_and!. }
  assert (forall r y m, settled s r y -> p_mm y = Some m -> p_mm x' = Some m -> False) as Hno.
  { intros r y m (Hr & _) Hy [= <-]. by apply (Hfr r y Hr). }
  constructor.
  - intros a b xa xb m [[-> ->]|[Na Ha]]%Hset [[-> ->]|[Nb Hb]]%Hset Ea Eb; [done| | |by eapply (o_agree _ HI)];
      exfalso; eauto.
  - intros a b xa xb m [[-> ->]|[Na Ha]]%Hset [[-> ->]|[Nb Hb]]%Hset Hne Ea Eb; [done| | |by eapply (o_multi _ HI a b)];
      exfalso; eauto.
  - intros r y Hr Hvf. cbn in Hr. destruct (decide (r = p)) as [->|Hne].
    + rewrite lookup_insert_eq in Hr. injection Hr as <-. done.
    + rewrite lookup_insert_ne in Hr by done. by eapply (o_aside _ HI).
  - intros r y Hr Hrf. cbn in Hr, Hrf. destruct (decide (r = p)) as [->|Hne].
    + rewrite lookup_insert_eq in Hr. injection Hr as <-. by apply (o_visible _ HI p x).
    + rewrite lookup_insert_ne in Hr by done. by eapply (o_visible _ HI).
  - intros d f Hd. cbn in Hd. specialize (Hq d f Hd). assert (d <> p) as Hdp by congruence.
    destruct (o_forks _ HI d f Hd) as (z & px & Hz & Hpx & Hpf & H1 & H2 & H3 & H4 & H5).
    exists z, px. cbn. rewrite !lookup_insert_ne by done. split_and!; try done.
    intros Hst. specialize (H5 Hst). destruct (hasb (cflags f) CLONE_VM); [done|].
    intros r y m Hr Hy Hzm. destruct (decide (r = p)) as [->|Hne].
    + rewrite lookup_insert_eq in Hr. injection Hr as <-. injection Hy as <-. by destruct (Hfr d z Hz).
    + rewrite lookup_insert_ne in Hr by done. by eapply H5.
Qed.

(** [vfork_done] of a process that is aside changes. *)
Lemma vfork_done_inv c x b s :
  oinv s -> procs s !! c = Some x -> aside x = true -> visible x = true ->
  oinv (Ost (<[c := set_vforked b x]> (procs s)) (multi s) (delete c (forks s))).
Proof.
  intros HI Hx Ha Hvis. set (s' := Ost _ _ _).
  assert (forall q y, procs s' !! q = Some y ->
            exists z, procs s !! q = Some z /\ (q = c /\ y = set_vforked b z /\ z = x \/ q <> c /\ y = z)) as Hback.
  { intros q y Hq. cbn in Hq. destruct (decide (q = c)) as [->|Hne].
    - rewrite lookup_insert_eq in Hq. injection Hq as <-. eauto 6.
    - rewrite lookup_insert_ne in Hq by done. eauto 6. }
  assert (forall q y, settled s' q y -> settled s q y) as Hset.
  { intros q y (Hq & Hqf & Hs & He). destruct (Hback q y Hq) as (z & Hz & [(-> & -> & ->)|(Hne & ->)]).
    - cbn in Hs. congruence.
    - cbn in Hqf. rewrite lookup_delete_ne in Hqf by done. done. }
  constructor.
  - intros p q xp xq m Hp%Hset Hq%Hset. by eapply (o_agree _ HI).
  - intros p q xp xq m Hp%Hset Hq%Hset. by eapply (o_multi _ HI).
  - intros q y Hq Hvf. destruct (Hback q y Hq) as (z & Hz & [(-> & -> & ->)|(Hne & ->)]); [done|by eapply (o_aside _ HI)].
  - intros q y Hq Hqf. destruct (Hback q y Hq) as (z & Hz & [(-> & -> & ->)|(Hne & ->)]); [done|].
    cbn in Hqf. rewrite lookup_delete_ne in Hqf by done. by eapply (o_visible _ HI).
  - intros d f Hd. cbn in Hd. apply lookup_delete_Some in Hd as [Hne Hd].
    destruct (o_forks _ HI d f Hd) as (z & pz & Hz & Hpz & Hpf & H1 & H2 & H3 & H4 & H5).
    exists z, (if decide (parent f = c) then set_vforked b pz else pz). cbn. rewrite (lookup_insert_ne _ c d) by done.
    assert (forall (T : Type) (g : proc -> T), g (set_vforked b pz) = g pz ->
              g (if decide (parent f = c) then set_vforked b pz else pz) = g pz) as Hg
      by (intros T g Hg; by destruct (decide _)).
    rewrite (Hg _ (goes_aside (cflags f))), (Hg _ p_mm) by done. split_and!; try done.
    + destruct (decide (parent f = c)) as [<-|Hpc]; [by rewrite lookup_insert_eq; repeat f_equal; congruence|].
      by rewrite lookup_insert_ne by done.
    + destruct (decide (parent f = c)) as [<-|Hpc]; [by rewrite lookup_delete_eq|by rewrite lookup_delete_ne by done].
    + intros Hst. specialize (H5 Hst). destruct (hasb (cflags f) CLONE_VM); [done|].
      intros q y m Hq Hy Hzm. destruct (Hback q y Hq) as (w & Hw & [(-> & -> & ->)|(Hqc & ->)]); by eapply H5.
Qed.

(** A child is created: it joins the users of its address space. *)
Lemma join_inv c f x score min mu s :
  oinv s -> forks s !! c = Some f -> fstage_of f = Attached -> procs s !! c = Some x -> multi s ⊆ mu ->
  (forall q y m, settled s q y -> p_mm x = Some m -> p_mm y = Some m -> aside x = false -> exempt x = false ->
     oom_score_adj y = score /\ m ∈ mu) ->
  oinv (Ost (<[c := set_adj score min x]> (procs s)) mu (delete c (forks s))).
Proof.
  intros HI Hf Hst Hx Hmu Hj. set (s' := Ost _ _ _).
  assert (forall q y, settled s' q y -> (q = c /\ y = set_adj score min x) \/ (q <> c /\ settled s q y)) as Hset.
  { intros q y (Hq & Hqf & Hs). cbn in Hq, Hqf. destruct (decide (q = c)) as [->|Hne].
    - rewrite lookup_insert_eq in Hq. left. naive_solver.
    - rewrite lookup_insert_ne in Hq by done. rewrite lookup_delete_ne in Hqf by done. right. by split_and!. }
  assert (forall q y m, settled s q y -> settled s' c (set_adj score min x) -> p_mm x = Some m -> p_mm y = Some m ->
            oom_score_adj y = score /\ m ∈ mu) as Hj'
    by (intros q y m Hq (_ & _ & Hs & He) Hxm Hym; by eapply Hj).
  destruct (o_forks _ HI c f Hf) as (x0 & px & Hx0 & _ & _ & Hnv & _ & _ & Hv & _).
  rewrite Hst in Hv. assert (x0 = x) as -> by congruence.
  constructor.
  - intros a b xa xb m Ha Hb Ea Eb. destruct (Hset _ _ Ha) as [[-> ->]|[Na Ha']], (Hset _ _ Hb) as [[-> ->]|[Nb Hb']].
    + done.
    + symmetry. by eapply Hj'.
    + by eapply Hj'.
    + by eapply (o_agree _ HI).
  - intros a b xa xb m Ha Hb Hne Ea Eb. destruct (Hset _ _ Ha) as [[-> ->]|[Na Ha']], (Hset _ _ Hb) as [[-> ->]|[Nb Hb']].
    + done.
    + by eapply Hj'.
    + by eapply Hj'.
    + by eapply Hmu, (o_multi _ HI a b).
  - intros q y Hq Hvf. cbn in Hq. destruct (decide (q = c)) as [->|Hne].
    + rewrite lookup_insert_eq in Hq. injection Hq as <-. cbn in Hvf. congruence.
    + rewrite lookup_insert_ne in Hq by done. by eapply (o_aside _ HI).
  - intros q y Hq Hqf. cbn in Hq, Hqf. destruct (decide (q = c)) as [->|Hne].
    + rewrite lookup_insert_eq in Hq. by injection Hq as <-.
    + rewrite lookup_insert_ne in Hq by done. rewrite lookup_delete_ne in Hqf by done. by eapply (o_visible _ HI).
  - intros d g Hd. cbn in Hd. apply lookup_delete_Some in Hd as [Hne Hd].
    destruct (o_forks _ HI d g Hd) as (z & pz & Hz & Hpz & Hpf & H1 & H2 & H3 & H4 & H5).
    assert (parent g <> c) as Hpc by congruence.
    exists z, pz. cbn. rewrite !lookup_insert_ne, lookup_delete_ne by done. split_and!; try done.
    intros Hs. specialize (H5 Hs). destruct (hasb (cflags g) CLONE_VM); [done|].
    intros r y m Hr Hy Hzm. destruct (decide (r = c)) as [->|Hrc]; [|rewrite lookup_insert_ne in Hr by done; by eapply H5].
    rewrite lookup_insert_eq in Hr. injection Hr as <-. by eapply (H5 c x).
Qed.

(** [copy_process] returns a child for which [kernel_clone] will wait. *)
Lemma return_inv c f x s :
  oinv s -> forks s !! c = Some f -> fstage_of f = Attached -> procs s !! c = Some x ->
  hasb (cflags f) CLONE_VFORK = true ->
  oinv (Ost (procs s) (multi s) (<[c := InFlight (parent f) (cflags f) Returned]> (forks s))).
Proof.
  intros HI Hf Hst Hx Hvf.
  destruct (o_forks _ HI c f Hf) as (x0 & px & Hx0 & Hpx & Hpf & H1 & H2 & H3 & H4 & H5).
  assert (x0 = x) as -> by congruence. rewrite Hst in H4. specialize (H5 ltac:(by rewrite Hst)).
  rewrite <- (insert_id (procs s) c x Hx). apply child_update; [done|right; by eexists|by eauto|done|].
  rewrite (insert_id (procs s) c x Hx). assert (parent f <> c) as Hne by congruence.
  exists x, px. cbn. rewrite lookup_insert_ne by done. split_and!; try done.
  rewrite H3. unfold goes_aside. by rewrite Hvf.
Qed.

Lemma finish_inv c f s s' :
  oinv s -> forks s !! c = Some f -> fstage_of f = Attached ->
  copy_oom_score_adj (cflags f) (parent f) c s = Some s' ->
  oinv (Ost (procs s') (multi s')
          (if hasb (cflags f) CLONE_VFORK then <[c := InFlight (parent f) (cflags f) Returned]> (forks s')
           else delete c (forks s'))).
Proof.
  intros HI Hf Hst Hc.
  destruct (o_forks _ HI c f Hf) as (x & px & Hx & Hpx & Hpf & H1 & H2 & H3 & H4 & H5).
  specialize (H5 ltac:(by rewrite Hst)). unfold copy_oom_score_adj in Hc. rewrite Hpx, Hx in Hc. cbn -[hasb Z.land] in Hc.
  rewrite shares_iff, H2, andb_true_r in Hc. unfold goes_aside in H3.
  destruct (hasb (cflags f) CLONE_VFORK) eqn:Hvf.
  { rewrite andb_false_r in Hc. assert (s' = s) as -> by (destruct (p_mm x); naive_solver). by eapply return_inv. }
  assert (forall q y, settled s q y -> q <> c) as Hnc by (intros q y (_ & Hq & _) ->; congruence).
  assert (<[c := set_adj (oom_score_adj x) (oom_score_adj_min x) x]> (procs s) = procs s) as Hid
    by (apply insert_id; rewrite Hx; by destruct x).
  destruct (p_mm x) as [m|] eqn:Hm.
  2: { injection Hc as <-. rewrite <- Hid. eapply join_inv; try done. intros q y m _ Hxm. congruence. }
  destruct (hasb (cflags f) CLONE_VM) eqn:Hvm; cbn [negb andb orb] in Hc, H3; injection Hc as <-.
  - cbn. eapply join_inv; try done; [set_solver|]. intros q y m' Hq Hxm Hym Hna _.
    assert (m' = m) as -> by congruence. split; [|set_solver].
    rewrite H3 in Hna. apply orb_false_iff in Hna as [Ha He].
    eapply (o_agree _ HI); [exact Hq|by split_and!|done|by rewrite <- H5].
  - rewrite <- Hid. eapply join_inv; try done. intros q y m' Hq Hxm Hym _ _.
    destruct (Hnc q y Hq). assert (m' = m) as -> by congruence. destruct Hq as [Hq _]. by eapply H5.
Qed.

Lemma write_inv t v x s :
  oinv s -> procs s !! t = Some x -> visible x = true -> oinv (set_procs (set_oom_adj t v s) s).
Proof.
  intros HI Ht Hv.
  assert (forall q y, set_oom_adj t v s !! q = Some y ->
            exists z, procs s !! q = Some z /\ y = set_adj (oom_score_adj y) (oom_score_adj_min y) z) as Hback.
  { intros q y Hq. destruct (procs s !! q) as [z|] eqn:Hz; [|rewrite (write_none t v s q Hz) in Hq; done].
    exists z. split; [done|]. destruct (write_keeps t v s q z Hz) as (a & b & E).
    rewrite E in Hq. by injection Hq as <-. }
  assert (forall q y, settled (set_procs (set_oom_adj t v s) s) q y ->
            exists z, settled s q z /\ visible z = true /\ p_mm z = p_mm y /\
                      oom_score_adj <$> set_oom_adj t v s !! q = Some (oom_score_adj y)) as Hset.
  { intros q y (Hq & Hqf & Hs). cbn in Hq, Hqf. destruct (Hback q y Hq) as (z & Hz & E). exists z.
    destruct Hs as [Hs He]. rewrite E in Hs, He.
    split_and!; [by split_and!|by eapply (o_visible _ HI)|by rewrite E|by rewrite Hq]. }
  assert (forall q z, settled s q z -> skipped z = false) as Hskip.
  { intros q z (Hq & _ & Hqa & Hqe). unfold skipped. rewrite Hqe, orb_false_r.
    destruct (vforked z) eqn:Hvz; [|done]. by rewrite (o_aside _ HI q z Hq Hvz) in Hqa. }
  constructor.
  - intros a b xa xb m Ha Hb Ea Eb. destruct (Hset _ _ Ha) as (za & Sa & Va & Ma & Wa), (Hset _ _ Hb) as (zb & Sb & Vb & Mb & Wb).
    destruct (decide (a = b)) as [->|Hne]; [destruct Ha as [Ha _], Hb as [Hb _]; congruence|].
    pose proof (o_multi _ HI a b za zb m Sa Sb Hne ltac:(congruence) ltac:(congruence)) as Hmu.
    destruct (decide (vforked x = false /\ p_mm x = Some m)) as [Hxm|Hxm].
    + rewrite (write_group t v s x m a za) in Wa by (apply Sa || apply Hskip with a, Sa || apply Hxm || congruence || done).
      rewrite (write_group t v s x m b zb) in Wb by (apply Sb || apply Hskip with b, Sb || apply Hxm || congruence || done). congruence.
    + assert (forall q z, settled s q z -> p_mm z = Some m ->
                oom_score_adj <$> set_oom_adj t v s !! q = Some (oom_score_adj z)) as Hoth.
      { intros q z (Hq & Hqf & Hqa & _) Hz. apply (write_other t v s x); [done|done| |naive_solver].
        intros ->. assert (z = x) as -> by congruence. apply Hxm. split; [|done].
        destruct (vforked x) eqn:Hvx; [|done]. by rewrite (o_aside _ HI t x Ht Hvx) in Hqa. }
      rewrite (Hoth a za Sa) in Wa by congruence. rewrite (Hoth b zb Sb) in Wb by congruence.
      injection Wa as <-. injection Wb as <-. apply (o_agree _ HI a b za zb m Sa Sb); congruence.
  - intros a b xa xb m Ha Hb Hne Ea Eb.
    destruct (Hset _ _ Ha) as (za & Sa & _ & Ma & _), (Hset _ _ Hb) as (zb & Sb & _ & Mb & _).
    apply (o_multi _ HI a b za zb m Sa Sb Hne); congruence.
  - intros q y Hq Hvf. destruct (Hback q y Hq) as (z & Hz & E). rewrite E in Hvf |- *. by apply (o_aside _ HI q z).
  - intros q y Hq Hqf. destruct (Hback q y Hq) as (z & Hz & ->). by apply (o_visible _ HI q z).
  - intros c f Hf. cbn in Hf.
    destruct (o_forks _ HI c f Hf) as (z & pz & Hz & Hpz & Hpf & H1 & H2 & H3 & H4 & H5).
    destruct (write_keeps t v s c z Hz) as (a1 & b1 & E1), (write_keeps t v s _ pz Hpz) as (a2 & b2 & E2).
    exists (set_adj a1 b1 z), (set_adj a2 b2 pz). cbn. split_and!; try done.
    intros Hst. specialize (H5 Hst). destruct (hasb (cflags f) CLONE_VM); [done|].
    intros q y m Hq Hy Hzm. destruct (Hback q y Hq) as (w & Hw & E). rewrite E in Hy. by eapply H5.
Qed.

(** *** Runs *)

Lemma undo_inv c f s :
  oinv s -> forks s !! c = Some f -> oinv (Ost (delete c (procs s)) (multi s) (delete c (forks s))).
Proof.
  intros HI Hf. apply remove_inv; [done|]. intros d g Hd E.
  destruct (o_forks _ HI d g Hd) as (x & px & _ & _ & Hpf & _). congruence.
Qed.

Lemma set_vfork_inv c f x s :
  oinv s -> forks s !! c = Some f -> procs s !! c = Some x -> fstage_of f = Returned ->
  oinv (Ost (<[c := set_vforked true x]> (procs s)) (multi s) (delete c (forks s))).
Proof.
  intros HI Hf Hx Hst. destruct (o_forks _ HI c f Hf) as (x0 & px & Hx0 & _ & _ & _ & _ & _ & H4 & _).
  rewrite Hst in H4. assert (x0 = x) as -> by congruence. by apply vfork_done_inv; [|done|apply H4|apply H4].
Qed.

Lemma clear_vfork_inv c x s :
  oinv s -> procs s !! c = Some x -> vforked x = true ->
  oinv (set_procs (<[c := set_vforked false x]> (procs s)) s).
Proof.
  intros HI Hx Hvf. assert (forks s !! c = None) as Hf.
  { destruct (forks s !! c) as [f|] eqn:Hf; [|done].
    destruct (o_forks _ HI c f Hf) as (x0 & px & Hx0 & _ & _ & Hnv & _). congruence. }
  pose proof (vfork_done_inv c x false s HI Hx (o_aside _ HI c x Hx Hvf) (o_visible _ HI c x Hx Hf)) as Hr.
  by rewrite (delete_id (forks s)) in Hr.
Qed.

Lemma exit_inv p s : oinv s -> quiet_proc p s -> oinv (set_procs (delete p (procs s)) s).
Proof. intros HI [Hf Hq]. pose proof (remove_inv p s HI Hq) as Hr. by rewrite (delete_id (forks s)) in Hr. Qed.

Lemma oom_step_inv s s' : oinv s -> oom_step s s' -> oinv s'.
Proof.
  intros HI [e He]. destruct e as [p c fl|c m|c|c|c|c|c|t v|p m|p]; cbn in He; unfold mbind, option_bind in He;
    repeat (case_match; [|done]); repeat match goal with
    | H : _ && _ = true |- _ => apply andb_true_iff in H as [??]
    | H : bool_decide _ = true |- _ => apply bool_decide_eq_true in H
    end.
  - injection He as <-. by apply begin_inv.
  - injection He as <-. by apply copymm_inv.
  - injection He as <-. by apply attach_inv.
  - injection He as <-. by eapply finish_inv.
  - injection He as <-. by eapply set_vfork_inv.
  - injection He as <-. by eapply clear_vfork_inv.
  - destruct (forks s !! c) as [f|] eqn:Hf; [|done]. destruct (bool_decide _); [done|]. injection He as <-.
    by eapply undo_inv.
  - injection He as <-. by eapply write_inv.
  - injection He as <-. by apply exec_keeps_scores.
  - injection He as <-. by apply exit_inv.
Qed.

(** C26: whatever processes are created, fail to be created, execute new programs or
    exit, whenever parents waiting for a vfork child are killed and whenever scores
    are written, also in the middle of a fork: any two processes that are fully
    created, use the same address space and are not set aside have the same
    [oom_score_adj], and the address space is marked.  Set aside are kernel threads
    and the global init and, until they execute a program, processes created with
    CLONE_VFORK and processes created to share the memory of one set aside
    ([skipped_parent_diverges] shows why). *)
Theorem oom_scores_agree s0 s p q x y m :
  separate s0 -> rtc oom_step s0 s ->
  settled s p x -> settled s q y -> p <> q -> p_mm x = Some m -> p_mm y = Some m ->
  oom_score_adj x = oom_score_adj y /\ m ∈ multi s.
Proof.
  intros Hs Hr Hp Hq Hne Hx Hy. assert (oinv s) as HI.
  { apply separate_inv in Hs. induction Hr as [s|s s1 s2 H1 _ IH]; [done|].
    apply IH; [by eapply oom_step_inv|done|done]. }
  split; [by eapply (o_agree _ HI)|by eapply (o_multi _ HI p q)].
Qed.

End Events.

(** ** A writer, and runs *)

Definition in_group (t : Z) (x : proc) (s : ost) (q : Z) (y : proc) : bool :=
  (q =? t) ||
  match p_mm x with
  | Some m => negb (vforked x) && bool_decide (m ∈ multi s) && bool_decide (p_mm y = Some m) && visible y && negb (skipped y)
  | None => false
  end.

Definition plain_write (t v : Z) (s : ost) : gmap Z proc :=
  match procs s !! t with
  | None => procs s
  | Some x => map_imap (fun q y => Some (if in_group t x s q y then set_adj v (oom_score_adj_min y) y else y)) (procs s)
  end.

Lemma plain_write_lookup t v s q x y :
  procs s !! t = Some x -> procs s !! q = Some y ->
  plain_write t v s !! q = Some (if in_group t x s q y then set_adj v (oom_score_adj_min y) y else y).
Proof. intros Ht Hq. unfold plain_write. by rewrite Ht, map_lookup_imap, Hq. Qed.

#[global, program] Instance plain_writer : OomWriter := {| set_oom_adj := plain_write |}.
Next Obligation.
  intros t v s q x Hq. destruct (procs s !! t) as [z|] eqn:Ht.
  - cbn. rewrite (plain_write_lookup t v s q z x Ht Hq). destruct (in_group t z s q x); [by eexists _, _|].
    exists (oom_score_adj x), (oom_score_adj_min x). by destruct x.
  - unfold plain_write. rewrite Ht, Hq. exists (oom_score_adj x), (oom_score_adj_min x). by destruct x.
Qed.
Next Obligation.
  intros t v s q Hq. unfold plain_write. destruct (procs s !! t); [|done]. by rewrite map_lookup_imap, Hq.
Qed.
Next Obligation.
  intros t v s x Ht _. rewrite (plain_write_lookup t v s t x x Ht Ht). unfold in_group. by rewrite Z.eqb_refl.
Qed.
Next Obligation.
  intros t v s x m q y Ht Hvx Hx Hm Hq Hy Hv Hs. rewrite (plain_write_lookup t v s q x y Ht Hq). unfold in_group.
  rewrite Hx, Hvx, Hv, Hs, !bool_decide_eq_true_2 by done. cbn. by rewrite orb_true_r.
Qed.
Next Obligation.
  intros t v s x q y Ht Hq Hne Hm. rewrite (plain_write_lookup t v s q x y Ht Hq). unfold in_group.
  rewrite (proj2 (Z.eqb_neq q t) Hne). cbn. destruct (p_mm x) as [m|]; [|done].
  destruct (vforked x) eqn:Hvx; [done|]. cbn.
  destruct (decide (p_mm y = Some m)) as [E|E]; [rewrite (bool_decide_eq_false_2 (m ∈ multi s)) by eauto; done|].
  by rewrite (bool_decide_eq_false_2 (p_mm y = Some m)), andb_false_r by done.
Qed.

Fixpoint oom_dos (es : list oev) (s : ost) : option ost :=
  match es with [] => Some s | e :: es' => s' ← oom_do e s; oom_dos es' s' end.

Lemma oom_dos_run es s s' : oom_dos es s = Some s' -> rtc oom_step s s'.
Proof.
  revert s. induction es as [|e es IH]; intros s Hs; cbn in Hs; [injection Hs as <-; constructor|].
  destruct (oom_do e s) as [s1|] eqn:He; [|done]. eapply rtc_l; [by exists e|by apply IH].
Qed.

Definition oom0 : ost := Ost {[ 10 := Proc (Some 100) 0 0 false false false true false ]} ∅ ∅.

Lemma oom0_separate : separate oom0.
Proof.
  split_and!; [done|by apply map_Forall_singleton|].
  intros p q x y m Hp Hq _ _. unfold oom0 in Hp, Hq. cbn [procs] in Hp, Hq. apply lookup_singleton_Some in Hp as [<- _], Hq as [<- _]. done.
Qed.

(** The score of 10 is raised after [copy_signal] and again after the child is on
    the task list; the finished child has the last value. *)
Definition racing : list oev :=
  [Begin 10 11 CLONE_VM; WriteAdj 10 300; CopyMm 11 101; Attach 11; WriteAdj 10 500; Finish 11].
Definition oom1 : ost :=
  Ost {[ 10 := Proc (Some 100) 500 0 false false false true false; 11 := Proc (Some 100) 500 0 false false false true false ]} {[ 100 ]} ∅.

Lemma racing_runs : rtc oom_step oom0 oom1.
Proof. apply (oom_dos_run racing). vm_compute. reflexivity. Qed.

Lemma oom_scores_agree_witness :
  oom_score_adj (Proc (Some 100) 500 0 false false false true false) = oom_score_adj (Proc (Some 100) 500 0 false false false true false) /\
  100 ∈ multi oom1.
Proof.
  apply (oom_scores_agree oom0 oom1 10 11); [exact oom0_separate|exact racing_runs|..]; try done;
    split_and!; reflexivity.
Defined.

(** A vfork child, whose score was written alone, shares the memory with a process
    of its own.  Its parent is killed and it executes a program: the two processes
    left share the memory, are skipped by no writer and differ. *)
Definition vfork_flags : Z := Z.lor CLONE_VM CLONE_VFORK.

Example skipped_parent_diverges :
  exists s,
    oom_dos [Begin 10 11 vfork_flags; CopyMm 11 101; Attach 11; Finish 11; SetVfork 11; WriteAdj 11 7;
             Begin 11 12 CLONE_VM; CopyMm 12 102; Attach 12; Finish 12; ClearVfork 11; Exec 11 103] oom0 = Some s /\
    (fun x => (p_mm x, oom_score_adj x, skipped x, aside x)) <$> procs s !! 10 = Some (Some 100, 0, false, false) /\
    (fun x => (p_mm x, oom_score_adj x, skipped x, aside x)) <$> procs s !! 12 = Some (Some 100, 7, false, true).
Proof. eexists. by split_and!; [vm_compute; reflexivity..|]. Qed.
