(* ===== verification/SocketFairness.v ===== *)
(** * SocketFairness: the per-task socket limits

    Models the system call of [kernel/configure_socket_fairness.c] over the three
    fields it and [copy_process] use of [task_struct] (include/linux/sched.h), with
    the RCU section and the task lock counted.  Finding a task by its number and
    the capability check are parameters. *)

From Stdlib Require Import ZArith Lia.
From stdpp Require Import base gmap list.
From S2P Require Import Prelude.

(** ** The system call *)

Record sock_task := SockTask {
  tgid : Z;
  max_socket_allowed : Z; priority_level : Z; socket_count : Z
}.

Record sf_state := SfState {
  tasks : gmap Z sock_task;
  rcu_depth : Z;
  locked : list Z              (** tasks whose alloc_lock is held *)
}.

Definition set_rcu (n : Z) (s : sf_state) : sf_state := SfState (tasks s) n (locked s).

Definition rcu_read_lock : M sf_state unit := modify (fun s => set_rcu (rcu_depth s + 1) s).
Definition rcu_read_unlock : M sf_state unit := modify (fun s => set_rcu (rcu_depth s - 1) s).

Definition task_lock (t : Z) : M sf_state unit :=
  s ← get;
  if bool_decide (t ∈ locked s) then abort Deadlock
  else put (SfState (tasks s) (rcu_depth s) (t :: locked s)).

Definition task_unlock (t : Z) : M sf_state unit :=
  s ← get;
  match locked s with
  | x :: l => if x =? t then put (SfState (tasks s) (rcu_depth s) l) else abort Dangling
  | [] => abort Dangling
  end.

(** A task may be used only inside an RCU section and while it exists. *)
Definition deref (t : Z) : M sf_state sock_task :=
  s ← get;
  if rcu_depth s <=? 0 then abort Dangling
  else lift (res_of_opt Dangling (tasks s !! t)).

Definition store (t : Z) (v : sock_task) : M sf_state unit :=
  _ ← deref t;
  modify (fun s => SfState (<[t := v]> (tasks s)) (rcu_depth s) (locked s)).

Section Configure.
Context (find_task_by_vpid : Z -> option Z) (capable_sys_admin : bool) (current : Z).

Definition same_thread_group (a b : Z) : M sf_state bool :=
  x ← deref a; y ← deref b; mret (tgid x =? tgid y).

Definition configure_socket_fairness (pid max prio : Z) : M sf_state Z :=
  if (max <? 0) || (prio <? 0) then mret (- Errno.EINVAL)
  else
    _ ← rcu_read_lock;
    match find_task_by_vpid pid with
    | None => _ ← rcu_read_unlock; mret (- Errno.ESRCH)
    | Some task =>
        same ← same_thread_group current task;
        if negb capable_sys_admin && negb same then _ ← rcu_read_unlock; mret (- Errno.EPERM)
        else
          _ ← task_lock task;
          t ← deref task;
          _ ← store task (SockTask (tgid t) max (priority_level t) (socket_count t));
          t ← deref task;
          _ ← store task (SockTask (tgid t) (max_socket_allowed t) prio (socket_count t));
          _ ← task_unlock task;
          _ ← rcu_read_unlock;
          mret 0
    end.

(** ** Its specification *)

(** The call as one decision and one update. *)
Definition configure_spec (pid max prio : Z) (ts : gmap Z sock_task) : Z * gmap Z sock_task :=
  if (max <? 0) || (prio <? 0) then (- Errno.EINVAL, ts)
  else match find_task_by_vpid pid with
       | None => (- Errno.ESRCH, ts)
       | Some task =>
           let group t := tgid <$> ts !! t in
           if negb capable_sys_admin && negb (bool_decide (group current = group task)) then
             (- Errno.EPERM, ts)
           else (0, alter (fun t => SockTask (tgid t) max prio (socket_count t)) task ts)
       end.

(** The caller and the tasks found by number exist. *)
Definition sf_wf (ts : gmap Z sock_task) : Prop :=
  is_Some (ts !! current) /\ forall pid t, find_task_by_vpid pid = Some t -> is_Some (ts !! t).

(** No task has a negative limit or priority. *)
Definition limits_ok (ts : gmap Z sock_task) : Prop :=
  map_Forall (fun _ t => 0 <= max_socket_allowed t /\ 0 <= priority_level t) ts.

Lemma deref_ok a x s : 0 < rcu_depth s -> tasks s !! a = Some x -> deref a s = Ok (x, s).
Proof.
  intros H Ha. unfold deref, mbind, M_bind, get, lift, res_of_opt.
  by rewrite (proj2 (Z.leb_gt _ _) H), Ha.
Qed.

Lemma store_ok a x v s :
  0 < rcu_depth s -> tasks s !! a = Some x ->
  store a v s = Ok (tt, SfState (<[a := v]> (tasks s)) (rcu_depth s) (locked s)).
Proof. intros H Ha. unfold store, mbind, M_bind. by rewrite (deref_ok a x). Qed.

Lemma same_group_ok a b x y s :
  0 < rcu_depth s -> tasks s !! a = Some x -> tasks s !! b = Some y ->
  same_thread_group a b s = Ok (tgid x =? tgid y, s).
Proof.
  intros H Ha Hb. unfold same_thread_group, mbind, M_bind.
  by rewrite (deref_ok a x), (deref_ok b y).
Qed.

Lemma configure_cases pid max prio ts d l :
  sf_wf ts -> 0 <= d -> (forall t, find_task_by_vpid pid = Some t -> t ∉ l) ->
  let '(r, ts') := configure_spec pid max prio ts in
  configure_socket_fairness pid max prio (SfState ts d l) = Ok (r, SfState ts' d l).
Proof.
  intros [[x Hx] Hw] Hd Hl. unfold configure_spec, configure_socket_fairness.
  destruct ((max <? 0) || (prio <? 0)); [done|].
  destruct (find_task_by_vpid pid) as [t|] eqn:Hf.
  2: { unfold rcu_read_lock, rcu_read_unlock, set_rcu. mrun. do 3 f_equal. lia. }
  destruct (Hw pid t Hf) as [y Hy]. specialize (Hl t eq_refl).
  unfold rcu_read_lock. unfold mbind at 1, M_bind at 1, modify at 1. cbv beta iota.
  unfold mbind at 1, M_bind at 1.
  rewrite (same_group_ok current t x y) by (cbn; (lia || done)). cbv beta iota.
  rewrite Hx, Hy. cbn [fmap option_fmap option_map].
  assert (bool_decide (Some (tgid x) = Some (tgid y)) = (tgid x =? tgid y)) as ->.
  { destruct (Z.eqb_spec (tgid x) (tgid y)) as [->|Hne]; [by apply bool_decide_eq_true_2|].
    apply bool_decide_eq_false_2. congruence. }
  destruct (negb capable_sys_admin && negb (tgid x =? tgid y)).
  { unfold rcu_read_unlock, set_rcu. mrun. do 3 f_equal. lia. }
  unfold task_lock, task_unlock, rcu_read_unlock, set_rcu, mbind, M_bind, get, put, modify, mret, M_ret.
  cbn [locked tasks rcu_depth]. rewrite bool_decide_eq_false_2 by done.
  rewrite (deref_ok t y) by (cbn; (lia || done)).
  rewrite (store_ok t y) by (cbn; (lia || done)). cbn [tasks rcu_depth locked].
  set (y1 := SockTask _ _ _ _).
  rewrite (deref_ok t y1) by (cbn; (lia || apply lookup_insert_eq)).
  rewrite (store_ok t y1) by (cbn; (lia || apply lookup_insert_eq)). cbn [tasks rcu_depth locked].
  rewrite Z.eqb_refl. cbn [tasks rcu_depth locked]. rewrite insert_insert_eq, (Z.add_simpl_r d 1).
  unfold y1. cbn [tgid max_socket_allowed socket_count].
  do 3 f_equal. apply map_eq. intros i. destruct (decide (i = t)) as [->|Hne].
  - by rewrite lookup_insert_eq, lookup_alter_eq, Hy.
  - by rewrite lookup_insert_ne, lookup_alter_ne.
Qed.

(** C18: the system call returns on every input, leaves the RCU section and the
    task locks as it found them and does exactly this: negative arguments,
    unknown tasks and callers that are neither privileged nor in the task's
    thread group are refused without a change; otherwise the limit and the
    priority of that one task are replaced and its socket count and all other
    tasks are as before.  Limits and priorities stay non-negative. *)
Theorem configure_refines_spec pid max prio s :
  sf_wf (tasks s) -> 0 <= rcu_depth s -> locked s = [] ->
  let '(r, ts') := configure_spec pid max prio (tasks s) in
  configure_socket_fairness pid max prio s = Ok (r, SfState ts' (rcu_depth s) []) /\
  sf_wf ts' /\ (limits_ok (tasks s) -> limits_ok ts') /\
  (forall t, find_task_by_vpid pid <> Some t -> ts' !! t = tasks s !! t) /\
  (r <> 0 -> ts' = tasks s).
Proof.
  destruct s as [ts d l]. cbn [tasks rcu_depth locked]. intros Hw Hd ->.
  pose proof (configure_cases pid max prio ts d [] Hw Hd) as Hc.
  destruct (configure_spec pid max prio ts) as [r ts'] eqn:Hs.
  split; [apply Hc; intros t _ Ht; inversion Ht|]. clear Hc Hd.
  unfold configure_spec in Hs.
  destruct ((max <? 0) || (prio <? 0)) eqn:Hneg; [by simplify_eq|].
  destruct (find_task_by_vpid pid) as [t|]; [|by simplify_eq].
  destruct (negb _ && negb _); [by simplify_eq|]. injection Hs as <- <-.
  apply orb_false_iff in Hneg as [H1 H2]. apply Z.ltb_ge in H1, H2.
  split_and!; [|intros Hl|intros u Hu|done].
  - destruct Hw as [W1 W2]. split; [by rewrite lookup_alter_is_Some|].
    intros q u Hq. rewrite lookup_alter_is_Some. eauto.
  - intros u v. rewrite lookup_alter_Some. intros [(<- & w & Hw2 & ->)|[_ Hv]]; [done|by apply (Hl u)].
  - apply lookup_alter_ne. congruence.
Qed.

End Configure.

(** ** Witnesses *)

Definition sf0 : sf_state :=
  SfState {[ 10 := SockTask 10 0 0 2; 11 := SockTask 10 0 0 0; 20 := SockTask 20 5 1 0 ]} 0 [].
Definition vpid0 (pid : Z) : option Z :=
  if (pid =? 10) || (pid =? 11) || (pid =? 20) then Some pid else None.

Lemma sf0_wf : sf_wf vpid0 10 (tasks sf0).
Proof.
  split; [by eexists|]. intros pid t. unfold vpid0.
  destruct (Z.eqb_spec pid 10) as [->|_]; [intros [= <-]; by eexists|].
  destruct (Z.eqb_spec pid 11) as [->|_]; [intros [= <-]; by eexists|].
  destruct (Z.eqb_spec pid 20) as [->|_]; [intros [= <-]; by eexists|done].
Qed.

Lemma configure_refines_spec_witness :
  configure_socket_fairness vpid0 false 10 11 8 3 sf0
    = Ok (0, SfState (alter (fun t => SockTask (tgid t) 8 3 (socket_count t)) 11 (tasks sf0)) 0 []) /\
  configure_spec vpid0 false 10 20 8 3 (tasks sf0) = (- Errno.EPERM, tasks sf0).
Proof.
  split; [|reflexivity].
  exact (proj1 (configure_refines_spec vpid0 false 10 11 8 3 sf0 sf0_wf ltac:(cbn; lia) eq_refl)).
Defined.
