(* ===== verification/SocketTest.v ===== *)
(** * SocketTest: the test program of the socket limits

    Models [network/socket/socket_test.c].  Every function is a [prog]: a finite
    tree of the calls it makes ([event]) with one subtree for each answer, so that
    the same text can be run with a handler, run by several threads in any order,
    and reasoned about.  The kernel below it is [SocketFairness]: a thread is a
    task with limits of its own, created with the zeros [copy_process] gives it.
    The process's open descriptors and heap blocks are one shared set ([rsrc]).
    What [fopen], [malloc], [socket] and [pthread_create] answer, and the contents
    of a status file and of fresh memory, is arbitrary.

    The reasoning is by ownership: [wp] says of a program that it uses only
    descriptors and blocks its own thread holds, and the descriptors and blocks of
    the process are at any time those of its threads, without overlap. *)

From Stdlib Require Import ZArith Lia Ascii String.
From stdpp Require Import base gmap list sets relations strings pretty.
From S2P Require Import Prelude SocketFairness.

(** ** Calls and programs *)

(** What the program prints, by place. *)
Inductive msg :=
| SyscallFailed (errno : Z)
| CannotOpen
| StatusOf (pid : Z)
| StatusLine (line : list ascii)
| SocketFailed (nth : Z)
| Created (n : Z)
| ThreadStarts (tid limit : Z)
| ThreadFailed (tid : Z)
| PriorityFailed (prio : Z)
| PrioritySet (prio : Z)
| MainPid (pid : Z)
| Title (test : Z)
| ProcessFailed
| ThreadNotCreated
| AllPassed.

(** Calls of the C library and the kernel, with the type of their answers.  A
    pointer to heap memory is a number; [Malloc] also answers the contents of the
    array, [Fopen] the descriptor of the stream and the text that will be read
    from it.  A [pthread_t] is the position of the thread. *)
Inductive event : Type -> Type :=
| Gettid : event Z
| Getpid : event Z
| Configure (pid max prio : Z) : event Z
| Fopen (path : string) : event (option (Z * list ascii))
| Fclose (fd : Z) : event unit
| Malloc (ints : nat) : event (option (Z * list Z))
| Free (p : Z) : event unit
| Socket : event Z
| Close (fd : Z) : event unit
| Printf (m : msg) : event unit
| PthreadCreate (limit : Z) : event (option nat)
| PthreadJoin (thread : option nat) : event unit.

Inductive prog (A : Type) : Type :=
| Ret (a : A)
| Vis {X : Type} (e : event X) (k : X -> prog A).
Arguments Ret {A}.
Arguments Vis {A X}.

Fixpoint pbind {A B} (k : A -> prog B) (p : prog A) : prog B :=
  match p with
  | Ret a => k a
  | Vis e c => Vis e (fun x => pbind k (c x))
  end.
#[global] Instance prog_ret : MRet prog := fun A a => Ret a.
#[global] Instance prog_bind : MBind prog := fun A B => pbind.

Definition call {X} (e : event X) : prog X := Vis e Ret.
Definition say (m : msg) : prog unit := call (Printf m).

(** ** The functions of the program *)

(** [syscall] answers -1 for a negative result and sets [errno]. *)
Definition set_thread_socket_attrs (pid max_sockets priority_level : Z) : prog Z :=
  pid ← (if pid =? 0 then call Gettid else mret pid);
  r ← call (Configure pid max_sockets priority_level);
  if r <? 0 then _ ← say (SyscallFailed (- r)); mret (-1) else mret r.

(** [fgets] with a buffer of [n + 1] characters: the characters up to the first
    newline, or [n] of them, and the rest of the stream. *)
Fixpoint fgets_go (n : nat) (text : list ascii) : list ascii * list ascii :=
  match n, text with
  | O, _ | _, [] => ([], text)
  | S n', c :: rest =>
      if Ascii.eqb c "010" then ([c], rest)
      else let '(l, r) := fgets_go n' rest in (c :: l, r)
  end.

Definition fgets (size : nat) (text : list ascii) : option (list ascii * list ascii) :=
  match text with [] => None | _ => Some (fgets_go (size - 1) text) end.

(** A C string ends at its first zero character. *)
Fixpoint cstr (l : list ascii) : list ascii :=
  match l with
  | [] => []
  | c :: l' => if Ascii.eqb c "000" then [] else c :: cstr l'
  end.

Fixpoint starts (pat s : list ascii) : bool :=
  match pat, s with
  | [], _ => true
  | p :: pat', c :: s' => Ascii.eqb p c && starts pat' s'
  | _, [] => false
  end.

(** [strstr (s, pat) != NULL] *)
Fixpoint strstr (s pat : list ascii) : bool :=
  starts pat s || match s with [] => false | _ :: s' => strstr s' pat end.

Definition socket_word : list ascii := list_ascii_of_string "Socket".

(** The [while] loop of [read_proc_status]; every iteration reads a character. *)
Fixpoint status_loop (fuel : nat) (text : list ascii) : prog unit :=
  match fuel with
  | O => mret tt
  | S fuel' =>
      match fgets 256 text with
      | None => mret tt
      | Some (line, rest) =>
          _ ← (if strstr (cstr line) socket_word then say (StatusLine (cstr line)) else mret tt);
          status_loop fuel' rest
      end
  end.

Definition status_path (pid : Z) : string := ("/proc/" ++ pretty pid ++ "/status")%string.

Definition read_proc_status (pid : Z) : prog unit :=
  f ← call (Fopen (status_path pid));
  match f with
  | None => say CannotOpen
  | Some (fp, text) =>
      _ ← say (StatusOf pid);
      _ ← status_loop (S (List.length text)) text;
      call (Fclose fp)
  end.

(** The loop of [create_sockets]: [n] iterations left, the next one is [i]; the
    array and the value of [i] after it. *)
Fixpoint create_loop (n i : nat) (sock_fds : list Z) : prog (list Z * nat) :=
  match n with
  | O => mret (sock_fds, i)
  | S n' =>
      fd ← call Socket;
      let sock_fds := <[i := fd]> sock_fds in
      if fd <? 0 then _ ← say (SocketFailed (Z.of_nat i + 1)); mret (sock_fds, i)
      else create_loop n' (S i) sock_fds
  end.

Definition create_sockets (count : nat) : prog (option (Z * list Z)) :=
  m ← call (Malloc count);
  match m with
  | None => mret None
  | Some (p, sock_fds) =>
      r ← create_loop count 0 sock_fds;
      _ ← say (Created (Z.of_nat r.2));
      mret (Some (p, r.1))
  end.

Fixpoint close_loop (sock_fds : list Z) : prog unit :=
  match sock_fds with
  | [] => mret tt
  | fd :: rest => _ ← (if 0 <=? fd then call (Close fd) else mret tt); close_loop rest
  end.

Definition close_sockets (sock_fds : option (Z * list Z)) (count : nat) : prog unit :=
  match sock_fds with
  | None => mret tt
  | Some (p, a) => _ ← close_loop (take count a); call (Free p)
  end.

(** The thread function; it returns [NULL] on both paths. *)
Definition thread_socket_test (limit : Z) : prog Z :=
  tid ← call Gettid;
  _ ← say (ThreadStarts tid limit);
  r ← set_thread_socket_attrs 0 limit 80;
  if r <? 0 then _ ← say (ThreadFailed tid); mret NULL
  else
    _ ← read_proc_status tid;
    sockets ← create_sockets (Z.to_nat (limit + 2));
    _ ← read_proc_status tid;
    _ ← close_sockets sockets (Z.to_nat (limit + 2));
    mret NULL.

Definition set_thread_priority (priority : Z) : prog unit :=
  r ← set_thread_socket_attrs 0 10000 priority;
  if r <? 0 then say (PriorityFailed priority) else say (PrioritySet priority).

(** The two loops over the three threads; an element of [threads] is [None] until
    [pthread_create] has written it. *)
Fixpoint create_threads (limits : list Z) : prog (list (option nat)) :=
  match limits with
  | [] => mret []
  | l :: rest =>
      h ← call (PthreadCreate l);
      _ ← (match h with None => say ThreadNotCreated | Some _ => mret tt end);
      hs ← create_threads rest;
      mret (h :: hs)
  end.

Fixpoint join_threads (threads : list (option nat)) : prog unit :=
  match threads with
  | [] => mret tt
  | h :: rest => _ ← call (PthreadJoin h); join_threads rest
  end.

Definition limits : list Z := [5; 8; 3].

Definition main : prog Z :=
  pid ← call Getpid;
  _ ← say (MainPid pid);
  _ ← say (Title 1);
  r ← set_thread_socket_attrs pid 10 50;
  _ ← (if r <? 0 then say ProcessFailed
       else
         _ ← read_proc_status pid;
         sockets ← create_sockets 12;
         close_sockets sockets 12);
  _ ← say (Title 2);
  threads ← create_threads limits;
  _ ← join_threads threads;
  _ ← say (Title 3);
  _ ← set_thread_priority 99;
  _ ← read_proc_status pid;
  _ ← set_thread_priority 0;
  _ ← read_proc_status pid;
  _ ← say AllPassed;
  mret 0.

(** ** Running a program by itself *)

(** A handler answers each call and keeps a state of its own. *)
Definition handler (S : Type) : Type := forall X, event X -> S -> X * S.

Fixpoint run {S A} (h : handler S) (p : prog A) (s : S) : A * S :=
  match p with
  | Ret a => (a, s)
  | Vis e k => let '(x, s') := h _ e s in run h (k x) s'
  end.

Lemma run_bind {S A B} (h : handler S) (p : prog A) (k : A -> prog B) s :
  run h (p ≫= k) s = let '(a, s') := run h p s in run h (k a) s'.
Proof.
  revert s. induction p as [a|X e c IH]; intros s; [done|].
  cbn. destruct (h X e s) as [x s']. apply IH.
Qed.

(** *** Status files *)

(** The lines of a text, each with its newline. *)
Fixpoint lines (text : list ascii) : list (list ascii) :=
  match text with
  | [] => []
  | c :: t =>
      if Ascii.eqb c "010" then [c] :: lines t
      else match lines t with [] => [[c]] | l :: ls => (c :: l) :: ls end
  end.

Fixpoint say_all (ms : list msg) : prog unit :=
  match ms with [] => mret tt | m :: ms' => _ ← say m; say_all ms' end.

Definition about_sockets (l : list ascii) : bool := strstr l socket_word.

Lemma lines_cons c t : exists l ls, lines (c :: t) = l :: ls.
Proof. cbn. destruct (Ascii.eqb c "010"); [by eexists _, _|]. destruct (lines t); by eexists _, _. Qed.

Lemma fgets_go_line n text l ls :
  lines text = l :: ls -> (List.length l <= n)%nat ->
  exists rest, fgets_go n text = (l, rest) /\ lines rest = ls /\ text = l ++ rest /\ l <> [].
Proof.
  revert text l ls. induction n as [|n IH]; intros [|c t] l ls Hl Hn; try done.
  { destruct l; [|cbn in Hn; lia]. cbn in Hl. destruct (Ascii.eqb c "010"); [done|]. by destruct (lines t). }
  cbn in Hl |- *. destruct (Ascii.eqb c "010"); [injection Hl as <- <-; by eexists|].
  destruct t as [|c2 t].
  { cbn in Hl. injection Hl as <- <-. exists []. by destruct n. }
  destruct (lines_cons c2 t) as (l2 & ls2 & H2). rewrite H2 in Hl. injection Hl as <- <-.
  cbn in Hn. destruct (IH _ _ _ H2) as (rest & -> & ? & -> & ?); [lia|].
  by eexists.
Qed.

Lemma cstr_whole l : "000"%char ∉ l -> cstr l = l.
Proof.
  induction l as [|c l IH]; intros Hc; [done|]. apply not_elem_of_cons in Hc as [Hne Hc]. cbn.
  destruct (Ascii.eqb_spec c "000"); [congruence|]. by rewrite IH.
Qed.

Lemma status_loop_lines fuel text :
  (List.length text < fuel)%nat -> "000"%char ∉ text ->
  Forall (fun l => (List.length l <= 255)%nat) (lines text) ->
  status_loop fuel text = say_all (StatusLine <$> List.filter about_sockets (lines text)).
Proof.
  revert text. induction fuel as [|fuel IH]; intros text Hf Hz Hl; [lia|].
  destruct text as [|c t]; [done|].
  destruct (lines_cons c t) as (l & ls & H). rewrite H in Hl |- *.
  apply Forall_cons_1 in Hl as [Hl Hls].
  destruct (fgets_go_line 255 _ _ _ H Hl) as (rest & Hg & <- & Ht & Hne).
  change (status_loop (S fuel) (c :: t)) with
    (let '(line, rest) := fgets_go 255 (c :: t) in
     _ ← (if strstr (cstr line) socket_word then say (StatusLine (cstr line)) else mret tt);
     status_loop fuel rest).
  rewrite Hg. cbv beta iota. rewrite Ht in Hz. apply not_elem_of_app in Hz as [Hz1 Hz2].
  rewrite (cstr_whole l) by done. change (strstr l socket_word) with (about_sockets l).
  assert (List.length rest < fuel)%nat as Hr.
  { rewrite Ht, length_app in Hf. destruct l; [done|]. cbn in Hf. lia. }
  cbn [List.filter]. destruct (about_sockets l); cbn; by rewrite (IH rest Hr Hz2 Hls).
Qed.

(** Reading a status file prints its lines that mention sockets, each whole and in
    order, for every file whose lines fit the buffer of 256 characters; the stream
    is closed after the last one. *)
Theorem read_proc_status_lines pid fp text S (h : handler S) s s1 s2 :
  "000"%char ∉ text -> Forall (fun l => (List.length l <= 255)%nat) (lines text) ->
  h _ (Fopen (status_path pid)) s = (Some (fp, text), s1) ->
  h _ (Printf (StatusOf pid)) s1 = (tt, s2) ->
  run h (read_proc_status pid) s =
  run h (_ ← say_all (StatusLine <$> List.filter about_sockets (lines text)); call (Fclose fp)) s2.
Proof.
  intros Hz Hl H1 H2. unfold read_proc_status. cbn -[status_loop]. rewrite H1.
  cbn -[status_loop]. rewrite H2. by rewrite status_loop_lines by (done || lia).
Qed.

(** *** The buffer of the path *)

Lemma length_pretty_go x s k :
  (x < 10 ^ N.of_nat k)%N -> (String.length (pretty_N_go x s) <= k + String.length s)%nat.
Proof.
  revert x s. induction k as [|k IH]; intros x s Hx.
  { assert (x = 0)%N as -> by (cbn in Hx; lia). by rewrite pretty_N_go_0. }
  destruct (decide (x = 0)%N) as [->|Hne]; [rewrite pretty_N_go_0; lia|].
  rewrite pretty_N_go_step by lia.
  etransitivity; [apply IH|cbn; lia].
  apply N.Div0.div_lt_upper_bound. rewrite Nat2N.inj_succ, N.pow_succ_r' in Hx. lia.
Qed.

Lemma length_pretty_N (n : N) k :
  (n < 10 ^ N.of_nat k)%N -> (0 < k)%nat -> (String.length (pretty n) <= k)%nat.
Proof.
  intros Hn Hk. unfold pretty, pretty_N. destruct (decide (n = 0)%N); [cbn; lia|].
  etransitivity; [by apply length_pretty_go|cbn; lia].
Qed.

Lemma length_string_app a b : String.length (a ++ b) = (String.length a + String.length b)%nat.
Proof. induction a as [|c a IH]; [done|]. change (S (String.length (a +:+ b)) = S (String.length a + String.length b)). by rewrite IH. Qed.

(** The path of a status file always fits the 64 characters of [path]. *)
Theorem status_path_fits pid : is_s 32 pid -> (String.length (status_path pid) < 64)%nat.
Proof.
  intros Hp. unfold is_s in Hp. cbn in Hp. unfold status_path.
  assert (String.length (pretty pid) <= 11)%nat.
  { unfold pretty, pretty_Z. destruct pid as [|p|p]; [cbn; lia| |cbn; apply le_n_S];
      (etransitivity; [apply (length_pretty_N _ 10); [cbn; lia|lia]|lia]). }
  rewrite !length_string_app. cbn. lia.
Qed.

(** *** Closing what was never opened *)

(** Sockets by the number of the call, fresh memory by its contents; the state
    counts the calls of [socket] and lists the descriptors closed. *)
Definition array_handler (socket : nat -> Z) (junk : list Z) : handler (nat * list Z) :=
  fun X e s =>
    match e in event X return X * (nat * list Z) with
    | Gettid | Getpid => (1, s)
    | Configure _ _ _ => (0, s)
    | Fopen _ => (None, s)
    | Malloc _ => (Some (1, junk), s)
    | Socket => (socket s.1, (S s.1, s.2))
    | Close fd => (tt, (s.1, s.2 ++ [fd]))
    | PthreadCreate _ => (None, s)
    | Fclose _ | Free _ | Printf _ | PthreadJoin _ => (tt, s)
    end.

Definition nonneg (fd : Z) : bool := 0 <=? fd.

Lemma close_loop_run socket junk l s :
  run (array_handler socket junk) (close_loop l) s = (tt, (s.1, s.2 ++ List.filter nonneg l)).
Proof.
  revert s. induction l as [|fd l IH]; intros [n c]; [cbn; by rewrite app_nil_r|].
  cbn [close_loop List.filter]. change (0 <=? fd) with (nonneg fd). rewrite run_bind.
  destruct (nonneg fd); cbn [run call mret prog_ret array_handler fst snd]; rewrite IH; cbn [fst snd];
    by rewrite <- ?app_assoc.
Qed.

(** The array after the loop: the sockets opened, then, if a call failed, its
    answer and the rest of the memory as it was. *)
Lemma create_loop_run socket junk n i pre rest c :
  List.length pre = i -> List.length rest = n ->
  exists opened,
    Forall (fun fd => 0 <= fd) opened /\
    let k := List.length opened in
    (k = n /\ run (array_handler socket junk) (create_loop n i (pre ++ rest)) (i, c)
              = (pre ++ opened, (i + k)%nat, ((i + k)%nat, c)) \/
     (k < n)%nat /\ socket (i + k)%nat < 0 /\
     run (array_handler socket junk) (create_loop n i (pre ++ rest)) (i, c)
     = (pre ++ opened ++ socket (i + k)%nat :: drop (S k) rest, (i + k)%nat, (S (i + k), c))).
Proof.
  revert i pre rest. induction n as [|n IH]; intros i pre rest Hp Hr.
  { exists []. destruct rest; [|done]. split; [constructor|left]. cbn. by rewrite Nat.add_0_r. }
  destruct rest as [|j rest]; [done|]. injection Hr as Hr. cbn.
  assert (<[i := socket i]> (pre ++ j :: rest) = pre ++ socket i :: rest) as ->
    by (subst i; by rewrite insert_app_r_alt, Nat.sub_diag).
  destruct (Z.ltb_spec (socket i) 0) as [Hs|Hs].
  { exists []. split; [constructor|right]. cbn. rewrite Nat.add_0_r. split_and!; [lia|done|done]. }
  destruct (IH (S i) (pre ++ [socket i]) rest) as (o & Ho & H); [rewrite length_app; cbn; lia|done|].
  exists (socket i :: o). rewrite <- app_assoc in H. cbn [app] in H. split; [by constructor|].
  cbn [List.length drop]. rewrite Nat.add_succ_r. cbn [Nat.add] in H.
  destruct H as [[Hk H]|(Hk & Hn & H)]; [left|right]; rewrite H, <- ?app_assoc;
    (split_and! || split); (lia || done).
Qed.

Lemma filter_nonneg l : Forall (fun fd => 0 <= fd) l -> List.filter nonneg l = l.
Proof. induction 1 as [|x l Hx _ IH]; cbn; [done|]. unfold nonneg at 1. by rewrite (proj2 (Z.leb_le _ _) Hx), IH. Qed.

(** Closing the array of [create_sockets] closes every socket that was created;
    but when a creation fails, as the test provokes, the elements after it were
    never written, and each one that happens to hold a non-negative number is
    closed as well. *)
Theorem close_sockets_closes_stale socket junk count :
  List.length junk = count ->
  exists opened, Forall (fun fd => 0 <= fd) opened /\
    let k := List.length opened in
    (run (array_handler socket junk) (a ← create_sockets count; close_sockets a count) (0%nat, [])).2.2
    = opened ++ (if (k <? count)%nat then List.filter nonneg (drop (S k) junk) else []).
Proof.
  intros Hj. destruct (create_loop_run socket junk count 0 [] junk [] eq_refl Hj) as (o & Ho & H).
  exists o. split; [done|]. cbn zeta in H |- *. cbn [app Nat.add] in H.
  unfold create_sockets, close_sockets. rewrite run_bind. cbn [run mbind prog_bind pbind call array_handler].
  change (pbind ?k ?p) with (p ≫= k). rewrite run_bind.
  destruct H as [[Hk ->]|(Hk & Hn & ->)]; cbn [run mbind prog_bind pbind call say mret prog_ret array_handler fst snd];
    change (pbind ?k ?p) with (p ≫= k); rewrite run_bind, close_loop_run; cbn [fst snd run array_handler app].
  - rewrite Hk, Nat.ltb_irrefl, app_nil_r, take_ge by lia. by apply filter_nonneg.
  - rewrite (proj2 (Nat.ltb_lt _ _) Hk), take_ge
      by (rewrite length_app; cbn; rewrite length_drop; lia).
    rewrite List.filter_app, filter_nonneg by done. cbn [List.filter].
    unfold nonneg at 1. by rewrite (proj2 (Z.leb_gt _ _) Hn).
Qed.

(** ** The process and its threads *)

(** What may happen beyond failures of [fopen], [malloc] and [socket], which always
    may: threads cannot be created, and fresh memory holds numbers that are not
    negative. *)
Record faults := Faults { stale_numbers : bool; create_fail : bool }.
Definition no_faults : faults := Faults false false.

(** A descriptor on the left, a heap block on the right. *)
Abbreviation rsrc := (Z + Z)%type.

Inductive tcode := Running (p : prog Z) | Exited.

(** [arg] is the limit the thread's argument points to. *)
Record thread := Thread { tid : Z; arg : Z; code : tcode }.

Record machine := Machine {
  kern : sf_state;
  held : gset rsrc;
  pool : list thread;              (** the main thread first *)
  out : list (nat * msg)           (** with the position of the thread *)
}.

Definition set_kern (k : sf_state) (m : machine) : machine := Machine k (held m) (pool m) (out m).
Definition set_held (h : gset rsrc) (m : machine) : machine := Machine (kern m) h (pool m) (out m).
Definition set_code (i : nat) (c : tcode) (m : machine) : machine :=
  Machine (kern m) (held m) (alter (fun th => Thread (tid th) (arg th) c) i (pool m)) (out m).
Definition set_tasks (ts : gmap Z sock_task) (k : sf_state) : sf_state :=
  SfState ts (rcu_depth k) (locked k).

Section Process.
(** The number of the process, and whether it has CAP_SYS_ADMIN. *)
Context (pid : Z) (cap : bool) (fl : faults).

(** Numbers are those of the initial namespace. *)
Definition found (ts : gmap Z sock_task) (p : Z) : option Z := (fun _ => p) <$> ts !! p.

(** A new thread: [copy_process] clears the three fields. *)
Definition spawn (u limit : Z) (m : machine) : machine :=
  Machine (set_tasks (<[u := SockTask pid 0 0 0]> (tasks (kern m))) (kern m)) (held m)
    (pool m ++ [Thread u limit (Running (thread_socket_test limit))]) (out m).

Definition exit_thread (i : nat) (th : thread) (m : machine) : machine :=
  set_code i Exited (set_kern (set_tasks (delete (tid th) (tasks (kern m))) (kern m)) m).

(** The answer [r] to the call [e] of thread [i], whose number is [t], and what the
    call does.  No step is possible for [free] of memory that is not allocated or
    [pthread_join] of a thread that was not created. *)
Definition handle (i : nat) (t : Z) {X} (e : event X) : machine -> X -> machine -> Prop :=
  match e in event X return machine -> X -> machine -> Prop with
  | Gettid => fun m r m' => r = t /\ m' = m
  | Getpid => fun m r m' => r = pid /\ m' = m
  | Configure p max prio => fun m r m' =>
      exists k, configure_socket_fairness (found (tasks (kern m))) cap t p max prio (kern m) = Ok (r, k) /\
                m' = set_kern k m
  | Fopen _ => fun m r m' =>
      match r with
      | None => m' = m
      | Some (fd, _) => inl fd ∉ held m /\ m' = set_held ({[inl fd]} ∪ held m) m
      end
  | Fclose fd | Close fd => fun m _ m' => m' = set_held (held m ∖ {[inl fd]}) m
  | Malloc n => fun m r m' =>
      match r with
      | None => m' = m
      | Some (p, a) => List.length a = n /\ (stale_numbers fl = false -> Forall (fun x => x < 0) a) /\
                       inr p ∉ held m /\ m' = set_held ({[inr p]} ∪ held m) m
      end
  | Free p => fun m _ m' => inr p ∈ held m /\ m' = set_held (held m ∖ {[inr p]}) m
  | Socket => fun m r m' =>
      if r <? 0 then m' = m
      else inl r ∉ held m /\ m' = set_held ({[inl r]} ∪ held m) m
  | Printf s => fun m _ m' => m' = Machine (kern m) (held m) (pool m) (out m ++ [(i, s)])
  | PthreadCreate l => fun m r m' =>
      match r with
      | None => create_fail fl = true /\ m' = m
      | Some j => j = List.length (pool m) /\
                  exists u, u <> 0 /\ tasks (kern m) !! u = None /\ m' = spawn u l m
      end
  | PthreadJoin h => fun m _ m' =>
      exists j, h = Some j /\ code <$> pool m !! j = Some Exited /\ m' = m
  end.

(** The process ends when the main thread returns. *)
Definition alive (m : machine) : Prop :=
  match code <$> pool m !! 0%nat with Some (Running (Vis _ _)) => True | _ => False end.

Definition step (m m' : machine) : Prop :=
  alive m /\
  exists i th, pool m !! i = Some th /\
    match code th with
    | Running (Vis e k) =>
        exists r m1, handle i (tid th) e m r m1 /\ m' = set_code i (Running (k r)) m1
    | Running (Ret _) => m' = exit_thread i th m
    | Exited => False
    end.

Definition boot (ts : gmap Z sock_task) (fds : gset rsrc) : machine :=
  Machine (SfState ts 0 []) fds [Thread pid 0 (Running main)] [].

(** ** Every run ends *)

(** The subtree a thread continues with. *)
Definition next_prog {A} (q p : prog A) : Prop :=
  match p with Ret _ => False | Vis _ k => exists r, q = k r end.

Lemma next_prog_wf {A} : well_founded (@next_prog A).
Proof. intros p. induction p as [a|X e k IH]; constructor; intros q Hq; [done|]. by destruct Hq as [r ->]. Qed.

Definition next_code (d c : tcode) : Prop :=
  match c, d with
  | Running p, Running q => next_prog q p
  | Running _, Exited => True
  | Exited, _ => False
  end.

Lemma next_code_wf : well_founded next_code.
Proof.
  assert (Acc next_code Exited) as HE by (constructor; intros []; done).
  intros [p|]; [|done]. induction (next_prog_wf p) as [p _ IH].
  constructor. intros [q|] Hq; [by apply IH|done].
Qed.

(** One of a list of threads takes a step. *)
Inductive next_list : list tcode -> list tcode -> Prop :=
| next_here d c l : next_code d c -> next_list (d :: l) (c :: l)
| next_later c l' l : next_list l' l -> next_list (c :: l') (c :: l).

Lemma next_list_wf : well_founded next_list.
Proof.
  intros l. induction l as [|c l IH]; [constructor; inversion 1|].
  revert l IH. induction (next_code_wf c) as [c _ IHc]. intros l Hl.
  induction Hl as [l Hl IHl]. constructor. intros x Hx. inversion Hx; subst.
  - by apply IHc; [|constructor].
  - by apply IHl.
Qed.

Lemma next_list_alter d c l j :
  (code <$> l) !! j = Some c -> next_code d c ->
  next_list (code <$> alter (fun th => Thread (tid th) (arg th) d) j l) (code <$> l).
Proof.
  revert j. induction l as [|x l IH]; intros [|j] Hj Hd; try done; cbn in *.
  - injection Hj as <-. by constructor.
  - constructor. by apply IH.
Qed.

(** A program that creates no thread; the thread function is one. *)
Fixpoint childless {A} (p : prog A) : Prop :=
  match p with
  | Ret _ => True
  | Vis e k => match e with PthreadCreate _ => False | _ => True end /\ forall r, childless (k r)
  end.

Lemma childless_bind {A B} (p : prog A) (k : A -> prog B) :
  childless p -> (forall a, childless (k a)) -> childless (p ≫= k).
Proof. induction p as [a|X e c IH]; cbn; [by intros _|]. intros [H1 H2] Hk. split; [done|]. intros r. by apply IH. Qed.

Ltac childless_step :=
  first [ apply childless_bind; [|intros ?] | exact I | progress cbn -[mbind] | split; [exact I|intros ?]
        | match goal with |- childless (match ?x with _ => _ end) => destruct x end ].

Lemma thread_childless l : childless (thread_socket_test l).
Proof.
  assert (forall q a b, childless (set_thread_socket_attrs q a b)) as Ha
    by (intros; unfold set_thread_socket_attrs, say, call; repeat childless_step).
  assert (forall n text, childless (status_loop n text)) as Hl
    by (intros n; induction n as [|n IH]; intros text; unfold say, call; cbn -[mbind];
        repeat (simple apply IH || childless_step)).
  assert (forall q, childless (read_proc_status q)) as Hr
    by (intros; unfold read_proc_status, say, call; repeat (simple apply Hl || childless_step)).
  assert (forall n i a, childless (create_loop n i a)) as Hc
    by (intros n; induction n as [|n IH]; intros i a; unfold say, call; cbn -[mbind];
        repeat (simple apply IH || childless_step)).
  assert (forall a, childless (close_loop a)) as Hd
    by (intros a; induction a as [|x a IH]; unfold say, call; cbn -[mbind]; repeat (simple apply IH || childless_step)).
  unfold thread_socket_test, create_sockets, close_sockets, say, call.
  repeat (simple apply Ha || simple apply Hr || simple apply Hc || simple apply Hd || childless_step).
Qed.

Definition workers_childless (m : machine) : Prop :=
  forall i th p, i <> 0%nat -> pool m !! i = Some th -> code th = Running p -> childless p.

Lemma handle_childless i t X (e : event X) m r m' :
  handle i t e m r m' ->
  pool m' = pool m \/
  (exists l, match e with PthreadCreate _ => True | _ => False end /\
             exists u, pool m' = pool m ++ [Thread u l (Running (thread_socket_test l))]).
Proof.
  destruct e; cbn; intros H;
    repeat match goal with
    | H : exists _, _ |- _ => destruct H
    | H : _ /\ _ |- _ => destruct H
    | H : match ?x with _ => _ end |- _ => destruct x
    end; subst; cbn; first [by left|right; eauto].
Qed.

Lemma alter_cases {A} (f : A -> A) i j (l : list A) x :
  alter f i l !! j = Some x -> (j = i /\ exists y, l !! i = Some y /\ x = f y) \/ (j <> i /\ l !! j = Some x).
Proof.
  destruct (decide (j = i)) as [->|Hne].
  - rewrite list_lookup_alter_eq. intros (y & Hy & ->)%fmap_Some. left. eauto.
  - rewrite list_lookup_alter_ne by done. by right.
Qed.

Lemma step_childless m m' : workers_childless m -> step m m' -> workers_childless m'.
Proof.
  intros Hw [_ (i & th & Hi & Hs)] j th' p Hj.
  destruct (code th) as [[v|X e k]|] eqn:Hc; [| |done].
  - subst m'. cbn. intros [(-> & y & _ & ->)|[_ Hl]]%alter_cases; [done|by eapply Hw].
  - destruct Hs as (r & m1 & Hh & ->). apply handle_childless in Hh. cbn.
    intros [(-> & y & Hy & ->)|[Hne Hl]]%alter_cases.
    + cbn. intros [= <-]. by apply (Hw i th _ Hj Hi Hc).
    + destruct Hh as [Hp|(l & _ & u & Hp)]; rewrite Hp in Hl; [by eapply Hw|].
      apply lookup_snoc_Some in Hl as [[_ Hl]|[_ <-]]; [by eapply Hw|].
      cbn. intros [= <-]. apply thread_childless.
Qed.

(** Every step brings the main thread forward, or another one while the main
    thread and the number of threads stay as they are. *)
Lemma step_measure m m' :
  workers_childless m -> step m m' ->
  exists th rest th' rest',
    pool m = th :: rest /\ pool m' = th' :: rest' /\
    (next_code (code th') (code th) \/
     code th' = code th /\ next_list (code <$> rest') (code <$> rest)).
Proof.
  intros Hw [Ha (i & th & Hi & Hs)]. unfold alive in Ha.
  destruct (pool m) as [|t0 rest] eqn:Hp; [done|]. cbn in Ha.
  destruct (code th) as [[v|X e k]|] eqn:Hc; [| |done].
  - subst m'. destruct i as [|i]; [by simplify_eq/=; rewrite Hc in Ha|].
    change (rest !! i = Some th) in Hi. eexists t0, rest, t0, _. cbn. rewrite Hp. cbn. split_and!; [done|done|right].
    split; [done|]. apply (next_list_alter _ (code th)); [by rewrite list_lookup_fmap, Hi|]. by rewrite Hc.
  - destruct Hs as (r & m1 & Hh & ->). destruct i as [|i]; [cbn in Hi|change (rest !! i = Some th) in Hi].
    + injection Hi as <-. apply handle_childless in Hh as [Hn|(l & _ & u & Hn)]; rewrite Hp in Hn;
        eexists t0, rest, _, _; cbn; rewrite Hn; (split_and!; [done|done|left]);
        cbn; rewrite Hc; by eexists.
    + assert (pool m1 = t0 :: rest) as Hn.
      { apply handle_childless in Hh as [Hn|(l & He & _)]; [by rewrite Hn|].
        destruct (Hw (S i) th (Vis e k) ltac:(done) ltac:(by rewrite Hp) Hc) as [H _].
        by destruct e. }
      eexists t0, rest, t0, _. cbn. rewrite Hn. cbn. split_and!; [done|done|right].
      split; [done|]. apply (next_list_alter _ (code th)); [by rewrite list_lookup_fmap, Hi|]. rewrite Hc. by eexists.
Qed.

(** No process runs for ever, whatever its calls answer. *)
Lemma runs_end m : workers_childless m -> sn step m.
Proof.
  assert (forall c, Acc next_code c -> forall l, Acc next_list l -> forall m th rest,
    workers_childless m -> pool m = th :: rest -> code th = c -> code <$> rest = l -> sn step m) as H.
  { intros c Hc. induction Hc as [c _ IHc]. intros l Hl. induction Hl as [l _ IHl].
    intros m0 th rest Hw Hp Hc Hl. constructor. intros m' Hs.
    pose proof (step_childless _ _ Hw Hs) as Hw'.
    destruct (step_measure _ _ Hw Hs) as (th1 & r1 & th' & r' & Hp1 & Hp' & Hd).
    rewrite Hp in Hp1. injection Hp1 as <- <-. subst c l.
    destruct Hd as [Hd|[Hd1 Hd2]].
    - eapply (IHc _ Hd _ (next_list_wf (code <$> r'))); eauto.
    - eapply (IHl _ Hd2); eauto; congruence. }
  intros Hw. destruct (pool m) as [|th rest] eqn:Hp.
  - constructor. intros m' [Ha _]. unfold alive in Ha. by rewrite Hp in Ha.
  - eapply H; eauto using next_code_wf, next_list_wf.
Qed.

End Process.

(** ** Ownership *)

(** What a thread knows: its descriptors and blocks, the limit and priority of its
    task, what it has printed, the threads it has created and still has to join,
    and the arguments of all it has created. *)
Record world := World {
  own : gset rsrc;
  attr : Z * Z;
  said : list msg;
  children : gset nat;
  spawned : list Z
}.

Definition set_own (o : gset rsrc) (w : world) : world := World o (attr w) (said w) (children w) (spawned w).
Definition set_attr (a : Z * Z) (w : world) : world := World (own w) a (said w) (children w) (spawned w).
Definition set_said (l : list msg) (w : world) : world := World (own w) (attr w) l (children w) (spawned w).
Definition set_children (c : gset nat) (l : list Z) (w : world) : world := World (own w) (attr w) (said w) c l.

Section Local.
(** The process, the thread and its number. *)
Context (pid : Z) (i : nat) (t : Z).

(** What a thread must hold for a call. *)
Definition pre {X} (e : event X) (w : world) : Prop :=
  match e with
  | Configure p max prio => p = t /\ 0 <= max /\ 0 <= prio
  | Fclose fd | Close fd => inl fd ∈ own w
  | Free p => inr p ∈ own w
  | PthreadCreate l => i = 0%nat /\ 0 <= l
  | PthreadJoin h => i = 0%nat /\ exists j, h = Some j /\ j ∈ children w
  | _ => True
  end.

(** What it can rely on after the call, when threads can be created and fresh
    memory holds negative numbers. *)
Definition local {X} (e : event X) (w : world) : X -> world -> Prop :=
  match e in event X return X -> world -> Prop with
  | Gettid => fun r w' => r = t /\ w' = w
  | Getpid => fun r w' => r = pid /\ w' = w
  | Configure _ max prio => fun r w' => r = 0 /\ w' = set_attr (max, prio) w
  | Fopen _ => fun r w' =>
      match r with
      | None => w' = w
      | Some (fd, _) => inl fd ∉ own w /\ w' = set_own ({[inl fd]} ∪ own w) w
      end
  | Fclose fd | Close fd => fun _ w' => w' = set_own (own w ∖ {[inl fd]}) w
  | Malloc n => fun r w' =>
      match r with
      | None => w' = w
      | Some (p, a) => List.length a = n /\ Forall (fun x => x < 0) a /\ inr p ∉ own w /\
                       w' = set_own ({[inr p]} ∪ own w) w
      end
  | Free p => fun _ w' => w' = set_own (own w ∖ {[inr p]}) w
  | Socket => fun r w' => if r <? 0 then w' = w else inl r ∉ own w /\ w' = set_own ({[inl r]} ∪ own w) w
  | Printf s => fun _ w' => w' = set_said (said w ++ [s]) w
  | PthreadCreate l => fun r w' =>
      r = Some (S (List.length (spawned w))) /\
      w' = set_children ({[S (List.length (spawned w))]} ∪ children w) (spawned w ++ [l]) w
  | PthreadJoin h => fun _ w' => w' = set_children (from_option (fun j => children w ∖ {[j]}) ∅ h) (spawned w) w
  end.

(** [inv] holds throughout the program, every call is allowed, and [Q] holds of its
    result. *)
Context (inv : world -> Prop).

Fixpoint wp {A} (p : prog A) (Q : A -> world -> Prop) (w : world) : Prop :=
  inv w /\
  match p with
  | Ret a => Q a w
  | Vis e k => pre e w /\ forall r w', local e w r w' -> wp (k r) Q w'
  end.

Lemma wp_inv {A} (p : prog A) Q w : wp p Q w -> inv w.
Proof. by destruct p; intros [? _]. Qed.

Lemma wp_bind {A B} (p : prog A) (k : A -> prog B) Q w :
  wp p (fun a w' => wp (k a) Q w') w -> wp (p ≫= k) Q w.
Proof.
  revert w. induction p as [a|X e c IH]; intros w; cbn; [by intros [_ H]|].
  intros (H1 & H2 & H3). split_and!; [done|done|]. intros r w' Hl. by apply IH, H3.
Qed.

Lemma wp_ret {A} (a : A) (Q : A -> world -> Prop) w : inv w -> Q a w -> wp (mret a) Q w.
Proof. by split. Qed.

Lemma wp_call {X} (e : event X) (Q : X -> world -> Prop) w :
  inv w -> pre e w -> (forall r w', local e w r w' -> inv w' /\ Q r w') -> wp (call e) Q w.
Proof. intros H1 H2 H3. split_and!; [done|done|]. intros r w' Hl. by apply H3. Qed.

(** *** The functions of the program *)

(** Messages that break nothing [inv] says. *)
Definition harmless (s : msg) : Prop := forall w, inv w -> inv (set_said (said w ++ [s]) w).

Lemma wp_say (s : msg) (Q : unit -> world -> Prop) w :
  inv w -> harmless s -> Q tt (set_said (said w ++ [s]) w) -> wp (say s) Q w.
Proof. intros Hi Hs HQ. apply wp_call; [done|done|]. intros [] w' ->. split; [by apply Hs|done]. Qed.

(** More is printed, and nothing else has changed. *)
Definition talked (w w' : world) : Prop := exists l, w' = set_said (said w ++ l) w.

Lemma talked_refl w : talked w w.
Proof. exists []. rewrite app_nil_r. by destruct w. Qed.

Lemma talked_said w s w' : talked (set_said (said w ++ [s]) w) w' -> talked w w'.
Proof. intros [l ->]. exists (s :: l). cbn. by rewrite <- app_assoc. Qed.

(** [inv] depends on what is printed and on the attributes, not on the rest. *)
Definition resource_free : Prop :=
  forall w o c l, inv w -> inv (World o (attr w) (said w) c l).

Context (Hfree : resource_free).
Context (Hstatus : forall l, harmless (StatusLine l)) (Hof : forall p, harmless (StatusOf p))
        (Hopen : harmless CannotOpen).

Lemma inv_own o w : inv w -> inv (set_own o w).
Proof. intros H. by apply (Hfree w). Qed.

Lemma wp_attrs p max prio (Q : Z -> world -> Prop) w :
  p = 0 \/ p = t -> t <> 0 -> 0 <= max -> 0 <= prio ->
  inv w -> inv (set_attr (max, prio) w) -> Q 0 (set_attr (max, prio) w) ->
  wp (set_thread_socket_attrs p max prio) Q w.
Proof.
  intros Hp Ht Hm Hr Hi Hi' HQ. unfold set_thread_socket_attrs.
  apply wp_bind. assert (wp (if p =? 0 then call Gettid else mret p) (fun q v => q = t /\ v = w) w) as Hw.
  { destruct (Z.eqb_spec p 0) as [->|Hne].
    - apply wp_call; [done|done|]. by intros r w' [-> ->].
    - apply wp_ret; [done|]. split; [lia|done]. }
  destruct (p =? 0).
  - destruct Hw as (_ & _ & Hw). split_and!; [done|done|]. intros r w' Hl.
    destruct (Hw r w' Hl) as [_ [-> ->]]. split; [done|]. apply wp_bind, wp_call; [done|done|].
    intros r w' [-> ->]. split; [done|]. by apply wp_ret.
  - destruct Hw as (_ & -> & _). apply wp_ret; [done|]. apply wp_bind, wp_call; [done|done|].
    intros r w' [-> ->]. split; [done|]. by apply wp_ret.
Qed.

Lemma wp_status_loop n text (Q : unit -> world -> Prop) w :
  inv w -> (forall w', talked w w' -> inv w' -> Q tt w') -> wp (status_loop n text) Q w.
Proof.
  revert text w. induction n as [|n IH]; intros text w Hi HQ; [apply wp_ret; auto using talked_refl|].
  cbn [status_loop]. destruct (fgets 256 text) as [[line rest]|]; [|apply wp_ret; auto using talked_refl].
  apply wp_bind. destruct (strstr _ _).
  - apply wp_say; [done|apply Hstatus|]. apply IH; [by apply Hstatus|].
    intros w' Hw. apply HQ. by eapply talked_said.
  - by apply wp_ret, IH.
Qed.

Lemma wp_status p (Q : unit -> world -> Prop) w :
  inv w -> (forall w', talked w w' -> inv w' -> Q tt w') -> wp (read_proc_status p) Q w.
Proof.
  intros Hi HQ. unfold read_proc_status. apply wp_bind, wp_call; [done|done|].
  intros [[fp text]|] w' Hl.
  2: { cbn in Hl. subst w'. split; [done|]. apply wp_say; [done..|]. apply HQ; [|by apply Hopen].
       by eapply talked_said, talked_refl. }
  destruct Hl as [Hn ->]. split; [by apply inv_own|].
  apply wp_bind, wp_say; [by apply inv_own|apply Hof|].
  apply wp_bind, wp_status_loop; [by apply Hof, inv_own|]. intros w' [l ->] Hi'.
  apply wp_call; [done|cbn; set_solver|]. intros [] w' ->. split; [by apply inv_own|]. cbn.
  apply HQ.
  - eapply talked_said. exists l. unfold set_own, set_said. cbn. f_equal. set_solver.
  - apply (inv_own (own w)) in Hi'. cbn in *. unfold set_own in *. cbn in *.
    replace ((_ ∪ own w) ∖ _) with (own w); [done|]. set_solver.
Qed.

(** The descriptors of an array of sockets, and a block holding it. *)
Definition fd_set (fds : list Z) : gset rsrc := list_to_set (inl <$> fds).

Definition fresh_fds (fds : list Z) (o : gset rsrc) : Prop :=
  NoDup fds /\ Forall (fun fd => 0 <= fd) fds /\ fd_set fds ## o.

Lemma elem_of_fd_set x fds : x ∈ fd_set fds <-> exists fd, x = inl fd /\ fd ∈ fds.
Proof. unfold fd_set. rewrite elem_of_list_to_set, list_elem_of_fmap. naive_solver. Qed.

Lemma fd_set_cons fd fds : fd_set (fd :: fds) = {[inl fd]} ∪ fd_set fds.
Proof. done. Qed.

(** How the loop ends: all sockets are there, or the failure was reported. *)
Definition loop_end (n k c : nat) (w v : world) : Prop :=
  (c = n /\ said v = said w) \/
  ((c < n)%nat /\ said v = said w ++ [SocketFailed (Z.of_nat (k + c) + 1)]).

Lemma wp_create_loop n k done_ rest (Q : list Z * nat -> world -> Prop) w :
  List.length done_ = k -> List.length rest = n -> Forall (fun x => x < 0) rest -> inv w ->
  (forall j, Z.of_nat k < j <= Z.of_nat (k + n) -> harmless (SocketFailed j)) ->
  (forall fds tl l, fresh_fds fds (own w) -> Forall (fun x => x < 0) tl -> (List.length fds + List.length tl = n)%nat ->
     let v := set_said l (set_own (fd_set fds ∪ own w) w) in
     loop_end n k (List.length fds) w v -> inv v -> Q (done_ ++ fds ++ tl, (k + List.length fds)%nat) v) ->
  wp (create_loop n k (done_ ++ rest)) Q w.
Proof.
  revert k done_ rest Q w. induction n as [|n IH]; intros k done_ rest Q w Hk Hr Hneg Hi Hh HQ.
  { destruct rest; [|done]. apply wp_ret; [done|].
    specialize (HQ [] [] (said w)). unfold fd_set in HQ. cbn in HQ. rewrite union_empty_l_L, Nat.add_0_r in HQ.
    destruct w. apply HQ; [|constructor|done|by left|done].
    split_and!; [constructor|constructor|set_solver]. }
  destruct rest as [|j rest]; [done|]. injection Hr as Hr. apply Forall_cons in Hneg as [_ Hneg]. cbn [create_loop].
  apply wp_bind, wp_call; [done|done|]. intros fd w' Hl. cbn in Hl.
  assert (<[k := fd]> (done_ ++ j :: rest) = done_ ++ fd :: rest) as ->
    by (subst k; by rewrite insert_app_r_alt, Nat.sub_diag).
  destruct (Z.ltb_spec fd 0) as [H0|H0].
  - subst w'. split; [done|]. apply wp_bind, wp_say; [done|apply Hh; lia|].
    apply wp_ret; [apply Hh; [lia|done]|]. specialize (HQ [] (fd :: rest) (said w ++ [SocketFailed (Z.of_nat k + 1)])).
    unfold fd_set in HQ. cbn in HQ. rewrite union_empty_l_L, Nat.add_0_r in HQ.
    destruct w. apply HQ; [|by constructor|lia| |].
    + split_and!; [constructor|constructor|set_solver].
    + right. split; [lia|]. by rewrite Nat.add_0_r.
    + apply (Hh (Z.of_nat k + 1) ltac:(lia) _ Hi).
  - destruct Hl as [Hn ->]. split; [by apply inv_own|]. replace (done_ ++ fd :: rest) with ((done_ ++ [fd]) ++ rest) by by rewrite <- app_assoc.
    apply IH; [rewrite length_app; cbn; lia|done|done|by apply inv_own|intros x Hx; apply Hh; lia|].
    intros fds tl l (Hd & Hp & Hs) Htl Hlen v He Hv. cbn in Hs.
    specialize (HQ (fd :: fds) tl l). rewrite fd_set_cons in HQ. cbn zeta in HQ.
    rewrite <- app_assoc. cbn [app]. replace (S k + List.length fds)%nat with (k + List.length (fd :: fds))%nat by (cbn; lia).
    assert (v = set_said l (set_own ({[inl fd]} ∪ fd_set fds ∪ own w) w)) as Ev.
    { unfold v, set_said, set_own. cbn. f_equal. set_solver. }
    rewrite Ev in *. clear v Ev. apply HQ; [|done|cbn; lia| |done].
    + split_and!; [|by constructor|rewrite fd_set_cons; set_solver].
      constructor; [|done]. intros Hin. apply (Hs (inl fd)); [|set_solver]. apply elem_of_fd_set; eauto.
    + destruct He as [[He1 He2]|[He1 He2]]; [left|right]; cbn in *; (split; [lia|]); [done|].
      rewrite He2. do 3 f_equal. lia.
Qed.

Lemma wp_close_loop fds o (Q : unit -> world -> Prop) w :
  fresh_fds (List.filter nonneg fds) o -> own w = fd_set (List.filter nonneg fds) ∪ o -> inv w -> Q tt (set_own o w) ->
  wp (close_loop fds) Q w.
Proof.
  revert w. induction fds as [|fd fds IH]; intros w (Hd & Hp & Hs) Ho Hi HQ.
  { apply wp_ret; [done|]. unfold fd_set in Ho. cbn in Ho. rewrite union_empty_l_L in Ho. subst o.
    by destruct w. }
  cbn [close_loop List.filter] in *. change (0 <=? fd) with (nonneg fd). destruct (nonneg fd) eqn:E.
  2: { apply wp_bind, wp_ret; [done|]. by apply IH. }
  rewrite fd_set_cons in Hs, Ho. apply NoDup_cons in Hd as [Hx Hd]. apply Forall_cons in Hp as [H0 Hp].
  apply wp_bind, wp_call; [done|cbn; set_solver|].
  intros [] w' ->. split; [by apply inv_own|]. apply IH; [| |by apply inv_own|done].
  - split_and!; [done|done|set_solver].
  - cbn. rewrite Ho. assert (inl fd ∉ fd_set (List.filter nonneg fds)) by (rewrite elem_of_fd_set; naive_solver). set_solver.
Qed.

Lemma filter_opened fds tl :
  Forall (fun fd => 0 <= fd) fds -> Forall (fun x => x < 0) tl -> List.filter nonneg (fds ++ tl) = fds.
Proof.
  intros Hf Ht. rewrite List.filter_app, filter_nonneg by done.
  assert (List.filter nonneg tl = []) as ->; [|apply app_nil_r].
  induction Ht as [|x tl Hx _ IH]; [done|]. cbn. unfold nonneg at 1. by rewrite (proj2 (Z.leb_gt _ _) Hx).
Qed.

(** A report of [create_sockets]: the number of sockets, and a failure before it if
    there are fewer than asked for. *)
Definition reported (count : nat) (l : list msg) (c : Z) : Prop :=
  0 <= c <= Z.of_nat count /\ (c = Z.of_nat count \/ List.last l CannotOpen = SocketFailed (c + 1)).

Definition may_report (count : nat) : Prop :=
  (forall j, 0 < j <= Z.of_nat count -> harmless (SocketFailed j)) /\
  forall w c, inv w -> reported count (said w) c -> inv (set_said (said w ++ [Created c]) w).

(** An array that [close_sockets] can be given, whatever was printed meanwhile:
    everything is given back, also when there was no memory for the array or a
    socket could not be created. *)
Definition closable (w : world) (a : option (Z * list Z)) (count : nat) (v : world) : Prop :=
  forall v' (R : unit -> world -> Prop), talked v v' -> inv v' ->
    (forall u, talked w u -> inv u -> R tt u) -> wp (close_sockets a count) R v'.

Lemma wp_close_sockets p fds count o (Q : unit -> world -> Prop) w :
  List.length fds = count -> inr p ∉ o -> fresh_fds (List.filter nonneg fds) ({[inr p]} ∪ o) ->
  own w = fd_set (List.filter nonneg fds) ∪ ({[inr p]} ∪ o) -> inv w -> Q tt (set_own o w) ->
  wp (close_sockets (Some (p, fds)) count) Q w.
Proof.
  intros Hf Hn Hfr Ho Hi HQ. cbn [close_sockets]. rewrite take_ge by lia.
  apply wp_bind. eapply wp_close_loop; [done|done|done|].
  apply wp_call; [by apply inv_own|cbn; set_solver|]. intros [] w' ->. cbn.
  assert (({[inr p]} ∪ o) ∖ {[inr p]} = o) as -> by set_solver. split; [by apply inv_own, inv_own|done].
Qed.

Lemma wp_create_closable count (Q : option (Z * list Z) -> world -> Prop) w :
  inv w -> may_report count ->
  (forall a v, inv v -> closable w a count v -> Q a v) -> wp (create_sockets count) Q w.
Proof.
  intros Hi [Hf Hc] HQ. unfold create_sockets. apply wp_bind, wp_call; [done|done|].
  intros [[p a]|] w' Hl.
  2: { cbn in Hl. subst w'. split; [done|]. apply wp_ret; [done|]. apply HQ; [done|].
       intros v R Ht Hv HR. by apply wp_ret, HR. }
  destruct Hl as (Hlen & Hneg & Hn & ->). split; [by apply inv_own|].
  apply wp_bind, (wp_create_loop count 0 [] a); [done|done|done|by apply inv_own|intros j Hj; apply Hf; lia|].
  intros fds tl l Hfr Htl Hcount v He Hv. cbn [app fst snd Nat.add].
  assert (reported count (said v) (Z.of_nat (List.length fds))) as Hrep.
  { split; [lia|]. destruct He as [[He _]|[_ He]]; [left; lia|right]. rewrite He. cbn. apply List.last_last. }
  assert (talked (set_own (own v) w) v) as [l' Hl'].
  { destruct He as [[_ He]|[_ He]]; unfold v in He; cbn in He.
    - exists []. unfold v, set_said, set_own. cbn. by rewrite He, app_nil_r.
    - eexists. unfold v, set_said, set_own. cbn. by rewrite He. }
  apply wp_bind, wp_call; [done|done|]. intros [] v1 ->. split; [by apply Hc|]. apply wp_ret; [by apply Hc|].
  apply HQ; [by apply Hc|]. intros v' R [l2 ->] Hv' HR. pose proof Hfr as (_ & Hpos & _). cbn in Hfr.
  eapply (wp_close_sockets p (fds ++ tl) count (own w)); [rewrite length_app; lia|done| | |done|].
  - rewrite filter_opened by done. exact Hfr.
  - rewrite filter_opened by done. done.
  - apply HR.
    + exists (l' ++ [Created (Z.of_nat (List.length fds))] ++ l2). apply (f_equal said) in Hl'. cbn in Hl'.
      unfold set_own, set_said. cbn. rewrite Hl'. by rewrite <- !app_assoc.
    + by apply (inv_own (own w)) in Hv'.
Qed.

End Local.

(** *** What each thread keeps *)

(** Messages of a thread that tries to create [n] sockets: no failure but of those. *)
Definition quiet (n : nat) (s : msg) : Prop :=
  match s with
  | Created k => 0 <= k <= Z.of_nat n
  | SocketFailed j => 0 < j <= Z.of_nat n
  | SyscallFailed _ | ThreadFailed _ | PriorityFailed _
  | ProcessFailed | ThreadNotCreated => False
  | _ => True
  end.

(** Fewer than [n] sockets are reported only right after a failure of the next. *)
Definition honest (n : nat) (l : list msg) : Prop :=
  forall i c, l !! i = Some (Created c) -> c = Z.of_nat n \/ exists j, i = S j /\ l !! j = Some (SocketFailed (c + 1)).

(** The attributes a thread gives its task, the ones it starts with first. *)
Definition attrs_of (i : nat) (limit : Z) : list (Z * Z) :=
  if (i =? 0)%nat then [(0, 0); (10, 50); (10000, 99); (10000, 0)] else [(0, 0); (limit, 80)].

Definition sockets_of (i : nat) (limit : Z) : nat := if (i =? 0)%nat then 12 else Z.to_nat (limit + 2).

Definition thread_inv (i : nat) (limit : Z) (w : world) : Prop :=
  attr w ∈ attrs_of i limit /\ Forall (quiet (sockets_of i limit)) (said w) /\ honest (sockets_of i limit) (said w).

Definition is_created (s : msg) : bool := match s with Created _ => true | _ => false end.

Lemma honest_snoc n l s :
  honest n l -> (forall c, s = Created c -> c = Z.of_nat n \/ List.last l CannotOpen = SocketFailed (c + 1)) ->
  honest n (l ++ [s]).
Proof.
  intros H Hs i c Hi. apply lookup_snoc_Some in Hi as [[Hlt Hi]|[-> ->]].
  - destruct (H i c Hi) as [?|(j & -> & Hj)]; [by left|right]. exists j. split; [done|]. by apply lookup_app_l_Some.
  - destruct (Hs c eq_refl) as [?|E]; [by left|right]. clear H Hs. destruct l as [|x l _] using rev_ind; [done|].
    rewrite List.last_last in E. subst. exists (List.length l). rewrite length_app. cbn.
    split; [lia|]. rewrite <- app_assoc. by apply list_lookup_middle.
Qed.

Lemma thread_harmless i l s : quiet (sockets_of i l) s -> is_created s = false -> harmless (thread_inv i l) s.
Proof.
  intros Hs Hc w (Ha & Hq & Hh). split_and!; [done| |].
  - cbn. apply Forall_app. split; [done|by constructor].
  - cbn. apply honest_snoc; [done|]. by intros c ->.
Qed.

Lemma thread_reports i l : may_report (thread_inv i l) (sockets_of i l).
Proof.
  split; [intros j Hj; by apply thread_harmless|]. intros w c (Ha & Hq & Hh) [Hc Hr]. split_and!; [done| |].
  - cbn. apply Forall_app. split; [done|by constructor].
  - cbn. apply honest_snoc; [done|]. by intros c' [= <-].
Qed.

Lemma thread_free i l : resource_free (thread_inv i l).
Proof. by intros w o c ls (Ha & Hq & Hh). Qed.

Lemma thread_attr i l a w : thread_inv i l w -> a ∈ attrs_of i l -> thread_inv i l (set_attr a w).
Proof. by intros (_ & Hq & Hh) Ha. Qed.

(** Where a thread starts and where it must end. *)
Definition world0 : world := World ∅ (0, 0) [] ∅ [].

Definition thread_post (i : nat) (limit : Z) (v : Z) (w : world) : Prop :=
  v = 0 /\ own w = ∅ /\ children w = ∅ /\
  if (i =? 0)%nat then attr w = (10000, 0) /\ spawned w = limits /\ List.last (said w) CannotOpen = AllPassed
  else attr w = (limit, 80) /\ spawned w = [].

Ltac wp_side := first [done | by apply thread_harmless | by apply thread_free | (intros; by apply thread_harmless)].

Section Threads.
Context (pid t : Z) (Ht : t <> 0).

Lemma wp_thread i l :
  i <> 0%nat -> 0 <= l ->
  wp pid i t (thread_inv i l) (thread_socket_test l) (thread_post i l) world0.
Proof.
  intros Hi Hl. assert (i =? 0 = false)%nat as H0 by by apply Nat.eqb_neq.
  assert (thread_inv i l world0) as Hw0
    by (split_and!; [unfold attrs_of; rewrite H0; set_solver|constructor|by intros []]).
  unfold thread_socket_test. apply wp_bind, wp_call; [done|done|]. intros r w' [-> ->]. split; [done|].
  apply wp_bind, wp_say; [done|wp_side|]. set (w1 := set_said _ _).
  assert (thread_inv i l w1) as Hw1 by (by apply (thread_harmless i l (ThreadStarts t l))).
  assert (thread_inv i l (set_attr (l, 80) w1)) as Hw2
    by (apply thread_attr; [done|]; unfold attrs_of; rewrite H0; set_solver).
  apply wp_bind, wp_attrs; [by left|done|done|done|done|done|]. cbn [Z.ltb Z.compare].
  apply wp_bind, wp_status; [wp_side..|]. intros w3 [l3 ->] Hw3.
  assert (may_report (thread_inv i l) (Z.to_nat (l + 2))) as Hcr.
  { pose proof (thread_reports i l) as Hr. unfold sockets_of in Hr. by rewrite H0 in Hr. }
  apply wp_bind, wp_create_closable; [wp_side..|].
  intros a v Hv Hcl. apply wp_bind, wp_status; [wp_side..|]. intros v' Htk Hv'.
  apply wp_bind, Hcl; [done|done|]. intros u [l4 ->] Hu. apply wp_ret; [done|].
  unfold thread_post. by rewrite H0.
Qed.

(** The two loops of [main] over its threads. *)
Lemma wp_create_threads ls (inv : world -> Prop) (Q : list (option nat) -> world -> Prop) w :
  resource_free inv -> inv w -> Forall (fun l => 0 <= l) ls ->
  (let hs := seq (S (List.length (spawned w))) (List.length ls) in
   Q (Some <$> hs) (set_children (list_to_set hs ∪ children w) (spawned w ++ ls) w)) ->
  wp pid 0 t inv (create_threads ls) Q w.
Proof.
  intros Hfree. revert Q w. induction ls as [|l ls IH]; intros Q w Hi Hl HQ.
  { apply wp_ret; [done|]. cbn in HQ. rewrite union_empty_l_L, app_nil_r in HQ. by destruct w. }
  apply Forall_cons in Hl as [H0 Hl]. cbn [create_threads].
  apply wp_bind, wp_call; [done|done|]. intros r w' [-> ->].
  assert (forall c b, inv (set_children c b w)) as Hc by (intros; by apply (Hfree w)). split; [done|].
  apply wp_bind, wp_ret; [done|]. apply wp_bind, IH; [done|done|]. cbn zeta in HQ |- *.
  apply wp_ret; [by apply Hfree|]. revert HQ. cbn. rewrite length_app, <- app_assoc, Nat.add_1_r. cbn.
  intros HQ. unfold set_children in HQ |- *. cbn in HQ |- *. 
  replace (list_to_set (seq (S (S (List.length (spawned w)))) (List.length ls)) ∪ _) with
    ({[S (List.length (spawned w))]} ∪ list_to_set (seq (S (S (List.length (spawned w)))) (List.length ls)) ∪ children w)
    by set_solver.
  done.
Qed.

Lemma wp_join_threads (inv : world -> Prop) (hs : list nat) (Q : unit -> world -> Prop) w :
  resource_free inv -> inv w -> NoDup hs -> children w = list_to_set hs ->
  Q tt (set_children ∅ (spawned w) w) -> wp pid 0 t inv (join_threads (Some <$> hs)) Q w.
Proof.
  intros Hfree. revert w. induction hs as [|h hs IH]; intros w Hi Hd Hc HQ.
  { apply wp_ret; [done|]. cbn in Hc. rewrite <- Hc in HQ. by destruct w. }
  apply NoDup_cons in Hd as [Hh Hd]. cbn [fmap list_fmap join_threads].
  apply wp_bind, wp_call; [done| |].
  - split; [done|]. exists h. split; [done|]. rewrite Hc. set_solver.
  - intros [] w' ->. split; [by apply (Hfree w)|]. apply IH; [by apply (Hfree w)|done| |done].
    cbn. rewrite Hc. assert (h ∉@{gset nat} list_to_set hs) by by rewrite elem_of_list_to_set. set_solver.
Qed.

Lemma wp_priority p (inv : world -> Prop) (Q : unit -> world -> Prop) i w :
  0 <= p -> inv w -> harmless inv (PrioritySet p) -> inv (set_attr (10000, p) w) ->
  (forall w', talked (set_attr (10000, p) w) w' -> inv w' -> Q tt w') ->
  wp pid i t inv (set_thread_priority p) Q w.
Proof.
  intros Hp Hi Hh Hi' HQ. apply wp_bind, wp_attrs; [by left|done|done|done|done|done|].
  cbn [Z.ltb Z.compare]. apply wp_say; [done|done|]. apply HQ; [|by apply Hh].
  by eapply talked_said, talked_refl.
Qed.

End Threads.

Lemma wp_main pid l : pid <> 0 -> wp pid 0 pid (thread_inv 0 l) main (thread_post 0 l) world0.
Proof.
  intros Hp. set (inv := thread_inv 0 l).
  assert (inv world0) as Hw0 by (split_and!; [set_solver|constructor|by intros []]).
  assert (forall s, quiet 12 s -> is_created s = false -> harmless inv s) as Hh by (intros; by apply thread_harmless).
  assert (forall a v, inv v -> a ∈ [(10, 50); (10000, 99); (10000, 0)] -> inv (set_attr a v)) as Ha
    by (intros a v Hv Hin; apply thread_attr; [done|set_solver]).
  assert (forall s v, quiet 12 s -> is_created s = false -> inv v -> inv (set_said (said v ++ [s]) v)) as Hs by (intros; by apply Hh).
  pose proof (thread_reports 0 l : may_report inv 12) as Hrep.
  pose proof (thread_free 0 l : resource_free inv) as Hf.
  unfold main. apply wp_bind, wp_call; [done|done|]. intros r w' [-> ->]. split; [done|].
  apply wp_bind, wp_say; [done|by apply Hh|]. apply wp_bind, wp_say; [by apply Hs|by apply Hh|].
  apply wp_bind, wp_attrs; [by right|done|done|done|by apply Hs, Hs|by apply Ha; [apply Hs, Hs|set_solver]|].
  cbn [Z.ltb Z.compare]. set (w1 := set_attr _ _).
  assert (inv w1) as Hw1 by (by apply Ha; [apply Hs, Hs|set_solver]).
  apply wp_bind, wp_bind, wp_status; [wp_side..|]. intros w2 [l2 ->] Hw2.
  apply wp_bind, wp_create_closable; [wp_side..|]. intros a v Hv Hcl.
  apply Hcl; [apply talked_refl|done|]. intros w3 [l3 ->] Hw3.
  apply wp_bind, wp_say; [done|by apply Hh|]. apply wp_bind, (wp_create_threads pid pid Hp); [done|by apply Hs|by repeat constructor|].
  cbn zeta. apply wp_bind, (wp_join_threads pid pid Hp); [done|by apply (Hf _ _ _ _ (Hs (Title 2) _ I eq_refl Hw3))|repeat constructor; set_solver| |].
  { cbn. set_solver. }
  set (w4 := set_children ∅ _ _).
  assert (inv w4) as Hw4 by (by apply (Hf _ _ _ _ (Hs (Title 2) _ I eq_refl Hw3))).
  apply wp_bind, wp_say; [done|by apply Hh|].
  apply wp_bind, (wp_priority pid pid Hp); [done|by apply Hs|by apply Hh|by apply Ha; [apply Hs|set_solver]|]. intros w5 [l5 ->] Hw5.
  apply wp_bind, wp_status; [wp_side..|]. intros w6 [l6 ->] Hw6.
  apply wp_bind, (wp_priority pid pid Hp); [done|done|by apply Hh|by apply Ha; [|set_solver]|]. intros w7 [l7 ->] Hw7.
  apply wp_bind, wp_status; [wp_side..|]. intros w8 [l8 ->] Hw8.
  apply wp_bind, wp_say; [done|by apply Hh|]. apply wp_ret; [by apply Hs|].
  split_and!; [done..|]. cbn [Nat.eqb]. split_and!; [done..|]. unfold set_said at 1. cbn [said]. apply List.last_last.
Qed.


(** ** All threads together *)

Definition msgs (i : nat) (o : list (nat * msg)) : list msg :=
  snd <$> List.filter (fun x => (x.1 =? i)%nat) o.

Lemma msgs_snoc_eq i o s : msgs i (o ++ [(i, s)]) = msgs i o ++ [s].
Proof. unfold msgs. rewrite List.filter_app, fmap_app. cbn. by rewrite Nat.eqb_refl. Qed.

Lemma msgs_snoc_ne i j o s : j <> i -> msgs j (o ++ [(i, s)]) = msgs j o.
Proof.
  intros Hne. unfold msgs. rewrite List.filter_app, fmap_app. cbn.
  by rewrite (proj2 (Nat.eqb_neq i j)), app_nil_r by congruence.
Qed.

Section Runs.
(** The process, what it may do, the tasks and the descriptors when it starts. *)
Context (pid : Z) (cap : bool) (ts0 : gmap Z sock_task) (held0 : gset rsrc).

Definition task_of (a : Z * Z) : sock_task := SockTask pid a.1 a.2 0.

Definition thread_ok (k : sf_state) (o : list (nat * msg)) (i : nat) (th : thread) (w : world) : Prop :=
  msgs i o = said w /\ 0 <= arg th /\
  match code th with
  | Running p =>
      wp pid i (tid th) (thread_inv i (arg th)) p (thread_post i (arg th)) w /\ tid th <> 0 /\
      tasks k !! tid th = Some (task_of (attr w)) /\ (i <> 0%nat -> ts0 !! tid th = None)
  | Exited => thread_post i (arg th) 0 w /\ thread_inv i (arg th) w
  end.

Definition live (th : thread) : Prop := code th <> Exited.

(** The threads own disjoint parts of what the process holds beyond what it held at
    its start. *)
Record owned (ws : list world) (h : gset rsrc) : Prop := MkOwned {
  owned_disj i j w w' : ws !! i = Some w -> ws !! j = Some w' -> i <> j -> own w ## own w';
  owned_held x : x ∈ h <-> x ∈ held0 \/ exists i w, ws !! i = Some w /\ x ∈ own w;
  owned_apart i w : ws !! i = Some w -> own w ## held0
}.

(** The main thread created the others and still has to join those that run. *)
Record joins (w : world) (ps : list thread) : Prop := MkJoins {
  joins_spawned : spawned w = arg <$> tail ps;
  joins_range j : j ∈ children w -> (0 < j < List.length ps)%nat;
  joins_rest j th : ps !! j = Some th -> j <> 0%nat -> j ∈ children w \/ code th = Exited
}.

(** Numbers of running threads differ, and tasks that are not theirs are as they
    were. *)
Record numbers (k : sf_state) (ps : list thread) : Prop := MkNumbers {
  numbers_tid i j th th' : ps !! i = Some th -> ps !! j = Some th' -> live th -> live th' ->
                           tid th = tid th' -> i = j;
  numbers_other u : (forall i th, ps !! i = Some th -> live th -> tid th <> u) -> tasks k !! u = ts0 !! u
}.

Record Inv (m : machine) (ws : list world) : Prop := MkInv {
  inv_kern : rcu_depth (kern m) = 0 /\ locked (kern m) = [];
  inv_len : List.length ws = List.length (pool m);
  inv_main : exists th, pool m !! 0%nat = Some th /\ tid th = pid /\ live th;
  inv_thread i th w : pool m !! i = Some th -> ws !! i = Some w -> thread_ok (kern m) (out m) i th w;
  inv_numbers : numbers (kern m) (pool m);
  inv_owned : owned ws (held m);
  inv_silent i : (List.length (pool m) <= i)%nat -> msgs i (out m) = [];
  inv_joins w : ws !! 0%nat = Some w -> joins w (pool m)
}.

Lemma inv_world m ws i th : Inv m ws -> pool m !! i = Some th -> exists w, ws !! i = Some w.
Proof.
  intros HI Hi. apply lookup_lt_is_Some. rewrite (inv_len _ _ HI). by eapply lookup_lt_Some.
Qed.

Lemma insert_cases {A} (l : list A) i x y j v :
  l !! i = Some x -> <[i := y]> l !! j = Some v -> (j = i /\ v = y) \/ (j <> i /\ l !! j = Some v).
Proof.
  intros Hi%lookup_lt_Some. destruct (decide (j = i)) as [->|Hne].
  - rewrite list_lookup_insert_eq by done. left. naive_solver.
  - rewrite list_lookup_insert_ne by done. by right.
Qed.

(** A thread acquires what nobody holds, or gives up something of its own. *)
Lemma owned_update ws h h' i w w' :
  owned ws h -> ws !! i = Some w ->
  (forall x, x ∈ h' <-> (x ∈ h /\ x ∉ own w) \/ x ∈ own w') ->
  (forall x, x ∈ own w' -> x ∈ own w \/ x ∉ h) ->
  owned (<[i := w']> ws) h'.
Proof.
  intros [Hd Hh Ha] Hw Hh' Ho.
  assert (i < List.length ws)%nat as Hlt by by eapply lookup_lt_Some.
  assert (forall j v x, j <> i -> ws !! j = Some v -> x ∈ own v -> x ∉ own w') as Hfar.
  { intros j v x Hne Hv Hx Hx'. destruct (Ho x Hx') as [Hx2|Hx2].
    - by apply (Hd j i v w Hv Hw Hne x).
    - apply Hx2, Hh. right. eauto. }
  constructor.
  - intros j1 j2 v1 v2 [[-> ->]|[N1 V1]]%(insert_cases _ _ _ _ _ _ Hw) [[-> ->]|[N2 V2]]%(insert_cases _ _ _ _ _ _ Hw) Hne;
      [done| | |by eapply Hd]; intros x Hx Hx'; by eapply Hfar.
  - intros x. rewrite Hh', Hh. split.
    + intros [[[H0|(j & v & Hv & Hx)] Hn]|Hx]; [by left| |].
      * right. exists j, v. destruct (decide (j = i)) as [->|Hji]; [congruence|].
        by rewrite list_lookup_insert_ne.
      * right. exists i, w'. by rewrite list_lookup_insert_eq.
    + intros [H0|(j & v & [[-> ->]|[N V]]%(insert_cases _ _ _ _ _ _ Hw) & Hx)]; [|by right|].
      * left. split; [by left|]. intros Hx. by apply (Ha i w Hw x).
      * left. split; [right; eauto|]. intros Hx'. by apply (Hd j i v w V Hw N x).
  - intros j v [[-> ->]|[N V]]%(insert_cases _ _ _ _ _ _ Hw); [|by eapply Ha].
    intros x Hx H0. destruct (Ho x Hx) as [Hx'|Hx']; [by apply (Ha i w Hw x)|].
    apply Hx', Hh. by left.
Qed.

Definition set_run (p : prog Z) (th : thread) : thread := Thread (tid th) (arg th) (Running p).

(** The threads after one of them took a step: the same but for its program. *)
Lemma set_run_cases (ps : list thread) (i : nat) th p p' j x :
  ps !! i = Some th -> code th = Running p -> alter (set_run p') i ps !! j = Some x ->
  (j = i /\ x = set_run p' th) \/ (j <> i /\ ps !! j = Some x).
Proof. intros Hi Hc [(-> & y & Hy & ->)|[Hne Hy]]%alter_cases; [left|by right]. naive_solver. Qed.

Lemma args_alter (ps : list thread) (i : nat) p : arg <$> tail (alter (set_run p) i ps) = arg <$> tail ps.
Proof.
  destruct ps as [|t0 l], i as [|i]; [done..|]. cbn. apply list_eq. intros j.
  rewrite !list_lookup_fmap. destruct (decide (j = i)) as [->|Hne];
    [rewrite list_lookup_alter_eq; by destruct (l !! i)|by rewrite list_lookup_alter_ne].
Qed.

Lemma joins_update w w' ps i th p p' :
  joins w ps -> ps !! i = Some th -> code th = Running p ->
  spawned w' = spawned w -> children w' ⊆ children w ->
  (forall j, j ∈ children w -> j ∈ children w' \/ code <$> ps !! j = Some Exited) ->
  joins w' (alter (set_run p') i ps).
Proof.
  intros [Hs Hr Ht] Hi Hc Hsp Hch Hj. constructor.
  - by rewrite args_alter, Hsp.
  - intros j Hin. rewrite length_alter. by apply Hr, Hch.
  - intros j x [[-> ->]|[N Hx]]%(set_run_cases _ _ _ _ _ _ _ Hi Hc) Hne.
    + destruct (Ht i th Hi Hne) as [Hin|He]; [|congruence].
      destruct (Hj i Hin) as [?|He]; [by left|]. rewrite Hi in He. cbn in He. congruence.
    + destruct (Ht j x Hx Hne) as [Hin|He]; [|by right].
      destruct (Hj j Hin) as [?|He]; [by left|right]. rewrite Hx in He. by injection He.
Qed.

Lemma numbers_update k k' ps i th p p' :
  numbers k ps -> ps !! i = Some th -> code th = Running p ->
  (forall u, u <> tid th -> tasks k' !! u = tasks k !! u) -> numbers k' (alter (set_run p') i ps).
Proof.
  intros [Ht Ho] Hi Hc Hu. assert (live th) as Hl by (unfold live; by rewrite Hc).
  constructor.
  - intros j1 j2 x1 x2 [[-> ->]|[N1 X1]]%(set_run_cases _ _ _ _ _ _ _ Hi Hc) [[-> ->]|[N2 X2]]%(set_run_cases _ _ _ _ _ _ _ Hi Hc) L1 L2 E;
      try done; [by eapply (Ht i j2)|by eapply (Ht j1 i)|by eapply Ht].
  - intros u Hnot. assert (u <> tid th) as Hne.
    { intros ->. apply (Hnot i (set_run p' th)); [|done|done]. by rewrite list_lookup_alter_eq, Hi. }
    rewrite Hu by done. apply Ho. intros j y Hy Hly.
    destruct (decide (j = i)) as [->|Hji]; [congruence|].
    apply (Hnot j y); [by rewrite list_lookup_alter_ne|done].
Qed.

(** A thread's facts survive what the others do. *)
Lemma thread_ok_frame k k' o o' i th w :
  thread_ok k o i th w -> msgs i o' = msgs i o -> (live th -> tasks k' !! tid th = tasks k !! tid th) ->
  thread_ok k' o' i th w.
Proof.
  intros (Hs & Ha & Hok) Hm Ht. unfold thread_ok. rewrite Hm. split_and!; [done|done|].
  unfold live in Ht. destruct (code th); [|done]. rewrite Ht by done. done.
Qed.

(** A step of one thread that leaves the list of threads as it is. *)
Lemma proc_update m ws i th w p p' k' h' o' w' :
  Inv m ws -> pool m !! i = Some th -> code th = Running p -> ws !! i = Some w ->
  rcu_depth k' = 0 /\ locked k' = [] ->
  tasks k' !! tid th = Some (task_of (attr w')) ->
  (forall u, u <> tid th -> tasks k' !! u = tasks (kern m) !! u) ->
  (forall x, x ∈ h' <-> (x ∈ held m /\ x ∉ own w) \/ x ∈ own w') ->
  (forall x, x ∈ own w' -> x ∈ own w \/ x ∉ held m) ->
  msgs i o' = said w' -> (forall j, j <> i -> msgs j o' = msgs j (out m)) ->
  spawned w' = spawned w -> children w' ⊆ children w ->
  (forall j, j ∈ children w -> j ∈ children w' \/ code <$> pool m !! j = Some Exited) ->
  wp pid i (tid th) (thread_inv i (arg th)) p' (thread_post i (arg th)) w' ->
  Inv (Machine k' h' (alter (set_run p') i (pool m)) o') (<[i := w']> ws).
Proof.
  intros HI Hi Hc Hw Hk Ht Hu Hh Ho Hm Hm' Hsp Hch Hj Hwp.
  constructor; cbn [kern held pool out].
  - done.
  - rewrite length_insert, length_alter. apply HI.
  - destruct (inv_main _ _ HI) as (t0 & H0 & Hp & Hl). destruct (decide (i = 0)%nat) as [->|Hne].
    + rewrite list_lookup_alter_eq, H0. by eexists.
    + rewrite list_lookup_alter_ne by done. eauto.
  - intros j x v [[-> ->]|[N Hx]]%(set_run_cases _ _ _ _ _ _ _ Hi Hc) [[N2 ->]|[N2 Hv]]%(insert_cases _ _ _ _ _ _ Hw); try done.
    + pose proof (inv_thread _ _ HI _ _ _ Hi Hw) as (_ & Ha & Hok). rewrite Hc in Hok.
      unfold thread_ok. cbn. naive_solver.
    + eapply thread_ok_frame; [by eapply (inv_thread _ _ HI)|by apply Hm'|]. intros Hl. apply Hu. intros E.
      apply N, (numbers_tid _ _ (inv_numbers _ _ HI) j i x th); [done..| |done]. unfold live. by rewrite Hc.
  - eapply numbers_update; eauto using inv_numbers.
  - eapply owned_update; eauto using inv_owned.
  - intros j Hlen. rewrite length_alter in Hlen. apply lookup_lt_Some in Hi.
    rewrite Hm' by lia. by apply (inv_silent _ _ HI).
  - intros v [[<- ->]|[N V]]%(insert_cases _ _ _ _ _ _ Hw); [|].
    + eapply joins_update; eauto using inv_joins.
    + eapply joins_update; eauto using inv_joins.
Qed.

(** *** The calls *)

(** A thread may always set the attributes of its own task. *)
Lemma configure_own k t a max prio :
  tasks k !! t = Some (task_of a) -> rcu_depth k = 0 /\ locked k = [] -> 0 <= max -> 0 <= prio ->
  configure_socket_fairness (found (tasks k)) cap t t max prio k
  = Ok (0, SfState (<[t := task_of (max, prio)]> (tasks k)) 0 []).
Proof.
  intros Ht [Hd Hl] Hm Hp. destruct k as [ts d l]. cbn in Ht, Hd, Hl |- *. subst d l.
  assert (sf_wf (found ts) t ts) as Hwf.
  { split; [by eexists|]. intros q u. unfold found. intros (y & Hy & ->)%fmap_Some. by eexists. }
  pose proof (configure_cases (found ts) cap t t max prio ts 0 [] Hwf ltac:(lia)
                ltac:(intros u _; apply not_elem_of_nil)) as H.
  unfold configure_spec in H.
  rewrite (proj2 (Z.ltb_ge _ _) Hm), (proj2 (Z.ltb_ge _ _) Hp) in H. cbn [orb] in H.
  unfold found at 1 in H. rewrite Ht in H. cbn [fmap option_fmap option_map] in H.
  rewrite Ht, bool_decide_eq_true_2, andb_false_r in H by done. rewrite H. do 3 f_equal.
  apply map_eq. intros u. destruct (decide (u = t)) as [->|Hne].
  - by rewrite lookup_insert_eq, lookup_alter_eq, Ht.
  - by rewrite lookup_insert_ne, lookup_alter_ne.
Qed.

(** The world of thread [i] in its current state. *)
Lemma inv_running m ws i th p :
  Inv m ws -> pool m !! i = Some th -> code th = Running p ->
  exists w, ws !! i = Some w /\ msgs i (out m) = said w /\ 0 <= arg th /\
    wp pid i (tid th) (thread_inv i (arg th)) p (thread_post i (arg th)) w /\ tid th <> 0 /\
    tasks (kern m) !! tid th = Some (task_of (attr w)) /\ own w ⊆ held m.
Proof.
  intros HI Hi Hc. destruct (inv_world _ _ _ _ HI Hi) as [w Hw]. exists w.
  pose proof (inv_thread _ _ HI _ _ _ Hi Hw) as (H1 & H2 & H3). rewrite Hc in H3.
  split_and!; try naive_solver. intros x Hx. apply (owned_held _ _ (inv_owned _ _ HI)). eauto.
Qed.

Ltac own_solver w :=
  let x := fresh "x" in intros x; destruct (decide (x ∈ own w)); set_solver.

Ltac upd HI Hi Hc Hw w :=
  eapply (proc_update _ _ _ _ _ _ _ _ _ _ _ HI Hi Hc Hw); cbn; [first [apply HI|done]|..];
  match goal with
  | |- forall x : rsrc, _ => own_solver w
  | |- forall j, _ -> _ \/ _ => set_solver
  | |- wp _ _ _ _ _ _ _ => idtac
  | |- _ => try done; try set_solver
  end.

(** Every call but [pthread_create] keeps the invariant. *)
Lemma inv_call m ws i th X (e : event X) k r m1 :
  Inv m ws -> pool m !! i = Some th -> code th = Running (Vis e k) ->
  handle pid cap no_faults i (tid th) e m r m1 ->
  match e with PthreadCreate _ => False | _ => True end ->
  exists ws', Inv (set_code i (Running (k r)) m1) ws'.
Proof.
  intros HI Hi Hc Hh He. destruct (inv_running _ _ _ _ _ HI Hi Hc) as (w & Hw & Hs & Ha & Hwp & Ht0 & Ht & Ho).
  destruct Hwp as (Hinv & Hpre & Hk). change (set_code i (Running (k r)) m1)
    with (Machine (kern m1) (held m1) (alter (set_run (k r)) i (pool m1)) (out m1)).
  destruct e as [| |q max prio|path|fd|n|p| |fd|s|l|h]; cbn in Hh, Hpre.
  - destruct Hh as [-> ->]. exists (<[i := w]> ws). upd HI Hi Hc Hw w. by apply Hk.
  - destruct Hh as [-> ->]. exists (<[i := w]> ws). upd HI Hi Hc Hw w. by apply Hk.
  - destruct Hpre as (-> & Hm & Hp), Hh as (k1 & Hcf & ->).
    rewrite (configure_own _ _ _ _ _ Ht (inv_kern _ _ HI) Hm Hp) in Hcf. injection Hcf as <- <-.
    exists (<[i := set_attr (max, prio) w]> ws). upd HI Hi Hc Hw w.
    + apply lookup_insert_eq.
    + intros u Hu. by apply lookup_insert_ne.
    + by apply Hk.
  - destruct r as [[fd text]|]; [destruct Hh as [Hn ->]|subst m1].
    + exists (<[i := set_own ({[inl fd]} ∪ own w) w]> ws). upd HI Hi Hc Hw w. apply Hk. split; [set_solver|done].
    + exists (<[i := w]> ws). upd HI Hi Hc Hw w. by apply Hk.
  - subst m1. exists (<[i := set_own (own w ∖ {[inl fd]}) w]> ws). upd HI Hi Hc Hw w. by apply Hk.
  - destruct r as [[p a]|]; [destruct Hh as (Hlen & Hneg & Hn & ->)|subst m1].
    + exists (<[i := set_own ({[inr p]} ∪ own w) w]> ws). upd HI Hi Hc Hw w. apply Hk. split_and!; [done|by apply Hneg|set_solver|done].
    + exists (<[i := w]> ws). upd HI Hi Hc Hw w. by apply Hk.
  - destruct Hh as [_ ->]. exists (<[i := set_own (own w ∖ {[inr p]}) w]> ws). upd HI Hi Hc Hw w. by apply Hk.
  - destruct (r <? 0) eqn:Hr; [subst m1|destruct Hh as [Hn ->]].
    + exists (<[i := w]> ws). upd HI Hi Hc Hw w. apply Hk. cbn. by rewrite Hr.
    + exists (<[i := set_own ({[inl r]} ∪ own w) w]> ws). upd HI Hi Hc Hw w. apply Hk. cbn. rewrite Hr.
      split; [set_solver|done].
  - subst m1. exists (<[i := set_own (own w ∖ {[inl fd]}) w]> ws). upd HI Hi Hc Hw w. by apply Hk.
  - subst m1. exists (<[i := set_said (said w ++ [s]) w]> ws). upd HI Hi Hc Hw w.
    + by rewrite <- Hs, <- msgs_snoc_eq.
    + intros j Hj. by apply msgs_snoc_ne.
    + by apply Hk.
  - done.
  - destruct Hpre as (_ & j & -> & Hj), Hh as (j' & [= <-] & Hex & ->).
    exists (<[i := set_children (children w ∖ {[j]}) (spawned w) w]> ws). upd HI Hi Hc Hw w.
    + intros j' Hj'. destruct (decide (j' = j)) as [->|]; [by right|set_solver].
    + by apply Hk.
Qed.

(** *** New threads and exits *)

Lemma numbers_spawn k ps u th :
  numbers k ps -> tasks k !! u = None -> tid th = u -> live th ->
  (forall i x, ps !! i = Some x -> live x -> is_Some (tasks k !! tid x)) ->
  forall t, numbers (set_tasks (<[u := t]> (tasks k)) k) (ps ++ [th]).
Proof.
  intros [Ht Ho] Hu <- Hl Hex t. constructor.
  - intros i j x y [[? Hx]|[-> <-]]%lookup_snoc_Some [[? Hy]|[-> <-]]%lookup_snoc_Some Lx Ly E; [by eapply Ht| | |done].
    + destruct (Hex i x Hx Lx) as [v Hv]. congruence.
    + destruct (Hex j y Hy Ly) as [v Hv]. congruence.
  - intros v Hnot. cbn. assert (tid th <> v) as Hne
      by (apply (Hnot (List.length ps) th); [by apply list_lookup_middle|done]).
    rewrite lookup_insert_ne by done. apply Ho. intros i x Hx. apply (Hnot i). by apply lookup_app_l_Some.
Qed.

Lemma owned_spawn ws h : owned ws h -> owned (ws ++ [world0]) h.
Proof.
  intros [Hd Hh Ha]. constructor.
  - intros i j v w [[? Hv]|[-> <-]]%lookup_snoc_Some [[? Hw]|[-> <-]]%lookup_snoc_Some; [by eapply Hd|set_solver..].
  - intros x. rewrite Hh. split; (intros [?|(i & w & Hw & Hx)]; [by left|right]).
    + exists i, w. split; [by apply lookup_app_l_Some|done].
    + apply lookup_snoc_Some in Hw as [[? Hw]|[_ <-]]; [eauto|set_solver].
  - intros i w [[? Hw]|[-> <-]]%lookup_snoc_Some; [by eapply Ha|set_solver].
Qed.

Lemma live_task m ws i th :
  Inv m ws -> pool m !! i = Some th -> live th -> is_Some (tasks (kern m) !! tid th).
Proof.
  intros HI Hi Hl. unfold live in Hl. destruct (code th) as [p|] eqn:Hc; [|done].
  destruct (inv_running _ _ _ _ _ HI Hi Hc) as (w & _ & _ & _ & _ & _ & -> & _). by eexists.
Qed.

Lemma joins_spawn w ps th p p' l u c :
  joins w ps -> ps !! 0%nat = Some th -> code th = Running p ->
  joins (set_children ({[List.length ps]} ∪ children w) (spawned w ++ [l]) w)
    (alter (set_run p') 0%nat ps ++ [Thread u l c]).
Proof.
  intros [Hs Hr Ht] Hi Hc. destruct ps as [|t0 ps]; [done|]. injection Hi as ->. constructor; cbn.
  - by rewrite fmap_app, Hs.
  - intros j Hj. rewrite length_app. cbn. apply elem_of_union in Hj as [->%elem_of_singleton|Hj]; [lia|].
    apply Hr in Hj. cbn in Hj. lia.
  - intros [|j] x Hx Hne; [done|]. cbn in Hx. change ((ps ++ [Thread u l c]) !! j = Some x) in Hx.
    apply lookup_snoc_Some in Hx as [[? Hx]|[-> <-]]; [|left; set_solver].
    destruct (Ht (S j) x Hx Hne); [left; set_solver|by right].
Qed.

Lemma inv_spawn m ws th l k u :
  Inv m ws -> pool m !! 0%nat = Some th -> code th = Running (Vis (PthreadCreate l) k) ->
  u <> 0 -> tasks (kern m) !! u = None ->
  exists ws', Inv (set_code 0 (Running (k (Some (List.length (pool m))))) (spawn pid u l m)) ws'.
Proof.
  intros HI Hi Hc Hu0 Hu. destruct (inv_running _ _ _ _ _ HI Hi Hc) as (w & Hw & Hs & Ha & Hwp & Ht0 & Ht & Ho).
  destruct Hwp as (Hinv & [_ Hl] & Hk). pose proof (inv_joins _ _ HI w Hw) as HJ.
  assert (S (List.length (spawned w)) = List.length (pool m)) as Hn.
  { rewrite (joins_spawned _ _ HJ), length_fmap. by destruct (pool m). }
  set (w' := set_children ({[List.length (pool m)]} ∪ children w) (spawned w ++ [l]) w).
  set (p' := k (Some (List.length (pool m)))). set (new := Thread u l (Running (thread_socket_test l))).
  assert (wp pid 0 (tid th) (thread_inv 0 (arg th)) p' (thread_post 0 (arg th)) w') as Hwp'
    by (apply Hk; unfold w'; rewrite <- Hn; done).
  assert (forall v, v <> u -> <[u := task_of (0, 0)]> (tasks (kern m)) !! v = tasks (kern m) !! v) as Hfr
    by (intros; by apply lookup_insert_ne).
  assert (forall j x, pool m !! j = Some x -> live x -> tid x <> u) as Hnu
    by (intros j x Hx Hlx <-; destruct (live_task _ _ _ _ HI Hx Hlx); congruence).
  assert (set_code 0 (Running p') (spawn pid u l m) =
          Machine (set_tasks (<[u := task_of (0, 0)]> (tasks (kern m))) (kern m)) (held m)
            (alter (set_run p') 0%nat (pool m) ++ [new]) (out m)) as ->.
  { unfold set_code, spawn. cbn [kern held pool out]. f_equal. by destruct (pool m). }
  exists (<[0%nat := w']> ws ++ [world0]). constructor; cbn [kern held pool out].
  - apply HI.
  - by rewrite !length_app, length_insert, length_alter, (inv_len _ _ HI).
  - destruct (inv_main _ _ HI) as (t0 & H0 & Hp & Hlv). assert (t0 = th) as -> by congruence.
    exists (set_run p' th). split_and!; [|done|done]. apply lookup_app_l_Some.
    by rewrite list_lookup_alter_eq, Hi.
  - intros j x v [[Hj Hx]|[-> <-]]%lookup_snoc_Some [[Hj' Hv]|[E <-]]%lookup_snoc_Some;
      rewrite ?length_insert, ?length_alter, ?(inv_len _ _ HI) in *; [|lia|lia|].
    + apply (set_run_cases _ _ _ _ _ _ _ Hi Hc) in Hx as [[-> ->]|[N Hx]];
        apply (insert_cases _ _ _ _ _ _ Hw) in Hv as [[N' ->]|[N' Hv]]; try done.
      * split_and!; [done|done|]. cbn. split_and!; [done|done| |done]. rewrite Hfr; [done|].
        apply (Hnu 0%nat th Hi). unfold live. by rewrite Hc.
      * eapply thread_ok_frame; [by eapply (inv_thread _ _ HI)|done|]. intros Hlx. by eapply Hfr, Hnu.
    + split_and!; [by apply (inv_silent _ _ HI)|done|]. cbn [new code tid arg].
      split_and!; [|done|exact (lookup_insert_eq (tasks (kern m)) u _)|].
      * apply wp_thread; [done|lia|done].
      * intros _. rewrite <- (numbers_other _ _ (inv_numbers _ _ HI)); [done|]. intros j x Hx Hlx. by eapply Hnu.
  - apply (numbers_spawn (kern m)); [|done|done|done|].
    + by eapply numbers_update; [apply (inv_numbers _ _ HI)|done|done|].
    + intros j x [[-> ->]|[N Hx]]%(set_run_cases _ _ _ _ _ _ _ Hi Hc) Hlx; [by eexists|by eapply live_task].
  - eapply owned_spawn, owned_update; [apply (inv_owned _ _ HI)|done| |].
    + own_solver w.
    + by left.
  - intros j. rewrite length_app, length_alter. cbn. intros Hj. apply (inv_silent _ _ HI). lia.
  - intros v [[_ [[_ ->]|[? _]]%(insert_cases _ _ _ _ _ _ Hw)]|[E _]]%lookup_snoc_Some; [|done|].
    + by eapply joins_spawn.
    + rewrite length_insert, (inv_len _ _ HI), <- Hn in E. lia.
Qed.

Definition set_exit (th : thread) : thread := Thread (tid th) (arg th) Exited.

Lemma exit_cases (ps : list thread) (i : nat) th j x :
  ps !! i = Some th -> alter set_exit i ps !! j = Some x ->
  (j = i /\ x = set_exit th) \/ (j <> i /\ ps !! j = Some x).
Proof. intros Hi [(-> & y & Hy & ->)|[Hne Hy]]%alter_cases; [left|by right]. naive_solver. Qed.

Lemma args_exit (ps : list thread) (i : nat) : arg <$> tail (alter set_exit i ps) = arg <$> tail ps.
Proof.
  destruct ps as [|t0 l], i as [|i]; [done..|]. cbn. apply list_eq. intros j.
  rewrite !list_lookup_fmap. destruct (decide (j = i)) as [->|Hne];
    [rewrite list_lookup_alter_eq; by destruct (l !! i)|by rewrite list_lookup_alter_ne].
Qed.

Lemma numbers_exit k ps i th :
  numbers k ps -> ps !! i = Some th -> live th -> ts0 !! tid th = None ->
  numbers (set_tasks (delete (tid th) (tasks k)) k) (alter set_exit i ps).
Proof.
  intros [Ht Ho] Hi Hl H0. constructor.
  - intros j1 j2 x1 x2 [[-> ->]|[N1 X1]]%(exit_cases _ _ _ _ _ Hi) [[-> ->]|[N2 X2]]%(exit_cases _ _ _ _ _ Hi) L1 L2 E;
      [done|by destruct L1|by destruct L2|by eapply Ht].
  - intros u Hnot. cbn. destruct (decide (u = tid th)) as [->|Hne]; [by rewrite lookup_delete_eq|].
    rewrite lookup_delete_ne by done. apply Ho. intros j x Hx Hlx.
    destruct (decide (j = i)) as [->|Hji]; [congruence|].
    apply (Hnot j x); [by rewrite list_lookup_alter_ne|done].
Qed.

Lemma inv_exit m ws i th v :
  Inv m ws -> i <> 0%nat -> pool m !! i = Some th -> code th = Running (Ret v) ->
  Inv (exit_thread i th m) ws.
Proof.
  intros HI Hne Hi Hc. destruct (inv_running _ _ _ _ _ HI Hi Hc) as (w & Hw & Hs & Ha & Hwp & _).
  destruct Hwp as [Hinv Hpost]. assert (live th) as Hl by (unfold live; by rewrite Hc).
  assert (v = 0) as -> by apply Hpost.
  change (exit_thread i th m) with
    (Machine (set_tasks (delete (tid th) (tasks (kern m))) (kern m)) (held m) (alter set_exit i (pool m)) (out m)).
  constructor; cbn [kern held pool out].
  - apply HI.
  - rewrite length_alter. apply HI.
  - destruct (inv_main _ _ HI) as (t0 & H0 & ?). exists t0. by rewrite list_lookup_alter_ne.
  - intros j x u [[-> ->]|[N Hx]]%(exit_cases _ _ _ _ _ Hi) Hu.
    + assert (u = w) as -> by congruence. by split_and!.
    + eapply thread_ok_frame; [by eapply (inv_thread _ _ HI)|done|]. intros Hlx. apply lookup_delete_ne.
      intros E. apply N. symmetry in E. by eapply (numbers_tid _ _ (inv_numbers _ _ HI)).
  - apply numbers_exit; [apply HI|done|done|].
    pose proof (inv_thread _ _ HI _ _ _ Hi Hw) as (_ & _ & H). rewrite Hc in H. by apply H.
  - apply HI.
  - intros j. rewrite length_alter. apply (inv_silent _ _ HI).
  - intros u Hu. destruct (inv_joins _ _ HI u Hu) as [J1 J2 J3]. constructor.
    + by rewrite args_exit.
    + intros j. rewrite length_alter. apply J2.
    + intros j x [[-> ->]|[N Hx]]%(exit_cases _ _ _ _ _ Hi) Hj; [by right|by eapply J3].
Qed.

(** *** Steps and runs *)

Abbreviation pstep := (step pid cap no_faults).

Lemma proc_step m m' ws : Inv m ws -> pstep m m' -> exists ws', Inv m' ws'.
Proof.
  intros HI [Ha (i & th & Hi & Hs)]. destruct (code th) as [[v|X e k]|] eqn:Hc; [| |done].
  - subst m'. exists ws. eapply inv_exit; [done| |done|done]. intros ->.
    unfold alive in Ha. rewrite Hi in Ha. cbn in Ha. by rewrite Hc in Ha.
  - destruct Hs as (r & m1 & Hh & ->).
    destruct (inv_running _ _ _ _ _ HI Hi Hc) as (w & _ & _ & _ & (_ & Hpre & _) & _).
    destruct e; try by eapply inv_call.
    destruct r as [j|]; cbn in Hh; [|by destruct Hh].
    destruct Hh as (-> & u & Hu0 & Hu & ->), Hpre as [-> _]. by eapply inv_spawn.
Qed.

Lemma inv_run m m' ws : Inv m ws -> rtc pstep m m' -> exists ws', Inv m' ws'.
Proof.
  intros HI Hr. revert ws HI. induction Hr as [m|m m1 m2 Hs _ IH]; intros ws HI; [eauto|].
  destruct (proc_step _ _ _ HI Hs) as [ws1 H1]. by eapply IH.
Qed.

Lemma fresh_fd (h : gset rsrc) : exists fd, 0 <= fd /\ inl fd ∉ h.
Proof.
  set (X := set_map (fun r : rsrc => match r with inl z => Z.to_N z | inr _ => 0%N end) h : gset N).
  exists (Z.of_N (fresh X)). split; [lia|]. intros Hin. apply (is_fresh X), elem_of_map.
  exists (inl (Z.of_N (fresh X))). split; [lia|done].
Qed.

Lemma fresh_tid (ts : gmap Z sock_task) : exists u, u <> 0 /\ ts !! u = None.
Proof.
  exists (Z.max 0 (max_key ts) + 1). split; [lia|]. apply eq_None_not_Some. intros [x Hx].
  apply max_key_lookup in Hx. lia.
Qed.

(** A thread can always go on, except at a join. *)
Lemma call_answered m ws i th X (e : event X) k :
  Inv m ws -> pool m !! i = Some th -> code th = Running (Vis e k) ->
  match e with PthreadJoin _ => False | _ => True end ->
  exists r m1, handle pid cap no_faults i (tid th) e m r m1.
Proof.
  intros HI Hi Hc Hj. destruct (inv_running _ _ _ _ _ HI Hi Hc) as (w & Hw & Hs & Ha & Hwp & Ht0 & Ht & Ho).
  destruct Hwp as (_ & Hpre & _). destruct e as [| |q max prio|path|fd|n|p| |fd|s|l|h]; cbn in Hpre; cbn [handle].
  - eauto.
  - eauto.
  - destruct Hpre as (-> & Hm & Hp). eexists 0, _, _. split; [|done].
    exact (configure_own _ _ _ _ _ Ht (inv_kern _ _ HI) Hm Hp).
  - by exists None, m.
  - by exists tt; eexists.
  - by exists None, m.
  - exists tt. eexists. split; [by apply Ho|done].
  - destruct (fresh_fd (held m)) as (fd & H0 & Hn). exists fd. eexists.
    rewrite (proj2 (Z.ltb_ge _ _) H0). by split.
  - by exists tt; eexists.
  - by exists tt; eexists.
  - destruct (fresh_tid (tasks (kern m))) as (u & H0 & Hu). exists (Some (List.length (pool m))). by eauto 6.
  - done.
Qed.

(** What holds at any time: a thread reports no failure but of a socket, and the
    number of its sockets right; its task has attributes the thread itself gave it,
    no other task is touched, and nothing the process held at its start is closed. *)
Definition always (m : machine) : Prop :=
  (forall i th, pool m !! i = Some th ->
     Forall (quiet (sockets_of i (arg th))) (msgs i (out m)) /\ honest (sockets_of i (arg th)) (msgs i (out m))) /\
  (forall i th, pool m !! i = Some th -> live th ->
     exists a, a ∈ attrs_of i (arg th) /\ tasks (kern m) !! tid th = Some (task_of a)) /\
  (forall u, (forall i th, pool m !! i = Some th -> live th -> tid th <> u) -> tasks (kern m) !! u = ts0 !! u) /\
  held0 ⊆ held m.

(** The end: [main] has returned 0, its three threads have ended, every descriptor
    and block is given back, and the verdict is printed. *)
Definition finished (m : machine) : Prop :=
  (exists th rest, pool m = th :: rest /\ code th = Running (Ret 0) /\
     Forall (fun x => code x = Exited) rest /\ arg <$> rest = limits) /\
  held m = held0 /\ tasks (kern m) = <[pid := task_of (10000, 0)]> ts0 /\
  List.last (msgs 0 (out m)) CannotOpen = AllPassed.

Lemma inv_always m ws : Inv m ws -> always m.
Proof.
  intros HI. split_and!.
  - intros i th Hi. destruct (inv_world _ _ _ _ HI Hi) as [w Hw].
    destruct (inv_thread _ _ HI _ _ _ Hi Hw) as (-> & _ & Hok).
    destruct (code th); [destruct Hok as [Hwp%wp_inv _]; apply Hwp|apply Hok].
  - intros i th Hi Hl. unfold live in Hl. destruct (code th) as [p|] eqn:Hc; [|done].
    destruct (inv_running _ _ _ _ _ HI Hi Hc) as (w & _ & _ & _ & Hwp%wp_inv & _ & Ht & _).
    exists (attr w). split; [apply Hwp|done].
  - apply (inv_numbers _ _ HI).
  - intros x Hx. apply (owned_held _ _ (inv_owned _ _ HI)). by left.
Qed.

(** When [main] returns, nothing is left. *)
Lemma inv_finished m ws th v :
  Inv m ws -> pool m !! 0%nat = Some th -> code th = Running (Ret v) -> finished m.
Proof.
  intros HI Hi Hc. destruct (inv_running _ _ _ _ _ HI Hi Hc) as (w & Hw & Hs & _ & Hwp & _ & Ht & _).
  destruct Hwp as [_ (-> & Hown & Hch & Hattr & Hsp & Hlast)].
  destruct (inv_joins _ _ HI w Hw) as [J1 _ J3].
  destruct (inv_main _ _ HI) as (t0 & H0 & Hp & _). assert (t0 = th) as -> by congruence.
  assert (forall j x, pool m !! j = Some x -> j <> 0%nat -> code x = Exited) as Hex.
  { intros j x Hx Hj. destruct (J3 j x Hx Hj); [set_solver|done]. }
  split_and!; [| | |by rewrite Hs].
  - destruct (pool m) as [|t1 rest]; [done|]. injection Hi as ->. exists th, rest.
    split_and!; [done|done| |by rewrite <- Hsp, J1]. apply Forall_lookup. intros j x Hx. by apply (Hex (S j)).
  - apply set_eq. intros x. rewrite (owned_held _ _ (inv_owned _ _ HI)). split; [|by left].
    intros [?|(i & u & Hu & Hx)]; [done|]. assert (i < List.length ws)%nat as Hlt by by eapply lookup_lt_Some.
    rewrite (inv_len _ _ HI) in Hlt. apply lookup_lt_is_Some in Hlt as [y Hy].
    destruct (decide (i = 0)%nat) as [->|Hne]; [set_solver|].
    destruct (inv_thread _ _ HI _ _ _ Hy Hu) as (_ & _ & Hok). rewrite (Hex i y Hy Hne) in Hok.
    destruct Hok as [(_ & Ho & _) _]. set_solver.
  - apply map_eq. intros u. destruct (decide (u = pid)) as [->|Hne].
    + by rewrite lookup_insert_eq, <- Hattr, <- Hp.
    + rewrite lookup_insert_ne by done. apply (numbers_other _ _ (inv_numbers _ _ HI)).
      intros i x Hx Hl. destruct (decide (i = 0)%nat) as [->|Hi0]; [congruence|].
      by destruct Hl; apply (Hex i).
Qed.

(** No reachable state is stuck before the end. *)
Lemma proc_progress m ws : Inv m ws -> (exists m', pstep m m') \/ finished m.
Proof.
  intros HI. destruct (inv_main _ _ HI) as (th & Hi & _ & Hl). unfold live in Hl.
  destruct (code th) as [[v|X e k]|] eqn:Hc; [right; by eapply inv_finished| |done]. left.
  assert (alive m) as Ha by (unfold alive; rewrite Hi; cbn; by rewrite Hc).
  assert (forall i x Y (f : event Y) c, pool m !! i = Some x -> code x = Running (Vis f c) ->
            match f with PthreadJoin _ => False | _ => True end -> exists m', pstep m m') as Hgo.
  { intros i x Y f c Hx Hcx Hf. destruct (call_answered _ _ _ _ _ _ _ HI Hx Hcx Hf) as (r & m1 & Hh).
    eexists. split; [done|]. exists i, x. split; [done|]. rewrite Hcx. eauto. }
  destruct (inv_running _ _ _ _ _ HI Hi Hc) as (w & Hw & _ & _ & (_ & Hpre & _) & _).
  destruct e as [| | | | | | | | | | |h]; try (by eapply Hgo). destruct Hpre as (_ & j & -> & Hj).
  apply (joins_range _ _ (inv_joins _ _ HI w Hw)) in Hj as [Hj0 Hjn].
  apply lookup_lt_is_Some in Hjn as [x Hx]. destruct (code x) as [[v|Y f c]|] eqn:Hcx.
  - eexists. split; [done|]. exists j, x. split; [done|]. by rewrite Hcx.
  - eapply (Hgo j x Y f c); [done|done|]. destruct f; try done.
    destruct (inv_running _ _ _ _ _ HI Hx Hcx) as (u & _ & _ & _ & (_ & [-> _] & _) & _). lia.
  - eexists. split; [done|]. exists 0%nat, th. split; [done|]. rewrite Hc. exists tt, m.
    split; [|done]. exists j. by rewrite Hx, <- Hcx.
Qed.

Lemma inv_boot : pid <> 0 -> ts0 !! pid = Some (task_of (0, 0)) -> Inv (boot pid ts0 held0) [world0].
Proof.
  intros Hp H0. constructor; cbn [boot kern held pool out].
  - done.
  - done.
  - by eexists.
  - intros [|i] th w Hi Hw; [|by destruct i]. injection Hi as <-. injection Hw as <-.
    split_and!; [done|done|]. cbn [code tid arg]. split_and!; [by apply wp_main|done|done|done].
  - constructor; [intros [|i] [|j] th th' Hi Hj; try done; by destruct i, j|done].
  - constructor.
    + intros [|i] [|j] w w' Hi Hj; try done; by destruct i, j.
    + intros x. split; [by left|]. intros [?|([|i] & w & Hw & Hx)]; [done| |by destruct i].
      injection Hw as <-. set_solver.
    + intros [|i] w Hw; [|by destruct i]. injection Hw as <-. set_solver.
  - done.
  - intros w [= <-]. constructor; [done|set_solver|]. intros [|j] th Hj; [done|by destruct j].
Qed.


End Runs.

(** ** Witnesses *)

Definition tasks_w : gmap Z sock_task := {[ 7 := SockTask 7 3 1 2; 100 := SockTask 100 0 0 0 ]}.
Definition fds_w : gset rsrc := {[ inl 0; inl 1; inl 2 ]}.


(** The fourth of five creations fails; the fifth element still holds 7, which is
    closed although the program never opened it. *)
Example stale_seven :
  (run (array_handler (fun i => if (i <? 3)%nat then Z.of_nat i + 3 else -1) [0; 0; 0; 0; 7])
     (a ← create_sockets 5; close_sockets a 5) (0%nat, [])).2.2 = [3; 4; 5; 7].
Proof. reflexivity. Qed.

(** When no thread can be created, [main] joins three handles that were never
    written. *)
Definition join_handler : handler (list (option nat)) :=
  fun X e s =>
    match e in event X return X * list (option nat) with
    | Gettid | Getpid => (1, s)
    | Configure _ _ _ => (0, s)
    | Fopen _ => (None, s)
    | Malloc _ => (None, s)
    | Socket => (3, s)
    | PthreadCreate _ => (None, s)
    | PthreadJoin h => (tt, s ++ [h])
    | Fclose _ | Free _ | Printf _ | Close _ => (tt, s)
    end.

Example joins_uninitialised : run join_handler main [] = (0, [None; None; None]).
Proof. reflexivity. Qed.

(** A file with one line about sockets. *)
Example status_shows :
  List.filter about_sockets (lines (list_ascii_of_string ("Pid: 7" ++ String "010" ("Sockets: 3" ++ String "010" EmptyString))))
  = [list_ascii_of_string ("Sockets: 3" ++ String "010" EmptyString)].
Proof. reflexivity. Qed.
