(* ===== verification/Exercises.v ===== *)
(** * Exercises: mapped files and extended attributes

    Two user-space exercises of [os-2024-exercise].  [FileMap] models
    [ch3-mm/ch3_1/impl.c]: writing a file through a shared mapping and copying a
    region into a new one.  [Xattr] models [ch4-fs/ch4_1/impl.h]: setting, reading,
    listing and removing extended attributes, against an interface that states what
    the system calls promise. *)

From Stdlib Require Import ZArith Lia.
From stdpp Require Import base list gmap.
From S2P Require Import Prelude Bytes.

(** ** Files written through a mapping *)

Module FileMap.

Record os := Os {
  file : list Z;            (** the bytes of the file *)
  fds : Z;                  (** open descriptors *)
  maps : Z                  (** mapped regions *)
}.

(** Which system calls succeed. *)
Record env := Env {
  open_ok : bool; fstat_ok : bool; ftruncate_ok : bool; mmap_ok : bool; msync_ok : bool; munmap_ok : bool
}.

Section Env.
Context (E : env).

Definition close : M os unit := modify (fun s => Os (file s) (fds s - 1) (maps s)).

(** ftruncate: cut off, or extend with zero bytes. *)
Definition resize (n : Z) (bs : list Z) : list Z :=
  take (Z.to_nat n) bs ++ replicate (Z.to_nat n - length bs) 0.

(** A shared mapping of the first [len] bytes: a store changes the file; outside
    the mapping it faults. *)
Definition store_map (len off : Z) (bs : list Z) : M os unit :=
  s ← get;
  if off + Z.of_nat (length bs) <=? len then
    file' ← lift (res_of_opt OutOfBounds (memcpy (file s) off bs));
    put (Os file' (fds s) (maps s))
  else abort OutOfBounds.

Definition file_mmap_write (offset : Z) (content : list Z) : M os Z :=
  if negb (open_ok E) then mret (- 1)
  else
    _ ← modify (fun s => Os (file s) (fds s + 1) (maps s));
    if negb (fstat_ok E) then _ ← close; mret (- 1)
    else
      s ← get;
      let st_size := Z.of_nat (length (file s)) in
      let content := cstr content in
      let content_len := Z.of_nat (length content) in
      let end_ := u64 (offset + content_len) in
      if (u64 st_size <? end_) && negb (ftruncate_ok E) then _ ← close; mret (- 1)
      else
        _ ← (if u64 st_size <? end_ then modify (fun s => Os (resize end_ (file s)) (fds s) (maps s)) else mret tt);
        if (end_ =? 0) || negb (mmap_ok E) then _ ← close; mret (- 1)
        else
          _ ← modify (fun s => Os (file s) (fds s) (maps s + 1));
          _ ← store_map end_ offset content;
          if negb (msync_ok E) then
            _ ← (if munmap_ok E then modify (fun s => Os (file s) (fds s) (maps s - 1)) else mret tt);
            _ ← close; mret (- 1)
          else if negb (munmap_ok E) then _ ← close; mret (- 1)
          else
            _ ← modify (fun s => Os (file s) (fds s) (maps s - 1));
            _ ← close; mret 0.

(** The file with [bs] written at [off], zero bytes filling a gap. *)
Definition written (f : list Z) (off : Z) (bs : list Z) : list Z :=
  take (Z.to_nat off) f ++ replicate (Z.to_nat off - length f) 0 ++ bs ++ drop (Z.to_nat off + length bs) f.

Definition extended (f : list Z) (n : Z) : list Z := if Z.of_nat (length f) <? n then resize n f else f.

Lemma extended_length f n : n <= Z.of_nat (length (extended f n)).
Proof.
  unfold extended. destruct (Z.ltb_spec (Z.of_nat (length f)) n); [|lia].
  unfold resize. rewrite length_app, length_take, length_replicate. lia.
Qed.

Lemma store_written f off bs :
  0 <= off ->
  memcpy (extended f (off + Z.of_nat (length bs))) off bs = Some (written f off bs).
Proof.
  intros Ho. pose proof (extended_length f (off + Z.of_nat (length bs))) as Hl.
  rewrite memcpy_some by lia. f_equal. unfold written, extended in *.
  destruct (Z.ltb_spec (Z.of_nat (length f)) (off + Z.of_nat (length bs))).
  - unfold resize. rewrite (take_ge f) by lia. rewrite take_app, take_replicate, drop_app.
    rewrite (drop_ge f) by lia. rewrite drop_replicate.
    replace (_ - _ - _)%nat with 0%nat by lia. rewrite <- app_assoc. do 3 f_equal. lia.
  - replace (Z.to_nat off - length f)%nat with 0%nat by lia. done.
Qed.

(** The calls that are made succeed and there is something to map. *)
Definition succeeds (offset : Z) (c : list Z) (s : os) : bool :=
  open_ok E && fstat_ok E && ((offset + Z.of_nat (length c) <=? Z.of_nat (length (file s))) || ftruncate_ok E) &&
  (0 <? offset + Z.of_nat (length c)) && mmap_ok E && (msync_ok E && munmap_ok E).

(** How a call ends: the descriptor is closed; on success the bytes are there and
    the mapping is gone; on failure the file is untouched, extended, or already
    written, and at most the one mapping is left. *)
Definition write_post (offset : Z) (c : list Z) (s : os) (r : Z) (s' : os) : Prop :=
  fds s' = fds s /\
  ((r = 0 /\ file s' = written (file s) offset c /\ maps s' = maps s) \/
   (r = - 1 /\ maps s <= maps s' <= maps s + 1 /\
    file s' ∈ [file s; extended (file s) (offset + Z.of_nat (length c)); written (file s) offset c])) /\
  (r = 0 <-> succeeds offset c s = true).

(** From the mapping on, with the file long enough. *)
Lemma write_mapped offset c s s1 :
  0 <= offset -> 0 < offset + Z.of_nat (length c) ->
  file s1 = extended (file s) (offset + Z.of_nat (length c)) -> fds s1 = fds s + 1 -> maps s1 = maps s + 1 ->
  runs (_ ← store_map (offset + Z.of_nat (length c)) offset c;
        if negb (msync_ok E) then
          _ ← (if munmap_ok E then modify (fun s => Os (file s) (fds s) (maps s - 1)) else mret tt);
          _ ← close; mret (- 1)
        else if negb (munmap_ok E) then _ ← close; mret (- 1)
        else _ ← modify (fun s => Os (file s) (fds s) (maps s - 1)); _ ← close; mret 0) s1
    (fun r s' => fds s' = fds s /\ file s' = written (file s) offset c /\
       (r = 0 /\ msync_ok E && munmap_ok E = true /\ maps s' = maps s \/
        r = - 1 /\ msync_ok E && munmap_ok E = false /\ maps s <= maps s' <= maps s + 1)).
Proof.
  intros Ho Hp Hf Hd Hm. apply runs_bind. eexists _, _. split.
  { unfold store_map. mrun. rewrite (proj2 (Z.leb_le _ _)) by lia. rewrite Hf, store_written by done. reflexivity. }
  destruct (msync_ok E), (munmap_ok E); cbn; eexists _, _; (split; [reflexivity|]); cbn; split_and!; try done; lia.
Qed.

(** [file_mmap_write] always returns and closes its descriptor.  It succeeds
    exactly when the system calls it makes succeed and the range is not empty;
    then the file holds the string at the offset, zero bytes fill a gap after the
    old end, and every other byte is as before.  When it fails the file is
    untouched, has only grown by zero bytes, or holds the string. *)
Theorem file_mmap_write_spec offset content s :
  0 <= offset -> offset + Z.of_nat (length (cstr content)) < 2 ^ 64 -> Z.of_nat (length (file s)) < 2 ^ 63 ->
  runs (file_mmap_write offset content) s (write_post offset (cstr content) s).
Proof.
  intros Ho Hlt Hf. unfold file_mmap_write, write_post, succeeds. set (c := cstr content) in *.
  destruct (open_ok E); cbn [negb andb].
  2: { apply runs_ret. split_and!; [done| |done]. right. split_and!; [done|lia|lia|set_solver]. }
  apply runs_bind. eexists _, _. split; [reflexivity|]. destruct (fstat_ok E); cbn [negb andb].
  2: { eexists _, _. split; [reflexivity|]. cbn. split_and!; [lia| |done]. right. split_and!; [done|lia|lia|set_solver]. }
  apply runs_bind. eexists _, _. split; [reflexivity|]. cbn [file]. cbv zeta.
  rewrite (uwrap_small 64 (Z.of_nat (length (file s)))), (uwrap_small 64 (offset + _)) by (unfold is_u; lia).
  set (e := offset + Z.of_nat (length c)) in *.
  rewrite (Z.leb_antisym (Z.of_nat (length (file s))) e).
  destruct ((Z.of_nat (length (file s)) <? e) && negb (ftruncate_ok E)) eqn:Et.
  { eexists _, _. split; [reflexivity|]. cbn. split_and!; [lia| |].
    - right. split_and!; [done|lia|lia|set_solver].
    - apply andb_true_iff in Et as [-> Ht]. destruct (ftruncate_ok E); [done|]. cbn. by split. }
  assert (negb (Z.of_nat (length (file s)) <? e) || ftruncate_ok E = true) as ->
    by (destruct (_ <? e), (ftruncate_ok E); done). cbn [andb].
  apply runs_bind. apply (runs_mono _ _ (fun _ s1 => s1 = Os (extended (file s) e) (fds s + 1) (maps s))).
  { unfold extended. destruct (_ <? e); [by eexists _, _|by apply runs_ret]. }
  intros [] s1 ->. destruct (Z.eqb_spec e 0) as [He|He], (mmap_ok E); cbn [orb negb];
    try (eexists _, _; split; [reflexivity|]; cbn; split_and!; [lia| |by rewrite ?andb_false_r; split];
         right; split_and!; [done|lia|lia|set_solver]).
  - eexists _, _. split; [reflexivity|]. cbn. rewrite (proj2 (Z.ltb_ge 0 e)) by lia. split_and!; [lia| |done].
    right. split_and!; [done|lia|lia|set_solver].
  - rewrite (proj2 (Z.ltb_lt 0 e)) by lia. cbn [andb]. apply runs_bind. eexists _, _. split; [reflexivity|].
    eapply runs_mono; [apply (write_mapped offset c s); [done|unfold e in *; lia|done..]|].
    intros r s' (Hd & Hw & H). split; [done|]. destruct H as [(-> & -> & Hm)|(-> & -> & Hm)]; split; try done; [by left|].
    right. split_and!; [done|lia|lia|set_solver].
Qed.

End Env.

(** A write across the end of a file of four bytes, with a gap. *)
Lemma file_mmap_write_spec_witness :
  runs (file_mmap_write (Env true true true true true true) 6 [66; 67; 0; 9]) (Os [65; 65; 65; 65] 3 0)
    (write_post (Env true true true true true true) 6 (cstr [66; 67; 0; 9]) (Os [65; 65; 65; 65] 3 0)).
Proof. apply file_mmap_write_spec; cbn; lia. Defined.

Example write_run :
  file_mmap_write (Env true true true true true true) 6 [66; 67; 0; 9] (Os [65; 65; 65; 65] 3 0) =
    Ok (0, Os [65; 65; 65; 65; 0; 0; 66; 67] 3 0).
Proof. vm_compute. reflexivity. Qed.

(** Writing the empty string at offset zero is a mapping of length zero: an error. *)
Example write_nothing_fails :
  file_mmap_write (Env true true true true true true) 0 [0] (Os [65] 3 0) = Ok (- 1, Os [65] 3 0).
Proof. vm_compute. reflexivity. Qed.

(** *** Copying a region into a new one *)

Abbreviation memory := (gmap Z Z).

Fixpoint read_mem (m : memory) (a : Z) (n : nat) : option (list Z) :=
  match n with
  | O => Some []
  | S n => b ← m !! a; bs ← read_mem m (a + 1) n; Some (b :: bs)
  end.

Fixpoint write_mem (m : memory) (a : Z) (bs : list Z) : memory :=
  match bs with [] => m | b :: bs => write_mem (<[a := b]> m) (a + 1) bs end.

(** [mmap] is the address that the system chose, or its failure. *)
Definition mmap_remap (mmap : option Z) (addr : Z) (size : nat) : M memory Z :=
  match mmap with
  | None => mret NULL
  | Some new_addr =>
      _ ← modify (fun m => write_mem m new_addr (replicate size 0));
      m ← get;
      match read_mem m addr size with
      | None => abort (if addr =? NULL then NullDeref else Dangling)
      | Some bs => _ ← put (write_mem m new_addr bs); mret new_addr
      end
  end.

Lemma write_mem_lookup bs : forall m a x,
  write_mem m a bs !! x = if decide (a <= x < a + Z.of_nat (length bs)) then bs !! Z.to_nat (x - a) else m !! x.
Proof.
  induction bs as [|b bs IH]; intros m a x; cbn [write_mem length]; [by rewrite decide_False by lia|].
  rewrite IH. destruct (decide (x = a)) as [->|Hx].
  - rewrite decide_False, decide_True, lookup_insert_eq by lia. by rewrite Z.sub_diag.
  - rewrite lookup_insert_ne by done. destruct (decide (a + 1 <= x < a + 1 + Z.of_nat (length bs))).
    + rewrite decide_True by lia. by replace (Z.to_nat (x - a)) with (S (Z.to_nat (x - (a + 1)))) by lia.
    + by rewrite decide_False by lia.
Qed.

Lemma read_mem_ok n : forall m a,
  (forall i, 0 <= i < Z.of_nat n -> is_Some (m !! (a + i))) ->
  exists bs, read_mem m a n = Some bs /\ length bs = n /\ forall i, (i < n)%nat -> bs !! i = m !! (a + Z.of_nat i).
Proof.
  induction n as [|n IH]; intros m a H; cbn [read_mem]; [exists []; split_and!; [done..|lia]|].
  destruct (H 0) as [b Hb]; [lia|]. rewrite Z.add_0_r in Hb. rewrite Hb. cbn.
  destruct (IH m (a + 1)) as (bs & -> & Hl & Hi).
  { intros i Hi. replace (a + 1 + i) with (a + (1 + i)) by lia. apply H. lia. }
  exists (b :: bs). cbn. split_and!; [done|lia|]. intros [|i] Hlt; [by rewrite Z.add_0_r|].
  cbn. rewrite Hi by lia. f_equal. lia.
Qed.

(** The new region holds a copy, and everything else, the old region too, is as it
    was, if the system gives a region that was free. *)
Lemma mmap_remap_copies new addr size m :
  (forall i, 0 <= i < Z.of_nat size -> is_Some (m !! (addr + i)) /\ m !! (new + i) = None) ->
  runs (mmap_remap (Some new) addr size) m (fun r m' => r = new /\
    (forall i, 0 <= i < Z.of_nat size -> m' !! (new + i) = m !! (addr + i)) /\
    (forall x, ~ (new <= x < new + Z.of_nat size) -> m' !! x = m !! x)).
Proof.
  intros H. unfold mmap_remap. apply runs_bind. eexists _, _. split; [reflexivity|].
  apply runs_bind. eexists _, _. split; [reflexivity|]. set (m0 := write_mem m new _).
  assert (forall i, 0 <= i < Z.of_nat size -> m0 !! (addr + i) = m !! (addr + i)) as H0.
  { intros i Hi. unfold m0. rewrite write_mem_lookup, length_replicate, decide_False; [done|].
    intros Hd. destruct (H i Hi) as [[b Hb] _]. destruct (H (addr + i - new)) as [_ Hn]; [lia|].
    replace (new + (addr + i - new)) with (addr + i) in Hn by lia. congruence. }
  destruct (read_mem_ok size m0 addr) as (bs & -> & Hl & Hb).
  { intros i Hi. rewrite H0 by done. by apply H. }
  apply runs_bind. eexists _, _. split; [reflexivity|]. apply runs_ret. split_and!; [done| |].
  - intros i Hi. rewrite write_mem_lookup, decide_True by lia. replace (new + i - new) with i by lia.
    rewrite Hb by lia. rewrite Z2Nat.id by lia. by apply H0.
  - intros x Hx. rewrite write_mem_lookup, decide_False by lia. unfold m0.
    rewrite write_mem_lookup, length_replicate, decide_False by lia. done.
Qed.

(** The documentation allows a NULL address; the copy then reads through it. *)
Example mmap_remap_null : mmap_remap (Some 4096) NULL 2 ∅ = Fault NullDeref.
Proof. vm_compute. reflexivity. Qed.

End FileMap.

(** ** Extended attributes *)

Module Xattr.

Abbreviation str := (list Z).

(** What the system calls promise about the attributes of the files. *)
Class XattrFS (S : Type) := {
  attrs : S -> str -> gmap str str;
  setxattr : S -> str -> str -> str -> Z * S;
  getxattr_size : S -> str -> str -> Z;                       (** with a NULL buffer *)
  getxattr : S -> str -> str -> Z -> Z * str;                 (** result and bytes stored *)
  removexattr : S -> str -> str -> Z * S;
  listxattr : S -> str -> list str;

  setxattr_ok s p n v s' : setxattr s p n v = (0, s') ->
    attrs s' p = <[n := v]> (attrs s p) /\ forall q, q <> p -> attrs s' q = attrs s q;
  setxattr_err s p n v r s' : setxattr s p n v = (r, s') -> r <> 0 -> s' = s;
  getxattr_size_spec s p n : getxattr_size s p n =
    match attrs s p !! n with Some v => Z.of_nat (length v) | None => - 1 end;
  getxattr_spec s p n size : getxattr s p n size =
    match attrs s p !! n with
    | Some v => if size =? 0 then (Z.of_nat (length v), [])
                else if Z.of_nat (length v) <=? size then (Z.of_nat (length v), v) else (- 1, [])
    | None => (- 1, [])
    end;
  removexattr_spec s p n : forall r s', removexattr s p n = (r, s') ->
    match attrs s p !! n with
    | Some _ => r = 0 /\ attrs s' p = delete n (attrs s p) /\ forall q, q <> p -> attrs s' q = attrs s q
    | None => r = - 1 /\ s' = s
    end;
  listxattr_spec s p n : n ∈ listxattr s p <-> is_Some (attrs s p !! n)
}.

Section Client.
Context {S : Type} `{XattrFS S}.

Definition set_xattr (s : S) (path name value : str) : Z * S :=
  let (ret, s') := setxattr s path name (cstr value) in (if ret =? 0 then 1 else - 1, s').

Definition remove_xattr (s : S) (path name : str) : Z * S :=
  let (ret, s') := removexattr s path name in (if ret =? 0 then 1 else - 1, s').

(** [s1] and [s2] are the states at the two calls, [junk] what the allocation
    holds; the result is the buffer. *)
Definition get_xattr (s1 s2 : S) (path name : str) (malloc_ok : bool) (junk : str) : option str :=
  let value_len := getxattr_size s1 path name in
  if value_len =? - 1 then None
  else if negb malloc_ok then None
  else
    let (ret, bytes) := getxattr s2 path name value_len in
    if ret =? - 1 then None
    else Some (take (Z.to_nat value_len) (bytes ++ drop (length bytes) junk) ++ [0]).

(** The buffer of listxattr: the names, each with its terminator. *)
Definition name_list (ns : list str) : str := concat (map (fun n => n ++ [0]) ns).

(** The loop that prints: a name, then on to the byte after its terminator. *)
Fixpoint print_names (fuel : nat) (buf : str) : res (list str) :=
  match fuel with
  | O => match buf with [] => Ok [] | _ => Fault OutOfFuel end
  | Datatypes.S fuel =>
      match buf with
      | [] => Ok []
      | _ => rest ← print_names fuel (drop (length (cstr buf) + 1) buf); Ok (cstr buf :: rest)
      end
  end.

(** What the function prints: an error, that there is nothing, or the names. *)
Inductive listing := LFailed | LNone | LNames (ns : list str).

(** [s1] and [s2] are the states at the two calls; [ok1], [ok2] say whether the
    calls succeed otherwise. *)
Definition list_xattrs (ok1 ok2 : bool) (s1 s2 : S) (path : str) (malloc_ok : bool) : res listing :=
  if negb ok1 then Ok LFailed
  else
    let buf_len := length (name_list (listxattr s1 path)) in
    if (buf_len =? 0)%nat then Ok LNone
    else if negb malloc_ok then Ok LFailed
    else
      let buf := name_list (listxattr s2 path) in
      if negb ok2 || (buf_len <? length buf)%nat then Ok LFailed
      else ns ← print_names (length buf) buf; Ok (LNames ns).

(** *** Theorems *)

(** The loop prints the names, whatever they are: also empty ones. *)
Lemma print_names_list ns : forall fuel, (length (name_list ns) <= fuel)%nat -> Forall nonul ns ->
  print_names fuel (name_list ns) = Ok ns.
Proof.
  induction ns as [|n ns IH]; intros fuel Hf Hn; [by destruct fuel|]. inversion Hn as [|? ? H1 H2]; subst.
  change (name_list (n :: ns)) with ((n ++ [0]) ++ name_list ns) in *. rewrite !length_app in Hf. cbn in Hf.
  destruct fuel as [|fuel]; [lia|]. rewrite <- app_assoc in *. cbn [app] in *.
  destruct (n ++ 0 :: name_list ns) as [|b bs] eqn:E; [by destruct n|]. cbn [print_names]. rewrite <- E.
  rewrite cstr_app_nul by done.
  replace (length n + 1)%nat with (length (n ++ [0])) by (rewrite length_app; cbn; lia).
  change (n ++ 0 :: name_list ns) with (n ++ [0] ++ name_list ns). rewrite app_assoc, drop_app_length.
  by rewrite IH by (done || lia).
Qed.

Lemma list_xattrs_names s path :
  Forall nonul (listxattr s path) -> listxattr s path <> [] ->
  list_xattrs true true s s path true = Ok (LNames (listxattr s path)).
Proof.
  intros Hn Hne. unfold list_xattrs. cbn [negb orb]. rewrite Nat.ltb_irrefl.
  destruct (Nat.eqb_spec (length (name_list (listxattr s path))) 0) as [Hz|_].
  { destruct (listxattr s path) as [|n ns]; [done|].
    change (name_list (n :: ns)) with ((n ++ [0]) ++ name_list ns) in Hz. rewrite !length_app in Hz. cbn in Hz. lia. }
  by rewrite print_names_list.
Qed.

(** The exercise's attributes behave: a value that was set without error is
    read back, by a reader that runs undisturbed, as the same string, whatever
    the allocation held; the names printed are those of before and its own;
    removing it succeeds, after which reading gives NULL, and no other attribute
    or file has changed. *)
Theorem xattr_round_trip s path name value junk s' :
  nonul value -> (length value <= length junk)%nat -> set_xattr s path name value = (1, s') ->
  Forall nonul (listxattr s' path) ->
  (exists ns, list_xattrs true true s' s' path true = Ok (LNames ns) /\ forall n, n ∈ ns <-> n = name \/ is_Some (attrs s path !! n)) /\
  (exists buf, get_xattr s' s' path name true junk = Some buf /\ cstr buf = value) /\
  (forall s2 r, remove_xattr s' path name = (r, s2) ->
     r = 1 /\ get_xattr s2 s2 path name true junk = None /\
     (forall n, n <> name -> attrs s2 path !! n = attrs s path !! n) /\
     (forall q, q <> path -> attrs s2 q = attrs s q)).
Proof.
  intros Hv Hj Hs Hns. unfold set_xattr in Hs. rewrite cstr_id in Hs by done.
  destruct (setxattr s path name value) as [r s1] eqn:Es. destruct (Z.eqb_spec r 0) as [->|]; [|done].
  injection Hs as <-. destruct (setxattr_ok _ _ _ _ _ Es) as [Ha Hq].
  assert (attrs s1 path !! name = Some value) as Hl by (rewrite Ha; apply lookup_insert_eq).
  split_and!.
  - exists (listxattr s1 path). split.
    + apply list_xattrs_names; [done|]. intros Hn. eapply elem_of_nil. rewrite <- Hn.
      apply (proj2 (listxattr_spec s1 path name)). by eexists.
    + intros n. rewrite listxattr_spec, Ha, lookup_insert_is_Some'. naive_solver.
  - unfold get_xattr. rewrite getxattr_size_spec, getxattr_spec, Hl.
    rewrite (proj2 (Z.eqb_neq (Z.of_nat (length value)) (-1))), Z.leb_refl by lia. cbn [negb].
    destruct (Z.eqb_spec (Z.of_nat (length value)) 0) as [Hz|Hz].
    + destruct value; [|cbn in Hz; lia]. cbn. eexists. by split.
    + rewrite (proj2 (Z.eqb_neq (Z.of_nat (length value)) (-1))) by lia. eexists. split; [reflexivity|].
      rewrite Nat2Z.id, take_app_length. by apply cstr_app_nul.
  - intros s2 r Hr. unfold remove_xattr in Hr. destruct (removexattr s1 path name) as [r1 s3] eqn:Er.
    pose proof (removexattr_spec s1 path name r1 s3 Er) as Hrm. rewrite Hl in Hrm. destruct Hrm as (-> & Hd & Ho).
    injection Hr as <- <-. rewrite Ha, delete_insert_eq in Hd. split_and!; [done| | |].
    + unfold get_xattr. by rewrite getxattr_size_spec, Hd, lookup_delete_eq.
    + intros n Hn. by rewrite Hd, lookup_delete_ne.
    + intros q Hq'. by rewrite Ho, Hq.
Qed.

End Client.

(** *** An implementation of the interface *)

Abbreviation store := (gmap str (gmap str str)).
Definition attrs_of (s : store) (p : str) : gmap str str := default ∅ (s !! p).

Definition store_set (s : store) (p n v : str) : Z * store := (0, <[p := <[n := v]> (attrs_of s p)]> s).
Definition store_size (s : store) (p n : str) : Z :=
  match attrs_of s p !! n with Some v => Z.of_nat (length v) | None => - 1 end.
Definition store_get (s : store) (p n : str) (size : Z) : Z * str :=
  match attrs_of s p !! n with
  | Some v => if size =? 0 then (Z.of_nat (length v), [])
              else if Z.of_nat (length v) <=? size then (Z.of_nat (length v), v) else (- 1, [])
  | None => (- 1, [])
  end.
Definition store_remove (s : store) (p n : str) : Z * store :=
  match attrs_of s p !! n with
  | Some _ => (0, <[p := delete n (attrs_of s p)]> s)
  | None => (- 1, s)
  end.
Definition store_list (s : store) (p : str) : list str := (map_to_list (attrs_of s p)).*1.

Lemma store_set_ok (s : store) p n v s' : store_set s p n v = (0, s') ->
  attrs_of s' p = <[n := v]> (attrs_of s p) /\ forall q, q <> p -> attrs_of s' q = attrs_of s q.
Proof.
  intros [= <-]. unfold attrs_of. split; [by rewrite lookup_insert_eq|]. intros q Hq. by rewrite lookup_insert_ne.
Qed.

Lemma store_remove_ok (s : store) p n r s' : store_remove s p n = (r, s') ->
  match attrs_of s p !! n with
  | Some _ => r = 0 /\ attrs_of s' p = delete n (attrs_of s p) /\ forall q, q <> p -> attrs_of s' q = attrs_of s q
  | None => r = - 1 /\ s' = s
  end.
Proof.
  unfold store_remove. destruct (attrs_of s p !! n); intros [= <- <-]; [|done].
  unfold attrs_of. split_and!; [done|by rewrite lookup_insert_eq|]. intros q Hq. by rewrite lookup_insert_ne.
Qed.

Lemma store_list_ok (s : store) p n : n ∈ store_list s p <-> is_Some (attrs_of s p !! n).
Proof.
  unfold store_list. rewrite list_elem_of_fmap. split.
  - intros ([k v] & -> & Hk). apply elem_of_map_to_list in Hk. by eexists.
  - intros [v Hv]. exists (n, v). split; [done|]. by apply elem_of_map_to_list.
Qed.

Lemma store_set_err (s : store) p n v r s' : store_set s p n v = (r, s') -> r <> 0 -> s' = s.
Proof. by intros [= <- <-]. Qed.

#[export] Instance store_fs : XattrFS store := {|
  attrs := attrs_of; setxattr := store_set; getxattr_size := store_size; getxattr := store_get;
  removexattr := store_remove; listxattr := store_list;
  setxattr_ok := store_set_ok; setxattr_err := store_set_err;
  getxattr_size_spec _ _ _ := eq_refl; getxattr_spec _ _ _ _ := eq_refl;
  removexattr_spec := store_remove_ok; listxattr_spec := store_list_ok |}.

(** user.a = x *)
Lemma xattr_round_trip_witness :
  (exists ns, list_xattrs true true (<[[102] := {[[97] := [120]]}]> ∅ : store) (<[[102] := {[[97] := [120]]}]> ∅ : store)
     [102] true = Ok (LNames ns) /\
     forall n, n ∈ ns <-> n = [97] \/ is_Some (attrs (∅ : store) [102] !! n)) /\
  (exists buf, get_xattr (<[[102] := {[[97] := [120]]}]> ∅ : store) (<[[102] := {[[97] := [120]]}]> ∅ : store)
     [102] [97] true [9] = Some buf /\ cstr buf = [120]) /\
  (forall s2 r, remove_xattr (<[[102] := {[[97] := [120]]}]> ∅ : store) [102] [97] = (r, s2) ->
     r = 1 /\ get_xattr s2 s2 [102] [97] true [9] = None /\
     (forall n, n <> [97] -> attrs s2 [102] !! n = attrs (∅ : store) [102] !! n) /\
     (forall q, q <> [102] -> attrs s2 q = attrs (∅ : store) q)).
Proof.
  apply (xattr_round_trip (∅ : store) [102] [97] [120] [9]); [by repeat constructor|done|reflexivity|].
  vm_compute. by repeat constructor.
Defined.

(** The value shrinks between the two calls: the reader keeps the old length, and
    bytes of the allocation that were never written become part of the string. *)
Example get_xattr_reads_junk :
  get_xattr ({[[102] := {[[97] := [120; 121; 122]]}]} : store) ({[[102] := {[[97] := [65]]}]} : store)
    [102] [97] true [200; 201; 202] = Some [65; 201; 202; 0].
Proof. vm_compute. reflexivity. Qed.

End Xattr.
