(* ===== verification/ExerciseTests.v ===== *)
(** * ExerciseTests: the test programs of two exercises

    Models [ch3-mm/ch3_1/test.c] and [ch4-fs/ch4_1/test.c], which call what
    [Exercises] models, and the unused raw wrappers of [ch4_1/impl.h] against the
    prototypes of the kernel.  A test is the sequence of its calls; a failed
    [assert] is [None]. *)

From Stdlib Require Import ZArith Lia.
From stdpp Require Import base list gmap strings.
From S2P Require Import Prelude Bytes Prototypes Exercises.

(** ** Mapped files *)

Module FileTests.
Import FileMap.

Definition PAGE_SIZE : Z := 4096.
Definition LARGE_SIZE : Z := 1024 * 1024.

(** The letters A to Z over and over, as [create_test_file] and the reference file
    have them. *)
Definition create_test_file (size : nat) : list Z := (fun i => 65 + Z.of_nat i mod 26) <$> seq 0 size.

(** The strings of the test, with their terminators. *)
Definition content1 : list Z := [84; 69; 83; 84; 95; 67; 79; 78; 84; 69; 78; 84; 95; 49; 0].
Definition content2 : list Z := replicate (Z.to_nat (PAGE_SIZE + 99)) 66 ++ [0].
Definition content3 : list Z := [65; 80; 80; 69; 78; 68; 95; 84; 69; 83; 84; 0].

(** [fseek] and [fwrite] of a string on a stream: a gap is read as zero bytes. *)
Definition fwrite_at (off : Z) (content : list Z) (f : list Z) : list Z := written f off (cstr content).

Definition reference_file (filesize : Z) : list Z :=
  fwrite_at filesize content3
    (fwrite_at (PAGE_SIZE - 50) content2 (fwrite_at 0 content1 (create_test_file (Z.to_nat filesize)))).

(** [assert (file_mmap_write (...) == 0)] *)
Definition assert_write (E : env) (offset : Z) (content : list Z) : M os bool :=
  r ← file_mmap_write E offset content; mret (r =? 0).

(** The test of one file: [None] if an assertion fails, else the verdict of the
    comparison. *)
Definition test_file_operations (E : env) (filesize : Z) : M os (option bool) :=
  _ ← modify (fun s => Os (create_test_file (Z.to_nat filesize)) (fds s) (maps s));
  b1 ← assert_write E 0 content1;
  if negb b1 then mret None else
  b2 ← assert_write E (PAGE_SIZE - 50) content2;
  if negb b2 then mret None else
  b3 ← assert_write E filesize content3;
  if negb b3 then mret None else
  s ← get;
  mret (Some (bool_decide (file s = reference_file filesize))).

Definition all_ok : env := Env true true true true true true.

Lemma cstr_content1 : length (cstr content1) = 14%nat.
Proof. reflexivity. Qed.
Lemma cstr_content3 : length (cstr content3) = 11%nat.
Proof. reflexivity. Qed.

Lemma cstr_content2 : cstr content2 = replicate (Z.to_nat (PAGE_SIZE + 99)) 66.
Proof. unfold content2. apply cstr_app_nul. unfold nonul. by apply Forall_replicate. Qed.

(** A write whose system calls succeed does what [fseek] and [fwrite] do. *)
Lemma assert_write_ok off content s :
  0 <= off -> 0 < Z.of_nat (length (cstr content)) -> off + Z.of_nat (length (cstr content)) < 2 ^ 64 ->
  Z.of_nat (length (file s)) < 2 ^ 63 ->
  assert_write all_ok off content s = Ok (true, Os (fwrite_at off content (file s)) (fds s) (maps s)).
Proof.
  intros Ho Hc Hlt Hf. destruct (file_mmap_write_spec all_ok off content s Ho Hlt Hf) as (r & s' & Hr & Hfd & Hcase & Hiff).
  unfold assert_write, mbind, M_bind. rewrite Hr.
  assert (r = 0) as ->.
  { apply Hiff. unfold succeeds. cbn. rewrite orb_true_r, !andb_true_r. cbn. apply Z.ltb_lt. lia. }
  destruct Hcase as [(_ & Hw & Hm)|(? & _)]; [|done]. destruct s' as [f' d' m']. cbn in *. by subst.
Qed.

Lemma length_written f off bs :
  0 <= off -> Z.of_nat (length (written f off bs)) = Z.max (Z.of_nat (length f)) (off + Z.of_nat (length bs)).
Proof.
  intros Ho. unfold written. rewrite !length_app, length_take, length_replicate, length_drop. lia.
Qed.

(** The test passes for a file of any size, also when the third write does not
    append because the second has already made the file longer: all assertions
    hold, the file is the reference file, and nothing stays open or mapped. *)
Theorem file_test_passes filesize s :
  0 <= filesize < 2 ^ 62 ->
  test_file_operations all_ok filesize s = Ok (Some true, Os (reference_file filesize) (fds s) (maps s)).
Proof.
  intros Hs. unfold test_file_operations, modify, get, mret, M_ret, mbind, M_bind. cbv beta iota.
  assert (forall f off c, 0 <= off < 2 ^ 62 -> Z.of_nat (length f) < 2 ^ 62 + 5000 -> 0 < Z.of_nat (length (cstr c)) < 4200 ->
            assert_write all_ok off c (Os f (fds s) (maps s)) = Ok (true, Os (fwrite_at off c f) (fds s) (maps s)) /\
            Z.of_nat (length (fwrite_at off c f)) = Z.max (Z.of_nat (length f)) (off + Z.of_nat (length (cstr c)))) as Hw.
  { intros f off c Ho Hf Hc. split; [apply (assert_write_ok off c (Os f (fds s) (maps s))); cbn; lia|].
    unfold fwrite_at. apply length_written. lia. }
  pose proof cstr_content1 as L1. pose proof cstr_content3 as L3.
  assert (Z.of_nat (length (cstr content2)) = 4195) as L2
    by (rewrite cstr_content2, length_replicate; reflexivity).
  assert (Z.of_nat (length (create_test_file (Z.to_nat filesize))) = filesize) as L0
    by (unfold create_test_file; rewrite length_fmap, length_seq; lia).
  destruct (Hw (create_test_file (Z.to_nat filesize)) 0 content1) as [E1 F1]; [lia|lia|lia|]. rewrite E1. cbn [negb].
  destruct (Hw (fwrite_at 0 content1 (create_test_file (Z.to_nat filesize))) (PAGE_SIZE - 50) content2) as [E2 F2];
    [unfold PAGE_SIZE; lia|rewrite F1; lia|lia|]. rewrite E2. cbn [negb].
  match goal with |- context [assert_write all_ok filesize content3 (Os ?f _ _)] =>
    destruct (Hw f filesize content3) as [E3 F3]; [lia|rewrite F2, F1; unfold PAGE_SIZE; lia|lia|] end.
  rewrite E3. cbn. by rewrite bool_decide_eq_true_2.
Qed.

(** The three files of [main]. *)
Definition test_sizes : list Z := [0; PAGE_SIZE; LARGE_SIZE].

Lemma main_file_tests s :
  Forall (fun n => test_file_operations all_ok n s = Ok (Some true, Os (reference_file n) (fds s) (maps s))) test_sizes.
Proof.
  unfold test_sizes. repeat (apply Forall_cons; split; [apply file_test_passes; unfold PAGE_SIZE, LARGE_SIZE; lia|]).
  apply Forall_nil. exact I.
Qed.

(** *** Physical addresses *)

(** [get_physical_address]: the eight bytes of the page map, or a short read. *)
Definition get_physical_address (pread : Z -> option Z) (virtual_address : Z) : Z :=
  match pread (u64 (virtual_address / PAGE_SIZE * 8)) with
  | None => 0
  | Some entry =>
      if negb (hasb entry (2 ^ 63)) then 0
      else u64 (Z.land entry (2 ^ 54 - 1) * PAGE_SIZE)
  end.

(** The address of the frame, for every frame number of up to 52 bits, which is more
    than physical addresses have; the offset in the page map does not overflow. *)
Theorem physical_address_spec pread va entry :
  is_u 64 va -> is_u 64 entry -> pread (va / PAGE_SIZE * 8) = Some entry ->
  hasb entry (2 ^ 63) = true -> entry mod 2 ^ 54 < 2 ^ 52 ->
  get_physical_address pread va = entry mod 2 ^ 54 * PAGE_SIZE.
Proof.
  intros Hva He Hp Hb Hf. unfold get_physical_address.
  assert (0 <= va / PAGE_SIZE * 8 < 2 ^ 64) as Ho.
  { unfold PAGE_SIZE, is_u in *. pose proof (Z.div_pos va 4096). pose proof (Z.mul_div_le va 4096). lia. }
  rewrite uwrap_small by done. rewrite Hp, Hb. cbn [negb].
  change (2 ^ 54 - 1) with (Z.ones 54). rewrite Z.land_ones by lia.
  apply uwrap_small. unfold is_u, PAGE_SIZE. pose proof (Z.mod_pos_bound entry (2 ^ 54)). lia.
Qed.

(** [test_mmap_remap]: two regions of two pages; [true] if every assertion holds. *)
Definition test_mmap_remap (addr1 : Z) (mmap : option Z) (phys : Z -> Z) (m : memory) : res bool :=
  let size := Z.to_nat (PAGE_SIZE * 2) in
  let m := write_mem m addr1 (replicate size 0xAA) in
  match mmap_remap mmap addr1 size m with
  | Fault f => Fault f
  | Ok (addr2, m') =>
      Ok (negb (addr2 =? NULL) && negb (addr1 =? addr2) && negb (phys addr1 =? phys addr2) &&
          bool_decide (read_mem m' addr2 size = Some (replicate size 0xAA)))
  end.

(** It passes when the system gives a free region on frames of its own. *)
Theorem remap_test_passes addr1 new phys m :
  addr1 <> new -> new <> NULL -> phys addr1 <> phys new ->
  (forall x, new <= x < new + PAGE_SIZE * 2 -> m !! x = None /\ ~ (addr1 <= x < addr1 + PAGE_SIZE * 2)) ->
  test_mmap_remap addr1 (Some new) phys m = Ok true.
Proof.
  intros Hne Hnn Hph Hfree. unfold test_mmap_remap. set (size := Z.to_nat (PAGE_SIZE * 2)).
  set (m1 := write_mem m addr1 _).
  assert (Z.of_nat size = PAGE_SIZE * 2) as Hsz by (unfold size, PAGE_SIZE; lia).
  assert (forall i, 0 <= i < Z.of_nat size -> m1 !! (addr1 + i) = Some 0xAA) as Hpat.
  { intros i Hi. unfold m1. rewrite write_mem_lookup, length_replicate, decide_True by lia.
    apply lookup_replicate_2. lia. }
  destruct (mmap_remap_copies new addr1 size m1) as (r & m' & Hr & -> & Hcopy & _).
  { intros i Hi. split; [by rewrite Hpat by done|]. unfold m1. destruct (Hfree (new + i)) as [Hn Ho]; [lia|].
    by rewrite write_mem_lookup, length_replicate, decide_False by lia. }
  rewrite Hr. rewrite (proj2 (Z.eqb_neq new NULL) Hnn), (proj2 (Z.eqb_neq addr1 new) Hne), (proj2 (Z.eqb_neq _ _) Hph).
  cbn [negb andb]. rewrite bool_decide_eq_true_2; [done|].
  destruct (read_mem_ok size m' new) as (bs & -> & Hl & Hb).
  { intros i Hi. rewrite Hcopy by done. by rewrite Hpat. }
  f_equal. apply list_eq. intros i. destruct (decide (i < size)%nat) as [Hi|Hi].
  - rewrite Hb, Hcopy, Hpat by lia. symmetry. by apply lookup_replicate_2.
  - rewrite !lookup_ge_None_2; [done|rewrite length_replicate; lia|lia].
Qed.

End FileTests.

(** ** Extended attributes *)

Module XattrTests.
Import Xattr.

Definition TEST_FILE : list Z := [116; 101; 115; 116; 95; 102; 105; 108; 101; 46; 116; 120; 116].
Definition name : list Z := [117; 115; 101; 114; 46; 116; 101; 115; 116].
Definition value : list Z := [116; 101; 115; 116; 95; 118; 97; 108; 117; 101].

Section Test.
Context {S : Type} `{XattrFS S}.

(** [test_xattr_operations], run undisturbed; [None] is a failed assertion. *)
Definition test_xattr_operations (s : S) (malloc_ok : bool) (junk : list Z) : option S :=
  let (result, s) := set_xattr s TEST_FILE name value in
  if negb (result =? 1) then None else
  match get_xattr s s TEST_FILE name malloc_ok junk with
  | None => None
  | Some retrieved_value =>
      if negb (bool_decide (cstr retrieved_value = value)) then None else
      let (result, s) := remove_xattr s TEST_FILE name in
      if negb (result =? 1) then None else
      match get_xattr s s TEST_FILE name malloc_ok junk with
      | None => Some s
      | Some v => if (length (cstr v) =? 0)%nat then Some s else None
      end
  end.

(** The test passes on every file system that keeps its promises and accepts the
    attribute, and leaves the attributes of all files as they were, apart from the
    one it removed. *)
Theorem xattr_test_passes s s1 junk :
  setxattr s TEST_FILE name value = (0, s1) -> (length value <= length junk)%nat ->
  exists s2, test_xattr_operations s true junk = Some s2 /\
    attrs s2 TEST_FILE = delete name (attrs s TEST_FILE) /\
    forall q, q <> TEST_FILE -> attrs s2 q = attrs s q.
Proof.
  intros Hs Hj. unfold test_xattr_operations, set_xattr. change (cstr value) with value. rewrite Hs. cbn [Z.eqb negb Pos.eqb].
  destruct (setxattr_ok _ _ _ _ _ Hs) as [Ha Ho].
  assert (attrs s1 TEST_FILE !! name = Some value) as Hl by (rewrite Ha; apply lookup_insert_eq).
  assert (get_xattr s1 s1 TEST_FILE name true junk = Some (value ++ [0])) as ->.
  { unfold get_xattr. by rewrite getxattr_size_spec, getxattr_spec, Hl. }
  change (cstr (value ++ [0])) with value. rewrite bool_decide_eq_true_2 by done. cbn [negb].
  unfold remove_xattr. destruct (removexattr s1 TEST_FILE name) as [r s2] eqn:Hr.
  pose proof (removexattr_spec _ _ _ _ _ Hr) as Hd. rewrite Hl in Hd. destruct Hd as (-> & Hd & Hd').
  cbn [Z.eqb negb Pos.eqb]. rewrite Ha, delete_insert_eq in Hd.
  assert (get_xattr s2 s2 TEST_FILE name true junk = None) as ->.
  { unfold get_xattr. by rewrite getxattr_size_spec, Hd, lookup_delete_eq. }
  exists s2. split_and!; [done|done|]. intros q Hq. by rewrite Hd', Ho.
Qed.

End Test.

(** *** The raw wrappers *)

(** A wrapper of [impl.h]: the system call and how many arguments it passes. *)
Definition raw_wrappers : list (string * nat) :=
  [("sys_setxattr"%string, 3%nat); ("sys_getxattr"%string, 3%nat); ("sys_removexattr"%string, 2%nat)].

Definition declared_arity (f : string) : option nat :=
  head (omap (fun p => if bool_decide (pname p = f) then Some (length (params p)) else None) (concat (decls <$> protos))).

(** Two of the three leave out arguments: the size and the flags of an attribute
    are whatever the registers hold. *)
Theorem raw_wrappers_arity :
  (fun w => (w.2, declared_arity w.1)) <$> raw_wrappers = [(3%nat, Some 5%nat); (3%nat, Some 4%nat); (2%nat, Some 2%nat)].
Proof. vm_compute. reflexivity. Qed.

End XattrTests.
